(* ===== verification/_CoqProject ===== *)
-Q . S2P
Prelude.v
Alloc.v
Decimal.v
Vectors.v
Doubles.v
Runtime.v
Ringbuffers.v
Arrays.v
Strings.v
Hashes.v
HashFunctions.v
Uthash.v
Links.v
UthashRefine.v
Loops.v
Net.v
Json.v
Timers.v
Reactor.v
Getopt.v
Tools.v
Bitmaps.v
Scopes.v
Topology.v
Actuators.v
Events.v
Messages.v
MsgJson.v
MsgMemory.v
States.v
Roles.v
Server.v
Client.v
Objects.v
System.v
Shared.v
Sampling.v
Nrmc.v
Preloads.v
Extras.v
Control.v
Utlist.v
UtlistRefine.v
Utsort.v
UthashOrder.v
Daemon.v
Session.v
Registry.v
