(* ===== verification/Prelude.v ===== *)
(** * A verification library for libnrm

    libnrm is the C library of the Node Resource Manager. A daemon keeps a state
    (actuators, scopes, sensors, slices) that clients fill and use over ZeroMQ: a
    client sends requests and sensor events, the daemon feeds a control loop with
    the events and sends actuations back to the clients that own the actuators.
    This development models the library in layers that follow the source, each
    definition with the name of the C function it translates, and proves what the
    layers promise to each other.

    ** The parts

    Under everything, the generic parts:
    - Prelude (this file): outcomes of C code, error codes of
      include/nrm/utils/error.h, machine integers, tactics, shared lemmas.
    - Decimal: decimal text, [strtol] and [strtoull], for parsers and times.
    - Vectors: src/utils/vectors.c over include/internal/utarray.h. A [UT_array]
      is modelled slot by slot, then shown to refine a list. [Qsort] and [Bsearch]
      are the interfaces of the C library's sorting and searching, with instances.
    - Alloc: the macros of include/nrm/utils/alloc.h, one by one, which lay out the
      structures of a role or a control in one allocation.
    - Doubles: IEEE 754 binary64 as [SpecFloat] numbers, comparison of doubles.
    - Runtime: src/utils/error.c, src/utils/parsers.c, src/log.c, src/nrm.c.
    - Ringbuffers: src/utils/ringbuffer.c over include/internal/utringbuffer.h.
    - Arrays: the macros of utarray.h and utringbuffer.h that these two do not call.
    - Strings: src/utils/strings.c, src/utils/uuids.c, on a heap of reference
      counted cells.
    - Hashes: src/utils/hashes.c; a table is the list of its elements in order of
      insertion, shown to refine a finite map. HashFunctions: the hash functions of
      include/internal/uthash.h, and the class that its tables need of one. Uthash: the
      macros of uthash.h that hashes.c uses, on a heap of handles: buckets and their
      expansion, the list of all elements. Links: the doubly linked lists of such a
      heap. UthashRefine: the functions of hashes.c on the heap give what they give on
      the lists of Hashes, for every hash function, so that all that is proved over
      Hashes holds of the pointers. UthashOrder: the other macros of uthash.h, which
      insert in order, replace, sort and select.
    - Utlist: the macros of include/internal/utlist.h on a heap of elements, and what
      their three kinds of lists are. UtlistRefine: what each macro does to a list.
      Utsort: the merge sorts of utlist and uthash, which are one algorithm.
    - Loops: [Zloop], the interface of the event loop of czmq, with an instance, and
      the lemmas on runs of handlers. Net: src/net.c, the options of the sockets and
      the wait for a connection. Reactor: src/reactor.c, on the mask of signals and
      the descriptors of a process.
    - Getopt: the interface of [getopt_long], with an instance. Tools: src/tools.c.
    - Json: the interface of jansson ([Jansson]) with an instance; [json_pack] and
      [json_unpack] as the code uses them.
    - Timers: src/utils/timers.c. Bitmaps: src/utils/bitmaps.c; setting a bit, atomically
      or not, is a sequence of accesses to the words, which threads interleave.
    On them, the objects of the system:
    - Scopes: src/utils/scopes.c, src/slices.c, src/sensor.c.
    - Topology: src/hwloc.c, on a record of what hwloc detects.
    - Actuators: src/actuator.c, src/actuators/discrete.c and continuous.c.
    - Events: src/timeserie.c and src/eventbase.c.
    - Messages: the messages of src/msg.proto, their construction and parsing in
      src/messages.c, and the frames on the wire. [Protobuf] is the interface of
      the code that protobuf-c generates, with an instance.
    - MsgMemory: the messages in memory, with what src/messages.c allocates, copies,
      borrows and releases; it refines the values of Messages.
    - MsgJson: the pretty-printer of src/messages.c and the control messages on
      the pipe between a role and its broker.
    And the processes:
    - States: src/state.c, with the invariant [state_ok].
    - Roles: src/roles/role.c, controller.c and client.c. A role writes to a pipe;
      the handlers of its broker turn control messages into frames and back.
    - Server: src/server.c. A handler is a function from the server to the server; a user callback is
      a parameter.
    - Client: src/client.c over any role. A request is atomic here.
    - Objects: what the four kinds of objects have in common, as classes: how one
      arrives in a message, and how it is listed, found and added by the client and the
      server. What is proved from the classes holds of every kind.
    - Shared: the calls of several threads on one client, interleaved at the lock,
      which the code releases between sending and receiving: a step relation.
    - System: a client, both brokers and a server put together, with the client's
      role instantiated so that receiving runs what the request has set in motion. What
      the server sends to another client reaches the callback of that one.
    - Sampling: the loop that finds the scope of a process in the daemon, in its
      copies. Preloads: the OpenMP tool and the MPI library of src/preloads.
    - Nrmc: src/binaries/nrmc.c, each command as a function of its words and the
      client, and the program. Extras: src/binaries/nrm-dummy-extra.c, nrm-geopm.c
      and nrm-papiwrapper.c over the reactor.
    - Control: src/control/control.c and europar21.c. [exp] and [log] of the C
      library are parameters.
    - Daemon: src/binaries/nrmd.c, from the arguments to the loop: topology,
      configuration, server, and its callbacks over the event base and the control.
    - Session: the daemon and its clients together: events that reach those who
      listen, and the control loop from the events of a client to its actuator.
    - Registry: the specification of the whole for those who use the client API, four
      finite maps with a step for each call, and that the system refines it, up to and
      including the call that crashes the daemon.

    ** How C is modelled

    A call returns an [outcome]: a value, a failed assertion, undefined behaviour
    (a NULL or dangling dereference, an access out of bounds, a member of a union
    or [oneof] that is not the one written), or a loop that is not left. A pointer
    that may be NULL is an [option]; a pointer to a pointer is an option of an
    option, and the result is what it points to after the call. Integers are [Z]
    with the wrap-around of their width written out ([u32], [u64], [i32], [i64]);
    a [double] is a [spec_float]. Signed arithmetic wraps here also where C leaves its
    overflow undefined: [nrm_time_tons] and [nrm_time_diff] (Timers),
    [nrm_reactor_settimer] and the counting of -v (Tools). Within
    [time_ok] no time overflows; out of such ranges, what the theorems say is about that
    wrapping. A text is shorter than 2^31 characters, the most that [snprintf] can
    count for [nrm_string_fromchar]. Where the code shares an object through a
    pointer (the elements of a vector, the reference counts of strings, the
    actuator found in a table) the store is explicit; objects with one owner are
    values. An allocation that the code checks is a boolean parameter [oom]; one
    that it does not check is assumed to succeed, or gives [Undefined] where the
    file says so. Calls to the log, which print only, are left out of handlers;
    the log itself is in Runtime. Strings outside Strings are their text.

    Loops over arrays recurse on the array. Loops with another measure have fuel,
    and a lemma that the fuel is enough: [reserve_loop] of Vectors doubles a
    capacity, so that the bit length of the target is enough; [to_json_loop] of
    Scopes visits the [NRM_BITMAP_MAX] bits of a bitmap; the digits of a number
    are at most its bit length; the loops over [getopt_long] (Tools, Nrmc) have what is
    left of the words; the loops over linked lists (Uthash, Utlist, Utsort) have the
    number of the cells of the heap, which is no less than that of the elements, and
    no less than the number of passes of a sort.

    ** What the theorems show

    - Data structures refine their specifications: [vector_refines_list],
      [ringbuffer_holds_last], [hash_refines_map], the bitmap theorems. The pointers
      of uthash refine the lists of Hashes ([uthash_refines_hashes]), and destroying a
      table frees its elements and ends ([uthash_destroy_frees]); sorting, inserting
      in order and replacing keep such a table well-formed ([uthash_sorts],
      [uthash_inorder_replace]). Every macro of utlist does to its list what it
      promises ([utlist_refines_lists]), and its sorts give the list that insertion
      sort gives ([utlist_sorts]). Strings live as long as their references
      ([string_refcount_lifetime]). The structures that share one allocation do not
      overlap ([inner_malloc_fields]).
    - Messages in memory are those of the values ([msg_memory_refines]), have the
      member of the [oneof] that their type says ([built_msg_typed]), and are released
      once with all that they own ([msg_lifetime]), unless a discrete actuator could not
      be allocated: then the destructor dereferences NULL.
    - What is written is read back: JSON of scopes, actuators and times, messages
      through packing and the wire, control messages, the environment variables, the
      options of a command line ([parse_args_roundtrip], whose tables stay in their
      arrays by [parse_args_bounds]).
    - The scopes of a topology are those of a reference definition
      ([hwloc_scopes_equivalence]).
    - Actuation is sound: a corrected value validates, is the nearest choice or
      lies between the limits.
    - Events: what was pushed is pulled back in its window, slice after slice
      ([eventbase_pull_pushed]). Threads that set bits atomically lose none
      ([bitmap_set_atomic_no_lost_update]).
    - Transport: a message a role sends is what its peer's role receives, through
      both brokers.
    - The server keeps its invariant on well-formed requests in any order, and two
      kinds of them stop it, to remove a scope and to add an actuator of an unknown
      type: it crashes at the first one of these and nowhere else ([server_loop_safe]).
      Each request does what it is for, and those that have no effect are theorems as
      well ([remove_request], [unknown_actuator_aborts]).
    - The composed system refines a registry: any calls of any clients give what
      atomic steps on four finite maps give, and reach the owners of the actuators, up
      to the first call that removes a scope, at which the daemon crashes; the other
      removals change nothing ([system_refines_registry]).
    - End to end, a client's request through roles, brokers, wire and server does
      what its caller expects ([client_actuates], [client_registers_scope]), and so do
      the commands of nrmc, from their words to what they print ([nrmc_lists_scopes],
      [nrmc_actuates], [nrmc_run]); the commands that remove do not
      ([nrmc_remove_scope]).
    - A client that threads share keeps its replies in order and leaves no call waiting
      ([client_fifo], [client_calls_end]), but a reply may reach the wrong call
      ([client_replies_cross]).
    - The programs that sample find their scope ([ompt_finds_scope]), send what they
      read, in order ([papiwrapper_samples], [geopm_samples]), not more often than the
      limit ([ompt_ratelimit]), and end at a signal ([reactor_ends_on_signal]).
    - The control loop: the progress is the median of the rates, a cap lies in its
      bounds whatever the arithmetic gives ([europar21_action_spec]), and one turn of
      the timer closes the loop, from the events that clients sent to the actuator of
      the client that owns it ([control_loop_closes]).
    - The daemon starts on any command line without a configuration and stays safe, up
      to the requests that stop a server ([nrmd_safe]), and what it gets as events reaches the clients that listen
      ([events_reach_listeners]). With a control loop, safety needs that the
      rates of the events are numbers: sorting is specified for an order only, and a
      NaN is not in it.

    ** What is not modelled

    The sockets and threads of czmq beyond pipes, frames, options and the loop: the
    actors that run the brokers, and the loss of messages by a full or disconnected
    socket. The threads of the MPI and OpenMP libraries and of the GEOPM program hold
    a lock for the whole of a callback, which is atomic here. Of uthash, what is not
    compiled in: the Bloom filter, the checks of [HASH_FSCK] and the recovery from
    failed allocations; of utlist and uthash, the variants for compilers without
    [__typeof]. What GEOPM, PAPI, hwloc, jansson, protobuf-c and MPI do is a parameter.
    Generated code, the bindings, the scripts and the tests are left out. *)

From Stdlib Require Export ZArith Lia.
From stdpp Require Export base list numbers strings gmap sorting.

#[global] Open Scope Z_scope.
#[global] Set Warnings "-clear-no-such-hyp".

(** ** Outcomes of C code *)

(** A C call either returns, aborts in [assert] or [exit], reaches undefined
    behaviour (a NULL or dangling dereference, an access out of bounds), or
    does not leave a loop. *)
Inductive outcome (A : Type) : Type :=
| Ok (a : A)
| Assert_failed
| Undefined
| Diverges.
Arguments Ok {_} _.
Arguments Assert_failed {_}.
Arguments Undefined {_}.
Arguments Diverges {_}.

#[export] Instance outcome_ret : MRet outcome := @Ok.
#[export] Instance outcome_bind : MBind outcome := fun A B f m =>
  match m with
  | Ok a => f a
  | Assert_failed => Assert_failed
  | Undefined => Undefined
  | Diverges => Diverges
  end.
#[export] Instance outcome_fmap : FMap outcome := fun A B f m =>
  match m with
  | Ok a => Ok (f a)
  | Assert_failed => Assert_failed
  | Undefined => Undefined
  | Diverges => Diverges
  end.

(** [assert(b)] of [<assert.h>]. *)
Definition c_assert (b : bool) : outcome unit :=
  if b then Ok tt else Assert_failed.

(** Dereferencing a pointer that may be NULL. *)
Definition deref {A} (p : option A) : outcome A :=
  match p with Some a => Ok a | None => Undefined end.

(** [p == NULL]. *)
Definition is_null {A} (p : option A) : bool :=
  match p with None => true | Some _ => false end.

(** A [for] loop over the elements of a container whose body may fail. *)
Fixpoint mfold {A S} (f : S -> A -> outcome S) (s : S) (l : list A) : outcome S :=
  match l with
  | [] => Ok s
  | x :: l' => s' ← f s x; mfold f s' l'
  end.

(** ** Error codes (include/nrm/utils/error.h) *)

Definition NRM_SUCCESS : Z := 0.
Definition NRM_FAILURE : Z := 1.
Definition NRM_ENOMEM : Z := 2.
Definition NRM_EINVAL : Z := 3.
Definition NRM_EDOM : Z := 4.
Definition NRM_ENOTSUP : Z := 5.
Definition NRM_EBUSY : Z := 6.
Definition NRM_EPERM : Z := 7.
Definition NRM_ENOTFOUND : Z := 8.
Definition NRM_ERROR_MAX : Z := 9.

(** ** Machine integers

    A w-bit integer is a [Z] in range; conversions and arithmetic wrap as the
    compiled code does. *)

Definition u32 (z : Z) : Z := z mod 2 ^ 32.
Definition u64 (z : Z) : Z := z mod 2 ^ 64.
Definition i32 (z : Z) : Z := (z + 2 ^ 31) mod 2 ^ 32 - 2 ^ 31.
Definition i64 (z : Z) : Z := (z + 2 ^ 63) mod 2 ^ 64 - 2 ^ 63.

Definition in_u32 (z : Z) : Prop := 0 <= z < 2 ^ 32.
Definition in_u64 (z : Z) : Prop := 0 <= z < 2 ^ 64.
Definition in_i32 (z : Z) : Prop := - 2 ^ 31 <= z < 2 ^ 31.
Definition in_i64 (z : Z) : Prop := - 2 ^ 63 <= z < 2 ^ 63.

Definition INT_MIN : Z := - 2 ^ 31.
Definition INT_MAX : Z := 2 ^ 31 - 1.
Definition LONG_MIN : Z := - 2 ^ 63.
Definition LONG_MAX : Z := 2 ^ 63 - 1.
Definition ULLONG_MAX : Z := 2 ^ 64 - 1.

(** C's truth value of a comparison or of [!!x]. *)
Definition c_bool (b : bool) : Z := if b then 1 else 0.

(** ** The development's hint database and tactics *)

Create HintDb nrm discriminated.
#[export] Hint Constants Opaque : nrm.
#[export] Hint Variables Opaque : nrm.

(** Splits every boolean test of the goal into its two cases and turns the
    test into arithmetic. *)
Ltac case_tests :=
  repeat match goal with
  | |- context [ (?a <? ?b) ] => destruct (Z.ltb_spec a b)
  | |- context [ (?a <=? ?b) ] => destruct (Z.leb_spec a b)
  | |- context [ (?a =? ?b) ] => destruct (Z.eqb_spec a b)
  | |- context [ (?a >? ?b) ] => rewrite (Z.gtb_ltb a b)
  | |- context [ (?a >=? ?b) ] => rewrite (Z.geb_leb a b)
  end.

(** Linear arithmetic with divisions and remainders by constants. *)
Ltac zlia := Z.to_euclidean_division_equations; lia.

(** Inverts every bind of a successful run in the context. *)
Ltac inv_ok :=
  repeat match goal with
  | H : Ok _ = Ok _ |- _ => injection H as H
  | H : Assert_failed = Ok _ |- _ => discriminate H
  | H : Undefined = Ok _ |- _ => discriminate H
  | H : Diverges = Ok _ |- _ => discriminate H
  | H : mret _ = Ok _ |- _ => injection H as H
  end.

Lemma bind_Ok_inv {A B} (m : outcome A) (f : A -> outcome B) b :
  (m ≫= f) = Ok b -> exists a, m = Ok a /\ f a = Ok b.
Proof. destruct m; simpl; naive_solver. Qed.

Lemma deref_Ok {A} (p : option A) a : deref p = Ok a -> p = Some a.
Proof. destruct p; simpl; naive_solver. Qed.

Lemma mfold_app {A S} (f : S -> A -> outcome S) s l1 l2 :
  mfold f s (l1 ++ l2) = s' ← mfold f s l1; mfold f s' l2.
Proof.
  revert s; induction l1 as [|x l1 IH]; intros s; simpl; [done|].
  destruct (f s x); simpl; auto.
Qed.

(** An invariant of the body is an invariant of the loop. *)
Lemma mfold_inv {A S} (P : S -> Prop) (f : S -> A -> outcome S) l s s' :
  (forall s x s', x ∈ l -> P s -> f s x = Ok s' -> P s') ->
  P s -> mfold f s l = Ok s' -> P s'.
Proof.
  revert s; induction l as [|x l IH]; intros s Hf Hs Heq; simpl in Heq.
  - by injection Heq as <-.
  - apply bind_Ok_inv in Heq as (s1 & Hx & Hl).
    eapply (IH s1); [|eapply Hf; [left|exact Hs|exact Hx]|exact Hl].
    intros; eapply Hf; [by right|done|done].
Qed.

(** A loop whose body never fails is a fold. *)
Lemma mfold_Ok {A S} (g : S -> A -> S) s l :
  mfold (fun s x => Ok (g s x)) s l = Ok (foldl g s l).
Proof. revert s; induction l; simpl; auto. Qed.

(** ** Facts on machine integers *)

Lemma u32_small z : in_u32 z -> u32 z = z.
Proof. unfold u32, in_u32. intros. by apply Z.mod_small. Qed.
Lemma u64_small z : in_u64 z -> u64 z = z.
Proof. unfold u64, in_u64. intros. by apply Z.mod_small. Qed.
Lemma i32_small z : in_i32 z -> i32 z = z.
Proof. unfold i32, in_i32. intros. rewrite Z.mod_small; lia. Qed.
Lemma i64_small z : in_i64 z -> i64 z = z.
Proof. unfold i64, in_i64. intros. rewrite Z.mod_small; lia. Qed.

Lemma u32_range z : in_u32 (u32 z).
Proof. unfold u32, in_u32. apply Z.mod_pos_bound. lia. Qed.
Lemma u64_range z : in_u64 (u64 z).
Proof. unfold u64, in_u64. apply Z.mod_pos_bound. lia. Qed.
Lemma i32_range z : in_i32 (i32 z).
Proof.
  unfold i32, in_i32. pose proof (Z.mod_pos_bound (z + 2 ^ 31) (2 ^ 32)). lia.
Qed.
Lemma i64_range z : in_i64 (i64 z).
Proof.
  unfold i64, in_i64. pose proof (Z.mod_pos_bound (z + 2 ^ 63) (2 ^ 64)). lia.
Qed.

#[export] Hint Resolve u32_range u64_range i32_range i64_range : nrm.

(** ** Facts on lists *)

(** Filtering depends on the predicate on the elements only. *)
Lemma filter_ext_elem {A} (P Q : A -> Prop) `{forall x, Decision (P x)}
    `{forall x, Decision (Q x)} (l : list A) :
  (forall x, x ∈ l -> P x <-> Q x) -> filter P l = filter Q l.
Proof.
  induction l as [|x l IH]; intros Hpq; [done|].
  rewrite !filter_cons. rewrite IH by (intros; apply Hpq; by right).
  assert (Hx : P x <-> Q x) by (apply Hpq; left). clear Hpq IH.
  destruct (decide (P x)), (decide (Q x)); done || tauto.
Qed.

Lemma filter_fmap_list {A B} (f : A -> B) (P : B -> Prop) `{forall x, Decision (P x)}
    (l : list A) :
  filter P (f <$> l) = f <$> filter (fun x => P (f x)) l.
Proof.
  induction l as [|x l IH]; [done|].
  rewrite fmap_cons, !filter_cons, IH. by case_decide.
Qed.

Lemma StronglySorted_filter {A} (R : A -> A -> Prop) (P : A -> Prop)
    `{forall x, Decision (P x)} (l : list A) :
  StronglySorted R l -> StronglySorted R (filter P l).
Proof.
  induction 1 as [|x l Hl IH Hx]; [constructor|].
  rewrite filter_cons. case_decide; [|done]. constructor; [done|].
  apply Forall_forall. intros y [_ Hy]%list_elem_of_filter.
  by eapply Forall_forall in Hx.
Qed.

Lemma StronglySorted_seqZ a n : StronglySorted Z.lt (seqZ a n).
Proof.
  destruct (Z.le_gt_cases n 0) as [Hn|Hn]; [rewrite seqZ_nil by done; constructor|].
  rewrite <- (Z2Nat.id n) by lia. generalize (Z.to_nat n) as k. clear Hn.
  intros k. revert a; induction k as [|k IH]; intros a; [constructor|].
  rewrite seqZ_cons by lia. replace (Z.pred (Z.of_nat (S k))) with (Z.of_nat k) by lia.
  constructor; [done|]. apply Forall_forall. intros y Hy%elem_of_seqZ. lia.
Qed.
