(* ===== verification/Alloc.v ===== *)
(** * Several structures in one allocation (src/include/nrm/utils/alloc.h)

    The roles and the controls get their two structures from one [calloc]:
    [NRM_INNER_MALLOC] declares a [struct] with a field for each type that it is given,
    and [NRM_INNER_MALLOC_GET_FIELD] gives the address of a field. The macros of a
    family, [NRM_DECL_1] to [NRM_DECL_36] and [PLUS_1_0] to [PLUS_1_36], are found by the
    number that is pasted to their names; [None] is text that does not compile. A type is what
    [sizeof] and [alignof] say of it, and a [struct] is laid out as by the usual ABIs:
    each field at the first multiple of its alignment after the one before. *)

From S2P Require Import Prelude.

(** ** The preprocessor *)

(** The arguments [_1] to [_36] and [N] of [PP_ARG_N], and some more. *)
Definition PP_ARG_N {X} (args : list X) : option X :=
  if (37 <? length args)%nat then args !! 36%nat else None.

(** The number of the arguments, or else one of them. *)
Definition VA_NARG {T} (args : list T) : option (option nat) :=
  PP_ARG_N (((fun _ => None) <$> args) ++
    (Some <$>
     [36; 35; 34; 33; 32; 31; 30; 29; 28; 27; 26; 25; 24; 23; 22; 21; 20; 19; 18; 17; 16; 15;
     14; 13; 12; 11; 10; 9; 8; 7; 6; 5; 4; 3; 2; 1]) ++ [None])%nat.

(** [CONCATENATE(PLUS_1_, N)]. *)
Definition PLUS_1 (N : nat) : option nat :=
  match N with
  | 0 => Some 1 | 1 => Some 2 | 2 => Some 3 | 3 => Some 4 | 4 => Some 5 | 5 => Some 6 |
  6 => Some 7 | 7 => Some 8 | 8 => Some 9 | 9 => Some 10 | 10 => Some 11 | 11 => Some 12 |
  12 => Some 13 | 13 => Some 14 | 14 => Some 15 | 15 => Some 16 | 16 => Some 17 |
  17 => Some 18 | 18 => Some 19 | 19 => Some 20 | 20 => Some 21 | 21 => Some 22 |
  22 => Some 23 | 23 => Some 24 | 24 => Some 25 | 25 => Some 26 | 26 => Some 27 |
  27 => Some 28 | 28 => Some 29 | 29 => Some 30 | 30 => Some 31 | 31 => Some 32 |
  32 => Some 33 | 33 => Some 34 | 34 => Some 35 | 35 => Some 36 | 36 => Some 37
  | _ => None
  end%nat.

(** ** Types and structures *)

Record ctype := CType { csize : Z; calign : Z }.

(** A field, [__f] and its number. *)
Definition field : Type := ctype * nat.

(** An argument of a macro: a type, or the 0 that [NRM_STRUCT_DECL] adds so that there is
    always one more. *)
Inductive arg := Type_arg (t : ctype) | Zero_arg.

Definition NRM_FIELD_DECL (type : arg) (N : nat) : option (list field) :=
  match type with Type_arg t => Some [(t, N)] | Zero_arg => None end.

(** [NRM_DECL_1(N, t, ...)] and the other ones: the fields declared. *)
Definition macro : Type := nat -> list arg -> option (list field).

Definition NRM_DECL_1 : macro := fun N args =>
  match args with t :: _ => NRM_FIELD_DECL t N | [] => None end.

(** [NRM_FIELD_DECL(t, N) decl(PLUS_1(N), __VA_ARGS__)]. *)
Definition decl_more (decl : macro) : macro := fun N args =>
  match args with
  | t :: va_args =>
      f ← NRM_FIELD_DECL t N; N' ← PLUS_1 N; fields ← decl N' va_args; Some (f ++ fields)
  | [] => None
  end.

Definition NRM_DECL_2 : macro := decl_more NRM_DECL_1.
Definition NRM_DECL_3 : macro := decl_more NRM_DECL_2.
Definition NRM_DECL_4 : macro := decl_more NRM_DECL_3.
Definition NRM_DECL_5 : macro := decl_more NRM_DECL_4.
Definition NRM_DECL_6 : macro := decl_more NRM_DECL_5.
Definition NRM_DECL_7 : macro := decl_more NRM_DECL_6.
Definition NRM_DECL_8 : macro := decl_more NRM_DECL_7.
Definition NRM_DECL_9 : macro := decl_more NRM_DECL_8.
Definition NRM_DECL_10 : macro := decl_more NRM_DECL_9.
Definition NRM_DECL_11 : macro := decl_more NRM_DECL_10.
Definition NRM_DECL_12 : macro := decl_more NRM_DECL_11.
Definition NRM_DECL_13 : macro := decl_more NRM_DECL_12.
Definition NRM_DECL_14 : macro := decl_more NRM_DECL_13.
Definition NRM_DECL_15 : macro := decl_more NRM_DECL_14.
Definition NRM_DECL_16 : macro := decl_more NRM_DECL_15.
Definition NRM_DECL_17 : macro := decl_more NRM_DECL_16.
Definition NRM_DECL_18 : macro := decl_more NRM_DECL_17.
Definition NRM_DECL_19 : macro := decl_more NRM_DECL_18.
Definition NRM_DECL_20 : macro := decl_more NRM_DECL_19.
Definition NRM_DECL_21 : macro := decl_more NRM_DECL_20.
Definition NRM_DECL_22 : macro := decl_more NRM_DECL_21.
Definition NRM_DECL_23 : macro := decl_more NRM_DECL_22.
Definition NRM_DECL_24 : macro := decl_more NRM_DECL_23.
Definition NRM_DECL_25 : macro := decl_more NRM_DECL_24.
Definition NRM_DECL_26 : macro := decl_more NRM_DECL_25.
Definition NRM_DECL_27 : macro := decl_more NRM_DECL_26.
Definition NRM_DECL_28 : macro := decl_more NRM_DECL_27.
Definition NRM_DECL_29 : macro := decl_more NRM_DECL_28.
Definition NRM_DECL_30 : macro := decl_more NRM_DECL_29.
Definition NRM_DECL_31 : macro := decl_more NRM_DECL_30.
Definition NRM_DECL_32 : macro := decl_more NRM_DECL_31.
Definition NRM_DECL_33 : macro := decl_more NRM_DECL_32.
Definition NRM_DECL_34 : macro := decl_more NRM_DECL_33.
Definition NRM_DECL_35 : macro := decl_more NRM_DECL_34.
Definition NRM_DECL_36 : macro := decl_more NRM_DECL_35.

(** [CONCATENATE(NRM_DECL_, i)]. *)
Definition NRM_DECL (i : nat) : option macro :=
  match i with
  | 1 => Some NRM_DECL_1 | 2 => Some NRM_DECL_2 | 3 => Some NRM_DECL_3 | 4 => Some NRM_DECL_4 |
  5 => Some NRM_DECL_5 | 6 => Some NRM_DECL_6 | 7 => Some NRM_DECL_7 | 8 => Some NRM_DECL_8 |
  9 => Some NRM_DECL_9 | 10 => Some NRM_DECL_10 | 11 => Some NRM_DECL_11 |
  12 => Some NRM_DECL_12 | 13 => Some NRM_DECL_13 | 14 => Some NRM_DECL_14 |
  15 => Some NRM_DECL_15 | 16 => Some NRM_DECL_16 | 17 => Some NRM_DECL_17 |
  18 => Some NRM_DECL_18 | 19 => Some NRM_DECL_19 | 20 => Some NRM_DECL_20 |
  21 => Some NRM_DECL_21 | 22 => Some NRM_DECL_22 | 23 => Some NRM_DECL_23 |
  24 => Some NRM_DECL_24 | 25 => Some NRM_DECL_25 | 26 => Some NRM_DECL_26 |
  27 => Some NRM_DECL_27 | 28 => Some NRM_DECL_28 | 29 => Some NRM_DECL_29 |
  30 => Some NRM_DECL_30 | 31 => Some NRM_DECL_31 | 32 => Some NRM_DECL_32 |
  33 => Some NRM_DECL_33 | 34 => Some NRM_DECL_34 | 35 => Some NRM_DECL_35 |
  36 => Some NRM_DECL_36
  | _ => None
  end%nat.

(** [(1, __VA_ARGS__, 0)] given to the macro for the number of types. *)
Definition NRM_STRUCT_DECL (ts : list ctype) : option (list field) :=
  i ← mjoin (VA_NARG ts); decl ← NRM_DECL i; decl 1%nat ((Type_arg <$> ts) ++ [Zero_arg]).

Definition round_up (z a : Z) : Z := (z + a - 1) / a * a.

(** Where the fields are, from the offset [off] on, and where they end. *)
Fixpoint layout (off : Z) (fields : list field) : list (nat * Z) * Z :=
  match fields with
  | [] => ([], off)
  | (t, N) :: fields =>
      let off := round_up off (calign t) in
      let '(offs, last) := layout (off + csize t) fields in ((N, off) :: offs, last)
  end.

(** The alignment of a [struct] is the greatest one of its fields. *)
Definition struct_align (fields : list field) : Z := foldr (fun f a => Z.max (calign f.1) a) 1 fields.

Definition NRM_SIZEOF_ALIGNED (ts : list ctype) : option Z :=
  fields ← NRM_STRUCT_DECL ts; Some (round_up (layout 0 fields).2 (struct_align fields)).

Definition NRM_OFFSETOF_ALIGNED (N : nat) (ts : list ctype) : option Z :=
  fields ← NRM_STRUCT_DECL ts;
  '(_, (_, off)) ← list_find (fun f => f.1 = N) (layout 0 fields).1;
  Some off.

(** [calloc(1, size)]: the bytes of the block, which are 0. *)
Definition NRM_INNER_MALLOC (ts : list ctype) : option (list Z) :=
  size ← NRM_SIZEOF_ALIGNED ts; Some (replicate (Z.to_nat size) 0).

Definition NRM_INNER_MALLOC_GET_FIELD (ptr : Z) (N : nat) (ts : list ctype) : option Z :=
  off ← NRM_OFFSETOF_ALIGNED N ts; Some (ptr + off).

Example two_fields :
  NRM_SIZEOF_ALIGNED [CType 4 4; CType 16 8; CType 1 1] = Some 32 /\
  NRM_OFFSETOF_ALIGNED 2 [CType 4 4; CType 16 8; CType 1 1] = Some 8 /\
  NRM_OFFSETOF_ALIGNED 3 [CType 4 4; CType 16 8; CType 1 1] = Some 24.
Proof. done. Qed.

(** ** Expansion *)

Implicit Types (ts : list ctype) (t : ctype) (fields : list field).

Lemma VA_NARG_length ts : (0 < length ts)%nat ->
  VA_NARG ts = Some (if (length ts <=? 36)%nat then Some (length ts) else None).
Proof.
  intros H0. unfold VA_NARG, PP_ARG_N.
  change [36%nat; _; _; _; _; _; _; _; _; _; _; _; _; _; _; _; _; _; _; _; _; _; _; _; _; _; _; _; _; _; _; _; _; _; _; _]
    with (reverse (seq 1 36)).
  rewrite !length_app, !length_fmap, length_reverse, length_seq. cbn [length].
  replace (37 <? _)%nat with true by (symmetry; apply Nat.ltb_lt; lia).
  destruct (length ts <=? 36)%nat eqn:Hle.
  - apply Nat.leb_le in Hle. rewrite lookup_app_r by (rewrite length_fmap; lia). rewrite length_fmap.
    rewrite lookup_app_l by (rewrite length_fmap, length_reverse, length_seq; lia).
    rewrite list_lookup_fmap, reverse_lookup by (rewrite length_seq; lia).
    rewrite length_seq, lookup_seq_lt by lia. cbn. do 2 f_equal. lia.
  - apply Nat.leb_gt in Hle. rewrite lookup_app_l by (rewrite length_fmap; lia).
    destruct (lookup_lt_is_Some_2 ts 36) as [t Ht]; [lia|]. by rewrite list_lookup_fmap, Ht.
Qed.

Lemma PLUS_1_S N : PLUS_1 N = if (N <=? 36)%nat then Some (S N) else None.
Proof. do 37 (destruct N as [|N]; [done|]). done. Qed.

(** [NRM_DECL_n] is [NRM_DECL_1] with a field more, n - 1 times. *)
Lemma NRM_DECL_iter n : (n < 36)%nat -> NRM_DECL (S n) = Some (Nat.iter n decl_more NRM_DECL_1).
Proof. do 36 (destruct n as [|n]; [done|]). lia. Qed.

Lemma decl_zip t ts N rest : (N + length ts <= 36)%nat ->
  Nat.iter (length ts) decl_more NRM_DECL_1 N ((Type_arg <$> t :: ts) ++ rest) =
  Some (zip (t :: ts) (seq N (S (length ts)))).
Proof.
  revert t N. induction ts as [|t' ts IH]; intros t N Hl; [done|]. cbn [length] in Hl.
  cbn [length Nat.iter nat_rect fmap list_fmap app].
  unfold decl_more at 1. cbn [NRM_FIELD_DECL mbind option_bind].
  rewrite PLUS_1_S, (proj2 (Nat.leb_le _ _)) by lia. cbn [mbind option_bind].
  pose proof (IH t' (S N) ltac:(lia)) as IH'. cbn [fmap list_fmap app] in IH'. unfold Nat.iter in IH'.
  by rewrite IH'.
Qed.

(** The fields are the types in their order, numbered from 1 on. *)
Lemma NRM_STRUCT_DECL_zip ts : ts <> [] -> (length ts <= 36)%nat ->
  NRM_STRUCT_DECL ts = Some (zip ts (seq 1 (length ts))).
Proof.
  intros Hne Hl. unfold NRM_STRUCT_DECL. rewrite VA_NARG_length by (destruct ts; cbn; [done|lia]).
  rewrite (proj2 (Nat.leb_le _ _)) by lia. destruct ts as [|t ts]; [done|]. cbn [length] in *.
  cbn [mjoin option_join mbind option_bind]. rewrite NRM_DECL_iter by lia. apply decl_zip. lia.
Qed.

(** ** Layout *)

Definition valid t : Prop := 0 < calign t /\ 0 <= csize t.

Lemma round_up_spec z a : 0 < a -> z <= round_up z a /\ (a | round_up z a).
Proof.
  intros Ha. unfold round_up. split; [|by exists ((z + a - 1) / a)].
  pose proof (Z.mod_pos_bound (z + a - 1) a Ha). pose proof (Z.div_mod (z + a - 1) a). lia.
Qed.

Lemma layout_numbers off fields : (layout off fields).1.*1 = fields.*2.
Proof.
  revert off. induction fields as [|[t N] fields IH]; intros off; [done|]. cbn.
  specialize (IH (round_up off (calign t) + csize t)). destruct (layout _ fields). cbn in *. by rewrite IH.
Qed.

Lemma layout_last off fields : Forall valid fields.*1 -> off <= (layout off fields).2.
Proof.
  revert off. induction fields as [|[t N] fields IH]; intros off Hv; [reflexivity|]. cbn in *.
  apply Forall_cons in Hv as [[Ha Hs] Hv]. specialize (IH (round_up off (calign t) + csize t) Hv).
  pose proof (round_up_spec off _ Ha). destruct (layout _ fields). cbn in *. lia.
Qed.

(** Fields are aligned and follow each other. *)
Lemma layout_field off fields i t N : Forall valid fields.*1 -> fields !! i = Some (t, N) ->
  exists o, (layout off fields).1 !! i = Some (N, o) /\ off <= o /\ (calign t | o) /\
    o + csize t <= (layout off fields).2 /\
    forall j o' N', (i < j)%nat -> (layout off fields).1 !! j = Some (N', o') -> o + csize t <= o'.
Proof.
  revert off i t N. induction fields as [|[t' N'] fields IH]; intros off i t N Hv Hi; [done|].
  cbn [fmap list_fmap] in Hv. apply Forall_cons in Hv as [[Ha Hs] Hv]. cbn [fst] in *.
  pose proof (round_up_spec off _ Ha) as [Hr1 Hr2]. cbn [layout].
  pose proof (layout_last (round_up off (calign t') + csize t') fields Hv) as Hlast.
  pose proof (layout_numbers (round_up off (calign t') + csize t') fields) as Hnum.
  specialize (IH (round_up off (calign t') + csize t')). destruct (layout _ fields) as [offs last]. cbn [fst snd] in *.
  destruct i as [|i].
  - injection Hi as -> ->. exists (round_up off (calign t)). repeat (split; [done || lia|]).
    intros [|j] o' Nj Hlt Hj; [lia|]. cbn in Hj. destruct (lookup_lt_is_Some_2 fields j) as [[tj N'] Hfj].
    { apply lookup_lt_Some in Hj. apply (f_equal length) in Hnum. rewrite !length_fmap in Hnum. exact (eq_ind _ (fun n => (j < n)%nat) Hj _ Hnum). }
    destruct (IH j _ _ Hv Hfj) as (o & Ho & Hle & _). pose proof (eq_trans (eq_sym Ho) Hj) as [= -> ->]. done.
  - destruct (IH i _ _ Hv Hi) as (o & Ho & Hle & Hal & Hend & Hnext). exists o. repeat (split; [done || lia|]).
    intros [|j] o' Nj Hlt Hj; [lia|]. apply (Hnext j o' Nj); [lia|exact Hj].
Qed.

(** The field with a number is found. *)
Lemma OFFSETOF_lookup ts i : ts <> [] -> (length ts <= 36)%nat ->
  NRM_OFFSETOF_ALIGNED (S i) ts = snd <$> (layout 0 (zip ts (seq 1 (length ts)))).1 !! i.
Proof.
  intros Hne Hl. unfold NRM_OFFSETOF_ALIGNED. rewrite NRM_STRUCT_DECL_zip by done. cbn [mbind option_bind].
  set (fields := zip ts (seq 1 (length ts))). pose proof (layout_numbers 0 fields) as Hnum.
  assert (fields.*2 = seq 1 (length ts)) as Hseq by (apply snd_zip; by rewrite length_seq). rewrite Hseq in Hnum.
  set (offs := (layout 0 fields).1) in *. clearbody offs. revert Hnum. generalize (length ts) as k. intros k Hnum.
  assert (forall j N o, offs !! j = Some (N, o) -> N = S j) as Hj.
  { intros j N o Hj. assert (offs.*1 !! j = Some N) as H by (by rewrite list_lookup_fmap, Hj).
    rewrite Hnum in H. apply lookup_seq in H. lia. }
  destruct (offs !! i) as [[N o]|] eqn:Hi; cbn.
  - rewrite (proj2 (list_find_Some _ offs i (N, o))); [done|]. split; [done|]. split; [by eapply Hj|].
    intros j [N' o'] Hj' Hlt E. apply Hj in Hj'. cbn in E. lia.
  - rewrite (proj2 (list_find_None _ offs)); [done|]. apply Forall_forall. intros [N o] Hin E. cbn in E. subst N.
    apply list_elem_of_lookup in Hin as [j Hin]. pose proof (Hj _ _ _ Hin) as [= ->]. congruence.
Qed.

Lemma struct_align_pos fields : 1 <= struct_align fields.
Proof. unfold struct_align. induction fields as [|f fields IH]; cbn [foldr]; lia. Qed.

(** C34: one allocation for several structures. For up to 36 types, the block that
    [NRM_INNER_MALLOC] gets has a place for one structure of each type, in the order in
    which the types are given, the field [__f]N being of the N-th type; that is how the
    callers use it, while a comment of alloc.h puts the names in the reverse order and
    another one allows 8 types. The first one is at the address of the block, which is
    why the pointer of a role or of a control is that of its first structure; each one
    is aligned when the block is, inside of the block, and does not overlap the next
    ones. With more types the macros do not compile. *)
Theorem inner_malloc_fields ts ptr :
  ts <> [] -> Forall valid ts -> (forall t, t ∈ ts -> (calign t | ptr)) ->
  if (length ts <=? 36)%nat then
    NRM_STRUCT_DECL ts = Some (zip ts (seq 1 (length ts))) /\
    exists size, NRM_INNER_MALLOC ts = Some (replicate (Z.to_nat size) 0) /\ NRM_SIZEOF_ALIGNED ts = Some size /\
    NRM_INNER_MALLOC_GET_FIELD ptr 1 ts = Some ptr /\
    forall i t, ts !! i = Some t ->
      exists a, NRM_INNER_MALLOC_GET_FIELD ptr (S i) ts = Some a /\ (calign t | a) /\
        ptr <= a /\ a + csize t <= ptr + size /\
        forall j a', (i < j)%nat -> NRM_INNER_MALLOC_GET_FIELD ptr (S j) ts = Some a' -> a + csize t <= a'
  else NRM_INNER_MALLOC ts = None.
Proof.
  intros Hne Hv Hptr. destruct (length ts <=? 36)%nat eqn:Hle.
  2:{ unfold NRM_INNER_MALLOC, NRM_SIZEOF_ALIGNED, NRM_STRUCT_DECL.
      rewrite VA_NARG_length by (destruct ts; cbn; [done|lia]). by rewrite Hle. }
  apply Nat.leb_le in Hle. set (fields := zip ts (seq 1 (length ts))).
  assert (fields.*1 = ts) as Hf1 by (apply fst_zip; by rewrite length_seq).
  assert (Forall valid fields.*1) as Hv' by (by rewrite Hf1).
  assert (NRM_SIZEOF_ALIGNED ts = Some (round_up (layout 0 fields).2 (struct_align fields))) as Hsz
    by (unfold NRM_SIZEOF_ALIGNED; by rewrite NRM_STRUCT_DECL_zip).
  pose proof (struct_align_pos fields) as Hpos.
  destruct (round_up_spec (layout 0 fields).2 (struct_align fields) ltac:(lia)) as [Hr _].
  split; [by apply NRM_STRUCT_DECL_zip|].
  eexists. split; [by unfold NRM_INNER_MALLOC; rewrite Hsz|]. split; [exact Hsz|].
  unfold NRM_INNER_MALLOC_GET_FIELD. split.
  { rewrite OFFSETOF_lookup by done. destruct ts as [|t ts]; [done|]. cbn [length seq zip zip_with layout].
    destruct (layout (round_up 0 (calign t) + csize t) (zip ts _)). cbn. unfold round_up. apply Forall_cons in Hv as [[Ha _] _].
    rewrite Z.div_small by lia. f_equal. lia. }
  intros i t Ht. destruct (layout_field 0 fields i t (S i) Hv') as (o & Ho & Ho0 & Hal & Hend & Hnext).
  { unfold fields. apply lookup_zip_with_Some. exists t, (S i). split; [done|]. split; [done|].
    apply lookup_seq. split; [lia|]. by eapply lookup_lt_Some. }
  exists (ptr + o). rewrite OFFSETOF_lookup by done. fold fields. rewrite Ho. cbn. split; [done|]. split.
  { apply Z.divide_add_r; [|done]. apply Hptr. by eapply list_elem_of_lookup_2. }
  split; [lia|]. split; [lia|]. intros j a' Hlt. rewrite OFFSETOF_lookup by done. fold fields.
  destruct ((layout 0 fields).1 !! j) as [[N o']|] eqn:Hj; [|done]. cbn. intros [= <-].
  pose proof (Hnext j o' N Hlt Hj). lia.
Qed.

(** A role: what all roles have, and what its own kind needs. *)
Definition role_types : list ctype := [CType 24 8; CType 52 4].

Lemma inner_malloc_fields_witness :
  NRM_SIZEOF_ALIGNED role_types = Some 80 /\
  exists a, NRM_INNER_MALLOC_GET_FIELD 4096 2 role_types = Some a /\ 4096 + 24 <= a /\ a + 52 <= 4096 + 80.
Proof.
  assert (Forall valid role_types) as Hv by (repeat constructor; done).
  destruct (inner_malloc_fields role_types 4096 ltac:(done) Hv) as (_ & size & _ & Hs & H1 & Hf).
  { apply Forall_forall. repeat constructor; by apply Z.mod_divide. }
  split; [reflexivity|]. injection Hs as <-.
  destruct (Hf 1%nat (CType 52 4) eq_refl) as (a & Ha & _ & _ & Hend & _). exists a. split; [exact Ha|].
  split; [|exact Hend]. destruct (Hf 0%nat (CType 24 8) eq_refl) as (a0 & Ha0 & _ & _ & _ & Hnext).
  rewrite H1 in Ha0. injection Ha0 as <-. by apply (Hnext 1%nat); [lia|].
Defined.
