(* ===== verification/Decimal.v ===== *)
(** * Decimal conversions of the C library

    What [snprintf] prints for ["%d"]-like directives and what [strtol],
    [strtoull] and [sscanf] read back, on C strings represented by the list of
    their characters before the terminating NUL. *)

From Stdlib Require Import Ascii.
From S2P Require Import Prelude.

(** ** Printing *)

Definition digit_char (d : Z) : ascii := ascii_of_nat (Z.to_nat (48 + d)).

(** The digits of a non-negative number, most significant first. *)
Fixpoint dec_digits (fuel : nat) (z : Z) : list ascii :=
  match fuel with
  | O => []
  | S f => if z <? 10 then [digit_char z]
           else dec_digits f (z / 10) ++ [digit_char (z mod 10)]
  end.

(** Enough fuel: a number has at most one digit per bit, and one if it is 0. *)
Definition dec_fuel (z : Z) : nat := S (Z.to_nat (Z.log2 z)).

Definition dec (z : Z) : list ascii :=
  if z <? 0 then "-"%char :: dec_digits (dec_fuel (- z)) (- z)
  else dec_digits (dec_fuel z) z.

(** ** Reading *)

Definition digit_val (c : ascii) : option Z :=
  let n := Z.of_nat (nat_of_ascii c) in
  if (48 <=? n) && (n <=? 57) then Some (n - 48) else None.

(** [isspace] in the C locale. *)
Definition isspace (c : ascii) : bool :=
  let n := Z.of_nat (nat_of_ascii c) in (n =? 32) || ((9 <=? n) && (n <=? 13)).

Fixpoint skip_spaces (l : list ascii) : list ascii :=
  match l with
  | c :: l' => if isspace c then skip_spaces l' else l
  | [] => []
  end.

(** The digits at the head of the input, accumulated into a value; the result
    is the value, how many digits were read and what follows them. *)
Fixpoint scan_digits (l : list ascii) (acc : Z) (n : nat) : Z * nat * list ascii :=
  match l with
  | c :: l' => match digit_val c with
               | Some d => scan_digits l' (10 * acc + d) (S n)
               | None => (acc, n, l)
               end
  | [] => (acc, n, [])
  end.

(** An optional sign. *)
Definition scan_sign (l : list ascii) : bool * list ascii :=
  match l with
  | c :: l' => if decide (c = "-"%char) then (true, l')
               else if decide (c = "+"%char) then (false, l') else (false, l)
  | [] => (false, [])
  end.

(** The subject sequence of [strtol] in base 10: its value, not yet clamped, and
    whether at least one digit was there. *)
Definition scan_int (l : list ascii) : Z * bool :=
  let '(neg, l1) := scan_sign (skip_spaces l) in
  let '(v, n, _) := scan_digits l1 0 0 in
  ((if neg then - v else v), negb (n =? 0)%nat).

(** [strtol(str, NULL, 10)]: the value and whether [errno] was set. *)
Definition strtol (l : list ascii) : Z * bool :=
  let '(v, _) := scan_int l in
  if v <? LONG_MIN then (LONG_MIN, true)
  else if LONG_MAX <? v then (LONG_MAX, true) else (v, false).

(** [strtoull(str, &endptr, 10)]: the value, whether [errno] was set, and whether
    [endptr == str]. A minus sign negates the value modulo 2^64. *)
Definition strtoull (l : list ascii) : Z * bool * bool :=
  let '(v, some) := scan_int l in
  if ULLONG_MAX <? Z.abs v then (ULLONG_MAX, true, negb some)
  else (u64 v, false, negb some).

(** ** Round trips *)

Lemma digit_val_char d : 0 <= d < 10 -> digit_val (digit_char d) = Some d.
Proof.
  intros Hd. unfold digit_val, digit_char.
  rewrite nat_ascii_embedding by lia. rewrite Z2Nat.id by lia.
  case_tests; simpl; try lia. f_equal. lia.
Qed.

Lemma scan_digits_app_digits ds l acc n :
  Forall (fun c => is_Some (digit_val c)) ds ->
  scan_digits (ds ++ l) acc n =
  (let '(v, m, _) := scan_digits ds acc n in scan_digits l v m).
Proof.
  intros H. revert acc n. induction H as [|c ds [d Hd] _ IH]; intros acc n; [done|].
  simpl. rewrite Hd. apply IH.
Qed.

Lemma dec_digits_digits fuel z :
  0 <= z -> Forall (fun c => is_Some (digit_val c)) (dec_digits fuel z).
Proof.
  revert z; induction fuel as [|f IH]; intros z Hz; simpl; [constructor|].
  case_tests.
  - constructor; [|constructor]. rewrite digit_val_char by lia. eauto.
  - apply Forall_app; split; [apply IH; zlia|].
    pose proof (Z.mod_pos_bound z 10). constructor; [|constructor].
    rewrite digit_val_char by lia. eauto.
Qed.

(** Enough fuel at [z] is enough at [z / 10]. *)
Lemma dec_fuel_div10 z f : 10 <= z -> (dec_fuel z <= S f)%nat -> (dec_fuel (z / 10) <= f)%nat.
Proof.
  unfold dec_fuel. intros Hz Hf.
  assert (Z.log2 (z / 10) < Z.log2 z); [|pose proof (Z.log2_nonneg (z / 10)); lia].
  assert (Hle : Z.log2 (z / 10) <= Z.log2 (z / 2)).
  { apply Z.log2_le_mono. zlia. }
  assert (Z.log2 (z / 2) = Z.log2 z - 1).
  { change (z / 2) with (z / 2 ^ 1). rewrite <- Z.shiftr_div_pow2 by lia.
    rewrite Z.log2_shiftr by lia. pose proof (Z.log2_pos z). lia. }
  lia.
Qed.

Lemma scan_dec_digits fuel z :
  0 <= z -> (dec_fuel z <= fuel)%nat ->
  exists m, scan_digits (dec_digits fuel z) 0 0 = (z, S m, []).
Proof.
  revert z; induction fuel as [|f IH]; intros z Hz Hf; [unfold dec_fuel in Hf; lia|].
  simpl. case_tests.
  - simpl. rewrite digit_val_char by lia. by exists O.
  - rewrite scan_digits_app_digits by (apply dec_digits_digits; zlia).
    destruct (IH (z / 10)) as [m Hm]; [zlia|by apply dec_fuel_div10|].
    rewrite Hm. simpl. pose proof (Z.mod_pos_bound z 10).
    rewrite digit_val_char by lia. exists (S m).
    do 2 f_equal. pose proof (Z.div_mod z 10). lia.
Qed.

Lemma digit_not_space_sign c :
  is_Some (digit_val c) -> isspace c = false /\ c <> "-"%char /\ c <> "+"%char.
Proof.
  unfold digit_val, isspace. intros [d Hd].
  split_and!; [|by intros ->|by intros ->].
  destruct (48 <=? _) eqn:E1, (_ <=? 57) eqn:E2; simplify_eq/=.
  apply Z.leb_le in E1, E2. case_tests; simpl; lia || done.
Qed.

Lemma dec_digits_head fuel z :
  0 <= z -> (0 < fuel)%nat -> exists c l, dec_digits fuel z = c :: l /\ is_Some (digit_val c).
Proof.
  intros Hz Hf. pose proof (dec_digits_digits fuel z Hz) as H.
  destruct (dec_digits fuel z) as [|c l] eqn:E.
  - destruct fuel; [lia|]. simpl in E. case_match; [done|].
    by destruct (dec_digits fuel (z / 10)).
  - apply Forall_cons in H as [? _]. eauto.
Qed.

(** Reading back what was printed gives the number. *)
Lemma scan_int_dec z : scan_int (dec z) = (z, true).
Proof.
  unfold scan_int, dec. destruct (Z.ltb_spec z 0) as [Hz|Hz].
  - destruct (scan_dec_digits (dec_fuel (- z)) (- z)) as [m Hm]; [lia|done|].
    revert Hm. generalize (dec_digits (dec_fuel (- z)) (- z)) as ds. intros ds Hm.
    simpl. rewrite Hm. f_equal. lia.
  - destruct (dec_digits_head (dec_fuel z) z) as (c & l & E & Hc); [lia|unfold dec_fuel; lia|].
    destruct (digit_not_space_sign c Hc) as (Hs & H1 & H2).
    destruct (scan_dec_digits (dec_fuel z) z) as [m Hm]; [lia|done|].
    rewrite E in Hm |- *. unfold skip_spaces, scan_sign. rewrite Hs.
    rewrite decide_False by done. rewrite decide_False by done.
    by rewrite Hm.
Qed.

Lemma strtol_dec z : in_i64 z -> strtol (dec z) = (z, false).
Proof.
  unfold strtol, in_i64, LONG_MIN, LONG_MAX. intros Hz. rewrite scan_int_dec.
  case_tests; lia || done.
Qed.

(** No character printed is a comma. *)
Lemma digit_not_comma c : is_Some (digit_val c) -> c <> ","%char.
Proof. by intros [d Hd] ->. Qed.
