(* ===== verification/Vectors.v ===== *)
(** * Vectors (src/utils/vectors.c over include/internal/utarray.h)

    [UT_array] is modelled slot by slot: the 32-bit index [ut_i] of the next
    free slot, the 32-bit capacity [ut_n], and the allocated slots [ut_d], which
    hold [None] while they are not initialised. The element type is a
    parameter: elements are trivially copyable. The refinement theorem relates
    the operations of vectors.c to operations on lists, which is how the
    components above use vectors. *)

From S2P Require Import Prelude.

(** ** utarray.h *)

Record UT_array (A : Type) := UTArray {
  ut_i : Z;
  ut_n : Z;
  ut_sz : Z;
  ut_d : list (option A)
}.
Arguments UTArray {_} _ _ _ _.
Arguments ut_i {_} _.
Arguments ut_n {_} _.
Arguments ut_sz {_} _.
Arguments ut_d {_} _.

Section utarray.
Context {A : Type} (zeroed : A).

Implicit Types a w : UT_array A.
Implicit Types d : list (option A).

(** [memcpy] of one element into a slot. *)
Definition write_slot d (k : Z) (x : A) : outcome (list (option A)) :=
  if (0 <=? k) && (k <? Z.of_nat (length d))
  then Ok (<[Z.to_nat k := Some x]> d) else Undefined.

(** Reading a slot. *)
Definition read_slot d (k : Z) : outcome A :=
  if 0 <=? k then deref (mjoin (d !! Z.to_nat k)) else Undefined.

(** [memmove] and [memcpy] of [count] slots [xs] to the slot [dst]. *)
Definition write_slots d (dst : Z) (xs : list (option A)) : outcome (list (option A)) :=
  if (0 <=? dst) && (dst + Z.of_nat (length xs) <=? Z.of_nat (length d))
  then Ok (take (Z.to_nat dst) d ++ xs ++ drop (Z.to_nat dst + length xs) d) else Undefined.

Definition read_slots d (src count : Z) : outcome (list (option A)) :=
  if (0 <=? src) && (0 <=? count) && (src + count <=? Z.of_nat (length d))
  then Ok (take (Z.to_nat count) (drop (Z.to_nat src) d)) else Undefined.

Definition utarray_init (sz : Z) : UT_array A := UTArray 0 0 sz [].

(** The [while] loop of [utarray_reserve]: the capacity that holds [need]
    elements, or [None] when [fuel] iterations do not reach it. *)
Fixpoint reserve_loop (fuel : nat) (need n : Z) : option Z :=
  match fuel with
  | O => if need >? n then None else Some n
  | S f => if need >? n then reserve_loop f need (if n =? 0 then 8 else u32 (2 * n))
           else Some n
  end.

(** Iterations after which a capacity that keeps doubling has gone through all
    its values. *)
Definition reserve_fuel : nat := 32.

(** [utarray_reserve(a, by)], where [need] is [a->i + by] at the width at which
    the caller's types make C compute it. The boolean says that the code goes
    to [utarray_error]; the capacity is then already changed. *)
Definition utarray_reserve (oom : bool) a (need : Z) : outcome (bool * UT_array A) :=
  if need >? ut_n a then
    match reserve_loop reserve_fuel need (ut_n a) with
    | None => Diverges
    | Some n =>
        if oom then Ok (true, UTArray (ut_i a) n (ut_sz a) (ut_d a))
        else
          let slots := Z.to_nat (u64 (n * ut_sz a) / ut_sz a) in
          Ok (false, UTArray (ut_i a) n (ut_sz a)
                       (take slots (ut_d a) ++ replicate (slots - length (ut_d a)) None))
    end
  else Ok (false, a).

Definition utarray_push_back (oom : bool) a (p : A) : outcome (bool * UT_array A) :=
  '(err, a) ← utarray_reserve oom a (u32 (ut_i a + 1));
  if (err : bool) then Ok (true, a)
  else d ← write_slot (ut_d a) (ut_i a) p;
       Ok (false, UTArray (u32 (ut_i a + 1)) (ut_n a) (ut_sz a) d).

Definition utarray_pop_back a : UT_array A :=
  UTArray (u32 (ut_i a - 1)) (ut_n a) (ut_sz a) (ut_d a).

Definition utarray_len a : Z := ut_i a.

(** Pointers to elements are slot numbers; NULL is [None]. *)
Definition utarray_eltptr a (j : Z) : option Z := if j <? ut_i a then Some j else None.
Definition utarray_front a : option Z := if ut_i a =? 0 then None else Some 0.
Definition utarray_back a : option Z := if ut_i a =? 0 then None else Some (u32 (ut_i a - 1)).
Definition utarray_next a (e : option Z) : option Z :=
  match e with
  | None => utarray_front a
  | Some e => if ut_i a =? e + 1 then None else Some (e + 1)
  end.

(** [num] is a [size_t]. *)
Definition utarray_resize (oom : bool) a (num : Z) : outcome (bool * UT_array A) :=
  if ut_i a >? u32 num
  then Ok (false, UTArray (u32 num) (ut_n a) (ut_sz a) (ut_d a))
  else if ut_i a <? u32 num then
    '(err, a) ← utarray_reserve oom a (u64 (ut_i a + u64 (num - ut_i a)));
    if (err : bool) then Ok (true, a)
    else d ← write_slots (ut_d a) (ut_i a)
               (replicate (Z.to_nat (u64 (num - ut_i a))) (Some zeroed));
         Ok (false, UTArray (u32 num) (ut_n a) (ut_sz a) d)
  else Ok (false, UTArray (u32 num) (ut_n a) (ut_sz a) (ut_d a)).

(** [j] is an [unsigned]. *)
Definition utarray_inserta (oom : bool) a w (j : Z) : outcome (bool * UT_array A) :=
  if utarray_len w =? 0 then Ok (false, a)
  else
    '(err, a) ← (if j >? ut_i a then utarray_resize oom a j else Ok (false, a));
    if (err : bool) then Ok (true, a) else
    '(err, a) ← utarray_reserve oom a (u32 (ut_i a + utarray_len w));
    if (err : bool) then Ok (true, a) else
    d ← (if j <? ut_i a then
           xs ← read_slots (ut_d a) j (ut_i a - j);
           write_slots (ut_d a) (u32 (j + utarray_len w)) xs
         else Ok (ut_d a));
    ys ← read_slots (ut_d w) 0 (utarray_len w);
    d ← write_slots d j ys;
    Ok (false, UTArray (u32 (ut_i a + utarray_len w)) (ut_n a) (ut_sz a) d).

Definition utarray_concat (oom : bool) a w : outcome (bool * UT_array A) :=
  utarray_inserta oom a w (utarray_len a).

(** [pos] is a [size_t], [len] an [int]. *)
Definition utarray_erase a (pos len : Z) : outcome (UT_array A) :=
  d ← (if ut_i a >? u64 (pos + len) then
         xs ← read_slots (ut_d a) (u64 (pos + len)) (ut_i a - u64 (pos + len));
         write_slots (ut_d a) pos xs
       else Ok (ut_d a));
  Ok (UTArray (u32 (ut_i a - len)) (ut_n a) (ut_sz a) d).

Definition utarray_clear a : UT_array A :=
  if ut_i a >? 0 then UTArray 0 (ut_n a) (ut_sz a) (ut_d a) else a.

End utarray.

(** ** Sorting and searching of the C library

    [qsort] promises a sorted permutation when the comparison is a total
    preorder on the elements; the order of equal elements is unspecified. *)

Definition cmp_ok {A} (cmp : A -> A -> Z) (l : list A) : Prop :=
  (forall x y, x ∈ l -> y ∈ l -> (cmp x y < 0 <-> cmp y x > 0)) /\
  (forall x y z, x ∈ l -> y ∈ l -> z ∈ l -> cmp x y <= 0 -> cmp y z <= 0 -> cmp x z <= 0).

Class Qsort := {
  qsort : forall {A}, (A -> A -> Z) -> list A -> list A;
  qsort_perm : forall {A} (cmp : A -> A -> Z) l, cmp_ok cmp l -> qsort cmp l ≡ₚ l;
  qsort_sorted : forall {A} (cmp : A -> A -> Z) l,
    cmp_ok cmp l -> StronglySorted (fun x y => cmp x y <= 0) (qsort cmp l)
}.

(** The elements are partitioned as [bsearch] requires: those above the key's
    predecessors come last. *)
Definition partitioned {A} (cmp : A -> A -> Z) (key : A) (l : list A) : Prop :=
  StronglySorted (fun x y => Z.sgn (cmp key y) <= Z.sgn (cmp key x)) l.

Class Bsearch := {
  bsearch : forall {A}, (A -> A -> Z) -> A -> list A -> option nat;
  bsearch_found : forall {A} (cmp : A -> A -> Z) key l i,
    partitioned cmp key l -> bsearch cmp key l = Some i ->
    exists x, l !! i = Some x /\ cmp key x = 0;
  bsearch_missing : forall {A} (cmp : A -> A -> Z) key l,
    partitioned cmp key l -> bsearch cmp key l = None -> forall x, x ∈ l -> cmp key x <> 0
}.

(** ** vectors.c *)

(** [struct nrm_vector_s]. *)
Record nrm_vector (A : Type) := Vector { array : UT_array A; icd_sz : Z }.
Arguments Vector {_} _ _.
Arguments array {_} _.
Arguments icd_sz {_} _.

Section vectors.
Context {A : Type} (zeroed : A).

Implicit Types v : nrm_vector A.

Definition with_array v (a : UT_array A) : nrm_vector A := Vector a (icd_sz v).

(** [oom1] and [oom2] tell which of the two allocations fails. [null] is
    [vector == NULL]. *)
Definition nrm_vector_create (oom1 oom2 null : bool) (element_size : Z)
    : Z * option (nrm_vector A) :=
  if null || (element_size =? 0) then (- NRM_EINVAL, None)
  else if oom1 then (- NRM_ENOMEM, None)
  else if oom2 then (- NRM_ENOMEM, None)
  else (NRM_SUCCESS, Some (Vector (utarray_init element_size) element_size)).

(** The outer option is the parameter, the inner one what it points to. *)
Definition nrm_vector_destroy (vector : option (option (nrm_vector A)))
    : outcome (option (option (nrm_vector A))) :=
  match vector with
  | None => Ok None
  | Some p => _ ← deref p; Ok (Some None)
  end.

(** [goto utarray_error] returns [-NRM_ENOMEM]. *)
Definition rc_of (err : bool) : Z := if err then - NRM_ENOMEM else NRM_SUCCESS.

Definition nrm_vector_copy (oom1 oom2 oom3 dst_null : bool) (src : option (nrm_vector A))
    : outcome (Z * option (nrm_vector A)) :=
  match src with
  | Some s =>
      if dst_null then Ok (- NRM_EINVAL, None) else
      match nrm_vector_create oom1 oom2 false (icd_sz s) with
      | (ret, Some v) =>
          if negb (ret =? NRM_SUCCESS) then Ok (ret, None) else
          '(err, a) ← utarray_concat zeroed oom3 (array v) (array s);
          if (err : bool) then Ok (- NRM_ENOMEM, None)
          else Ok (NRM_SUCCESS, Some (with_array v a))
      | (ret, None) => Ok (ret, None)
      end
  | None => Ok (- NRM_EINVAL, None)
  end.

(** Operations on an existing vector return the code and the vector. *)
Definition nrm_vector_resize (oom : bool) (vector : option (nrm_vector A)) (newlen : Z)
    : outcome (Z * option (nrm_vector A)) :=
  match vector with
  | None => Ok (- NRM_EINVAL, None)
  | Some v => '(err, a) ← utarray_resize zeroed oom (array v) newlen;
              Ok (rc_of err, Some (with_array v a))
  end.

Definition nrm_vector_length (vector : option (nrm_vector A)) (length_null : bool)
    : Z * option Z :=
  match vector with
  | Some v => if length_null then (- NRM_EINVAL, None)
              else (NRM_SUCCESS, Some (utarray_len (array v)))
  | None => (- NRM_EINVAL, None)
  end.

(** [*out] is a slot number. *)
Definition nrm_vector_get (vector : option (nrm_vector A)) (index : Z) (out_null : bool)
    : Z * option Z :=
  match vector with
  | Some v => if out_null then (- NRM_EINVAL, None)
              else match utarray_eltptr (array v) index with
                   | None => (- NRM_EDOM, None)
                   | Some p => (NRM_SUCCESS, Some p)
                   end
  | None => (- NRM_EINVAL, None)
  end.

(** The loop of [nrm_vector_find]. *)
Fixpoint find_loop (fuel : nat) (a : UT_array A) (key : A) (comp : A -> A -> Z)
    (elt : option Z) : outcome (option Z) :=
  match elt with
  | None => Ok None
  | Some e =>
      match fuel with
      | O => Diverges
      | S f => x ← read_slot (ut_d a) e;
               if comp key x =? 0 then Ok (Some e)
               else find_loop f a key comp (utarray_next a (Some e))
      end
  end.

(** Storing a position through [pos]. *)
Definition store_pos (pos_null : bool) (elt : option Z) : outcome (Z * option Z) :=
  match elt with
  | None => Ok (- NRM_FAILURE, None)
  | Some e => if pos_null then Undefined else Ok (NRM_SUCCESS, Some e)
  end.

Definition nrm_vector_find (vector : option (nrm_vector A)) (key : option A)
    (comp : option (A -> A -> Z)) (pos_null : bool) : outcome (Z * option Z) :=
  match vector, comp, key with
  | Some v, Some comp, Some key =>
      elt ← find_loop (Z.to_nat (ut_i (array v))) (array v) key comp
              (utarray_front (array v));
      store_pos pos_null elt
  | _, _, _ => Ok (- NRM_EINVAL, None)
  end.

Definition nrm_vector_sort `{Qsort} (vector : option (nrm_vector A))
    (comp : option (A -> A -> Z)) : outcome (Z * option (nrm_vector A)) :=
  match vector, comp with
  | Some v, Some comp =>
      let a := array v in
      xs ← read_slots (ut_d a) 0 (ut_i a);
      l ← deref (mapM id xs);
      d ← write_slots (ut_d a) 0 (Some <$> qsort comp l);
      Ok (NRM_SUCCESS, Some (with_array v (UTArray (ut_i a) (ut_n a) (ut_sz a) d)))
  | _, _ => Ok (- NRM_EINVAL, vector)
  end.

Definition nrm_vector_bsearch `{Bsearch} (vector : option (nrm_vector A)) (key : option A)
    (comp : option (A -> A -> Z)) (pos_null : bool) : outcome (Z * option Z) :=
  match vector, comp, key with
  | Some v, Some comp, Some key =>
      let a := array v in
      xs ← read_slots (ut_d a) 0 (ut_i a);
      l ← deref (mapM id xs);
      store_pos pos_null (Z.of_nat <$> bsearch comp key l)
  | _, _, _ => Ok (- NRM_EINVAL, None)
  end.

Definition nrm_vector_push_back (oom : bool) (vector : option (nrm_vector A))
    (element : option A) : outcome (Z * option (nrm_vector A)) :=
  match vector, element with
  | Some v, Some x => '(err, a) ← utarray_push_back oom (array v) x;
                      Ok (rc_of err, Some (with_array v a))
  | _, _ => Ok (- NRM_EINVAL, vector)
  end.

(** The last component is what is copied to [out]. *)
Definition nrm_vector_pop_back (vector : option (nrm_vector A)) (out_null : bool)
    : outcome (Z * option (nrm_vector A) * option A) :=
  match vector with
  | Some v =>
      if out_null then Ok (- NRM_EINVAL, vector, None)
      else match utarray_back (array v) with
           | None => Ok (- NRM_EDOM, vector, None)
           | Some back =>
               x ← read_slot (ut_d (array v)) back;
               Ok (NRM_SUCCESS, Some (with_array v (utarray_pop_back (array v))), Some x)
           end
  | None => Ok (- NRM_EINVAL, vector, None)
  end.

Definition nrm_vector_take (vector : option (nrm_vector A)) (position : Z) (out_null : bool)
    : outcome (Z * option (nrm_vector A) * option A) :=
  match vector with
  | Some v =>
      match utarray_eltptr (array v) position with
      | None => Ok (- NRM_EDOM, vector, None)
      | Some elt =>
          out ← (if out_null then Ok None else Some <$> read_slot (ut_d (array v)) elt);
          a ← utarray_erase (array v) position 1;
          Ok (NRM_SUCCESS, Some (with_array v a), out)
      end
  | None => Ok (- NRM_EINVAL, vector, None)
  end.

Definition nrm_vector_clear (vector : option (nrm_vector A)) : Z * option (nrm_vector A) :=
  match vector with
  | None => (- NRM_EINVAL, None)
  | Some v => (NRM_SUCCESS, Some (with_array v (utarray_clear (array v))))
  end.

Definition nrm_vector_iterator_begin v : option Z := utarray_front (array v).
Definition nrm_vector_iterator_next v (iterator : option Z) : option Z :=
  utarray_next (array v) iterator.
Definition nrm_vector_iterator_get v (iterator : Z) : outcome A :=
  read_slot (ut_d (array v)) iterator.

(** The loop [nrm_vector_foreach(vector, iterator)] over a vector that its body
    does not change; the body gets the element. *)
Fixpoint foreach_loop {S} (fuel : nat) v (body : S -> A -> outcome S) (s : S)
    (iterator : option Z) : outcome S :=
  match iterator with
  | None => Ok s
  | Some it =>
      match fuel with
      | O => Diverges
      | Datatypes.S f =>
          x ← nrm_vector_iterator_get v it;
          s ← body s x;
          foreach_loop f v body s (nrm_vector_iterator_next v (Some it))
      end
  end.

Definition nrm_vector_foreach {S} v (body : S -> A -> outcome S) (s : S) : outcome S :=
  foreach_loop (Z.to_nat (ut_i (array v))) v body s (nrm_vector_iterator_begin v).

End vectors.

(** ** Instances of the C library's routines *)

(** Insertion sort. *)
Fixpoint insert_sorted {A} (cmp : A -> A -> Z) (x : A) (l : list A) : list A :=
  match l with
  | [] => [x]
  | y :: l' => if cmp x y <=? 0 then x :: l else y :: insert_sorted cmp x l'
  end.
Definition insertion_sort {A} (cmp : A -> A -> Z) (l : list A) : list A :=
  foldr (insert_sorted cmp) [] l.

(** Binary search in the slots [lo] to [hi] - 1. *)
Fixpoint bsearch_loop {A} (fuel : nat) (cmp : A -> A -> Z) (key : A) (l : list A)
    (lo hi : nat) : option nat :=
  match fuel with
  | O => None
  | S f =>
      if (lo <? hi)%nat then
        let mid := ((lo + hi) / 2)%nat in
        match l !! mid with
        | None => None
        | Some x =>
            if cmp key x <? 0 then bsearch_loop f cmp key l lo mid
            else if cmp key x >? 0 then bsearch_loop f cmp key l (S mid) hi
            else Some mid
        end
      else None
  end.
Definition binary_search {A} (cmp : A -> A -> Z) (key : A) (l : list A) : option nat :=
  bsearch_loop (S (length l)) cmp key l 0 (length l).

Section sorting.
Context {A : Type} (cmp : A -> A -> Z).

Lemma insert_sorted_perm x l : insert_sorted cmp x l ≡ₚ x :: l.
Proof.
  induction l as [|y l IH]; simpl; [done|]. destruct (cmp x y <=? 0); [done|].
  rewrite IH. by constructor.
Qed.

Lemma insertion_sort_perm l : insertion_sort cmp l ≡ₚ l.
Proof. induction l as [|x l IH]; simpl; [done|]. rewrite insert_sorted_perm. by constructor. Qed.

Lemma cmp_ok_subset l k : cmp_ok cmp l -> k ⊆ l -> cmp_ok cmp k.
Proof.
  intros [H1 H2] Hk. split; [by auto|].
  intros x y z Hx Hy Hz. apply (H2 x y z); by apply Hk.
Qed.

Lemma insert_sorted_sorted x l :
  cmp_ok cmp (x :: l) -> StronglySorted (fun x y => cmp x y <= 0) l ->
  StronglySorted (fun x y => cmp x y <= 0) (insert_sorted cmp x l).
Proof.
  intros Hok Hl. induction Hl as [|y l Hl IH Hy]; simpl; [repeat constructor|].
  pose proof Hok as [H1 H2]. destruct (Z.leb_spec (cmp x y) 0) as [Hxy|Hxy].
  - constructor; [by constructor|]. apply Forall_cons. split; [done|].
    apply Forall_forall. intros z Hz. rewrite Forall_forall in Hy.
    apply (H2 x y z); [rewrite !elem_of_cons; auto..|done|by auto].
  - constructor.
    + apply IH. eapply cmp_ok_subset; [done|]. intros z. rewrite !elem_of_cons; tauto.
    + apply Forall_forall. intros z. rewrite insert_sorted_perm, elem_of_cons.
      intros [->|Hz]; [|by rewrite Forall_forall in Hy; auto].
      enough (cmp y x < 0) by lia. apply H1; [rewrite !elem_of_cons; auto..|lia].
Qed.

Lemma insertion_sort_sorted l :
  cmp_ok cmp l -> StronglySorted (fun x y => cmp x y <= 0) (insertion_sort cmp l).
Proof.
  induction l as [|x l IH]; intros Hok; simpl; [constructor|].
  apply insert_sorted_sorted.
  - eapply cmp_ok_subset; [done|]. intros y. by rewrite !elem_of_cons, insertion_sort_perm.
  - apply IH. eapply cmp_ok_subset; [done|]. intros z. rewrite !elem_of_cons; tauto.
Qed.

Context (key : A) (l : list A) (Hpart : partitioned cmp key l).

Lemma partitioned_le i j x y :
  (i < j)%nat -> l !! i = Some x -> l !! j = Some y -> Z.sgn (cmp key y) <= Z.sgn (cmp key x).
Proof.
  intros Hij Hx Hy. clear - Hpart Hij Hx Hy. unfold partitioned in Hpart.
  revert i j Hij Hx Hy. induction Hpart as [|z k Hk IH Hz]; intros [|i] [|j] Hij Hx Hy;
    simplify_eq/=; try lia.
  - rewrite Forall_forall in Hz. apply Hz. by eapply list_elem_of_lookup_2.
  - eapply (IH Hk i j); [lia|done|done].
Qed.

Lemma bsearch_loop_found fuel lo hi i :
  bsearch_loop fuel cmp key l lo hi = Some i -> exists x, l !! i = Some x /\ cmp key x = 0.
Proof.
  clear Hpart. revert lo hi; induction fuel as [|f IH]; intros lo hi; cbn [bsearch_loop]; [done|].
  destruct (Nat.ltb_spec lo hi); [|done]. cbv zeta. destruct (l !! ((lo + hi) / 2)%nat) as [x|] eqn:Hx; [|done].
  rewrite Z.gtb_ltb. destruct (Z.ltb_spec (cmp key x) 0); [apply IH|].
  destruct (Z.ltb_spec 0 (cmp key x)); [apply IH|]. intros [= <-]. exists x. split; [done|lia].
Qed.

Lemma bsearch_loop_missing fuel lo hi :
  (hi <= length l)%nat -> (hi - lo < fuel)%nat ->
  (forall j x, l !! j = Some x -> cmp key x = 0 -> (lo <= j < hi)%nat) ->
  bsearch_loop fuel cmp key l lo hi = None -> forall x, x ∈ l -> cmp key x <> 0.
Proof.
  revert lo hi; induction fuel as [|f IH]; intros lo hi Hhi Hf Hin; [lia|].
  cbn [bsearch_loop]. cbv zeta.
  destruct (Nat.ltb_spec lo hi) as [Hlt|Hge].
  2:{ intros _ x [j Hj]%list_elem_of_lookup_1 H0. specialize (Hin j x Hj H0). lia. }
  pose proof (Nat.div_mod_eq (lo + hi) 2). pose proof (Nat.mod_upper_bound (lo + hi) 2).
  set (mid := ((lo + hi) / 2)%nat) in *.
  destruct (l !! mid) as [x|] eqn:Hx; [|apply lookup_ge_None in Hx; lia].
  rewrite Z.gtb_ltb. destruct (Z.ltb_spec (cmp key x) 0) as [Hlo|Hlo].
  - apply IH; [lia|lia|]. intros j y Hy Hy0. specialize (Hin j y Hy Hy0).
    split; [lia|]. destruct (decide (j = mid)) as [->|]; [simplify_eq; lia|].
    destruct (decide (mid < j)%nat) as [Hj|]; [|lia].
    pose proof (partitioned_le mid j x y Hj Hx Hy). lia.
  - destruct (Z.ltb_spec 0 (cmp key x)) as [Hgt|Hgt]; [|done].
    apply IH; [lia|lia|]. intros j y Hy Hy0. specialize (Hin j y Hy Hy0).
    split; [|lia]. destruct (decide (j = mid)) as [->|]; [simplify_eq; lia|].
    destruct (decide (j < mid)%nat) as [Hj|]; [|lia].
    pose proof (partitioned_le j mid y x Hj Hy Hx). lia.
Qed.

End sorting.

#[export] Instance insertion_qsort : Qsort.
Proof.
  refine {| qsort := @insertion_sort |}.
  - intros. apply insertion_sort_perm.
  - intros. by apply insertion_sort_sorted.
Defined.

#[export] Instance binary_bsearch : Bsearch.
Proof.
  refine {| bsearch := @binary_search |}.
  - intros A cmp key l i _. apply bsearch_loop_found.
  - intros A cmp key l Hp. unfold binary_search. apply bsearch_loop_missing; [done|lia|lia|].
    intros j x Hj _. apply lookup_lt_Some in Hj. lia.
Defined.

(** ** The capacity *)

(** The capacities that [utarray_reserve] produces. *)
Definition capacity (n : Z) : Prop := n = 0 \/ exists k, 3 <= k <= 31 /\ n = 2 ^ k.

Lemma double_capacity k :
  3 <= k <= 31 -> u32 (2 * 2 ^ k) = if k =? 31 then 0 else 2 ^ (k + 1).
Proof.
  intros Hk. rewrite <- Z.pow_succ_r by lia. destruct (Z.eqb_spec k 31) as [->|]; [done|].
  apply u32_small. unfold in_u32. split; [apply Z.pow_nonneg; lia|].
  apply Z.pow_lt_mono_r; lia.
Qed.

Lemma capacity_next n : capacity n -> capacity (if n =? 0 then 8 else u32 (2 * n)).
Proof.
  intros [->|(k & Hk & ->)]; [right; by exists 3|].
  destruct (Z.eqb_spec (2 ^ k) 0); [by right; exists 3|]. rewrite double_capacity by done.
  destruct (Z.eqb_spec k 31); [by left|]. right. exists (k + 1). split; [lia|done].
Qed.

Lemma capacity_bound n : capacity n -> 0 <= n <= 2 ^ 31.
Proof.
  intros [->|(k & Hk & ->)]; [lia|]. split; [apply Z.pow_nonneg; lia|].
  apply Z.pow_le_mono_r; lia.
Qed.

Lemma reserve_loop_pow fuel need k :
  3 <= k <= 31 -> 31 - k <= Z.of_nat fuel -> need <= 2 ^ 31 ->
  exists n', reserve_loop fuel need (2 ^ k) = Some n' /\ capacity n' /\ need <= n' /\ 2 ^ k <= n'.
Proof.
  revert k; induction fuel as [|f IH]; intros k Hk Hf Hneed; cbn [reserve_loop]; rewrite Z.gtb_ltb.
  - replace k with 31 in * by lia. destruct (Z.ltb_spec (2 ^ 31) need); [lia|].
    exists (2 ^ 31). split_and!; [done|right; by exists 31|lia|lia].
  - destruct (Z.ltb_spec (2 ^ k) need).
    2:{ exists (2 ^ k). split_and!; [done|right; by exists k|lia|lia]. }
    destruct (decide (k = 31)) as [->|]; [lia|].
    pose proof (Z.pow_pos_nonneg 2 k). destruct (Z.eqb_spec (2 ^ k) 0); [lia|].
    rewrite double_capacity by done. destruct (Z.eqb_spec k 31); [lia|].
    destruct (IH (k + 1)) as (n' & E & Hc & H1 & H2); [lia..|].
    exists n'. split_and!; [done..|]. rewrite Z.pow_add_r in H2 by lia. lia.
Qed.

Lemma reserve_loop_S f need n :
  reserve_loop (S f) need n =
  if need >? n then reserve_loop f need (if n =? 0 then 8 else u32 (2 * n)) else Some n.
Proof. done. Qed.

Lemma reserve_loop_ok need n :
  capacity n -> need <= 2 ^ 31 ->
  exists n', reserve_loop reserve_fuel need n = Some n' /\ capacity n' /\ need <= n' /\ n <= n'.
Proof.
  intros [->|(k & Hk & ->)] Hneed; [|apply reserve_loop_pow; unfold reserve_fuel; lia].
  unfold reserve_fuel. rewrite reserve_loop_S, Z.gtb_ltb.
  destruct (Z.ltb_spec 0 need); [|exists 0; split_and!; [done|by left|lia|lia]].
  destruct (reserve_loop_pow 31 need 3) as (n' & E & Hc & H1 & H2); [lia..|].
  exists n'. split_and!; [exact E|done..|lia].
Qed.

(** ** Representation *)

Section representation.
Context {A : Type} (zeroed : A).

Implicit Types a : UT_array A.
Implicit Types l : list A.

(** The array holds the list [l]. *)
Definition arep a l : Prop :=
  ut_i a = Z.of_nat (length l) /\ capacity (ut_n a) /\ 0 < ut_sz a < 2 ^ 32 /\
  exists rest, ut_d a = (Some <$> l) ++ rest /\
               Z.of_nat (length l + length rest) = ut_n a.

Lemma arep_init sz : 0 < sz < 2 ^ 32 -> arep (utarray_init sz) [].
Proof. intros. split_and!; cbn; [done|by left|lia|lia|]. by exists []. Qed.

Lemma arep_len a l : arep a l -> Z.of_nat (length l) <= 2 ^ 31 /\ ut_i a = Z.of_nat (length l).
Proof.
  intros (Hi & Hc & _ & rest & _ & Hn). apply capacity_bound in Hc. split; [lia|done].
Qed.

Lemma reserve_arep a l need :
  arep a l -> need <= 2 ^ 31 ->
  exists a', utarray_reserve false a need = Ok (false, a') /\ arep a' l /\ need <= ut_n a'.
Proof.
  intros (Hi & Hc & Hsz & rest & Hd & Hn) Hneed. unfold utarray_reserve. rewrite Z.gtb_ltb.
  destruct (Z.ltb_spec (ut_n a) need).
  2:{ exists a. split; [done|]. split; [|done].
      split; [done|]. split; [done|]. split; [done|]. by exists rest. }
  destruct (reserve_loop_ok need (ut_n a) Hc Hneed) as (n' & -> & Hc' & Hle & Hle').
  eexists. split; [reflexivity|]. cbn [ut_n]. split; [|done].
  pose proof (capacity_bound _ Hc'). rewrite u64_small by (unfold in_u64; nia).
  rewrite Z.div_mul by lia.
  split_and!; cbn [ut_i ut_n ut_sz ut_d]; [done|done|lia|lia|].
  rewrite Hd, take_ge by (rewrite length_app, length_fmap; lia).
  eexists (rest ++ _). rewrite app_assoc. split; [reflexivity|].
  rewrite !length_app, length_fmap, length_replicate. lia.
Qed.

Lemma write_slots_app (l rest xs : list (option A)) :
  (length xs <= length rest)%nat ->
  write_slots (l ++ rest) (Z.of_nat (length l)) xs = Ok (l ++ xs ++ drop (length xs) rest).
Proof.
  intros H. unfold write_slots. rewrite length_app.
  destruct (Z.leb_spec 0 (Z.of_nat (length l))); [|lia].
  destruct (Z.leb_spec (Z.of_nat (length l) + Z.of_nat (length xs))
              (Z.of_nat (length l + length rest))); [|lia]. cbn [andb].
  rewrite Nat2Z.id, take_app_length, drop_app_ge by lia.
  do 3 f_equal. f_equal. lia.
Qed.

Lemma read_slots_app (l1 l2 l3 : list (option A)) :
  read_slots (l1 ++ l2 ++ l3) (Z.of_nat (length l1)) (Z.of_nat (length l2)) = Ok l2.
Proof.
  unfold read_slots. rewrite !length_app.
  destruct (Z.leb_spec 0 (Z.of_nat (length l1))); [|lia].
  destruct (Z.leb_spec 0 (Z.of_nat (length l2))); [|lia].
  destruct (Z.leb_spec (Z.of_nat (length l1) + Z.of_nat (length l2))
              (Z.of_nat (length l1 + (length l2 + length l3)))); [|lia]. cbn [andb].
  by rewrite !Nat2Z.id, drop_app_length, take_app_length.
Qed.

Lemma read_slot_arep a l k :
  arep a l -> (k < length l)%nat -> read_slot (ut_d a) (Z.of_nat k) = deref (l !! k).
Proof.
  intros (_ & _ & _ & rest & -> & _) Hk. unfold read_slot.
  destruct (Z.leb_spec 0 (Z.of_nat k)); [|lia]. rewrite Nat2Z.id.
  rewrite lookup_app_l by (by rewrite length_fmap). rewrite list_lookup_fmap.
  by destruct (l !! k).
Qed.

Lemma read_all_arep a l :
  arep a l -> read_slots (ut_d a) 0 (ut_i a) = Ok (Some <$> l).
Proof.
  intros (-> & _ & _ & rest & -> & _).
  pose proof (read_slots_app [] (Some <$> l) rest) as H. by rewrite length_fmap in H.
Qed.

Lemma mapM_id_Some l : mapM id (Some <$> l) = Some l.
Proof. apply mapM_Some_2. induction l; constructor; auto. Qed.

(** Writing [xs] after the elements [l] of a prefix of the array. *)
Lemma arep_write a l0 l xs rest n i :
  capacity n -> 0 < ut_sz a < 2 ^ 32 -> i = Z.of_nat (length (l ++ xs)) ->
  ut_d a = (Some <$> l) ++ rest -> (length xs <= length rest)%nat ->
  Z.of_nat (length l + length rest) = n -> l0 = l ++ xs ->
  exists d, write_slots (ut_d a) (Z.of_nat (length l)) (Some <$> xs) = Ok d /\
            arep (UTArray i n (ut_sz a) d) l0.
Proof.
  intros Hc Hsz -> Hd Hlen Hn ->. rewrite Hd.
  pose proof (write_slots_app (Some <$> l) rest (Some <$> xs)) as H.
  rewrite !length_fmap in H. rewrite H by done. eexists. split; [reflexivity|].
  split_and!; cbn [ut_i ut_n ut_sz ut_d]; [done|done|lia|lia|].
  exists (drop (length xs) rest). rewrite fmap_app, <- app_assoc. split; [done|].
  rewrite length_app, length_drop. lia.
Qed.

Lemma write_slot_slots (d : list (option A)) k x :
  0 <= k -> write_slot d k x = write_slots d k [Some x].
Proof.
  intros Hk. unfold write_slot, write_slots. cbn [length].
  destruct (Z.leb_spec 0 k); [|lia]. cbn [andb].
  destruct (Z.ltb_spec k (Z.of_nat (length d))),
           (Z.leb_spec (k + Z.of_nat 1) (Z.of_nat (length d))); try lia; [|done].
  f_equal. rewrite insert_take_drop by lia. cbn [app]. do 2 f_equal. f_equal. lia.
Qed.

Lemma push_back_arep a l x :
  arep a l -> Z.of_nat (length l) < 2 ^ 31 ->
  exists a', utarray_push_back false a x = Ok (false, a') /\ arep a' (l ++ [x]).
Proof.
  intros Ha Hl. pose proof (arep_len _ _ Ha) as [_ Hi]. unfold utarray_push_back.
  rewrite u32_small by (unfold in_u32; lia).
  destruct (reserve_arep a l (ut_i a + 1) Ha) as (a' & -> & Ha' & Hn); [lia|].
  cbn [mbind outcome_bind]. destruct Ha' as (Hi' & Hc & Hsz & rest & Hd & Hlen).
  rewrite write_slot_slots by lia. rewrite u32_small by (unfold in_u32; lia). rewrite Hi'.
  destruct (arep_write a' (l ++ [x]) l [x] rest (ut_n a') (Z.of_nat (length l) + 1))
    as (d & E & H); [done..| |done| |done|done|];
    [rewrite length_app; cbn [length]; lia|cbn [length]; lia|].
  cbn [fmap list_fmap] in E. rewrite E. by eexists.
Qed.

Lemma pop_back_arep a l x : arep a (l ++ [x]) -> arep (utarray_pop_back a) l.
Proof.
  intros Ha. pose proof (arep_len _ _ Ha) as [Hb _].
  destruct Ha as (Hi & Hc & Hsz & rest & Hd & Hn).
  rewrite length_app in *. cbn [length] in *. unfold utarray_pop_back.
  split_and!; cbn [ut_i ut_n ut_sz ut_d]; [|done|lia|lia|].
  - rewrite Hi, u32_small; unfold in_u32; lia.
  - exists (Some x :: rest). split; [|cbn [length]; lia]. rewrite Hd, fmap_app, <- app_assoc. done.
Qed.

Lemma erase_arep a l1 x l2 :
  arep a (l1 ++ x :: l2) ->
  exists a', utarray_erase a (Z.of_nat (length l1)) 1 = Ok a' /\ arep a' (l1 ++ l2).
Proof.
  intros Ha. pose proof (arep_len _ _ Ha) as [Hb _].
  destruct Ha as (Hi & Hc & Hsz & rest & Hd & Hn). rewrite length_app in *. cbn [length] in *.
  unfold utarray_erase. rewrite u64_small by (unfold in_u64; lia).
  rewrite u32_small by (unfold in_u32; lia). rewrite Hi, Hd, Z.gtb_ltb.
  destruct (Z.ltb_spec (Z.of_nat (length l1) + 1) (Z.of_nat (length l1 + S (length l2)))) as [Hlt|Hge].
  - pose proof (read_slots_app (Some <$> (l1 ++ [x])) (Some <$> l2) rest) as Hr.
    rewrite !fmap_app, <- !app_assoc in Hr |- *. cbn [fmap list_fmap app] in Hr |- *.
    rewrite !length_app, !length_fmap in Hr. cbn [length] in Hr.
    replace (Z.of_nat (length l1) + 1) with (Z.of_nat (length l1 + 1)) by lia.
    replace (Z.of_nat (length l1 + S (length l2)) - Z.of_nat (length l1 + 1))
      with (Z.of_nat (length l2)) by lia.
    rewrite Hr. cbn [mbind outcome_bind].
    destruct (arep_write (UTArray 0 0 (ut_sz a) ((Some <$> l1) ++ Some x :: (Some <$> l2) ++ rest))
      (l1 ++ l2) l1 l2 (Some x :: (Some <$> l2) ++ rest) (ut_n a)
      (Z.of_nat (length l1 + S (length l2)) - 1))
      as (d & E & H); [done|done|rewrite length_app; lia|done| | |done|].
    1,2: cbn [length]; rewrite length_app, length_fmap; lia.
    cbn [ut_d ut_sz] in E, H. rewrite E. by eexists.
  - assert (l2 = []) as -> by (destruct l2; [done|cbn [length] in *; lia]).
    cbn [mbind outcome_bind]. eexists. split; [reflexivity|].
    rewrite app_nil_r. cbn [length] in *. split_and!; cbn [ut_i ut_n ut_sz ut_d]; [lia|done|lia|lia|].
    exists (Some x :: rest). rewrite fmap_app, <- app_assoc. split; [done|]. cbn [length]. lia.
Qed.

(** [resize] cuts the list or fills it with zeroed elements. *)
Definition list_resize (num : Z) l : list A :=
  take (Z.to_nat num) l ++ replicate (Z.to_nat num - length l) zeroed.

Lemma resize_arep a l num :
  arep a l -> 0 <= num <= 2 ^ 31 ->
  exists a', utarray_resize zeroed false a num = Ok (false, a') /\ arep a' (list_resize num l).
Proof.
  intros Ha Hnum. pose proof (arep_len _ _ Ha) as [Hb Hi]. unfold utarray_resize, list_resize.
  rewrite u32_small, Z.gtb_ltb by (unfold in_u32; lia).
  destruct (Z.ltb_spec num (ut_i a)) as [Hlt|Hge]; [|destruct (Z.ltb_spec (ut_i a) num) as [Hlt|Heq]].
  - eexists. split; [reflexivity|]. destruct Ha as (_ & Hc & Hsz & rest & Hd & Hn).
    replace (Z.to_nat num - length l)%nat with 0%nat by lia. rewrite app_nil_r.
    split_and!; cbn [ut_i ut_n ut_sz ut_d]; [rewrite length_take; lia|done|lia|lia|].
    exists ((Some <$> drop (Z.to_nat num) l) ++ rest).
    rewrite app_assoc, <- fmap_app, take_drop. split; [done|].
    rewrite length_app, length_fmap, length_take, length_drop. lia.
  - rewrite (u64_small (num - ut_i a)) by (unfold in_u64; lia).
    replace (ut_i a + (num - ut_i a)) with num by lia. rewrite u64_small by (unfold in_u64; lia).
    destruct (reserve_arep a l num Ha) as (a' & -> & Ha' & Hn'); [lia|]. cbn [mbind outcome_bind].
    destruct Ha' as (Hi' & Hc & Hsz & rest & Hd & Hlen). rewrite Hi'.
    rewrite u64_small by (unfold in_u64; lia).
    replace (Z.to_nat (num - Z.of_nat (length l))) with (Z.to_nat num - length l)%nat by lia.
    rewrite take_ge by lia.
    destruct (arep_write a' (l ++ replicate (Z.to_nat num - length l) zeroed) l
      (replicate (Z.to_nat num - length l) zeroed) rest (ut_n a') num) as (d & E & H);
      [done|done| |done| |done|done|].
    1: rewrite length_app, length_replicate; lia.
    1: rewrite length_replicate; lia.
    rewrite fmap_replicate in E. rewrite E. by eexists.
  - eexists. split; [reflexivity|]. replace num with (ut_i a) in * by lia.
    rewrite Hi, Nat2Z.id, Nat.sub_diag, take_ge, app_nil_r, <- Hi by lia. by destruct a.
Qed.

Lemma concat_arep a w l k :
  arep a l -> arep w k -> Z.of_nat (length l + length k) <= 2 ^ 31 ->
  exists a', utarray_concat zeroed false a w = Ok (false, a') /\ arep a' (l ++ k).
Proof.
  intros Ha Hw Hlen. pose proof (arep_len _ _ Ha) as [Hb Hi]. pose proof (arep_len _ _ Hw) as [_ Hiw].
  unfold utarray_concat, utarray_inserta, utarray_len.
  destruct (Z.eqb_spec (ut_i w) 0) as [H0|H0].
  { exists a. replace k with (@nil A) by (destruct k; [done|simpl in *; lia]). by rewrite app_nil_r. }
  rewrite Z.gtb_ltb, Z.ltb_irrefl. cbn [mbind outcome_bind].
  rewrite u32_small by (unfold in_u32; lia).
  destruct (reserve_arep a l (ut_i a + ut_i w) Ha) as (a' & -> & Ha' & Hn); [lia|].
  cbn [mbind outcome_bind]. destruct Ha' as (Hi' & Hc & Hsz & rest & Hd & Hl).
  rewrite Hi, Hi', Z.ltb_irrefl. cbn [mbind outcome_bind].
  rewrite (read_all_arep w k Hw). cbn [mbind outcome_bind].
  destruct (arep_write a' (l ++ k) l k rest (ut_n a') (Z.of_nat (length l) + ut_i w))
    as (d & E & H); [done|done|rewrite length_app; lia|done|lia|done|done|].
  rewrite u32_small, E by (unfold in_u32; lia). by eexists.
Qed.

Lemma overwrite_arep a l l' :
  arep a l -> length l' = length l ->
  exists d, write_slots (ut_d a) 0 (Some <$> l') = Ok d /\
            arep (UTArray (ut_i a) (ut_n a) (ut_sz a) d) l'.
Proof.
  intros (Hi & Hc & Hsz & rest & Hd & Hn) Hl.
  pose proof (arep_write (UTArray 0 0 (ut_sz a) (ut_d a)) l' [] l' (ut_d a) (ut_n a) (ut_i a)) as H.
  cbn [ut_sz ut_d] in H. apply H; [done|done|cbn [app]; lia|done| | |done].
  all: rewrite Hd, length_app, length_fmap; cbn [length]; lia.
Qed.

Lemma clear_arep a l : arep a l -> arep (utarray_clear a) [].
Proof.
  intros (Hi & Hc & Hsz & rest & Hd & Hn). unfold utarray_clear. rewrite Z.gtb_ltb.
  destruct (Z.ltb_spec 0 (ut_i a)).
  - split_and!; cbn [ut_i ut_n ut_sz ut_d]; [done|done|lia|lia|].
    exists (ut_d a). split; [done|]. rewrite Hd, length_app, length_fmap. simpl. lia.
  - assert (l = []) as -> by (destruct l; [done|cbn [length] in *; lia]).
    split_and!; [done|done|lia|lia|]. by exists rest.
Qed.

End representation.

(** ** Vectors as lists *)

Section refinement.
Context {A : Type} (zeroed : A) `{Qsort}.

(** The vector holds the list [l]. *)
Definition vrep (v : nrm_vector A) (l : list A) : Prop := arep (array v) l.

(** The operations that change a vector. *)
Inductive vec_op :=
| Op_push (x : A)
| Op_pop
| Op_take (pos : Z)
| Op_resize (newlen : Z)
| Op_clear
| Op_sort (cmp : A -> A -> Z).

(** An operation on the vector: its code, what it copies out, the vector. *)
Definition vec_step (v : nrm_vector A) (op : vec_op)
    : outcome (Z * option A * option (nrm_vector A)) :=
  match op with
  | Op_push x => '(rc, v) ← nrm_vector_push_back false (Some v) (Some x); Ok (rc, None, v)
  | Op_pop => '(rc, v, out) ← nrm_vector_pop_back (Some v) false; Ok (rc, out, v)
  | Op_take pos => '(rc, v, out) ← nrm_vector_take (Some v) pos false; Ok (rc, out, v)
  | Op_resize n => '(rc, v) ← nrm_vector_resize zeroed false (Some v) n; Ok (rc, None, v)
  | Op_clear => let '(rc, v) := nrm_vector_clear (Some v) in Ok (rc, None, v)
  | Op_sort cmp => '(rc, v) ← nrm_vector_sort (Some v) (Some cmp); Ok (rc, None, v)
  end.

(** What the operation promises on the list. *)
Definition list_step (l : list A) (op : vec_op) : Z * option A * list A :=
  match op with
  | Op_push x => (NRM_SUCCESS, None, l ++ [x])
  | Op_pop => match last l with
              | None => (- NRM_EDOM, None, l)
              | Some x => (NRM_SUCCESS, Some x, take (length l - 1) l)
              end
  | Op_take pos => match l !! Z.to_nat pos with
                   | None => (- NRM_EDOM, None, l)
                   | Some x => (NRM_SUCCESS, Some x, delete (Z.to_nat pos) l)
                   end
  | Op_resize n => (NRM_SUCCESS, None, list_resize zeroed n l)
  | Op_clear => (NRM_SUCCESS, None, [])
  | Op_sort cmp => (NRM_SUCCESS, None, qsort cmp l)
  end.

(** The arguments are in the range of their types, lengths stay within what
    [utarray_reserve] can serve, and comparisons are consistent. *)
Definition op_ok (l : list A) (op : vec_op) : Prop :=
  match op with
  | Op_push _ => Z.of_nat (length l) < 2 ^ 31
  | Op_take pos => in_u64 pos
  | Op_resize n => 0 <= n <= 2 ^ 31
  | Op_sort cmp => cmp_ok cmp l
  | _ => True
  end.

Lemma vec_step_refines v l op :
  vrep v l -> op_ok l op ->
  exists rc out v',
    vec_step v op = Ok (rc, out, Some v') /\
    list_step l op = (rc, out, (list_step l op).2) /\ vrep v' ((list_step l op).2).
Proof.
  unfold vrep. intros Hv Hok.
  pose proof (arep_len _ _ Hv) as [Hb Hi].
  destruct op as [x| |pos|n| |cmp]; cbn [vec_step list_step op_ok] in *.
  - unfold nrm_vector_push_back. destruct (push_back_arep _ _ x Hv Hok) as (a' & -> & Ha').
    by do 3 eexists.
  - unfold nrm_vector_pop_back, utarray_back. rewrite Hi.
    destruct l as [|x l _] using rev_ind; [by do 3 eexists|].
    rewrite last_snoc, length_app in *. cbn [length] in *.
    destruct (Z.eqb_spec (Z.of_nat (length l + 1)) 0); [lia|].
    rewrite u32_small by (unfold in_u32; lia).
    replace (Z.of_nat (length l + 1) - 1) with (Z.of_nat (length l)) by lia.
    rewrite (read_slot_arep _ _ _ Hv), list_lookup_middle by (rewrite ?length_app; simpl; lia).
    do 3 eexists. split; [reflexivity|]. split; [done|]. cbn [snd].
    replace (length l + 1 - 1)%nat with (length l) by lia. rewrite take_app_length.
    by eapply pop_back_arep.
  - unfold nrm_vector_take, utarray_eltptr. rewrite Hi. unfold in_u64 in Hok.
    destruct (Z.ltb_spec pos (Z.of_nat (length l))) as [Hlt|Hge].
    2:{ rewrite lookup_ge_None_2 by lia. by do 3 eexists. }
    assert (Hpos : pos = Z.of_nat (Z.to_nat pos)) by lia.
    destruct (lookup_lt_is_Some_2 l (Z.to_nat pos)) as [x Hx]; [lia|].
    rewrite Hx, Hpos, (read_slot_arep _ _ _ Hv), Nat2Z.id, Hx by lia. cbn [deref fmap outcome_fmap mbind outcome_bind].
    pose proof (take_drop_middle _ _ _ Hx) as Hl. rewrite <- Hl in Hv.
    destruct (erase_arep _ _ _ _ Hv) as (a' & E & Ha').
    rewrite length_take_le in E by lia. rewrite E. cbn [mbind outcome_bind].
    do 3 eexists. split; [reflexivity|]. split; [done|]. cbn [snd]. by rewrite delete_take_drop.
  - unfold nrm_vector_resize. destruct (resize_arep zeroed _ _ n Hv Hok) as (a' & -> & Ha').
    by do 3 eexists.
  - do 3 eexists. split; [reflexivity|]. split; [done|]. by eapply clear_arep.
  - unfold nrm_vector_sort. rewrite (read_all_arep _ _ Hv). cbn [mbind outcome_bind].
    rewrite mapM_id_Some. cbn [deref mbind outcome_bind].
    destruct (overwrite_arep _ _ (qsort cmp l) Hv) as (d & -> & Hd).
    { by apply Permutation_length, qsort_perm. }
    by do 3 eexists.
Qed.

(** A sequence of operations, with the codes and the elements they give. *)
Fixpoint vec_run (v : nrm_vector A) (ops : list vec_op)
    : outcome (list (Z * option A) * option (nrm_vector A)) :=
  match ops with
  | [] => Ok ([], Some v)
  | op :: ops =>
      '(rc, out, v) ← vec_step v op;
      v ← deref v;
      '(outs, v) ← vec_run v ops;
      Ok ((rc, out) :: outs, v)
  end.

Fixpoint list_run (l : list A) (ops : list vec_op) : list (Z * option A) * list A :=
  match ops with
  | [] => ([], l)
  | op :: ops => let '(rc, out, l) := list_step l op in
                 let '(outs, l) := list_run l ops in ((rc, out) :: outs, l)
  end.

Fixpoint ops_ok (l : list A) (ops : list vec_op) : Prop :=
  match ops with
  | [] => True
  | op :: ops => op_ok l op /\ ops_ok ((list_step l op).2) ops
  end.

(** C11: a vector behaves as a list: any sequence of push, pop, take, resize,
    clear and sort on a new vector returns the codes and elements that the
    operations on lists give, without undefined behaviour, and leaves a vector
    that holds the resulting list. *)
Theorem vector_refines_list sz ops :
  0 < sz < 2 ^ 32 -> ops_ok [] ops ->
  exists v v', nrm_vector_create false false false sz = (NRM_SUCCESS, Some v) /\
    vec_run v ops = Ok ((list_run [] ops).1, Some v') /\ vrep v' ((list_run [] ops).2).
Proof.
  intros Hsz Hops. eexists. unfold nrm_vector_create.
  destruct (Z.eqb_spec sz 0); [lia|]. cbn [orb].
  enough (Hgen : forall ops v l, vrep v l -> ops_ok l ops ->
    exists v', vec_run v ops = Ok ((list_run l ops).1, Some v') /\ vrep v' ((list_run l ops).2)).
  { destruct (Hgen ops (Vector (utarray_init sz) sz) []) as (v' & E & Hv'); [by apply arep_init|done|].
    exists v'. done. }
  clear. intros ops. induction ops as [|op ops IH]; intros v l Hv Hok; [by exists v|].
  destruct Hok as [Hop Hok].
  destruct (vec_step_refines v l op Hv Hop) as (rc & out & v1 & E & El & Hv1).
  destruct (IH v1 _ Hv1 Hok) as (v' & E' & Hv'). cbn [vec_run list_run]. rewrite E, El.
  cbn [mbind outcome_bind deref]. rewrite E'.
  destruct (list_run ((list_step l op).2) ops) as [outs l'] eqn:Er. cbn in *. eauto.
Qed.

(** The pointer loop of [find] on the slots from [k] on. *)
Lemma find_loop_arep (a : UT_array A) l key comp fuel k :
  arep a l -> (k < length l)%nat -> (length l - k <= fuel)%nat ->
  find_loop fuel a key comp (Some (Z.of_nat k)) =
  Ok ((fun p => Z.of_nat (k + p.1)) <$> list_find (fun x => comp key x = 0) (drop k l)).
Proof.
  intros Ha. pose proof (arep_len _ _ Ha) as [_ Hi].
  revert k; induction fuel as [|f IH]; intros k Hk Hf; [lia|]. cbn [find_loop].
  rewrite (read_slot_arep _ _ _ Ha Hk).
  destruct (lookup_lt_is_Some_2 l k Hk) as [x Hx]. rewrite Hx. cbn [deref mbind outcome_bind].
  rewrite (drop_S _ _ _ Hx). cbn [list_find].
  destruct (Z.eqb_spec (comp key x) 0) as [H0|H0].
  { rewrite decide_True by done. cbn. do 2 f_equal. lia. }
  rewrite decide_False by done. unfold utarray_next. rewrite Hi.
  destruct (Z.eqb_spec (Z.of_nat (length l)) (Z.of_nat k + 1)).
  - rewrite drop_ge by lia. by destruct f.
  - replace (Z.of_nat k + 1) with (Z.of_nat (S k)) by lia.
    rewrite IH by lia. f_equal. destruct (list_find _ _) as [[j y]|]; [|done]. cbn. do 2 f_equal. lia.
Qed.

Lemma foreach_loop_vrep {S} v l (body : S -> A -> outcome S) s fuel k :
  vrep v l -> (k < length l)%nat -> (length l - k <= fuel)%nat ->
  foreach_loop fuel v body s (Some (Z.of_nat k)) = mfold body s (drop k l).
Proof.
  intros Hv. pose proof (arep_len _ _ Hv) as [_ Hi].
  revert s k; induction fuel as [|f IH]; intros s k Hk Hf; [lia|]. cbn [foreach_loop].
  unfold nrm_vector_iterator_get. rewrite (read_slot_arep _ _ _ Hv Hk).
  destruct (lookup_lt_is_Some_2 l k Hk) as [x Hx]. rewrite Hx. cbn [deref mbind outcome_bind].
  rewrite (drop_S _ _ _ Hx). cbn [mfold].
  destruct (body s x) as [s'| | |]; cbn [mbind outcome_bind]; [|done..].
  unfold nrm_vector_iterator_next, utarray_next. rewrite Hi.
  destruct (Z.eqb_spec (Z.of_nat (length l)) (Z.of_nat k + 1)).
  - rewrite drop_ge by lia. by destruct f.
  - replace (Z.of_nat k + 1) with (Z.of_nat (Datatypes.S k)) by lia. apply IH; lia.
Qed.

(** The loop over a vector is a loop over its list; the components above
    use it in this form. *)
Lemma foreach_vrep {S} v l (body : S -> A -> outcome S) s :
  vrep v l -> nrm_vector_foreach v body s = mfold body s l.
Proof.
  intros Hv. pose proof (arep_len _ _ Hv) as [Hb Hi].
  unfold nrm_vector_foreach, nrm_vector_iterator_begin, utarray_front. rewrite Hi.
  destruct l as [|x l]; [done|]. cbn [length] in *.
  destruct (Z.eqb_spec (Z.of_nat (Datatypes.S (length l))) 0); [lia|].
  by rewrite (foreach_loop_vrep v (x :: l) body s _ 0) by (done || cbn [length]; lia).
Qed.

(** The operations that read a vector agree with the list it holds:
    the length, the element of an index or [-NRM_EDOM] past the end, the position
    of the first element equal to the key, and a loop over the elements in order
    that ends. *)
Theorem vector_observers v l key comp {S} (body : S -> A -> outcome S) s :
  vrep v l ->
  nrm_vector_length (Some v) false = (NRM_SUCCESS, Some (Z.of_nat (length l))) /\
  (forall i, in_u64 i ->
     match nrm_vector_get (Some v) i false with
     | (rc, Some p) => rc = NRM_SUCCESS /\ exists x, l !! Z.to_nat i = Some x
                                               /\ read_slot (ut_d (array v)) p = Ok x
     | (rc, None) => rc = - NRM_EDOM /\ l !! Z.to_nat i = None
     end) /\
  nrm_vector_find (Some v) (Some key) (Some comp) false =
    Ok match list_find (fun x => comp key x = 0) l with
       | Some (i, _) => (NRM_SUCCESS, Some (Z.of_nat i))
       | None => (- NRM_FAILURE, None)
       end /\
  nrm_vector_foreach v body s = mfold body s l.
Proof.
  intros Hv. pose proof (arep_len _ _ Hv) as [Hb Hi]. split_and!.
  - unfold nrm_vector_length, utarray_len. by rewrite Hi.
  - intros i Hr. unfold nrm_vector_get, utarray_eltptr. unfold in_u64 in Hr. rewrite Hi.
    destruct (Z.ltb_spec i (Z.of_nat (length l))) as [Hlt|Hge].
    + split; [done|]. destruct (lookup_lt_is_Some_2 l (Z.to_nat i)) as [x Hx]; [lia|].
      exists x. split; [done|]. replace i with (Z.of_nat (Z.to_nat i)) by lia.
      rewrite (read_slot_arep _ _ _ Hv) by lia. by rewrite Hx.
    + split; [done|]. apply lookup_ge_None_2. lia.
  - unfold nrm_vector_find, utarray_front. rewrite Hi.
    destruct l as [|x l]; [done|]. cbn [length] in *.
    destruct (Z.eqb_spec (Z.of_nat (Datatypes.S (length l))) 0); [lia|].
    rewrite (find_loop_arep (array v) (x :: l) key comp _ 0) by (done || cbn [length]; lia).
    rewrite drop_0. by destruct (list_find _ _) as [[j y]|].
  - by apply foreach_vrep.
Qed.

End refinement.

Lemma vector_refines_list_witness :
  let ops := [Op_push 5; Op_push 3; Op_sort (fun a b => a - b); Op_take 0; Op_pop; Op_pop] in
  ops_ok 0 [] ops /\
  exists v v', nrm_vector_create false false false 8 = (NRM_SUCCESS, Some v) /\
    vec_run 0 v ops = Ok ([(0, None); (0, None); (0, None); (0, Some 3); (0, Some 5); (-4, None)],
                          Some v') /\ vrep v' [].
Proof.
  intros ops. assert (Hok : ops_ok 0 [] ops).
  { cbn. unfold in_u64, cmp_ok. split_and!; lia. }
  split; [exact Hok|].
  destruct (vector_refines_list 0 8 ops) as (v & v' & H1 & H2 & H3); [lia|exact Hok|].
  assert (E : list_run 0 [] ops = ([(0, None); (0, None); (0, None); (0, Some 3); (0, Some 5);
                                    (-4, None)], [])) by (vm_compute; reflexivity).
  rewrite E in H2, H3. exists v, v'. split; [exact H1|]. split; [exact H2|exact H3].
Defined.

Lemma vector_observers_witness :
  let v := Vector (UTArray 2 8 8 (Some 7 :: Some 9 :: replicate 6 None)) 8 in
  vrep v [7; 9] /\
  nrm_vector_find (Some v) (Some 9) (Some (fun a b => a - b)) false = Ok (NRM_SUCCESS, Some 1) /\
  nrm_vector_foreach v (fun s x => Ok (s + x)) 0 = Ok 16.
Proof.
  intros v. assert (Hv : vrep v [7; 9]).
  { split_and!; cbn; [done|right; by exists 3|lia|lia|]. by exists (replicate 6 None). }
  split; [exact Hv|].
  destruct (vector_observers v [7; 9] 9 (fun a b => a - b) (fun s x => Ok (s + x)) 0 Hv)
    as (_ & _ & Hf & He).
  split; [exact Hf|exact He].
Defined.

(** The doubling loop of [utarray_reserve] ends within [reserve_fuel]
    iterations for every length up to 2^31, on a capacity that is large enough;
    beyond 2^31 the 32-bit capacity wraps to zero and no number of iterations
    reaches the length: the loop does not end. *)
Theorem reserve_loop_terminates need n :
  capacity n ->
  (need <= 2 ^ 31 ->
     exists n', reserve_loop reserve_fuel need n = Some n' /\ capacity n' /\ need <= n' /\ n <= n') /\
  (2 ^ 31 < need -> forall fuel, reserve_loop fuel need n = None).
Proof.
  intros Hc. split; [by apply reserve_loop_ok|]. intros Hneed fuel. revert n Hc.
  induction fuel as [|f IH]; intros n Hc; pose proof (capacity_bound n Hc);
    cbn [reserve_loop]; rewrite Z.gtb_ltb; destruct (Z.ltb_spec n need); try lia; [done|].
  by apply IH, capacity_next.
Qed.

Lemma reserve_loop_terminates_witness :
  capacity 8 /\ reserve_loop reserve_fuel 100 8 = Some 128 /\
  forall fuel, reserve_loop fuel (2 ^ 31 + 1) 8 = None.
Proof.
  assert (Hc : capacity 8) by (right; exists 3; split; [lia|reflexivity]).
  split; [exact Hc|]. split; [vm_compute; reflexivity|].
  apply (reserve_loop_terminates (2 ^ 31 + 1) 8 Hc). lia.
Defined.

(** When [realloc] fails the capacity has already been raised: the call returns
    [-NRM_ENOMEM] and the next [push_back] writes outside the buffer. *)
Theorem push_after_enomem :
  let v := Vector (utarray_init 8) 8 in
  exists v', nrm_vector_push_back true (Some v) (Some 1) = Ok (- NRM_ENOMEM, Some v') /\
             nrm_vector_push_back false (Some v') (Some 1) = Undefined.
Proof. exists (Vector (UTArray 0 8 8 []) 8). split; vm_compute; reflexivity. Qed.

(** A sorted vector is searched with [bsearch]: the position found holds an
    element equal to the key, and [-NRM_FAILURE] means that there is none. *)
Theorem vector_bsearch_spec {A} `{Bsearch} (v : nrm_vector A) l key comp :
  vrep v l -> partitioned comp key l ->
  exists rc pos, nrm_vector_bsearch (Some v) (Some key) (Some comp) false = Ok (rc, pos) /\
    match pos with
    | Some p => rc = NRM_SUCCESS /\ exists x, l !! Z.to_nat p = Some x /\ comp key x = 0
    | None => rc = - NRM_FAILURE /\ forall x, x ∈ l -> comp key x <> 0
    end.
Proof.
  intros Hv Hp. unfold nrm_vector_bsearch. rewrite (read_all_arep _ _ Hv). cbn [mbind outcome_bind].
  rewrite mapM_id_Some. cbn [deref mbind outcome_bind].
  destruct (bsearch comp key l) as [i|] eqn:E; do 2 eexists; (split; [reflexivity|]).
  - split; [done|]. rewrite Nat2Z.id. by eapply bsearch_found.
  - split; [done|]. by eapply bsearch_missing.
Qed.
