(* ===== verification/Doubles.v ===== *)
(** * C doubles

    A [double] is an IEEE 754 binary64 number of [SpecFloat]: executable,
    rounding to nearest even. The file defines the operations that the library
    uses, the comparison function of vectors.c, and the order on the numbers
    that are not NaN. *)

From Stdlib Require Export SpecFloat.
From S2P Require Import Prelude Vectors.

Definition prec : Z := 53.
Definition emax : Z := 1024.

Definition double : Type := spec_float.

Definition dlt (x y : double) : bool := SFltb x y.
Definition dle (x y : double) : bool := SFleb x y.
Definition deq (x y : double) : bool := SFeqb x y.
Definition dadd (x y : double) : double := SFadd prec emax x y.
Definition dsub (x y : double) : double := SFsub prec emax x y.
Definition dmul (x y : double) : double := SFmul prec emax x y.
Definition ddiv (x y : double) : double := SFdiv prec emax x y.
Definition fabs (x : double) : double := SFabs x.
Definition dopp (x : double) : double := SFopp x.

(** Conversion of an integer. *)
Definition d_of_Z (z : Z) : double := binary_normalize prec emax z 0 false.

Definition d0 : double := S754_zero false.
Definition DBL_MAX : double := S754_finite false (2 ^ 53 - 1)%positive 971.

Definition is_nan (x : double) : bool :=
  match x with S754_nan => true | _ => false end.

(** The comparison function of [qsort] for doubles (vectors.c). *)
Definition nrm_vector_sort_double_cmp (d1 d2 : double) : Z :=
  if dlt d1 d2 then -1 else if dlt d2 d1 then 1 else 0.

#[export] Instance double_eq_dec : EqDecision double.
Proof. solve_decision. Defined.
#[export] Instance double_inhabited : Inhabited double := populate d0.

(** ** The order *)

(** The position of a number that is not NaN: its class, exponent and
    mantissa. *)
Definition fkey (x : double) : Z * Z * Z :=
  match x with
  | S754_infinity true => (-2, 0, 0)
  | S754_finite true m e => (-1, - e, Zneg m)
  | S754_zero _ => (0, 0, 0)
  | S754_finite false m e => (1, e, Zpos m)
  | S754_infinity false => (2, 0, 0)
  | S754_nan => (0, 0, 0)
  end.

Definition key_lt (a b : Z * Z * Z) : Prop :=
  let '(a1, a2, a3) := a in let '(b1, b2, b3) := b in
  a1 < b1 \/ a1 = b1 /\ (a2 < b2 \/ a2 = b2 /\ a3 < b3).

Lemma dlt_key x y :
  is_nan x = false -> is_nan y = false -> dlt x y = true <-> key_lt (fkey x) (fkey y).
Proof.
  unfold dlt, SFltb, key_lt.
  destruct x as [[]|[]| |[] m1 e1], y as [[]|[]| |[] m2 e2]; intros; try discriminate; cbn;
    try (split; [discriminate||lia|lia||reflexivity]).
  all: change (PosDef.Pos.compare_cont Eq m1 m2) with (Pos.compare m1 m2);
       destruct (Z.compare_spec e1 e2), (Pos.compare_spec m1 m2); cbn; split; try discriminate; try lia; try reflexivity.
Qed.

Lemma dlt_irrefl x : dlt x x = false.
Proof.
  destruct (is_nan x) eqn:Hx; [by destruct x|].
  destruct (dlt x x) eqn:E; [|done]. apply dlt_key in E; [|done..].
  destruct (fkey x) as [[??]?]. cbn in E. lia.
Qed.

Lemma dlt_nan_l x y : is_nan x = true -> dlt x y = false.
Proof. by destruct x. Qed.
Lemma dlt_nan_r x y : is_nan y = true -> dlt x y = false.
Proof. destruct y; try done. by destruct x as [[]|[]| |[]]. Qed.

Lemma dlt_not_nan x y : dlt x y = true -> is_nan x = false /\ is_nan y = false.
Proof.
  intros H. split.
  - destruct (is_nan x) eqn:E; [|done]. by rewrite dlt_nan_l in H.
  - destruct (is_nan y) eqn:E; [|done]. by rewrite dlt_nan_r in H.
Qed.

Lemma dlt_trans x y z : dlt x y = true -> dlt y z = true -> dlt x z = true.
Proof.
  intros H1 H2. destruct (dlt_not_nan _ _ H1), (dlt_not_nan _ _ H2).
  rewrite dlt_key in * by done.
  destruct (fkey x) as [[??]?], (fkey y) as [[??]?], (fkey z) as [[??]?]. cbn in *. lia.
Qed.

Lemma dlt_asym x y : dlt x y = true -> dlt y x = false.
Proof.
  intros H. destruct (dlt y x) eqn:E; [|done].
  pose proof (dlt_trans _ _ _ H E) as Hx. by rewrite dlt_irrefl in Hx.
Qed.

(** Negative transitivity: [not <] is a total preorder away from NaN. *)
Lemma dlt_neg_trans x y z :
  is_nan y = false -> dlt x y = false -> dlt y z = false -> dlt x z = false.
Proof.
  intros Hy H1 H2. destruct (dlt x z) eqn:E; [|done].
  destruct (dlt_not_nan _ _ E) as [Hx Hz].
  assert (~ key_lt (fkey x) (fkey y)) by (rewrite <- dlt_key by done; congruence).
  assert (~ key_lt (fkey y) (fkey z)) by (rewrite <- dlt_key by done; congruence).
  rewrite dlt_key in E by done.
  destruct (fkey x) as [[??]?], (fkey y) as [[??]?], (fkey z) as [[??]?]. cbn in *. lia.
Qed.

Lemma dle_dlt x y : is_nan x = false -> is_nan y = false -> dle x y = negb (dlt y x).
Proof.
  unfold dle, dlt, SFleb, SFltb.
  destruct x as [[]|[]| |[] m1 e1], y as [[]|[]| |[] m2 e2]; intros; try discriminate; try done; cbn.
  all: change (PosDef.Pos.compare_cont Eq m1 m2) with (Pos.compare m1 m2);
       change (PosDef.Pos.compare_cont Eq m2 m1) with (Pos.compare m2 m1).
  all: rewrite (Z.compare_antisym e1 e2), (Pos.compare_antisym m1 m2).
  all: by destruct (e1 ?= e2), (Pos.compare m1 m2).
Qed.

(** The comparison function is consistent on vectors without NaN, so [qsort]
    sorts them. *)
Lemma double_cmp_ok (l : list double) :
  Forall (fun x => is_nan x = false) l -> cmp_ok nrm_vector_sort_double_cmp l.
Proof.
  intros Hl. rewrite Forall_forall in Hl. unfold nrm_vector_sort_double_cmp. split.
  - intros x y _ _. destruct (dlt x y) eqn:E1.
    + by rewrite (dlt_asym _ _ E1).
    + destruct (dlt y x); lia.
  - intros x y z Hx Hy Hz. destruct (dlt y x) eqn:E1, (dlt z y) eqn:E2.
    + rewrite (dlt_asym _ _ E1). lia.
    + rewrite (dlt_asym _ _ E1). lia.
    + rewrite (dlt_asym _ _ E2). lia.
    + intros _ _. pose proof (dlt_neg_trans _ _ _ (Hl _ Hy) E2 E1) as E3. rewrite E3.
      by destruct (dlt x z).
Qed.

(** ** Counting is exact

    The double of an integer below 2^53 has the integer's digits followed by
    zeros; adding 1 to it gives the double of the next integer. *)

Abbreviation digits p := (Zpos (digits2_pos p)) (only parsing).

Lemma digits_log2 p : digits p = Z.log2 (Zpos p) + 1.
Proof. induction p as [p IH|p IH|]; cbn [digits2_pos]; [..|done]; rewrite Pos2Z.inj_succ, IH; destruct p; cbn; lia. Qed.

Lemma iter_xO m j : Zpos (Pos.iter xO m j) = Zpos m * 2 ^ Zpos j.
Proof.
  induction j as [|j IH] using Pos.peano_ind; [rewrite Z.pow_1_r; cbn [Pos.iter]; lia|].
  rewrite Pos.iter_succ, Pos2Z.inj_succ, Z.pow_succ_r by lia. lia.
Qed.

Lemma digits_iter_xO m j : digits (Pos.iter xO m j) = digits m + Zpos j.
Proof. rewrite !digits_log2, iter_xO, Z.log2_mul_pow2 by lia. lia. Qed.

Lemma shl_align_value m e e' : e' <= e -> Zpos (fst (shl_align m e e')) = Zpos m * 2 ^ (e - e').
Proof.
  intros He. unfold shl_align. destruct (e' - e) as [|j|j] eqn:E; cbn [fst].
  - replace (e - e') with 0 by lia. lia.
  - lia.
  - rewrite iter_xO. do 2 f_equal. lia.
Qed.

Lemma fexp_normal e : -1074 <= e -> fexp prec emax (53 + e) = e.
Proof. unfold fexp, emin, prec, emax. lia. Qed.

(** Rounding what needs no rounding. *)
Lemma round_aux_exact m e :
  digits m = 53 -> -1074 <= e <= 971 ->
  binary_round_aux prec emax false (Zpos m) e loc_Exact = S754_finite false m e.
Proof.
  intros Hd He. unfold binary_round_aux, shr_fexp. cbn [shr_record_of_loc Zdigits2].
  rewrite Hd, fexp_normal, Z.sub_diag by lia. cbn [shr shr_m loc_of_shr_record round_nearest_even].
  cbn [shr_record_of_loc Zdigits2]. rewrite Hd, fexp_normal, Z.sub_diag by lia. cbn [shr shr_m].
  unfold emax, prec. destruct (Z.leb_spec e (1024 - 53)); [done|lia].
Qed.

(** Bits of value zero are shifted out exactly. *)
Lemma shr_zeros m n :
  SpecFloat.iter_pos shr_1 n (Build_shr_record (Zpos m * 2 ^ Zpos n) false false) = Build_shr_record (Zpos m) false false.
Proof.
  assert (Hiter : forall k x, SpecFloat.iter_pos shr_1 k x = Pos.iter shr_1 x k).
  { induction k as [k IH|k IH|]; intros x; cbn [SpecFloat.iter_pos]; [..|done].
    - rewrite !IH. cbn [Pos.iter]. by rewrite !Pos.iter_swap.
    - by rewrite !IH. }
  rewrite Hiter. clear Hiter. revert m. induction n as [|n IH] using Pos.peano_ind; intros m.
  - cbn [Pos.iter]. rewrite Z.pow_1_r, Z.mul_comm. reflexivity.
  - rewrite Pos.iter_succ, Pos2Z.inj_succ, Z.pow_succ_r by lia.
    replace (Zpos m * (2 * 2 ^ Zpos n)) with (Zpos m~0 * 2 ^ Zpos n) by lia. by rewrite IH.
Qed.

Lemma round_left p e :
  digits p <= 53 -> -1074 <= digits p + e - 53 -> digits p + e - 53 <= 971 ->
  exists m, binary_round prec emax false p e = S754_finite false m (digits p + e - 53) /\
            digits m = 53 /\ Zpos m = Zpos p * 2 ^ (53 - digits p).
Proof.
  intros Hd Hlo Hhi. unfold binary_round.
  assert (Hf : fexp prec emax (digits p + e) = digits p + e - 53)
    by (rewrite <- (fexp_normal (digits p + e - 53)) by lia; f_equal; lia).
  rewrite Hf.
  set (e' := digits p + e - 53).
  pose proof (shl_align_value p e e' ltac:(lia)) as Hv.
  destruct (shl_align p e e') as [m ez] eqn:E. cbn [fst] in Hv.
  assert (Hez : ez = e').
  { unfold shl_align in E. destruct (e' - e) eqn:Ee; injection E as _ <-; lia. }
  replace (e - e') with (53 - digits p) in Hv by lia.
  assert (Hm : digits m = 53).
  { rewrite !digits_log2, Hv, Z.log2_mul_pow2 by (rewrite ?digits_log2 in *; lia).
    rewrite digits_log2. lia. }
  subst ez. exists m. split; [|done]. apply round_aux_exact; [done|lia].
Qed.

Lemma round_right q m n e :
  digits m = 53 -> Zpos q = Zpos m * 2 ^ Zpos n -> -1074 <= e + Zpos n <= 971 ->
  binary_round prec emax false q e = S754_finite false m (e + Zpos n).
Proof.
  intros Hm Hq He. assert (Hd : digits q = 53 + Zpos n).
  { rewrite digits_log2 in Hm |- *. rewrite Hq, Z.log2_mul_pow2 by lia. lia. }
  unfold binary_round. rewrite Hd. replace (53 + Zpos n + e) with (53 + (e + Zpos n)) by lia.
  rewrite fexp_normal by lia. unfold shl_align. replace (e + Zpos n - e) with (Zpos n) by lia.
  unfold binary_round_aux, shr_fexp. cbn [shr_record_of_loc Zdigits2]. rewrite Hd.
  replace (53 + Zpos n + e) with (53 + (e + Zpos n)) by lia. rewrite fexp_normal by lia.
  replace (e + Zpos n - e) with (Zpos n) by lia. cbn [shr]. rewrite Hq, shr_zeros.
  cbn [shr_m loc_of_shr_record round_nearest_even shr_record_of_loc Zdigits2].
  rewrite Hm, fexp_normal, Z.sub_diag by lia. cbn [shr shr_m].
  unfold emax, prec. destruct (Z.leb_spec (e + Zpos n) (1024 - 53)); [done|lia].
Qed.

Lemma d_of_Z_succ k : 0 <= k < 2 ^ 53 - 1 -> dadd (d_of_Z k) (d_of_Z 1) = d_of_Z (k + 1).
Proof.
  intros [Hk0 Hk]. destruct k as [|p|p]; [reflexivity| |lia].
  assert (Hdig : forall q, Zpos q < 2 ^ 53 -> digits q <= 53).
  { intros q Hq. rewrite digits_log2. apply Z.log2_lt_pow2 in Hq; lia. }
  change (Zpos p + 1) with (Zpos (p + 1)). unfold d_of_Z at 1 3. cbn [binary_normalize].
  destruct (round_left p 0) as (m & -> & Hm & Hv); [apply Hdig; lia|lia|pose proof (Hdig p); lia|].
  destruct (round_left (p + 1) 0) as (m' & -> & Hm' & Hv'); [apply Hdig; lia|lia|pose proof (Hdig (p + 1)%positive); lia|].
  change (d_of_Z 1) with (S754_finite false (2 ^ 52)%positive (-52)). unfold dadd, SFadd.
  assert (Hp1 : 1 <= digits p) by lia. assert (Hp53 : digits p <= 53) by (apply Hdig; lia).
  assert (Hq53 : digits (p + 1) <= 53) by (apply Hdig; lia).
  rewrite Z.min_r by lia. cbn [cond_Zopp]. rewrite !shl_align_value by lia. rewrite Hv.
  rewrite <- Z.mul_assoc, <- Z.pow_add_r by lia.
  replace (53 - digits p + (digits p + 0 - 53 - -52)) with 52 by lia.
  replace (Zpos p * 2 ^ 52 + Zpos (2 ^ 52) * 2 ^ (-52 - -52)) with (Zpos (p + 1) * 2 ^ 52) by lia.
  assert (Hq : digits (p + 1) <> 1).
  { rewrite digits_log2. enough (1 <= Z.log2 (Zpos (p + 1))) by lia. apply Z.log2_le_pow2; lia. }
  destruct (digits (p + 1) - 1) as [|n|n] eqn:En; [lia| |lia].
  assert (Hsum : Zpos (p + 1) * 2 ^ 52 = Zpos m' * 2 ^ Zpos n).
  { rewrite Hv', <- Z.mul_assoc, <- Z.pow_add_r by lia. do 2 f_equal. lia. }
  destruct (Zpos (p + 1) * 2 ^ 52) as [|q|q] eqn:Eq; [lia| |lia]. cbn [binary_normalize].
  rewrite (round_right q m' n) by (done || lia). f_equal. lia.
Qed.

(** Counting from 0. *)
Lemma count_exact n : (Z.of_nat n < 2 ^ 53) -> Nat.iter n (fun x => dadd x (d_of_Z 1)) d0 = d_of_Z (Z.of_nat n).
Proof.
  induction n as [|n IH]; intros Hn; [reflexivity|].
  rewrite Nat.iter_succ, IH by lia. rewrite d_of_Z_succ by lia. f_equal. lia.
Qed.

Lemma d_of_Z_finite z : 0 < z < 2 ^ 53 -> exists m e, d_of_Z z = S754_finite false m e.
Proof.
  intros Hz. destruct z as [|p|p]; [lia| |lia]. unfold d_of_Z. cbn [binary_normalize].
  assert (Hd : digits p <= 53) by (rewrite digits_log2; assert (Z.log2 (Zpos p) < 53) by (apply Z.log2_lt_pow2; lia); lia).
  destruct (round_left p 0) as (m & -> & _); [done|lia|lia|]. by eexists _, _.
Qed.
