(* ===== verification/Runtime.v ===== *)
(** * Process-wide state (src/nrm.c, src/log.c, src/utils/error.c,
      src/utils/parsers.c)

    Error texts, the parsers of environment variables and arguments, the log
    level, and the global variables that [nrm_init] reads from the
    environment. *)

From Stdlib Require Import Ascii.
From S2P Require Import Prelude Decimal Vectors Doubles.

(** ** Error texts *)

Definition nrm_error_strings (err : Z) : option string :=
  match err with
  | 0 => Some "Success"%string
  | 1 => Some "Generic error"%string
  | 2 => Some "Not enough memory"%string
  | 3 => Some "Invalid argument"%string
  | 4 => Some "Value out of bound"%string
  | 6 => Some "Underlying resource is not available for operation"%string
  | 5 => Some "Operation not supported"%string
  | 7 => Some "Insufficient permissions"%string
  | 8 => Some "Value not found"%string
  | _ => None
  end.

(** Reading the table outside its entries is undefined. *)
Definition nrm_strerror (err : Z) : outcome string :=
  if (err <? 0) || (err >=? NRM_ERROR_MAX) then Ok "Unknown error"%string
  else deref (nrm_error_strings err).

(** The line that [nrm_perror] writes to the standard error. *)
Definition nrm_perror (nrm_errno : Z) (msg : string) : outcome string :=
  text ← nrm_strerror nrm_errno; Ok (msg ++ ":" ++ text ++ String "010" EmptyString)%string.

(** ** Parsers

    A parser returns its code and what it stores through its pointer. *)

Definition nrm_parse_int (str : list ascii) : Z * option Z :=
  let '(ret, errno) := strtol str in
  if errno then (- NRM_EINVAL, None)
  else if (ret <? INT_MIN) || (ret >? INT_MAX) then (- NRM_EDOM, None)
  else (0, Some (i32 ret)).

Definition nrm_parse_uint (str : list ascii) : Z * option Z :=
  let '(ret, errno) := strtol str in
  if errno then (- NRM_EINVAL, None)
  else if (ret <? 0) || (ret >? INT_MAX) then (- NRM_EDOM, None)
  else (0, Some (u32 ret)).

Definition nrm_parse_llu (str : list ascii) : Z * option Z :=
  let '(ret, errno, atstart) := strtoull str in
  if errno then (- NRM_EINVAL, None)
  else if (ret =? 0) && atstart then (- NRM_EINVAL, None)
  else (0, Some ret).

(** [strtod] gives the value, whether [errno] was set, and whether
    [endptr == str]. *)
Definition nrm_parse_double (strtod : list ascii -> double * bool * bool)
    (str : list ascii) : Z * option double :=
  let '(ret, errno, atstart) := strtod str in
  if errno then (- NRM_EINVAL, None)
  else if deq ret d0 && atstart then (- NRM_EINVAL, None)
  else (0, Some ret).

(** ** The log *)

Definition NRM_LOG_QUIET : Z := 0.
Definition NRM_LOG_ERROR : Z := 1.
Definition NRM_LOG_WARNING : Z := 2.
Definition NRM_LOG_NORMAL : Z := 3.
Definition NRM_LOG_INFO : Z := 4.
Definition NRM_LOG_DEBUG : Z := 5.

(** The globals of log.c; [log_out] is what has been written to the file, as
    the level and the text of each message. *)
Record log_state := Log {
  nrm_log_level : Z;
  nrm_log_initialized : bool;
  nrm_log_fd : option Z;
  nrm_log_namespace : string;
  log_out : list (string * string)
}.

Definition nrm_log_init (st : log_state) (f : option Z) (nm : option string)
    : Z * log_state :=
  match f, nm with
  | Some f, Some nm => (0, Log NRM_LOG_NORMAL true (Some f) nm (log_out st))
  | _, _ => (- NRM_EINVAL, st)
  end.

Definition nrm_log_setlevel (st : log_state) (level : Z) : Z * log_state :=
  let level := if level <? 0 then 0 else level in
  let level := if level >? NRM_LOG_DEBUG then NRM_LOG_DEBUG else level in
  (0, Log level (nrm_log_initialized st) (nrm_log_fd st) (nrm_log_namespace st) (log_out st)).

Definition nrm_log_level_string : list string :=
  ["quiet"; "error"; "warning"; "normal"; "info"; "debug"]%string.

Definition nrm_log_printf (st : log_state) (level : Z) (msg : string) : outcome log_state :=
  if level >? nrm_log_level st then Ok st
  else
    _ ← deref (nrm_log_fd st);
    label ← (if level <? 0 then Undefined else deref (nrm_log_level_string !! Z.to_nat level));
    Ok (Log (nrm_log_level st) (nrm_log_initialized st) (nrm_log_fd st) (nrm_log_namespace st)
            (log_out st ++ [(label, msg)])).

(** ** The global variables *)

Record globals := Globals {
  nrm_upstream_uri : list ascii;
  nrm_upstream_rpc_port : Z;
  nrm_upstream_pub_port : Z;
  nrm_ratelimit : Z;
  nrm_transmit : Z;
  nrm_timeout : Z
}.

Definition nrm_defaults : globals := {|
  nrm_upstream_uri := String.list_ascii_of_string "tcp://127.0.0.1";
  nrm_upstream_rpc_port := 3456;
  nrm_upstream_pub_port := 2345;
  nrm_ratelimit := 10000000;
  nrm_transmit := 1;
  nrm_timeout := 1000
|}.

(** One variable: parse it when it is set; [None] goes on, [Some err] returns. *)
Definition init_var (value : option (list ascii)) (parse : list ascii -> Z * option Z)
    (store : Z -> globals -> globals) (g : globals) : option Z * globals :=
  match value with
  | None => (None, g)
  | Some s => match parse s with
              | (0, Some v) => (None, store v g)
              | (err, _) => (Some err, g)
              end
  end.

(** The environment [getenv] reads. *)
Record environment := Env {
  env_uri : option (list ascii);
  env_rpc : option (list ascii);
  env_pub : option (list ascii);
  env_rate : option (list ascii);
  env_transmit : option (list ascii);
  env_timeout : option (list ascii)
}.

Definition set_rpc v g := Globals (nrm_upstream_uri g) v (nrm_upstream_pub_port g)
  (nrm_ratelimit g) (nrm_transmit g) (nrm_timeout g).
Definition set_pub v g := Globals (nrm_upstream_uri g) (nrm_upstream_rpc_port g) v
  (nrm_ratelimit g) (nrm_transmit g) (nrm_timeout g).
Definition set_rate v g := Globals (nrm_upstream_uri g) (nrm_upstream_rpc_port g)
  (nrm_upstream_pub_port g) v (nrm_transmit g) (nrm_timeout g).
Definition set_transmit v g := Globals (nrm_upstream_uri g) (nrm_upstream_rpc_port g)
  (nrm_upstream_pub_port g) (nrm_ratelimit g) v (nrm_timeout g).
Definition set_timeout v g := Globals (nrm_upstream_uri g) (nrm_upstream_rpc_port g)
  (nrm_upstream_pub_port g) (nrm_ratelimit g) (nrm_transmit g) v.

(** The variables in the order of the code, with their parsers. *)
Definition init_vars (env : environment)
    : list (option (list ascii) * (list ascii -> Z * option Z) * (Z -> globals -> globals)) :=
  [ (env_rpc env, nrm_parse_uint, set_rpc);
    (env_pub env, nrm_parse_uint, set_pub);
    (env_rate env, nrm_parse_llu, set_rate);
    (env_transmit env, nrm_parse_int, set_transmit);
    (env_timeout env, nrm_parse_uint, set_timeout) ].

Fixpoint init_run (g : globals)
    (vars : list (option (list ascii) * (list ascii -> Z * option Z) * (Z -> globals -> globals)))
    : Z * globals :=
  match vars with
  | [] => (0, g)
  | (value, parse, store) :: vars =>
      match init_var value parse store g with
      | (None, g) => init_run g vars
      | (Some err, g) => (err, g)
      end
  end.

(** [nrm_init] sets up the log for its own errors first. *)
Definition nrm_init (env : environment) (st : log_state) (stderr : Z) (g : globals)
    : Z * globals * log_state :=
  let st := if nrm_log_initialized st then st
            else snd (nrm_log_init st (Some stderr) (Some "libnrm"%string)) in
  let g := match env_uri env with
           | Some u => Globals u (nrm_upstream_rpc_port g) (nrm_upstream_pub_port g)
                         (nrm_ratelimit g) (nrm_transmit g) (nrm_timeout g)
           | None => g
           end in
  let '(err, g) := init_run g (init_vars env) in (err, g, st).

Definition nrm_finalize : Z := 0.

(** ** Properties *)

Lemma parse_int_dec z : in_i32 z -> nrm_parse_int (dec z) = (0, Some z).
Proof.
  unfold in_i32. intros Hz. unfold nrm_parse_int. rewrite strtol_dec by (unfold in_i64; lia).
  unfold INT_MIN, INT_MAX. rewrite Z.gtb_ltb. case_tests; try lia. cbn [orb].
  by rewrite i32_small by (unfold in_i32; lia).
Qed.

Lemma parse_uint_dec z : 0 <= z <= INT_MAX -> nrm_parse_uint (dec z) = (0, Some z).
Proof.
  unfold INT_MAX. intros Hz. unfold nrm_parse_uint. rewrite strtol_dec by (unfold in_i64; lia).
  unfold INT_MAX. rewrite Z.gtb_ltb. case_tests; try lia. cbn [orb].
  by rewrite u32_small by (unfold in_u32; lia).
Qed.

Lemma parse_llu_dec z : in_u64 z -> nrm_parse_llu (dec z) = (0, Some z).
Proof.
  unfold in_u64. intros Hz. unfold nrm_parse_llu, strtoull. rewrite scan_int_dec.
  unfold ULLONG_MAX. rewrite Z.abs_eq by lia. case_tests; try lia.
  - cbn [negb]. rewrite andb_false_r. by rewrite u64_small by (unfold in_u64; lia).
  - cbn [negb]. by rewrite u64_small by (unfold in_u64; lia).
Qed.

(** Every code has its text, and [nrm_perror] its line. *)
Lemma strerror_total err : exists s, nrm_strerror err = Ok s.
Proof.
  unfold nrm_strerror, NRM_ERROR_MAX. rewrite Z.geb_leb. case_tests; cbn [orb]; eauto.
  assert (err = 0 \/ err = 1 \/ err = 2 \/ err = 3 \/ err = 4 \/ err = 5 \/ err = 6 \/ err = 7
          \/ err = 8) by lia.
  intuition subst; cbn; eauto.
Qed.

(** With every variable set to the decimal text of a value in the range its
    parser accepts, [nrm_init] returns 0 and the globals hold those values; the
    log is initialised whatever it was. *)
Theorem nrm_init_roundtrip uri rpc pub rate transmit timeout st stderr g :
  0 <= rpc <= INT_MAX -> 0 <= pub <= INT_MAX -> in_u64 rate -> in_i32 transmit ->
  0 <= timeout <= INT_MAX ->
  exists st',
    nrm_init (Env (Some uri) (Some (dec rpc)) (Some (dec pub)) (Some (dec rate))
                  (Some (dec transmit)) (Some (dec timeout))) st stderr g
    = (0, Globals uri rpc pub rate transmit timeout, st') /\ nrm_log_initialized st' = true.
Proof.
  intros Hrpc Hpub Hrate Htr Hto. unfold nrm_init. cbn [env_uri init_vars init_run].
  unfold init_vars, env_rpc, env_pub, env_rate, env_transmit, env_timeout. cbn [init_run].
  unfold init_var. rewrite !parse_uint_dec, parse_llu_dec, parse_int_dec by done. cbn.
  eexists. split; [reflexivity|]. by destruct (nrm_log_initialized st) eqn:E.
Qed.

Lemma nrm_init_roundtrip_witness :
  exists st',
    nrm_init (Env (Some []) (Some (dec 1)) (Some (dec 2)) (Some (dec 3)) (Some (dec (-4)))
                  (Some (dec 5))) (Log 0 false None "" []) 2 nrm_defaults
    = (0, Globals [] 1 2 3 (-4) 5, st') /\ nrm_log_initialized st' = true.
Proof.
  apply (nrm_init_roundtrip [] 1 2 3 (-4) 5 (Log 0 false None "" []) 2 nrm_defaults);
    unfold INT_MAX, in_u64, in_i32; lia.
Defined.

