(* ===== verification/Ringbuffers.v ===== *)
(** * Ring buffers (src/utils/ringbuffer.c over include/internal/utringbuffer.h)

    [UT_ringbuffer] is modelled slot by slot. The theorem says that a ring
    buffer of capacity [n] holds the last [n] elements pushed, in order. *)

From S2P Require Import Prelude Vectors.

(** ** utringbuffer.h *)

(** [None] in [rb_d] stands for NULL: no memory was allocated. *)
Record UT_ringbuffer (A : Type) := UTRing {
  rb_i : Z;
  rb_n : Z;
  rb_f : bool;
  rb_sz : Z;
  rb_d : option (list (option A))
}.
Arguments UTRing {_} _ _ _ _ _.
Arguments rb_i {_} _.
Arguments rb_n {_} _.
Arguments rb_f {_} _.
Arguments rb_sz {_} _.
Arguments rb_d {_} _.

Section ringbuffer.
Context {A : Type}.
Implicit Types a : UT_ringbuffer A.

(** The result of [malloc] is not checked. *)
Definition utringbuffer_init (oom : bool) (n sz : Z) : UT_ringbuffer A :=
  let n := u32 n in
  UTRing 0 n false sz
    (if n =? 0 then None else if oom then None
     else Some (replicate (Z.to_nat (u64 (n * sz) / sz)) None)).

Definition utringbuffer_clear a : UT_ringbuffer A :=
  UTRing 0 (rb_n a) false (rb_sz a) (rb_d a).

Definition utringbuffer_push_back a (p : A) : outcome (UT_ringbuffer A) :=
  d ← deref (rb_d a);
  d ← write_slot d (rb_i a) p;
  let i := u32 (rb_i a + 1) in
  if i =? rb_n a then Ok (UTRing 0 (rb_n a) true (rb_sz a) (Some d))
  else Ok (UTRing i (rb_n a) (rb_f a) (rb_sz a) (Some d)).

Definition utringbuffer_len a : Z := if rb_f a then rb_n a else rb_i a.
Definition utringbuffer_empty a : bool := (rb_i a =? 0) && negb (rb_f a).
Definition utringbuffer_full a : bool := rb_f a.
Definition utringbuffer_real_idx a (j : Z) : Z :=
  if rb_f a then (j + rb_i a) mod rb_n a else j.

(** A pointer to an element is its slot. *)
Definition utringbuffer_eltptr a (j : Z) : option Z :=
  if j <? utringbuffer_len a then Some (utringbuffer_real_idx a j) else None.
Definition utringbuffer_back a : option Z :=
  if utringbuffer_empty a then None
  else utringbuffer_eltptr a (u32 (utringbuffer_len a - 1)).

(** ** ringbuffer.c *)

(** [oom1], [oom2] and [oom3] are the failures of the three allocations; the code
    checks the first only. *)
Definition nrm_ringbuffer_create (oom1 oom2 oom3 null : bool) (size element_size : Z)
    : outcome (Z * option (UT_ringbuffer A)) :=
  if null || (element_size =? 0) || (size =? 0) then Ok (- NRM_EINVAL, None)
  else if oom1 then Ok (- NRM_ENOMEM, None)
  else if oom2 then Undefined
  else Ok (NRM_SUCCESS, Some (utringbuffer_init oom3 size element_size)).

Definition nrm_ringbuffer_destroy (ringbuffer : option (option (UT_ringbuffer A)))
    : outcome (option (option (UT_ringbuffer A))) :=
  match ringbuffer with
  | None => Ok None
  | Some p => _ ← deref p; Ok (Some None)
  end.

Definition nrm_ringbuffer_length (ringbuffer : option (UT_ringbuffer A)) (length_null : bool)
    : Z * option Z :=
  match ringbuffer with
  | Some r => if length_null then (- NRM_EINVAL, None) else (NRM_SUCCESS, Some (utringbuffer_len r))
  | None => (- NRM_EINVAL, None)
  end.

Definition nrm_ringbuffer_get (ringbuffer : option (UT_ringbuffer A)) (index : Z) (out_null : bool)
    : Z * option Z :=
  match ringbuffer with
  | Some r => if out_null then (- NRM_EINVAL, None)
              else match utringbuffer_eltptr r index with
                   | None => (- NRM_EDOM, None)
                   | Some p => (NRM_SUCCESS, Some p)
                   end
  | None => (- NRM_EINVAL, None)
  end.

Definition nrm_ringbuffer_back (ringbuffer : option (UT_ringbuffer A)) (out_null : bool)
    : Z * option Z :=
  match ringbuffer with
  | Some r => if out_null then (- NRM_EINVAL, None)
              else match utringbuffer_back r with
                   | None => (- NRM_EDOM, None)
                   | Some p => (NRM_SUCCESS, Some p)
                   end
  | None => (- NRM_EINVAL, None)
  end.

Definition nrm_ringbuffer_push_back (ringbuffer : option (UT_ringbuffer A)) (element : option A)
    : outcome (Z * option (UT_ringbuffer A)) :=
  match ringbuffer, element with
  | Some r, Some x => r ← utringbuffer_push_back r x; Ok (NRM_SUCCESS, Some r)
  | _, _ => Ok (- NRM_EINVAL, ringbuffer)
  end.

Definition nrm_ringbuffer_isempty (ringbuffer : option (UT_ringbuffer A)) : Z :=
  match ringbuffer with None => 1 | Some r => c_bool (utringbuffer_empty r) end.

Definition nrm_ringbuffer_isfull (ringbuffer : option (UT_ringbuffer A)) : Z :=
  match ringbuffer with None => 0 | Some r => c_bool (utringbuffer_full r) end.

Definition nrm_ringbuffer_clear (ringbuffer : option (UT_ringbuffer A))
    : Z * option (UT_ringbuffer A) :=
  match ringbuffer with
  | None => (- NRM_EINVAL, None)
  | Some r => (0, Some (utringbuffer_clear r))
  end.

(** ** The elements a ring buffer holds *)

(** The last [n] elements of a list. *)
Definition lastn (n : nat) (l : list A) : list A := drop (length l - n) l.

(** The ring holds [l], oldest first: when it is full, from the next slot on
    and around. *)
Definition rrep a (l : list A) : Prop :=
  0 < rb_n a < 2 ^ 32 /\ 0 <= rb_i a < rb_n a /\
  exists d, rb_d a = Some d /\ Z.of_nat (length d) = rb_n a /\
    let k := Z.to_nat (rb_i a) in
    if rb_f a then Some <$> l = drop k d ++ take k d else Some <$> l = take k d.

Lemma rrep_length a l : rrep a l -> utringbuffer_len a = Z.of_nat (length l).
Proof.
  intros (Hn & Hi & d & _ & Hd & Hl). unfold utringbuffer_len.
  destruct (rb_f a); apply (f_equal length) in Hl; rewrite length_fmap in Hl;
    rewrite ?length_app, ?length_drop, length_take in Hl; lia.
Qed.

Lemma ring_init_rrep n sz :
  0 < n < 2 ^ 32 -> 0 < sz < 2 ^ 32 -> rrep (utringbuffer_init false n sz) [].
Proof.
  intros Hn Hsz. unfold utringbuffer_init. rewrite u32_small by (unfold in_u32; lia).
  destruct (Z.eqb_spec n 0); [lia|]. rewrite u64_small by (unfold in_u64; nia).
  rewrite Z.div_mul by lia.
  split; cbn [rb_n rb_i rb_f rb_d]; [lia|]. split; [lia|].
  eexists. split; [reflexivity|]. rewrite length_replicate. split; [lia|done].
Qed.

(** Pushing appends, and drops the oldest element of a full ring. *)
Lemma ring_push_rrep a l x :
  rrep a l -> exists a', utringbuffer_push_back a x = Ok a' /\ rb_n a' = rb_n a /\
                         rrep a' (lastn (Z.to_nat (rb_n a)) (l ++ [x])).
Proof.
  intros Hr. pose proof (rrep_length _ _ Hr) as Hlen. unfold utringbuffer_len in Hlen.
  destruct Hr as (Hn & Hi & d & Hd & Hdl & Hl).
  unfold utringbuffer_push_back, lastn. rewrite Hd. cbn [deref mbind outcome_bind].
  unfold write_slot. destruct (Z.leb_spec 0 (rb_i a)); [|lia].
  destruct (Z.ltb_spec (rb_i a) (Z.of_nat (length d))); [|lia]. cbn [andb mbind outcome_bind].
  rewrite u32_small by (unfold in_u32; lia). rewrite length_app. cbn [length].
  set (k := Z.to_nat (rb_i a)) in *.
  assert (Hins : <[k := Some x]> d = take k d ++ Some x :: drop (S k) d)
    by (apply insert_take_drop; lia).
  assert (Hk : (k < length d)%nat) by lia.
  assert (Htk : length (take k d) = k) by (rewrite length_take; lia).
  destruct (lookup_lt_is_Some_2 d k Hk) as [y Hy].
  assert (Hnew : Some <$> drop (length l + 1 - Z.to_nat (rb_n a)) (l ++ [x]) =
    if rb_f a then drop (S k) d ++ take k d ++ [Some x] else take k d ++ [Some x]).
  { rewrite fmap_drop, fmap_app. cbn [fmap list_fmap]. destruct (rb_f a).
    - replace (length l + 1 - Z.to_nat (rb_n a))%nat with 1%nat by lia.
      rewrite Hl, (drop_S _ _ _ Hy). cbn [app drop]. by rewrite <- app_assoc.
    - replace (length l + 1 - Z.to_nat (rb_n a))%nat with 0%nat by lia. by rewrite Hl. }
  destruct (Z.eqb_spec (rb_i a + 1) (rb_n a)) as [He|He];
    (eexists; split; [reflexivity|]); (split; [done|]); (split; [done|]); cbn [rb_n rb_i rb_f rb_d]; (split; [lia|]);
    (eexists; split; [reflexivity|]; rewrite length_insert; split; [done|]); cbn zeta; rewrite Hnew, Hins.
  - change (Z.to_nat 0) with 0%nat. rewrite drop_0, take_0, app_nil_r.
    rewrite (drop_ge d (S k)) by lia. by destruct (rb_f a).
  - replace (Z.to_nat (rb_i a + 1)) with (S k) by lia.
    assert (Htake : take (S k) (take k d ++ Some x :: drop (S k) d) = take k d ++ [Some x]).
    { rewrite take_app_ge by lia. replace (S k - length (take k d))%nat with 1%nat by lia. done. }
    assert (Hdrop : drop (S k) (take k d ++ Some x :: drop (S k) d) = drop (S k) d).
    { rewrite drop_app_ge by lia. replace (S k - length (take k d))%nat with 1%nat by lia. done. }
    rewrite Htake, Hdrop. by destruct (rb_f a).
Qed.

(** Reading an index finds the element of the list. *)
Lemma ring_get_rrep a l j :
  rrep a l -> 0 <= j ->
  match utringbuffer_eltptr a j with
  | Some p => exists x, l !! Z.to_nat j = Some x /\
                        (d ← deref (rb_d a); read_slot d p) = Ok x
  | None => l !! Z.to_nat j = None
  end.
Proof.
  intros Hr Hj. pose proof (rrep_length _ _ Hr) as Hlen. unfold utringbuffer_eltptr. rewrite Hlen.
  destruct (Z.ltb_spec j (Z.of_nat (length l))) as [Hlt|Hge]; [|apply lookup_ge_None_2; lia].
  destruct Hr as (Hn & Hi & d & Hd & Hdl & Hl). unfold utringbuffer_len in Hlen.
  destruct (lookup_lt_is_Some_2 l (Z.to_nat j)) as [x Hx]; [lia|].
  exists x. split; [done|]. rewrite Hd. cbn [deref mbind outcome_bind].
  unfold utringbuffer_real_idx, read_slot.
  assert (Hfx : (Some <$> l) !! Z.to_nat j = Some (Some x)) by (by rewrite list_lookup_fmap, Hx).
  cbn zeta in Hl. destruct (rb_f a).
  - destruct (Z.leb_spec 0 ((j + rb_i a) mod rb_n a));
      [|pose proof (Z.mod_pos_bound (j + rb_i a) (rb_n a)); lia].
    enough (d !! Z.to_nat ((j + rb_i a) mod rb_n a) = Some (Some x)) as -> by done.
    rewrite Hl in Hfx. apply lookup_app_Some in Hfx as [Hfx|[Hge Hfx]].
    + rewrite lookup_drop in Hfx. pose proof (lookup_lt_Some _ _ _ Hfx).
      rewrite Z.mod_small by lia. rewrite <- Hfx. f_equal. lia.
    + rewrite length_drop in *. apply lookup_take_Some in Hfx as [Hfx Hk].
      rewrite <- (Z.mod_add _ (-1)) by lia. rewrite Z.mod_small by lia.
      rewrite <- Hfx. f_equal. lia.
  - destruct (Z.leb_spec 0 j); [|lia]. rewrite Hl in Hfx.
    apply lookup_take_Some in Hfx as [-> _]. done.
Qed.

(** Pushing a list of elements. *)
Definition push_all a (xs : list A) : outcome (UT_ringbuffer A) :=
  mfold (fun r x => '(_, r) ← nrm_ringbuffer_push_back (Some r) (Some x); deref r) a xs.

Lemma lastn_lastn n (l k : list A) : lastn n (lastn n l ++ k) = lastn n (l ++ k).
Proof.
  unfold lastn. rewrite !length_app, length_drop.
  destruct (decide (length l <= n)%nat) as [Hle|Hgt].
  - replace (length l - n)%nat with 0%nat by lia. rewrite drop_0. f_equal. lia.
  - replace (length l - (length l - n) + length k - n)%nat with (length k) by lia.
    destruct (decide (length k <= n)%nat).
    + rewrite !drop_app_le by (rewrite ?length_drop; lia). rewrite drop_drop. do 2 f_equal. lia.
    + rewrite !drop_app_ge by (rewrite ?length_drop; lia). f_equal. rewrite length_drop. lia.
Qed.

Lemma push_all_rrep xs a l :
  rrep a l -> l = lastn (Z.to_nat (rb_n a)) l ->
  exists a', push_all a xs = Ok a' /\ rb_n a' = rb_n a /\
             rrep a' (lastn (Z.to_nat (rb_n a)) (l ++ xs)).
Proof.
  revert a l; induction xs as [|x xs IH]; intros a l Hr Hl.
  { exists a. rewrite app_nil_r, <- Hl. done. }
  destruct (ring_push_rrep a l x Hr) as (a1 & E & Hn & Hr1).
  destruct (IH a1 _ Hr1) as (a' & E' & Hn' & Hr').
  { rewrite Hn. pose proof (lastn_lastn (Z.to_nat (rb_n a)) (l ++ [x]) []) as H.
    by rewrite !app_nil_r in H. }
  exists a'. unfold push_all. cbn [mfold].
  assert (('(_, r) ← nrm_ringbuffer_push_back (Some a) (Some x); deref r) = Ok a1) as ->
    by (unfold nrm_ringbuffer_push_back; by rewrite E).
  split; [exact E'|]. split; [lia|].
  rewrite Hn, lastn_lastn, <- app_assoc in Hr'. done.
Qed.

(** C35: after any number of pushes, a ring buffer of capacity [size] holds the
    last [size] elements in the order they were pushed: the length, every index
    and the last element agree, past the end is [-NRM_EDOM], and no access leaves
    the buffer. *)
Theorem ringbuffer_holds_last size sz xs :
  0 < size < 2 ^ 32 -> 0 < sz < 2 ^ 32 ->
  let l := lastn (Z.to_nat size) xs in
  exists r0 r, nrm_ringbuffer_create false false false false size sz = Ok (NRM_SUCCESS, Some r0) /\
    push_all r0 xs = Ok r /\
    nrm_ringbuffer_length (Some r) false = (NRM_SUCCESS, Some (Z.of_nat (length l))) /\
    nrm_ringbuffer_isempty (Some r) = c_bool (bool_decide (xs = [])) /\
    forall j, in_u64 j ->
      match nrm_ringbuffer_get (Some r) j false with
      | (rc, Some p) => rc = NRM_SUCCESS /\ exists x, l !! Z.to_nat j = Some x /\
                          (d ← deref (rb_d r); read_slot d p) = Ok x
      | (rc, None) => rc = - NRM_EDOM /\ l !! Z.to_nat j = None
      end.
Proof.
  intros Hsize Hsz l. unfold nrm_ringbuffer_create.
  destruct (Z.eqb_spec sz 0), (Z.eqb_spec size 0); try lia. cbn [orb].
  pose proof (ring_init_rrep size sz Hsize Hsz) as H0.
  assert (Hn0 : rb_n (utringbuffer_init false size sz) = size)
    by (cbn; apply u32_small; unfold in_u32; lia).
  destruct (push_all_rrep xs _ [] H0) as (r & E & Hn & Hr); [by rewrite Hn0|].
  cbn [app] in Hr. rewrite Hn0 in Hr. fold l in Hr. rewrite Hn0 in Hn.
  eexists _, r. split; [reflexivity|]. split; [done|]. pose proof (rrep_length _ _ Hr) as Hlen.
  split_and!.
  - unfold nrm_ringbuffer_length. by rewrite Hlen.
  - cbn. unfold utringbuffer_empty. f_equal. destruct Hr as (_ & Hi & _).
    unfold utringbuffer_len in Hlen. subst l. unfold lastn in Hlen. rewrite length_drop in Hlen.
    destruct xs as [|x xs]; cbn [length] in Hlen.
    + rewrite bool_decide_true by done. destruct (rb_f r); [lia|]. by rewrite Hlen.
    + rewrite bool_decide_false by done. destruct (rb_f r); [by rewrite andb_false_r|].
      destruct (Z.eqb_spec (rb_i r) 0); [lia|done].
  - intros j Hj. unfold in_u64 in Hj. unfold nrm_ringbuffer_get.
    pose proof (ring_get_rrep r l j Hr) as Hget.
    destruct (utringbuffer_eltptr r j); (split; [done|]); apply Hget; lia.
Qed.

End ringbuffer.

Lemma ringbuffer_holds_last_witness :
  exists r0 r, nrm_ringbuffer_create false false false false 3 8 = Ok (NRM_SUCCESS, Some r0) /\
    push_all r0 [1; 2; 3; 4] = Ok r /\
    nrm_ringbuffer_length (Some r) false = (NRM_SUCCESS, Some 3).
Proof.
  destruct (ringbuffer_holds_last 3 8 [1; 2; 3; 4]) as (r0 & r & H1 & H2 & H3 & _); [lia..|].
  exists r0, r. split; [exact H1|]. split; [exact H2|exact H3].
Defined.
