(* ===== verification/Arrays.v ===== *)
(** * The other macros of the arrays (include/internal/utarray.h, utringbuffer.h)

    What Vectors and Ringbuffers do not call: insertion at an index, growing by one,
    creation and release of the arrays themselves, and the iteration in both
    directions, for arrays and for rings. The slots are those of Vectors and
    Ringbuffers; a pointer to an element is its slot. *)

From S2P Require Import Prelude Vectors Ringbuffers.

(** ** utarray.h *)

Section utarray.
Context {A : Type} (zeroed : A).
Implicit Types a : UT_array A.

(** [utarray_oom()] leaves the caller when there is no memory; the boolean tells. *)
Definition utarray_new (oom : bool) (sz : Z) : bool * option (UT_array A) :=
  if oom then (true, None) else (false, Some (utarray_init sz)).

(** The slots are released; the index stays. *)
Definition utarray_done a : UT_array A := UTArray (ut_i a) 0 (ut_sz a) [].

(** Released with its slots: nothing is left. *)
Definition utarray_free a : option (UT_array A) := let _ := utarray_done a in None.

Definition utarray_renew (oom : bool) (a : option (UT_array A)) (sz : Z) : bool * option (UT_array A) :=
  match a with
  | Some a => (false, Some (utarray_clear a))
  | None => utarray_new oom sz
  end.

(** Without an [init] function a new element is zeroed. *)
Definition utarray_extend_back (oom : bool) a : outcome (bool * UT_array A) :=
  '(err, a) ← utarray_reserve oom a (u32 (ut_i a + 1));
  if (err : bool) then Ok (true, a)
  else d ← write_slot (ut_d a) (ut_i a) zeroed;
       Ok (false, UTArray (u32 (ut_i a + 1)) (ut_n a) (ut_sz a) d).

(** [j] is an [unsigned]. *)
Definition utarray_insert (oom : bool) a (p : A) (j : Z) : outcome (bool * UT_array A) :=
  '(err, a) ← (if j >? ut_i a then utarray_resize zeroed oom a j else Ok (false, a));
  if (err : bool) then Ok (true, a) else
  '(err, a) ← utarray_reserve oom a (u32 (ut_i a + 1));
  if (err : bool) then Ok (true, a) else
  d ← (if j <? ut_i a then
         xs ← read_slots (ut_d a) j (ut_i a - j);
         write_slots (ut_d a) (u32 (j + 1)) xs
       else Ok (ut_d a));
  d ← write_slot d j p;
  Ok (false, UTArray (u32 (ut_i a + 1)) (ut_n a) (ut_sz a) d).

Definition utarray_prev a (e : option Z) : option Z :=
  match e with
  | None => utarray_back a
  | Some e => if e =? 0 then None else Some (e - 1)
  end.
End utarray.

(** ** utringbuffer.h *)

Section utringbuffer.
Context {A : Type}.
Implicit Types a : UT_ringbuffer A.

(** The result of [malloc] is not checked. *)
Definition utringbuffer_new (oom1 oom2 : bool) (n sz : Z) : outcome (UT_ringbuffer A) :=
  if oom1 then Undefined else Ok (utringbuffer_init oom2 n sz).

Definition utringbuffer_done a : UT_ringbuffer A :=
  let a := utringbuffer_clear a in UTRing (rb_i a) 0 (rb_f a) (rb_sz a) None.

Definition utringbuffer_free a : option (UT_ringbuffer A) := let _ := utringbuffer_done a in None.

(** From a slot back to an index, in the [size_t] of a difference of pointers. *)
Definition utringbuffer_fake_idx a (j : Z) : Z :=
  if rb_f a then u64 (u64 (j + rb_n a) - rb_i a) mod rb_n a else j.
Definition utringbuffer_eltidx a (e : Z) : Z := utringbuffer_fake_idx a e.

Definition utringbuffer_front a : option Z := utringbuffer_eltptr a 0.
Definition utringbuffer_next a (e : option Z) : option Z :=
  match e with
  | None => utringbuffer_front a
  | Some e => utringbuffer_eltptr a (u64 (utringbuffer_eltidx a e + 1))
  end.
Definition utringbuffer_prev a (e : option Z) : option Z :=
  match e with
  | None => utringbuffer_back a
  | Some e => utringbuffer_eltptr a (u64 (utringbuffer_eltidx a e - 1))
  end.
End utringbuffer.

(** ** Walks

    The slots that a loop [for (e = step(a, NULL); e != NULL; e = step(a, e))]
    visits, and [None] if it does not end within [fuel] elements. *)

Fixpoint walk (fuel : nat) (step : option Z -> option Z) (e : option Z) : option (list Z) :=
  match step e with
  | None => Some []
  | Some p => match fuel with O => None | S f => cons p <$> walk f step (Some p) end
  end.

Section walks.
Variables (step : option Z -> option Z) (slot : nat -> Z) (n : nat).
Definition nth_slot (k : nat) : option Z := if (k <? n)%nat then Some (slot k) else None.
Hypothesis step_start : step None = nth_slot 0.
Hypothesis step_next : forall k, (k < n)%nat -> step (Some (slot k)) = nth_slot (S k).

Lemma walk_from m k e : (k + m = n)%nat -> step e = nth_slot k -> walk m step e = Some (slot <$> seq k m).
Proof.
  revert k e. induction m as [|m IH]; intros k e Hk He; cbn [walk seq fmap list_fmap]; rewrite He; unfold nth_slot.
  - by destruct (Nat.ltb_spec k n); [lia|].
  - destruct (Nat.ltb_spec k n); [|lia]. rewrite (IH (S k)); [done|lia|]. apply step_next. lia.
Qed.

Lemma walk_all : walk n step None = Some (slot <$> seq 0 n).
Proof. by apply walk_from. Qed.
End walks.

(** The same slots, from the last to the first. *)
Lemma walk_back (step : option Z -> option Z) (slot : nat -> Z) n :
  step None = nth_slot (fun k => slot (n - 1 - k)%nat) n 0 ->
  (forall k, (k < n)%nat -> step (Some (slot k)) = if (k =? 0)%nat then None else Some (slot (k - 1)%nat)) ->
  walk n step None = Some (reverse (slot <$> seq 0 n)).
Proof.
  intros Hstart Hnext. rewrite (walk_all step (fun k => slot (n - 1 - k)%nat) n Hstart).
  - f_equal. apply list_eq. intros i. rewrite <- fmap_reverse, !list_lookup_fmap.
    destruct (decide (i < n)%nat) as [Hi|Hi].
    + rewrite reverse_lookup, length_seq, !lookup_seq_lt by (rewrite ?length_seq; lia). cbn. do 2 f_equal. lia.
    + rewrite !lookup_ge_None_2; [done|rewrite length_reverse, length_seq; lia|rewrite length_seq; lia].
  - intros k Hk. rewrite Hnext by lia. unfold nth_slot.
    destruct (Nat.eqb_spec (n - 1 - k) 0), (Nat.ltb_spec (S k) n); try lia; [done|]. do 2 f_equal. lia.
Qed.

(** ** Arrays *)

Section arrays.
Context {A : Type} (zeroed : A).
Implicit Types (a : UT_array A) (l : list A).

Lemma extend_back_push a : utarray_extend_back zeroed false a = utarray_push_back false a zeroed.
Proof. reflexivity. Qed.

(** The elements from [j] on move up by one slot. *)
Lemma insert_gap l1 l2 (rest : list (option A)) :
  (0 < length rest)%nat -> Z.of_nat (length (l1 ++ l2)) < 2 ^ 31 ->
  let d := (Some <$> (l1 ++ l2)) ++ rest in
  exists y rest', (if Z.of_nat (length l1) <? Z.of_nat (length (l1 ++ l2))
      then xs ← read_slots d (Z.of_nat (length l1)) (Z.of_nat (length (l1 ++ l2)) - Z.of_nat (length l1));
           write_slots d (u32 (Z.of_nat (length l1) + 1)) xs
      else Ok d) = Ok ((Some <$> l1) ++ y :: (Some <$> l2) ++ rest') /\ length rest = S (length rest').
Proof.
  intros Hrest Hl d. subst d. rewrite fmap_app, <- app_assoc, !length_app in *.
  destruct (Z.ltb_spec (Z.of_nat (length l1)) (Z.of_nat (length l1 + length l2))) as [Hlt|Hge].
  - pose proof (read_slots_app (Some <$> l1) (Some <$> l2) rest) as Hr. rewrite !length_fmap in Hr.
    replace (Z.of_nat (length l1 + length l2) - Z.of_nat (length l1)) with (Z.of_nat (length l2)) by lia.
    rewrite Hr. cbn [mbind outcome_bind]. destruct l2 as [|y l2]; [cbn [length] in *; lia|].
    pose proof (write_slots_app ((Some <$> l1) ++ [Some y]) ((Some <$> l2) ++ rest) (Some <$> y :: l2)) as Hw.
    rewrite !length_app, !length_fmap, <- !app_assoc in Hw. cbn [length app] in Hw, Hl.
    rewrite u32_small by (unfold in_u32; lia).
    replace (Z.of_nat (length l1) + 1) with (Z.of_nat (length l1 + 1)) by lia. rewrite fmap_cons in Hw |- *.
    cbn [app] in Hw |- *. rewrite Hw by lia.
    exists (Some y), (drop (S (length l2)) ((Some <$> l2) ++ rest)). split; [done|].
    rewrite length_drop, length_app, length_fmap. lia.
  - destruct l2; [|cbn [length] in *; lia]. destruct rest as [|y rest]; [cbn [length] in *; lia|].
    by exists y, rest.
Qed.

(** Inserting within the list, or at its end. *)
Lemma insert_within a l1 l2 x :
  arep a (l1 ++ l2) -> Z.of_nat (length (l1 ++ l2)) < 2 ^ 31 ->
  exists a', utarray_insert zeroed false a x (Z.of_nat (length l1)) = Ok (false, a') /\ arep a' (l1 ++ x :: l2).
Proof.
  intros Ha Hl. pose proof (arep_len _ _ Ha) as [_ Hi]. unfold utarray_insert. rewrite Z.gtb_ltb.
  destruct (Z.ltb_spec (ut_i a) (Z.of_nat (length l1))) as [Hlt|_]; [rewrite length_app in Hi; lia|].
  cbn [mbind outcome_bind]. rewrite (u32_small (ut_i a + 1)) by (unfold in_u32; lia).
  destruct (reserve_arep a _ (ut_i a + 1) Ha) as (a' & -> & (Hi' & Hc & Hsz & rest & Hd & Hn) & Hle); [lia|].
  cbn [mbind outcome_bind]. destruct (insert_gap l1 l2 rest) as (y & rest' & E & Hrest); [lia|done|].
  rewrite Hd, Hi', E. cbn [mbind outcome_bind]. rewrite write_slot_slots by lia.
  pose proof (write_slots_app (Some <$> l1) (y :: (Some <$> l2) ++ rest') [Some x]) as Hw.
  rewrite length_fmap in Hw. rewrite Hw by (cbn; lia). eexists. split; [reflexivity|].
  rewrite !length_app in *. split_and!; cbn [ut_i ut_n ut_sz ut_d]; [|done|lia|lia|].
  - rewrite u32_small; rewrite ?length_app; cbn [length]; unfold in_u32; lia.
  - exists rest'. rewrite fmap_app, fmap_cons, <- app_assoc. split; [done|]. rewrite length_app. cbn [length]. lia.
Qed.

(** Past the end the list is filled up first. *)
Lemma insert_past a l x j :
  arep a l -> Z.of_nat (length l) < j < 2 ^ 31 ->
  exists a', utarray_insert zeroed false a x j = Ok (false, a') /\ arep a' (list_resize zeroed j l ++ [x]).
Proof.
  intros Ha Hj. pose proof (arep_len _ _ Ha) as [_ Hi].
  destruct (resize_arep zeroed a l j Ha) as (a1 & E1 & Ha1); [lia|].
  assert (Hlen : Z.of_nat (length (list_resize zeroed j l)) = j).
  { unfold list_resize. rewrite length_app, length_take, length_replicate. lia. }
  destruct (insert_within a1 (list_resize zeroed j l) [] x) as (a' & E & Ha'); [by rewrite app_nil_r..| |].
  { rewrite app_nil_r. lia. }
  exists a'. split; [|done]. rewrite Hlen in E. revert E. unfold utarray_insert. rewrite !Z.gtb_ltb.
  pose proof (arep_len _ _ Ha1) as [_ Hi1]. rewrite Hi, Hi1, Hlen, Z.ltb_irrefl.
  destruct (Z.ltb_spec (Z.of_nat (length l)) j); [|lia]. by rewrite E1.
Qed.

(** Every array can be walked in both directions. *)
Lemma utarray_walks a l :
  arep a l ->
  walk (length l) (utarray_next a) None = Some (Z.of_nat <$> seq 0 (length l)) /\
  walk (length l) (utarray_prev a) None = Some (reverse (Z.of_nat <$> seq 0 (length l))).
Proof.
  intros Ha. pose proof (arep_len _ _ Ha) as [Hb Hi]. split.
  - apply walk_all; unfold nth_slot; [|intros k Hk]; cbn [utarray_next]; [unfold utarray_front|]; rewrite Hi.
    + by destruct l.
    + destruct (Z.eqb_spec (Z.of_nat (length l)) (Z.of_nat k + 1)), (Nat.ltb_spec (S k) (length l)); try lia;
        [done|]. f_equal. lia.
  - apply walk_back; [|intros k Hk]; cbn [utarray_prev].
    + unfold utarray_back, nth_slot. rewrite Hi. destruct l as [|y l]; [done|].
      cbn [length] in *. rewrite u32_small by (unfold in_u32; lia).
      destruct (Z.eqb_spec (Z.of_nat (S (length l))) 0), (Nat.ltb_spec 0 (S (length l))); try lia. f_equal. lia.
    + destruct (Z.eqb_spec (Z.of_nat k) 0), (Nat.eqb_spec k 0); try lia; [done|]. f_equal. lia.
Qed.
End arrays.

(** ** Rings *)

Section rings.
Context {A : Type}.
Implicit Types (a : UT_ringbuffer A) (l : list A).

(** The index of the slot of an index is the index. *)
Lemma ring_eltidx a l j :
  rrep a l -> 0 <= j < Z.of_nat (length l) -> utringbuffer_eltidx a (utringbuffer_real_idx a j) = j.
Proof.
  intros Hr Hj. pose proof (rrep_length _ _ Hr) as Hlen. destruct Hr as (Hn & Hi & _).
  unfold utringbuffer_len in Hlen. unfold utringbuffer_eltidx, utringbuffer_fake_idx, utringbuffer_real_idx.
  destruct (rb_f a); [|done]. pose proof (Z.mod_pos_bound (j + rb_i a) (rb_n a) ltac:(lia)).
  rewrite !u64_small by (unfold in_u64 in *; rewrite ?u64_small by (unfold in_u64; lia); lia).
  replace ((j + rb_i a) mod rb_n a + rb_n a - rb_i a) with ((j + rb_i a) mod rb_n a - rb_i a + 1 * rb_n a) by lia.
  rewrite Z.mod_add, Zminus_mod_idemp_l by lia. replace (j + rb_i a - rb_i a) with j by lia.
  apply Z.mod_small. lia.
Qed.

Lemma eltptr_nth a l k :
  rrep a l ->
  utringbuffer_eltptr a (Z.of_nat k) = nth_slot (fun k => utringbuffer_real_idx a (Z.of_nat k)) (length l) k.
Proof.
  intros Hr. unfold utringbuffer_eltptr, nth_slot. rewrite (rrep_length _ _ Hr).
  by destruct (Z.ltb_spec (Z.of_nat k) (Z.of_nat (length l))), (Nat.ltb_spec k (length l)); try lia.
Qed.

(** A ring can be walked from the oldest element to the newest, and back: the slots
    hold the elements of its list, in this order. *)
Theorem ring_walks a l d :
  rrep a l -> rb_d a = Some d ->
  exists slots, walk (length l) (utringbuffer_next a) None = Some slots /\
    walk (length l) (utringbuffer_prev a) None = Some (reverse slots) /\
    Forall2 (fun p x => read_slot d p = Ok x) slots l.
Proof.
  intros Hr Hd. pose proof (rrep_length _ _ Hr) as Hlen. pose proof Hr as (Hn & _).
  assert (Hb : Z.of_nat (length l) < 2 ^ 32).
  { rewrite <- Hlen. unfold utringbuffer_len. destruct Hr as (_ & Hi & _). destruct (rb_f a); lia. }
  exists ((fun k => utringbuffer_real_idx a (Z.of_nat k)) <$> seq 0 (length l)). split_and!.
  - apply walk_all; [exact (eltptr_nth a l 0 Hr)|]. intros k Hk. cbn [utringbuffer_next].
    rewrite (ring_eltidx a l), u64_small by (done || (unfold in_u64; lia) || lia).
    rewrite <- (eltptr_nth a l (S k) Hr). f_equal. lia.
  - apply walk_back; [|intros k Hk]; cbn [utringbuffer_prev].
    + unfold utringbuffer_back. assert (E : utringbuffer_empty a = (length l =? 0)%nat).
      { unfold utringbuffer_empty. unfold utringbuffer_len in Hlen. destruct (rb_f a); [|rewrite andb_true_r, Hlen];
          [rewrite andb_false_r; destruct (Nat.eqb_spec (length l) 0); [lia|done]|].
        by destruct (Z.eqb_spec (Z.of_nat (length l)) 0), (Nat.eqb_spec (length l) 0); try lia. }
      rewrite E, Hlen. unfold nth_slot. destruct (Nat.eqb_spec (length l) 0) as [E0|E0]; [by rewrite E0|].
      rewrite u32_small by (unfold in_u32; lia). destruct (Nat.ltb_spec 0 (length l)); [|lia].
      replace (Z.of_nat (length l) - 1) with (Z.of_nat (length l - 1)) by lia. rewrite (eltptr_nth a l _ Hr).
      unfold nth_slot. destruct (Nat.ltb_spec (length l - 1) (length l)); [|lia]. do 2 f_equal. lia.
    + rewrite (ring_eltidx a l) by (done || lia). destruct (Nat.eqb_spec k 0) as [->|Hk0].
      * unfold utringbuffer_eltptr. rewrite Hlen. change (u64 (Z.of_nat 0 - 1)) with (2 ^ 64 - 1).
        by destruct (Z.ltb_spec (2 ^ 64 - 1) (Z.of_nat (length l))); [lia|].
      * rewrite u64_small by (unfold in_u64; lia).
        replace (Z.of_nat k - 1) with (Z.of_nat (k - 1)) by lia. rewrite (eltptr_nth a l _ Hr).
        unfold nth_slot. by destruct (Nat.ltb_spec (k - 1) (length l)); [|lia].
  - apply Forall2_fmap_l, Forall2_same_length_lookup. rewrite length_seq. split; [done|].
    intros k i x Hi Hx. apply lookup_seq in Hi as [-> Hk]. cbn.
    pose proof (ring_get_rrep a l (Z.of_nat k) Hr ltac:(lia)) as Hget. rewrite (eltptr_nth a l k Hr) in Hget.
    unfold nth_slot in Hget. destruct (Nat.ltb_spec k (length l)); [|lia].
    destruct Hget as (x' & Hx' & E). rewrite Nat2Z.id in Hx'. rewrite Hd in E. cbn [deref mbind outcome_bind] in E. congruence.
Qed.
End rings.

(** A ring of three slots after four pushes, walked both ways. *)
Lemma ring_walks_witness :
  let a := UTRing 1 3 true 8 (Some [Some 4; Some 2; Some 3]) in
  exists slots, walk 3 (utringbuffer_next a) None = Some slots /\
    walk 3 (utringbuffer_prev a) None = Some (reverse slots) /\
    Forall2 (fun p x => read_slot [Some 4; Some 2; Some 3] p = Ok x) slots [2; 3; 4].
Proof.
  intros a. apply (ring_walks a [2; 3; 4]); [|reflexivity]. split; [cbn; lia|]. split; [cbn; lia|].
  eexists. split; [reflexivity|]. by split.
Defined.

(** Inserting past the end of an array fills it up with zeros. *)
Example insert_past_end :
  match utarray_insert 0 false (utarray_init 8) 7 2 with
  | Ok (false, a) => (ut_i a, ut_n a, take 3 (ut_d a)) = (3, 8, [Some 0; Some 0; Some 7])
  | _ => False
  end.
Proof. vm_compute. reflexivity. Qed.
