(* ===== verification/Strings.v ===== *)
(** * Reference counted strings (src/utils/strings.c) and uuids
      (src/utils/uuids.c)

    A string lives in a heap cell with its length, its memory and its reference
    count; a [nrm_string_t] is the cell's location. The operations pass the heap
    along; using a location whose cell is gone is undefined. *)

From Stdlib Require Import Ascii.
From S2P Require Import Prelude.

(** ** The heap *)

(** [struct nrm_realstring_s] and the characters that follow it. *)
Record realstring := Realstring { slen : Z; mlen : Z; rc : Z; chars : list ascii }.

Record heap := Heap { cells : gmap positive realstring; brk : positive }.

Abbreviation loc := positive (only parsing).

Definition put (h : heap) (l : loc) (r : realstring) : heap := Heap (<[l := r]> (cells h)) (brk h).

(** ** strings.c *)

Definition nrm_string_new (oom : bool) (h : heap) (slen : Z) : option loc * heap :=
  if oom then (None, h)
  else (Some (brk h),
        Heap (<[brk h := Realstring slen (slen + 1) 1
                           (replicate (Z.to_nat (slen + 1)) zero)]> (cells h))
             (Pos.succ (brk h))).

(** [memcpy(ret + off, src, n)] into the cell of [l]. *)
Definition string_write (h : heap) (l : loc) (off : Z) (src : list ascii) (n : Z)
    : outcome heap :=
  r ← deref (cells h !! l);
  if (n <=? Z.of_nat (length src)) && (off + n <=? Z.of_nat (length (chars r))) then
    Ok (put h l (Realstring (slen r) (mlen r) (rc r)
      (take (Z.to_nat off) (chars r) ++ take (Z.to_nat n) src
         ++ drop (Z.to_nat off + Z.to_nat n) (chars r))))
  else Undefined.

(** A C string is the list of its characters before the NUL. It has less than 2^31: the
    code takes its length from [snprintf], which returns an int. *)
Definition nrm_string_fromchar (oom : bool) (h : heap) (string : option (list ascii))
    : outcome (option loc * heap) :=
  match string with
  | None => Ok (None, h)
  | Some s =>
      let slen := Z.of_nat (length s) in
      match nrm_string_new oom h slen with
      | (None, h) => Ok (None, h)
      | (Some l, h) => h ← string_write h l 0 s slen; Ok (Some l, h)
      end
  end.

Definition nrm_string_frombuf (oom : bool) (h : heap) (buf : list ascii) (len : Z)
    : outcome (option loc * heap) :=
  match nrm_string_new oom h len with
  | (None, h) => Ok (None, h)
  | (Some l, h) => h ← string_write h l 0 buf len; Ok (Some l, h)
  end.

(** [text] is what the format and its arguments print. *)
Definition nrm_string_fromprintf (oom : bool) (h : heap) (text : list ascii)
    : outcome (option loc * heap) :=
  let slen := Z.of_nat (length text) in
  match nrm_string_new oom h slen with
  | (None, h) => Ok (None, h)
  | (Some l, h) =>
      r ← deref (cells h !! l);
      let shown := take (Z.to_nat (mlen r - 1)) text ++ [zero] in
      h ← string_write h l 0 shown (Z.of_nat (length shown)); Ok (Some l, h)
  end.

Definition nrm_string_incref (h : heap) (s : loc) : outcome heap :=
  r ← deref (cells h !! s);
  let ret := i32 (rc r) in
  let h := put h s (Realstring (slen r) (mlen r) (u32 (rc r + 1)) (chars r)) in
  _ ← c_assert (ret >? 0);
  Ok h.

Definition nrm_string_decref (h : heap) (s : loc) : outcome heap :=
  r ← deref (cells h !! s);
  let ret := i32 (u32 (rc r - 1)) in
  let h := put h s (Realstring (slen r) (mlen r) (u32 (rc r - 1)) (chars r)) in
  _ ← c_assert (ret >=? 0);
  if ret =? 0 then Ok (Heap (delete s (cells h)) (brk h)) else Ok h.

(** [strncmp] up to the sign of its result, on memory that holds a NUL. *)
Fixpoint strncmp (n : nat) (a b : list ascii) : outcome Z :=
  match n with
  | O => Ok 0
  | S n =>
      match a, b with
      | x :: a, y :: b =>
          if decide (x = y) then if decide (x = zero) then Ok 0 else strncmp n a b
          else Ok (if (nat_of_ascii x <? nat_of_ascii y)%nat then -1 else 1)
      | _, _ => Undefined
      end
  end.

Definition nrm_string_cmp (h : heap) (one two : option loc) : outcome Z :=
  match one, two with
  | None, None => Ok 0
  | Some l1, Some l2 =>
      r1 ← deref (cells h !! l1);
      r2 ← deref (cells h !! l2);
      strncmp (Z.to_nat (slen r1)) (chars r1) (chars r2)
  | _, _ => Ok 1
  end.

Definition nrm_string_strlen (h : heap) (s : option loc) : outcome Z :=
  match s with
  | None => Ok 0
  | Some l => r ← deref (cells h !! l); Ok (slen r)
  end.

(** [dest] is NULL or a pointer to a string; the result holds the new [*dest].
    The allocation is not checked: writing through NULL is undefined. *)
Definition nrm_string_join (oom : bool) (h : heap) (dest : option (option loc)) (c : ascii)
    (src : option loc) : outcome (Z * option loc * heap) :=
  match dest with
  | None => Ok (- NRM_EINVAL, None, h)
  | Some d =>
      match src with
      | None => Ok (0, d, h)
      | Some sl =>
          d ← deref d;
          r ← deref (cells h !! d);
          s ← deref (cells h !! sl);
          let '(t, h) := nrm_string_new oom h (slen r + slen s + 1) in
          ret ← deref t;
          h ← string_write h ret 0 (chars r) (slen r);
          h ← string_write h ret (slen r) [c] 1;
          h ← string_write h ret (slen r + 1) (chars s) (slen s);
          h ← nrm_string_decref h d;
          Ok (0, Some ret, h)
      end
  end.

(** The loop of [nrm_string_vjoin] over the elements of the vector. *)
Definition vjoin_step (c : ascii) (st : loc * heap) (s : loc) : outcome (loc * heap) :=
  let '(ret, h) := st in
  n ← nrm_string_strlen h (Some s);
  if n =? 0 then Ok (ret, h)
  else
    m ← nrm_string_strlen h (Some ret);
    if negb (m =? 0) then
      '(_, ret, h) ← nrm_string_join false h (Some (Some ret)) c (Some s);
      ret ← deref ret;
      Ok (ret, h)
    else h ← nrm_string_incref h s; Ok (s, h).

Definition nrm_string_vjoin (h : heap) (c : ascii) (strings : list loc) : outcome (loc * heap) :=
  '(ret, h) ← nrm_string_fromchar false h (Some []);
  ret ← deref ret;
  mfold (vjoin_step c) (ret, h) strings.

(** ** uuids.c

    A [nrm_uuid_t] is a string; the pointer to it is the option. *)

(** [zuuid] is the text of the random identifier that czmq generates. *)
Definition nrm_uuid_create (oom1 oom2 : bool) (h : heap) (zuuid : list ascii)
    : outcome (option (option loc) * heap) :=
  if oom1 then Ok (None, h)
  else '(s, h) ← nrm_string_fromchar oom2 h (Some zuuid); Ok (Some s, h).

Definition nrm_uuid_create_fromchar (oom1 oom2 : bool) (h : heap) (s : option (list ascii))
    : outcome (option (option loc) * heap) :=
  match s with
  | None => Ok (None, h)
  | Some s => if oom1 then Ok (None, h)
              else '(u, h) ← nrm_string_fromchar oom2 h (Some s); Ok (Some u, h)
  end.

Definition nrm_uuid_create_frombuf (oom1 oom2 : bool) (h : heap) (s : option (list ascii))
    (len : Z) : outcome (option (option loc) * heap) :=
  match s with
  | None => Ok (None, h)
  | Some s => if oom1 then Ok (None, h)
              else '(u, h) ← nrm_string_frombuf oom2 h s len; Ok (Some u, h)
  end.

(** A NULL string reaches [nrm_string_decref]. *)
Definition nrm_uuid_destroy (h : heap) (uuid : option (option (option loc))) : outcome heap :=
  match uuid with
  | Some (Some u) => l ← deref u; nrm_string_decref h l
  | _ => Ok h
  end.

Definition nrm_uuid_to_char (h : heap) (uuid : option loc) : option loc := uuid.

Definition nrm_uuid_to_string (h : heap) (uuid : option loc) : outcome (option loc * heap) :=
  match uuid with
  | None => Ok (None, h)
  | Some l => h ← nrm_string_incref h l; Ok (Some l, h)
  end.

Definition nrm_uuid_cmp (h : heap) (one two : option loc) : outcome Z := nrm_string_cmp h one two.

(** ** Representation *)

(** The cell holds the text [t], NUL terminated, with [n] references. *)
Definition holds (n : Z) (t : list ascii) : realstring :=
  Realstring (Z.of_nat (length t)) (Z.of_nat (length t) + 1) n (t ++ [zero]).

(** Locations from [brk] on are free. *)
Definition heap_wf (h : heap) : Prop := forall l, (brk h <= l)%positive -> cells h !! l = None.

Lemma replicate_snoc_zero n :
  0 <= n -> replicate (Z.to_nat (n + 1)) zero = replicate (Z.to_nat n) zero ++ [zero].
Proof.
  intros. replace (Z.to_nat (n + 1)) with (Z.to_nat n + 1)%nat by lia. by rewrite replicate_add.
Qed.

Lemma string_write_spec h l r off src n a b c :
  cells h !! l = Some r -> chars r = a ++ b ++ c -> Z.of_nat (length a) = off ->
  Z.of_nat (length b) = n -> n <= Z.of_nat (length src) ->
  string_write h l off src n =
  Ok (put h l (Realstring (slen r) (mlen r) (rc r) (a ++ take (Z.to_nat n) src ++ c))).
Proof.
  intros Hl Hr Ha Hb Hn. unfold string_write. rewrite Hl. cbn [deref mbind outcome_bind].
  rewrite Hr, !length_app.
  destruct (Z.leb_spec n (Z.of_nat (length src))); [|lia].
  destruct (Z.leb_spec (off + n) (Z.of_nat (length a + (length b + length c)))); [|lia].
  cbn [andb]. subst off n. rewrite !Nat2Z.id, take_app_length.
  by rewrite drop_app_add', drop_app_length by done.
Qed.

Lemma fromchar_spec h s :
  heap_wf h ->
  nrm_string_fromchar false h (Some s) =
  Ok (Some (brk h), Heap (<[brk h := holds 1 s]> (cells h)) (Pos.succ (brk h))).
Proof.
  intros Hwf. unfold nrm_string_fromchar, nrm_string_new. rewrite replicate_snoc_zero by lia.
  erewrite (string_write_spec _ _ _ 0 s (Z.of_nat (length s)) []
             (replicate (Z.to_nat (Z.of_nat (length s))) zero) [zero]);
    [|cbn; by rewrite lookup_insert_eq|done|done|by rewrite length_replicate, Nat2Z.id|done].
  cbn [mbind outcome_bind slen mlen rc put cells brk app]. unfold put. cbn [cells brk].
  rewrite insert_insert_eq, Nat2Z.id, take_ge by done. done.
Qed.

Lemma holds_inj n n' t t' : holds n t = holds n' t' -> n = n' /\ t = t'.
Proof.
  intros H. split; [apply (f_equal rc H)|].
  apply (f_equal chars) in H. cbn in H. by apply app_inj_2 in H as [-> _].
Qed.

Lemma fresh_lookup h l r : heap_wf h -> cells h !! l = Some r -> (l < brk h)%positive.
Proof.
  intros Hwf Hl. destruct (decide (brk h <= l)%positive) as [H|H]; [|lia].
  by rewrite (Hwf _ H) in Hl.
Qed.

Lemma heap_wf_put h l r : heap_wf h -> (l < brk h)%positive -> heap_wf (put h l r).
Proof. intros Hwf Hl k Hk. cbn in *. rewrite lookup_insert_ne by lia. by apply Hwf. Qed.

Lemma incref_spec h l n t :
  cells h !! l = Some (holds n t) -> 0 < n < 2 ^ 31 ->
  nrm_string_incref h l = Ok (put h l (holds (n + 1) t)).
Proof.
  intros Hl Hn. unfold nrm_string_incref. rewrite Hl. cbn [deref mbind outcome_bind holds rc].
  rewrite i32_small by (unfold in_i32; lia). rewrite u32_small by (unfold in_u32; lia).
  rewrite Z.gtb_ltb. by destruct (Z.ltb_spec 0 n); [|lia].
Qed.

(** The heap after a reference to [l] is dropped. *)
Definition dropped (h : heap) (l : loc) (n : Z) (t : list ascii) : heap :=
  if n =? 1 then Heap (delete l (cells h)) (brk h) else put h l (holds (n - 1) t).

Lemma decref_spec h l n t :
  cells h !! l = Some (holds n t) -> 0 < n < 2 ^ 31 ->
  nrm_string_decref h l = Ok (dropped h l n t).
Proof.
  intros Hl Hn. unfold nrm_string_decref, dropped. rewrite Hl.
  cbn [deref mbind outcome_bind holds rc].
  rewrite u32_small by (unfold in_u32; lia). rewrite i32_small by (unfold in_i32; lia).
  rewrite Z.geb_leb. destruct (Z.leb_spec 0 (n - 1)); [|lia]. cbn [c_assert mbind outcome_bind].
  destruct (Z.eqb_spec (n - 1) 0), (Z.eqb_spec n 1); try lia; [|done].
  unfold put. cbn [cells brk]. by rewrite delete_insert_eq.
Qed.

Lemma strlen_holds h l n t :
  cells h !! l = Some (holds n t) -> nrm_string_strlen h (Some l) = Ok (Z.of_nat (length t)).
Proof. intros Hl. unfold nrm_string_strlen. by rewrite Hl. Qed.

(** The text of a join, and the reference to the old destination dropped. *)
Lemma join_spec h d sl c n1 n2 t1 t2 :
  heap_wf h -> cells h !! d = Some (holds n1 t1) -> cells h !! sl = Some (holds n2 t2) ->
  0 < n1 < 2 ^ 31 ->
  nrm_string_join false h (Some (Some d)) c (Some sl) =
  Ok (0, Some (brk h),
      dropped (Heap (<[brk h := holds 1 (t1 ++ c :: t2)]> (cells h)) (Pos.succ (brk h))) d n1 t1).
Proof.
  intros Hwf Hd Hs Hn1. pose proof (fresh_lookup _ _ _ Hwf Hd) as Hlt.
  unfold nrm_string_join. cbn [deref mbind outcome_bind]. rewrite Hd. cbn [deref mbind outcome_bind].
  rewrite Hs. cbn [deref mbind outcome_bind nrm_string_new holds slen chars].
  set (k1 := length t1). set (k2 := length t2).
  replace (Z.to_nat (Z.of_nat k1 + Z.of_nat k2 + 1 + 1)) with (k1 + (1 + (k2 + 1)))%nat by lia.
  rewrite !replicate_add.
  set (r0 := Realstring (Z.of_nat k1 + Z.of_nat k2 + 1) (Z.of_nat k1 + Z.of_nat k2 + 1 + 1) 1).
  rewrite (string_write_spec _ _ (r0 (replicate k1 zero ++ replicate 1 zero ++ replicate k2 zero
             ++ replicate 1 zero)) 0 (t1 ++ [zero]) (Z.of_nat k1) [] (replicate k1 zero)
             (replicate 1 zero ++ replicate k2 zero ++ replicate 1 zero));
    [|cbn; by rewrite lookup_insert_eq|done|done|by rewrite length_replicate|rewrite length_app; lia].
  rewrite Nat2Z.id, take_app_length' by done. cbn [mbind outcome_bind slen mlen rc app].
  rewrite (string_write_spec _ _ (r0 (t1 ++ replicate 1 zero ++ replicate k2 zero
             ++ replicate 1 zero)) (Z.of_nat k1) [c] 1 t1 (replicate 1 zero)
             (replicate k2 zero ++ replicate 1 zero));
    [|cbn; by rewrite lookup_insert_eq|done|done|done|done].
  cbn [mbind outcome_bind slen mlen rc].
  rewrite (string_write_spec _ _ (r0 (t1 ++ take (Z.to_nat 1) [c] ++ replicate k2 zero
             ++ replicate 1 zero)) (Z.of_nat k1 + 1) (t2 ++ [zero]) (Z.of_nat k2) (t1 ++ [c])
             (replicate k2 zero) [zero]);
    [|cbn; by rewrite lookup_insert_eq|cbn; by rewrite <- app_assoc|rewrite length_app; cbn; lia
     |by rewrite length_replicate|rewrite length_app; lia].
  rewrite Nat2Z.id, take_app_length' by done. cbn [mbind outcome_bind slen mlen rc].
  erewrite decref_spec; [|cbn; rewrite !lookup_insert_ne by lia; exact Hd|done].
  unfold put. cbn [cells brk mbind outcome_bind]. rewrite !insert_insert_eq.
  subst r0. unfold holds at 1. rewrite length_app. cbn [length].
  do 4 f_equal. f_equal. cbn [slen mlen rc]. subst k1 k2. f_equal; [lia..|].
  by rewrite <- !app_assoc.
Qed.

(** ** Joining a vector of strings *)

(** The texts separated by [c]. *)
Definition join_texts (c : ascii) (ts : list (list ascii)) : list ascii :=
  match ts with
  | [] => []
  | t :: ts => t ++ (ts ≫= fun u => c :: u)
  end.

Definition nonempty (t : list ascii) : Prop := t <> [].
#[export] Instance nonempty_dec t : Decision (nonempty t).
Proof. unfold nonempty. apply _. Defined.

Lemma join_texts_snoc c ts t :
  join_texts c (ts ++ [t]) = if decide (ts = []) then t else join_texts c ts ++ c :: t.
Proof.
  destruct ts as [|u ts]; [simpl; by rewrite app_nil_r|].
  rewrite decide_False by done. cbn [app join_texts]. rewrite bind_app. cbn [mbind list_bind].
  by rewrite app_nil_r, app_assoc.
Qed.

Section vjoin.
Context (h0 : heap) (c : ascii) (Hwf0 : heap_wf h0).

(** What the loop has built: nothing yet; a reference to the only non-empty
    string; or a new string. *)
Definition vjoin_inv (ts : list (list ascii)) (ret : loc) (h : heap) : Prop :=
  heap_wf h /\ (brk h0 < brk h)%positive /\
  (forall l, (l < brk h0)%positive -> l <> ret -> cells h !! l = cells h0 !! l) /\
  ((ts = [] /\ ret = brk h0 /\ cells h !! ret = Some (holds 1 [])) \/
   (exists t n, ts = [t] /\ 0 < n < 2 ^ 31 - 1 /\ cells h0 !! ret = Some (holds n t) /\
                cells h !! ret = Some (holds (n + 1) t)) \/
   (ts <> [] /\ (brk h0 <= ret)%positive /\ cells h !! ret = Some (holds 1 (join_texts c ts)))).

Lemma join_texts_nonempty ts :
  Forall nonempty ts -> ts <> [] -> join_texts c ts <> [].
Proof.
  intros Hts Hne. destruct ts as [|t ts]; [done|]. apply Forall_cons in Hts as [Ht _].
  destruct t; [done|]. discriminate.
Qed.

Lemma vjoin_inv_ret ts ret h :
  vjoin_inv ts ret h -> exists k, cells h !! ret = Some (holds k (join_texts c ts)) /\ 0 < k < 2 ^ 31.
Proof.
  intros (_ & _ & _ & [(-> & _ & H)|[(t & n & -> & Hn & _ & H)|(_ & _ & H)]]).
  - exists 1. split; [done|lia].
  - exists (n + 1). cbn. rewrite app_nil_r. split; [done|lia].
  - exists 1. split; [done|lia].
Qed.

(** The cell of an element of the vector while the loop runs. *)
Lemma vjoin_inv_elem ts ret h s n t :
  vjoin_inv ts ret h -> cells h0 !! s = Some (holds n t) -> 
  exists m, cells h !! s = Some (holds m t) /\ (s <> ret -> m = n).
Proof.
  intros (_ & _ & Hold & Hcase) Hs. pose proof (fresh_lookup _ _ _ Hwf0 Hs) as Hlt.
  destruct (decide (s = ret)) as [->|Hne]; [|exists n; split; [by rewrite Hold|done]].
  destruct Hcase as [(_ & -> & _)|[(t' & n' & _ & _ & H0' & H)|(_ & Hge & _)]]; [lia| |lia].
  rewrite Hs in H0'. apply (inj Some), holds_inj in H0' as [_ ->]. by exists (n' + 1).
Qed.

(** The first non-empty string is shared. *)
Lemma vjoin_inv_share h s n t :
  vjoin_inv [] (brk h0) h -> cells h0 !! s = Some (holds n t) -> 0 < n < 2 ^ 31 - 1 ->
  vjoin_inv [t] s (put h s (holds (n + 1) t)).
Proof.
  intros (Hwf & Hbrk & Hold & _) Hs Hn. pose proof (fresh_lookup _ _ _ Hwf0 Hs) as Hslt. split_and!.
  - apply heap_wf_put; [done|lia].
  - done.
  - intros l Hl Hls. cbn. rewrite lookup_insert_ne by done. apply Hold; [done|lia].
  - right. left. exists t, n. cbn. rewrite lookup_insert_eq. done.
Qed.

(** The others are joined into a new string. *)
Lemma vjoin_inv_join ts ret h k t :
  vjoin_inv ts ret h -> ts <> [] -> nonempty t ->
  cells h !! ret = Some (holds k (join_texts c ts)) ->
  vjoin_inv (ts ++ [t]) (brk h)
    (dropped (Heap (<[brk h := holds 1 (join_texts c ts ++ c :: t)]> (cells h)) (Pos.succ (brk h))) ret k
       (join_texts c ts)).
Proof.
  intros (Hwf & Hbrk & Hold & Hcase) Hne Ht Hret. pose proof (fresh_lookup _ _ _ Hwf Hret) as Hrlt.
  unfold dropped. split_and!.
  - intros l Hl. destruct (k =? 1); cbn in *; [rewrite lookup_delete_ne, lookup_insert_ne by lia|
      rewrite !lookup_insert_ne by lia]; apply Hwf; lia.
  - destruct (k =? 1); cbn; lia.
  - intros l Hl Hls.
    destruct Hcase as [(? & _)|[(t' & n' & -> & Hn' & H0' & Hr')|(_ & Hge & Hr')]]; [done| |];
      rewrite Hret in Hr'; apply (inj Some), holds_inj in Hr' as [Hkn _].
    + destruct (Z.eqb_spec k 1); [lia|]. cbn [cells put]. destruct (decide (l = ret)) as [->|Hlr].
      * rewrite lookup_insert_eq. rewrite Hkn, H0'. cbn [join_texts mbind list_bind].
        rewrite app_nil_r. by replace (n' + 1 - 1) with n' by lia.
      * rewrite lookup_insert_ne, lookup_insert_ne by done. by apply Hold.
    + destruct (Z.eqb_spec k 1); [|lia]. cbn.
      rewrite lookup_delete_ne, lookup_insert_ne by lia. apply Hold; [done|lia].
  - right. right. split; [by destruct ts|]. split; [lia|]. rewrite join_texts_snoc, decide_False by done.
    destruct (k =? 1); cbn; [rewrite lookup_delete_ne by lia|rewrite lookup_insert_ne by lia];
      by rewrite lookup_insert_eq.
Qed.

Lemma vjoin_step_inv ts ret h s n t :
  vjoin_inv ts ret h -> Forall nonempty ts ->
  cells h0 !! s = Some (holds n t) -> 0 < n < 2 ^ 31 - 1 ->
  exists ret' h', vjoin_step c (ret, h) s = Ok (ret', h') /\
                  vjoin_inv (if decide (nonempty t) then ts ++ [t] else ts) ret' h'.
Proof.
  intros Hinv Hts Hs Hn. destruct (vjoin_inv_elem _ _ _ _ _ _ Hinv Hs) as (m & Hsm & Hm).
  destruct (vjoin_inv_ret _ _ _ Hinv) as (k & Hret & Hk). pose proof Hinv as (Hwf & _ & _ & Hcase).
  unfold vjoin_step. rewrite (strlen_holds _ _ _ _ Hsm). cbn [mbind outcome_bind].
  destruct (Z.eqb_spec (Z.of_nat (length t)) 0) as [H0|H0].
  { exists ret, h. split; [done|]. destruct t; [|cbn in H0; lia]. by rewrite decide_False by auto. }
  assert (Ht : nonempty t) by (intros ->; by apply H0). rewrite decide_True by done.
  rewrite (strlen_holds _ _ _ _ Hret). cbn [mbind outcome_bind].
  destruct (decide (ts = [])) as [->|Hne].
  - cbn [join_texts length]. rewrite Z.eqb_refl. cbn [negb].
    destruct Hcase as [(_ & -> & _)|[(? & ? & [=] & _)|(? & _)]]; [|done].
    pose proof (fresh_lookup _ _ _ Hwf0 Hs) as Hslt. assert (m = n) as -> by (apply Hm; lia).
    rewrite (incref_spec _ _ _ _ Hsm) by lia. eexists _, _. split; [reflexivity|]. by apply vjoin_inv_share.
  - pose proof (join_texts_nonempty ts Hts Hne) as Hj.
    destruct (Z.eqb_spec (Z.of_nat (length (join_texts c ts))) 0) as [Hz|Hz];
      [destruct (join_texts c ts); [done|cbn in Hz; lia]|]. cbn [negb].
    rewrite (join_spec _ _ _ _ _ _ _ _ Hwf Hret Hsm Hk). cbn [mbind outcome_bind deref].
    eexists _, _. split; [reflexivity|]. by apply vjoin_inv_join.
Qed.

(** The strings of the vector with their counts and texts. *)
Definition live (s : loc) (nt : Z * list ascii) : Prop :=
  cells h0 !! s = Some (holds nt.1 nt.2) /\ 0 < nt.1 < 2 ^ 31 - 1.

Lemma vjoin_loop ss nts ts ret h :
  vjoin_inv ts ret h -> Forall nonempty ts -> Forall2 live ss nts ->
  exists ret' h', mfold (vjoin_step c) (ret, h) ss = Ok (ret', h') /\
                  vjoin_inv (ts ++ filter nonempty (nts.*2)) ret' h'.
Proof.
  intros Hinv Hts Hss. revert ts ret h Hinv Hts.
  induction Hss as [|s [n t] ss nts [Hs Hn] _ IH]; intros ts ret h Hinv Hts.
  { exists ret, h. rewrite app_nil_r. done. }
  cbn [fst snd] in *.
  destruct (vjoin_step_inv ts ret h s n t Hinv Hts Hs Hn) as (r1 & h1 & E1 & Hinv1).
  cbn [mfold]. rewrite E1. cbn [mbind outcome_bind].
  rewrite fmap_cons, filter_cons. cbn [snd]. destruct (decide (nonempty t)) as [Ht|Ht].
  - destruct (IH _ _ _ Hinv1) as (r' & h' & E' & Hinv'); [by apply Forall_app; split; [|constructor]|].
    exists r', h'. split; [done|]. by rewrite <- app_assoc in Hinv'.
  - apply (IH _ _ _ Hinv1 Hts).
Qed.

End vjoin.

(** ** Reference counts *)

Inductive ref_op := Incref | Decref.

Definition ref_step (s : loc) (h : heap) (op : ref_op) : outcome heap :=
  match op with Incref => nrm_string_incref h s | Decref => nrm_string_decref h s end.

(** The count along a sequence of operations; [None] when the string is used
    after the last reference is gone, or counts leave the 31 bits. *)
Fixpoint ref_count (n : Z) (ops : list ref_op) : option Z :=
  match ops with
  | [] => Some n
  | op :: ops =>
      if (0 <? n) && (n <? 2 ^ 31 - 1)
      then ref_count (match op with Incref => n + 1 | Decref => n - 1 end) ops else None
  end.

(** The state of the cell of [s] with count [n]. *)
Definition cell_at (n : Z) (t : list ascii) : option realstring :=
  if n =? 0 then None else Some (holds n t).

Lemma ref_run s ops h n m t :
  cells h !! s = cell_at n t -> 0 <= n < 2 ^ 31 -> ref_count n ops = Some m ->
  exists h', mfold (ref_step s) h ops = Ok h' /\ cells h' !! s = cell_at m t /\
             forall l, l <> s -> cells h' !! l = cells h !! l.
Proof.
  revert h n; induction ops as [|op ops IH]; intros h n Hs Hn Hm; cbn in Hm.
  { injection Hm as ->. by exists h. }
  destruct (Z.ltb_spec 0 n), (Z.ltb_spec n (2 ^ 31 - 1)); cbn in Hm; try discriminate.
  unfold cell_at in Hs. destruct (Z.eqb_spec n 0); [lia|]. destruct op; cbn [mfold ref_step].
  - rewrite (incref_spec _ _ _ _ Hs) by lia. cbn [mbind outcome_bind].
    destruct (IH (put h s (holds (n + 1) t)) (n + 1)) as (h' & E & H1 & H2); [|lia|done|].
    { cbn [cells put]. rewrite lookup_insert_eq. unfold cell_at. by destruct (Z.eqb_spec (n + 1) 0); [lia|]. }
    exists h'. split_and!; [done..|]. intros l Hl. rewrite H2 by done. cbn [cells put].
    by rewrite lookup_insert_ne.
  - rewrite (decref_spec _ _ _ _ Hs) by lia. cbn [mbind outcome_bind].
    destruct (IH (dropped h s n t) (n - 1)) as (h' & E & H1 & H2); [|lia|done|].
    { unfold dropped, cell_at. destruct (Z.eqb_spec n 1), (Z.eqb_spec (n - 1) 0); try lia; cbn [cells put].
      - by rewrite lookup_delete_eq.
      - by rewrite lookup_insert_eq. }
    exists h'. split_and!; [done..|]. intros l Hl. rewrite H2 by done. unfold dropped.
    destruct (n =? 1); cbn [cells put]; [by rewrite lookup_delete_ne|by rewrite lookup_insert_ne].
Qed.

(** ** Properties *)

(** C40: a string lives exactly as long as it has references. For every sequence
    of [nrm_string_incref] and [nrm_string_decref] that does not use it after the
    last reference is dropped, no assertion fails, the text is unchanged while
    references remain, the memory is released by the last [nrm_string_decref], and
    no other string is touched. *)
Theorem string_refcount_lifetime h text ops m :
  heap_wf h -> ref_count 1 ops = Some m ->
  exists s h1 h2, nrm_string_fromchar false h (Some text) = Ok (Some s, h1) /\
    mfold (ref_step s) h1 ops = Ok h2 /\ cells h2 !! s = cell_at m text /\
    forall l, l <> s -> cells h2 !! l = cells h !! l.
Proof.
  intros Hwf Hm.
  destruct (ref_run (brk h) ops (Heap (<[brk h := holds 1 text]> (cells h)) (Pos.succ (brk h)))
              1 m text) as (h2 & E & H1 & H2); [cbn; by rewrite lookup_insert_eq|lia|done|].
  eexists _, _, h2. rewrite fromchar_spec by done. split_and!; [reflexivity|exact E|done|].
  intros l Hl. rewrite H2 by done. cbn. by rewrite lookup_insert_ne.
Qed.

Lemma string_refcount_lifetime_witness :
  exists s h1 h2, nrm_string_fromchar false (Heap ∅ 1) (Some ["a"]%char) = Ok (Some s, h1) /\
    mfold (ref_step s) h1 [Incref; Decref; Decref] = Ok h2 /\ cells h2 !! s = None.
Proof.
  destruct (string_refcount_lifetime (Heap ∅ 1) ["a"]%char [Incref; Decref; Decref] 0)
    as (s & h1 & h2 & H1 & H2 & H3 & _); [intros l _; apply lookup_empty|reflexivity|].
  exists s, h1, h2. split; [exact H1|]. split; [exact H2|exact H3].
Defined.

(** A string used after its last reference is gone is undefined behaviour. *)
Theorem string_use_after_free h s n t :
  cells h !! s = Some (holds n t) -> n = 1 ->
  exists h', nrm_string_decref h s = Ok h' /\ nrm_string_incref h' s = Undefined /\
             nrm_string_decref h' s = Undefined.
Proof.
  intros Hs ->. rewrite (decref_spec _ _ _ _ Hs) by lia. eexists. split; [reflexivity|].
  unfold nrm_string_incref, nrm_string_decref, dropped. cbn. by rewrite lookup_delete_eq.
Qed.

(** [nrm_string_vjoin] returns the non-empty strings of the vector in
    order, separated by the character, without undefined behaviour; the strings
    of the vector keep their text and their counts, except that the only
    non-empty string, if there is one, is the result itself with one more
    reference. *)
Theorem string_vjoin_spec h c ss nts :
  heap_wf h -> Forall2 (live h) ss nts ->
  exists ret h', nrm_string_vjoin h c ss = Ok (ret, h') /\
    (exists k, cells h' !! ret = Some (holds k (join_texts c (filter nonempty (nts.*2)))) /\ 0 < k < 2 ^ 31) /\
    forall l, l ∈ dom (cells h) -> l <> ret -> cells h' !! l = cells h !! l.
Proof.
  intros Hwf Hss. unfold nrm_string_vjoin. rewrite fromchar_spec by done.
  cbn [mbind outcome_bind deref].
  destruct (vjoin_loop h c Hwf ss nts [] (brk h)
    (Heap (<[brk h := holds 1 []]> (cells h)) (Pos.succ (brk h)))) as (ret & h' & E & Hinv);
    [|constructor|done|].
  { split_and!.
    - intros l Hl. cbn in *. rewrite lookup_insert_ne by lia. apply Hwf. lia.
    - cbn. lia.
    - intros l Hl Hne. cbn. by rewrite lookup_insert_ne.
    - left. cbn. by rewrite lookup_insert_eq. }
  exists ret, h'. split; [done|]. split.
  - by apply (vjoin_inv_ret _ _ _ _ _ Hinv).
  - intros l Hl Hne. apply elem_of_dom in Hl as [r Hr].
    destruct Hinv as (_ & _ & Hold & _). apply Hold; [by eapply fresh_lookup|done].
Qed.

Lemma string_vjoin_spec_witness :
  let h := Heap (<[1%positive := holds 1 ["a"]%char]> (<[2%positive := holds 1 []]>
                 (<[3%positive := holds 1 ["b"]%char]> ∅))) 4 in
  exists ret h', nrm_string_vjoin h ","%char [1; 2; 3]%positive = Ok (ret, h') /\
    exists k, cells h' !! ret = Some (holds k ["a"; ","; "b"]%char).
Proof.
  intros h. destruct (string_vjoin_spec h ","%char [1; 2; 3]%positive
    [(1, ["a"]%char); (1, []); (1, ["b"]%char)]) as (ret & h' & H1 & (k & H2 & _) & _).
  - intros l Hl. cbn in *. rewrite !lookup_insert_ne by lia. apply lookup_empty.
  - repeat constructor; try (cbn; lia); vm_compute; reflexivity.
  - exists ret, h'. split; [exact H1|]. by exists k.
Defined.

(** [nrm_string_cmp] compares the length of its first argument only: two strings
    compare equal exactly when the first is a prefix of the second. *)
Theorem string_cmp_prefix h l1 l2 n1 n2 t1 t2 :
  cells h !! l1 = Some (holds n1 t1) -> cells h !! l2 = Some (holds n2 t2) ->
  Forall (fun x => x <> zero) t1 -> Forall (fun x => x <> zero) t2 ->
  nrm_string_cmp h (Some l1) (Some l2) = Ok 0 <-> t1 `prefix_of` t2.
Proof.
  intros H1 H2 Hz1 Hz2. unfold nrm_string_cmp. rewrite H1, H2. cbn [deref mbind outcome_bind holds slen chars].
  rewrite Nat2Z.id. clear H1 H2. revert t2 Hz2. induction Hz1 as [|x t1 Hx _ IH]; intros t2 Hz2.
  { split; [intros _; apply prefix_nil|done]. }
  cbn [length app strncmp]. destruct t2 as [|y t2]; cbn [app].
  - rewrite decide_False by done. split; [|intros H; by apply prefix_nil_not in H].
    destruct (_ <? _)%nat; discriminate.
  - apply Forall_cons in Hz2 as [Hy Hz2]. destruct (decide (x = y)) as [->|Hne].
    + rewrite decide_False, IH by done. split; [apply prefix_cons|apply prefix_cons_inv_2].
    + split; [destruct (_ <? _)%nat; discriminate|]. intros H. by apply prefix_cons_inv_1 in H.
Qed.
