(* ===== verification/Hashes.v ===== *)
(** * Hash tables (src/utils/hashes.c)

    A [nrm_hash_t *] is the list of the elements of the table in the order in
    which uthash links them, which is the order of insertion; the empty list is
    the NULL pointer. Keys are the bytes of the uuid strings. *)

From S2P Require Import Prelude.

(** ** Elements *)

(** [struct nrm_hash_s] less its links: the uuid and the pointer. *)
Record nrm_hash_s (A : Type) := Elem { uuid : string; ptr : A }.
Arguments Elem {_} _ _.
Arguments uuid {_} _.
Arguments ptr {_} _.

Abbreviation nrm_hash A := (list (nrm_hash_s A)) (only parsing).

Section hashes.
Context {A : Type}.
Implicit Types table : nrm_hash A.

(** The bytes and the length that the macros hash: none for a NULL string. *)
Definition key_of (u : option string) : string := default ""%string u.

(** [HASH_FIND(hh, table, key, len, out)]. *)
Definition HASH_FIND table (key : string) : option (nrm_hash_s A) :=
  snd <$> list_find (fun e => uuid e = key) table.

(** [HASH_ADD_KEYPTR] appends to the list of the table. *)
Definition HASH_ADD table (e : nrm_hash_s A) : nrm_hash A := table ++ [e].

(** [HASH_DEL] unlinks the element found. *)
Fixpoint HASH_DEL table (key : string) : nrm_hash A :=
  match table with
  | [] => []
  | e :: table => if decide (uuid e = key) then table else e :: HASH_DEL table key
  end.

(** ** hashes.c *)

Definition nrm_hash_create_element (oom : bool) (u : string) (p : A)
    : Z * option (nrm_hash_s A) :=
  if oom then (- NRM_ENOMEM, None) else (NRM_SUCCESS, Some (Elem u p)).

Definition nrm_hash_add (oom : bool) table (u : option string) (p : A) : Z * nrm_hash A :=
  match HASH_FIND table (key_of u) with
  | Some _ => (- NRM_FAILURE, table)
  | None =>
      match nrm_hash_create_element oom (key_of u) p with
      | (_, Some local) => (NRM_SUCCESS, HASH_ADD table local)
      | (_, None) => (- NRM_ENOMEM, table)
      end
  end.

(** What [*ptr] is after [nrm_hash_remove]: NULL, or the element itself, whose
    memory has been released. *)
Inductive removed := Removed_null | Removed_dangling.

(** [HASH_FIND] is given the address of the parameter [uuid]: [at_uuid n] is the
    text that the [n] bytes of memory from there on hold. *)
Definition nrm_hash_remove (at_uuid : nat -> string) table (u : option string)
    : Z * removed * nrm_hash A :=
  match table, u with
  | [], _ => (- NRM_EINVAL, Removed_null, table)
  | _, None => (- NRM_EINVAL, Removed_null, table)
  | _, Some k =>
      let key := at_uuid (String.length k) in
      match HASH_FIND table key with
      | None => (NRM_SUCCESS, Removed_null, table)
      | Some _ => (NRM_SUCCESS, Removed_dangling, HASH_DEL table key)
      end
  end.

(** [HASH_ITER] with [HASH_DEL] of every element. *)
Definition nrm_hash_destroy (hash_table : option (nrm_hash A)) : option (nrm_hash A) :=
  match hash_table with
  | None => None
  | Some table => Some (foldl (fun t e => HASH_DEL t (uuid e)) table table)
  end.

Definition nrm_hash_find table (u : option string) (ptr_null : bool) : Z * option A :=
  match table, u with
  | [], _ => (- NRM_EINVAL, None)
  | _, None => (- NRM_EINVAL, None)
  | _, Some k =>
      if ptr_null then (- NRM_EINVAL, None)
      else match HASH_FIND table k with
           | None => (- NRM_ENOTFOUND, None)
           | Some tmp => (NRM_SUCCESS, Some (ptr tmp))
           end
  end.

(** uthash counts the elements in an [unsigned] int. *)
Definition nrm_hash_size table : Z * option Z :=
  match table with
  | [] => (- NRM_EINVAL, None)
  | _ => (NRM_SUCCESS, Some (u32 (Z.of_nat (length table))))
  end.

(** An iterator is the list from its element on. *)
Definition nrm_hash_iterator_begin table : nrm_hash A := table.
Definition nrm_hash_iterator_next (iterator : nrm_hash A) : outcome (nrm_hash A) :=
  match iterator with [] => Undefined | _ :: rest => Ok rest end.
Definition nrm_hash_iterator_get (iterator : nrm_hash A) : option A := ptr <$> head iterator.
Definition nrm_hash_iterator_get_uuid (iterator : nrm_hash A) : option string :=
  uuid <$> head iterator.

(** [nrm_hash_foreach(table, iterator)] with a body that gets the pointer. *)
Fixpoint foreach_hash {S} (body : S -> A -> outcome S) (s : S) (iterator : nrm_hash A) : outcome S :=
  match iterator with
  | [] => Ok s
  | _ :: rest =>
      p ← deref (nrm_hash_iterator_get iterator);
      s ← body s p;
      foreach_hash body s rest
  end.
Definition nrm_hash_foreach {S} table (body : S -> A -> outcome S) (s : S) : outcome S :=
  foreach_hash body s (nrm_hash_iterator_begin table).

(** Writing through the pointer that a lookup returned. *)
Definition hash_update table (key : string) (f : A -> A) : nrm_hash A :=
  (fun e => if decide (uuid e = key) then Elem (uuid e) (f (ptr e)) else e) <$> table.

(** ** A table as a finite map *)

(** No two elements have the same key. *)
Definition hash_wf table : Prop := NoDup (uuid <$> table).

Definition to_map table : gmap string A := list_to_map ((fun e => (uuid e, ptr e)) <$> table).

Lemma to_map_cons e table : to_map (e :: table) = <[uuid e := ptr e]> (to_map table).
Proof. done. Qed.

Lemma HASH_FIND_cons e table k :
  HASH_FIND (e :: table) k = if decide (uuid e = k) then Some e else HASH_FIND table k.
Proof.
  unfold HASH_FIND. cbn [list_find]. destruct (decide (uuid e = k)); [done|].
  by destruct (list_find _ table) as [[]|].
Qed.

Lemma HASH_FIND_map table k : ptr <$> HASH_FIND table k = to_map table !! k.
Proof.
  induction table as [|e table IH]; [done|]. rewrite HASH_FIND_cons, to_map_cons.
  destruct (decide (uuid e = k)) as [<-|Hne].
  - by rewrite lookup_insert_eq.
  - by rewrite lookup_insert_ne, IH.
Qed.

Lemma HASH_FIND_key table k e : HASH_FIND table k = Some e -> uuid e = k /\ e ∈ table.
Proof.
  unfold HASH_FIND. intros H. apply fmap_Some in H as ([i e'] & H & ->).
  apply list_find_Some in H as (Hi & Hk & _). split; [done|]. by eapply list_elem_of_lookup_2.
Qed.

Lemma HASH_FIND_None table k : HASH_FIND table k = None <-> k ∉ uuid <$> table.
Proof.
  induction table as [|e table IH]; [split; [set_solver|done]|]. rewrite HASH_FIND_cons, fmap_cons.
  destruct (decide (uuid e = k)); [split; [done|set_solver]|]. rewrite IH. set_solver.
Qed.

Lemma to_map_app table e :
  uuid e ∉ uuid <$> table -> to_map (table ++ [e]) = <[uuid e := ptr e]> (to_map table).
Proof.
  induction table as [|e' table IH]; intros Hn; [done|]. cbn [app]. rewrite !to_map_cons.
  rewrite fmap_cons, not_elem_of_cons in Hn. destruct Hn as [Hne Hn].
  rewrite IH by done. by rewrite insert_insert_ne.
Qed.

Lemma HASH_DEL_wf table k :
  hash_wf table ->
  hash_wf (HASH_DEL table k) /\ to_map (HASH_DEL table k) = delete k (to_map table) /\
  (uuid <$> HASH_DEL table k) ⊆ (uuid <$> table).
Proof.
  unfold hash_wf. induction table as [|e table IH]; intros Hwf.
  { split_and!; [done| |done]. unfold to_map. cbn. by rewrite delete_empty. }
  rewrite fmap_cons in Hwf. apply NoDup_cons in Hwf as [Hn Hwf].
  destruct (IH Hwf) as (H1 & H2 & H3). cbn [HASH_DEL]. destruct (decide (uuid e = k)) as [<-|Hne].
  - rewrite to_map_cons, delete_insert_id; [split_and!; [done|done|set_solver]|].
    rewrite <- HASH_FIND_map. by rewrite (proj2 (HASH_FIND_None _ _) Hn).
  - rewrite fmap_cons, !to_map_cons, H2, delete_insert_ne by done.
    split_and!; [apply NoDup_cons; split; [set_solver|done]|done|set_solver].
Qed.

(** A loop over the table is a loop over its pointers. *)
Lemma foreach_hash_mfold {S} (body : S -> A -> outcome S) s table :
  nrm_hash_foreach table body s = mfold body s (ptr <$> table).
Proof.
  unfold nrm_hash_foreach, nrm_hash_iterator_begin.
  revert s; induction table as [|e table IH]; intros s; [done|].
  cbn. destruct (body s (ptr e)); cbn; auto.
Qed.

(** ** Properties *)

Lemma to_map_size table : hash_wf table -> size (to_map table) = length table.
Proof.
  unfold hash_wf. induction table as [|e table IH]; intros Ht; [done|].
  rewrite fmap_cons in Ht. apply NoDup_cons in Ht as [Hn Ht]. rewrite to_map_cons.
  rewrite map_size_insert_None; [cbn [length]; by rewrite IH|].
  rewrite <- HASH_FIND_map. by rewrite (proj2 (HASH_FIND_None _ _) Hn).
Qed.

Lemma hash_add_wf table k p : hash_wf table -> HASH_FIND table k = None -> hash_wf (HASH_ADD table (Elem k p)).
Proof.
  intros Hwf Hn%HASH_FIND_None. unfold hash_wf, HASH_ADD. rewrite fmap_app.
  apply NoDup_app. split_and!; [done| |apply NoDup_singleton].
  intros x Hx Hx'. apply list_elem_of_singleton in Hx'. cbn in Hx'. by subst x.
Qed.

(** C21: a table without duplicate keys is a finite map in insertion order, on every
    branch. [nrm_hash_add] of a key that is present fails and changes nothing; without
    memory for the element it returns [-NRM_ENOMEM] and changes nothing; otherwise it
    adds the element last. [nrm_hash_find] refuses an empty table, a NULL uuid and a
    NULL result, and else is the map's lookup, with [-NRM_ENOTFOUND] for a missing
    key. [nrm_hash_size] refuses an empty table, and else counts the keys in 32
    bits. *)
Theorem hash_refines_map oom ptr_null table u p :
  hash_wf table ->
  (let '(rc, table') := nrm_hash_add oom table u p in
   hash_wf table' /\
   match to_map table !! key_of u with
   | Some _ => rc = - NRM_FAILURE /\ table' = table
   | None =>
       if oom then rc = - NRM_ENOMEM /\ table' = table
       else rc = NRM_SUCCESS /\ to_map table' = <[key_of u := p]> (to_map table) /\
            (uuid <$> table') = (uuid <$> table) ++ [key_of u]
   end) /\
  nrm_hash_find table u ptr_null =
    (if (size (to_map table) =? 0)%nat then (- NRM_EINVAL, None)
     else match u with
          | None => (- NRM_EINVAL, None)
          | Some k =>
              if ptr_null then (- NRM_EINVAL, None)
              else match to_map table !! k with
                   | Some q => (NRM_SUCCESS, Some q)
                   | None => (- NRM_ENOTFOUND, None)
                   end
          end) /\
  nrm_hash_size table =
    (if (size (to_map table) =? 0)%nat then (- NRM_EINVAL, None)
     else (NRM_SUCCESS, Some (u32 (Z.of_nat (size (to_map table)))))).
Proof.
  intros Hwf. rewrite (to_map_size table Hwf). split; [|split].
  - unfold nrm_hash_add. rewrite <- HASH_FIND_map.
    destruct (HASH_FIND table (key_of u)) as [e|] eqn:E; [done|]. cbn [fmap option_fmap option_map].
    destruct oom; [done|]. cbn [nrm_hash_create_element]. split; [by apply hash_add_wf|].
    apply HASH_FIND_None in E. unfold HASH_ADD. split; [done|]. by rewrite to_map_app, fmap_app.
  - unfold nrm_hash_find. destruct table as [|e table]; [done|]. cbn [length Nat.eqb].
    destruct u as [k|]; [|done]. rewrite <- HASH_FIND_map. destruct ptr_null; [done|].
    by destruct (HASH_FIND _ k).
  - by destruct table.
Qed.

(** [nrm_hash_remove] looks up the memory at the address of its parameter: unless
    the bytes there happen to be a key, it returns success, stores NULL and
    removes nothing. *)
Theorem hash_remove_ineffective at_uuid table u :
  table <> [] -> at_uuid (String.length u) ∉ uuid <$> table ->
  nrm_hash_remove at_uuid table (Some u) = (NRM_SUCCESS, Removed_null, table).
Proof.
  intros Hne Hn. unfold nrm_hash_remove. destruct table; [done|].
  by rewrite (proj2 (HASH_FIND_None _ _) Hn).
Qed.

(** When they are a key, the element of that key is removed, and the caller gets
    a pointer to released memory. *)
Theorem hash_remove_dangling at_uuid table u e :
  hash_wf table -> HASH_FIND table (at_uuid (String.length u)) = Some e ->
  exists table', nrm_hash_remove at_uuid table (Some u) = (NRM_SUCCESS, Removed_dangling, table')
    /\ hash_wf table' /\ to_map table' = delete (at_uuid (String.length u)) (to_map table).
Proof.
  intros Hwf Hf. unfold nrm_hash_remove. destruct table as [|e' t]; [done|]. rewrite Hf.
  eexists. split; [reflexivity|]. destruct (HASH_DEL_wf (e' :: t) (at_uuid (String.length u)) Hwf)
    as (H1 & H2 & _). done.
Qed.

Lemma hash_update_keys table k f : uuid <$> hash_update table k f = uuid <$> table.
Proof.
  unfold hash_update. rewrite <- list_fmap_compose. apply list_fmap_ext. intros _ e _. cbn.
  by case_decide.
Qed.

Lemma hash_update_find table k k' f :
  HASH_FIND (hash_update table k f) k' =
  (fun e => if decide (k = k') then Elem (uuid e) (f (ptr e)) else e) <$> HASH_FIND table k'.
Proof.
  induction table as [|e table IH]; [done|]. unfold hash_update. rewrite fmap_cons.
  fold (hash_update table k f). rewrite !HASH_FIND_cons, IH.
  destruct (decide (uuid e = k)), (decide (k = k')); cbn [uuid];
    destruct (decide (uuid e = k')); congruence || done.
Qed.

End hashes.

(** An element that is added, and one that there is no memory for. *)
Lemma hash_refines_map_witness :
  let table := [Elem "a"%string 1] in
  hash_wf table /\
  (let '(rc, table') := nrm_hash_add false table (Some "b"%string) 2 in
   rc = NRM_SUCCESS /\ to_map table' = <["b"%string := 2]> (to_map table)) /\
  (let '(rc, table') := nrm_hash_add true table (Some "b"%string) 2 in rc = - NRM_ENOMEM /\ table' = table) /\
  nrm_hash_find table (Some "a"%string) false = (NRM_SUCCESS, Some 1) /\
  nrm_hash_find table (Some "a"%string) true = (- NRM_EINVAL, None) /\
  nrm_hash_size table = (NRM_SUCCESS, Some 1).
Proof.
  intros table. assert (Hwf : hash_wf table) by apply NoDup_singleton.
  destruct (hash_refines_map false false table (Some "b"%string) 2 Hwf) as (H1 & _ & H3).
  destruct (hash_refines_map true true table (Some "b"%string) 2 Hwf) as (H2 & _ & _).
  destruct (hash_refines_map false false table (Some "a"%string) 2 Hwf) as (_ & H4 & _).
  destruct (hash_refines_map false true table (Some "a"%string) 2 Hwf) as (_ & H5 & _).
  destruct H1 as (_ & H1 & H1' & _), H2 as (_ & H2 & H2').
  split; [exact Hwf|]. split; [split; [exact H1|exact H1']|]. split; [split; [exact H2|exact H2']|].
  split; [exact H4|]. split; [exact H5|exact H3].
Defined.
