(* ===== verification/HashFunctions.v ===== *)
(** * The hash functions of uthash (src/include/internal/uthash.h)

    [HASH_VALUE] expands to [HASH_FUNCTION], which a user of uthash can define, and
    which is [HASH_JEN] in hashes.c. The tables are right for every hash function:
    Uthash has it as a class, of which the six functions of uthash are values.
    Their result is an [unsigned] integer, of 32 bits. *)

From S2P Require Import Prelude.

Class hash_function := {
  HASH_FUNCTION : string -> Z;
  HASH_FUNCTION_u32 : forall key, in_u32 (HASH_FUNCTION key)
}.

Definition key_bytes (key : string) : list Z :=
  (fun c => Z.of_N (Ascii.N_of_ascii c)) <$> String.list_ascii_of_string key.

(** ** Jenkins *)

Definition HASH_JEN_MIX (a b c : Z) : Z * Z * Z :=
  let a := u32 (a - b) in let a := u32 (a - c) in let a := Z.lxor a (Z.shiftr c 13) in
  let b := u32 (b - c) in let b := u32 (b - a) in let b := Z.lxor b (u32 (Z.shiftl a 8)) in
  let c := u32 (c - a) in let c := u32 (c - b) in let c := Z.lxor c (Z.shiftr b 13) in
  let a := u32 (a - b) in let a := u32 (a - c) in let a := Z.lxor a (Z.shiftr c 12) in
  let b := u32 (b - c) in let b := u32 (b - a) in let b := Z.lxor b (u32 (Z.shiftl a 16)) in
  let c := u32 (c - a) in let c := u32 (c - b) in let c := Z.lxor c (Z.shiftr b 5) in
  let a := u32 (a - b) in let a := u32 (a - c) in let a := Z.lxor a (Z.shiftr c 3) in
  let b := u32 (b - c) in let b := u32 (b - a) in let b := Z.lxor b (u32 (Z.shiftl a 10)) in
  let c := u32 (c - a) in let c := u32 (c - b) in let c := Z.lxor c (Z.shiftr b 15) in
  (a, b, c).

Definition word_of (b0 b1 b2 b3 : Z) : Z :=
  b0 + Z.shiftl b1 8 + Z.shiftl b2 16 + Z.shiftl b3 24.

(** The [switch] on the number of bytes left, whose cases fall through: the byte
    [n] is added when there are more than [n]. *)
Definition jen_tail (i j hashv : Z) (bytes : list Z) : Z * Z * Z :=
  let add v n shift :=
    match bytes !! n with Some byte => u32 (v + u32 (Z.shiftl byte shift)) | None => v end in
  let hashv := add hashv 10%nat 24 in
  let hashv := add hashv 9%nat 16 in
  let hashv := add hashv 8%nat 8 in
  let j := add j 7%nat 24 in
  let j := add j 6%nat 16 in
  let j := add j 5%nat 8 in
  let j := add j 4%nat 0 in
  let i := add i 3%nat 24 in
  let i := add i 2%nat 16 in
  let i := add i 1%nat 8 in
  let i := add i 0%nat 0 in
  (i, j, hashv).

(** One round of the loop, and what follows the loop. *)
Definition jen_block (s : Z * Z * Z) (k l h : Z) : Z * Z * Z :=
  let '(i, j, hashv) := s in HASH_JEN_MIX (u32 (i + k)) (u32 (j + l)) (u32 (hashv + h)).

Definition jen_end (keylen : Z) (s : Z * Z * Z) (bytes : list Z) : Z :=
  let '(i, j, hashv) := s in
  let '(i, j, hashv) := jen_tail i j (u32 (hashv + u32 keylen)) bytes in
  snd (HASH_JEN_MIX i j hashv).

(** The loop that consumes twelve bytes at a time. *)
Fixpoint jen_loop (keylen : Z) (s : Z * Z * Z) (bytes : list Z) : Z :=
  match bytes with
  | b0 :: b1 :: b2 :: b3 :: b4 :: b5 :: b6 :: b7 :: b8 :: b9 :: b10 :: b11 :: rest =>
      jen_loop keylen (jen_block s (word_of b0 b1 b2 b3) (word_of b4 b5 b6 b7) (word_of b8 b9 b10 b11)) rest
  | _ => jen_end keylen s bytes
  end.

Definition HASH_JEN (key : string) : Z :=
  jen_loop (Z.of_nat (String.length key)) (0x9e3779b9, 0x9e3779b9, 0xfeedbeef) (key_bytes key).

(** ** The other functions *)

(** The loops take the bytes of the key one by one. *)
Definition HASH_BER (key : string) : Z :=
  foldl (fun hashv byte => u32 (u32 (u32 (Z.shiftl hashv 5) + hashv) + byte)) 0 (key_bytes key).

Definition HASH_SAX (key : string) : Z :=
  foldl (fun hashv byte => Z.lxor hashv (u32 (u32 (u32 (Z.shiftl hashv 5) + Z.shiftr hashv 2) + byte)))
    0 (key_bytes key).

Definition HASH_FNV (key : string) : Z :=
  foldl (fun hashv byte => u32 (Z.lxor hashv byte * 16777619)) 2166136261 (key_bytes key).

Definition HASH_OAT (key : string) : Z :=
  let hashv :=
    foldl (fun hashv byte =>
      let hashv := u32 (hashv + byte) in
      let hashv := u32 (hashv + u32 (Z.shiftl hashv 10)) in
      Z.lxor hashv (Z.shiftr hashv 6)) 0 (key_bytes key) in
  let hashv := u32 (hashv + u32 (Z.shiftl hashv 3)) in
  let hashv := Z.lxor hashv (Z.shiftr hashv 11) in
  u32 (hashv + u32 (Z.shiftl hashv 15)).

Definition get16bits (d0 d1 : Z) : Z := Z.shiftl d1 8 + d0.

(** The last one to three bytes. *)
Definition sfh_rem (hashv : Z) (bytes : list Z) : Z :=
  match bytes with
  | d0 :: d1 :: d2 :: _ =>
      let hashv := u32 (hashv + get16bits d0 d1) in
      let hashv := Z.lxor hashv (u32 (Z.shiftl hashv 16)) in
      let hashv := Z.lxor hashv (u32 (Z.shiftl d2 18)) in
      u32 (hashv + Z.shiftr hashv 11)
  | [d0; d1] =>
      let hashv := u32 (hashv + get16bits d0 d1) in
      let hashv := Z.lxor hashv (u32 (Z.shiftl hashv 11)) in
      u32 (hashv + Z.shiftr hashv 17)
  | [d0] =>
      let hashv := u32 (hashv + d0) in
      let hashv := Z.lxor hashv (u32 (Z.shiftl hashv 10)) in
      u32 (hashv + Z.shiftr hashv 1)
  | [] => hashv
  end.

(** Four bytes at a time. *)
Fixpoint sfh_loop (hashv : Z) (bytes : list Z) : Z :=
  match bytes with
  | d0 :: d1 :: d2 :: d3 :: rest =>
      let hashv := u32 (hashv + get16bits d0 d1) in
      let _sfh_tmp := Z.lxor (u32 (Z.shiftl (get16bits d2 d3) 11)) hashv in
      let hashv := Z.lxor (u32 (Z.shiftl hashv 16)) _sfh_tmp in
      sfh_loop (u32 (hashv + Z.shiftr hashv 11)) rest
  | _ => sfh_rem hashv bytes
  end.

Definition HASH_SFH (key : string) : Z :=
  let hashv := sfh_loop 0xcafebabe (key_bytes key) in
  let hashv := Z.lxor hashv (u32 (Z.shiftl hashv 3)) in
  let hashv := u32 (hashv + Z.shiftr hashv 5) in
  let hashv := Z.lxor hashv (u32 (Z.shiftl hashv 4)) in
  let hashv := u32 (hashv + Z.shiftr hashv 17) in
  let hashv := Z.lxor hashv (u32 (Z.shiftl hashv 25)) in
  u32 (hashv + Z.shiftr hashv 6).

(** ** Their results *)

Lemma lxor_u32 a b : in_u32 a -> in_u32 b -> in_u32 (Z.lxor a b).
Proof.
  unfold in_u32. intros Ha Hb. split; [apply Z.lxor_nonneg; lia|].
  destruct (decide (Z.lxor a b = 0)) as [->|H0]; [lia|]. apply Z.log2_lt_pow2.
  { pose proof (proj2 (Z.lxor_nonneg a b)). lia. }
  eapply Z.le_lt_trans; [apply Z.log2_lxor; lia|].
  assert (forall x, 0 <= x < 2 ^ 32 -> Z.log2 x < 32) as Hlog.
  { intros x Hx. destruct (decide (x = 0)) as [->|]; [done|]. apply Z.log2_lt_pow2; lia. }
  apply Z.max_lub_lt; by apply Hlog.
Qed.

Lemma shiftr_u32 a n : 0 <= n -> in_u32 a -> in_u32 (Z.shiftr a n).
Proof.
  unfold in_u32. intros Hn Ha. rewrite Z.shiftr_div_pow2 by done. pose proof (Z.pow_pos_nonneg 2 n ltac:(lia) Hn).
  split; [apply Z.div_pos; lia|]. eapply Z.le_lt_trans; [apply Z.div_le_upper_bound with (q := a)|]; nia.
Qed.

Create HintDb u32.
#[local] Hint Resolve u32_range lxor_u32 : u32.
#[local] Hint Extern 2 (in_u32 (Z.shiftr _ _)) => apply shiftr_u32; [lia|] : u32.

Lemma foldl_u32 (f : Z -> Z -> Z) bytes z :
  (forall h byte, in_u32 h -> in_u32 (f h byte)) -> in_u32 z -> in_u32 (foldl f z bytes).
Proof. intros Hf. revert z. induction bytes as [|byte bytes IH]; intros z Hz; [done|]. apply IH. by apply Hf. Qed.

Lemma jen_loop_u32 keylen s bytes : in_u32 (jen_loop keylen s bytes).
Proof.
  assert (forall s bytes, in_u32 (jen_end keylen s bytes)) as He.
  { intros [[i j] h] bs. unfold jen_end. destruct (jen_tail _ _ _ _) as [[i' j'] h']. cbn. auto with u32. }
  revert s. remember (length bytes) as n. revert bytes Heqn.
  induction n as [n IH] using lt_wf_ind. intros bytes -> s.
  do 12 (destruct bytes as [|? bytes]; [apply He|]). cbn [jen_loop]. apply (IH (length bytes)); [cbn; lia|done].
Qed.

Lemma BER_u32 key : in_u32 (HASH_BER key).
Proof. apply foldl_u32; auto with u32; done. Qed.
Lemma SAX_u32 key : in_u32 (HASH_SAX key).
Proof. apply foldl_u32; auto with u32; done. Qed.
Lemma FNV_u32 key : in_u32 (HASH_FNV key).
Proof. apply foldl_u32; auto with u32; done. Qed.
Lemma OAT_u32 key : in_u32 (HASH_OAT key).
Proof. unfold HASH_OAT. auto with u32. Qed.
Lemma SFH_u32 key : in_u32 (HASH_SFH key).
Proof. unfold HASH_SFH. auto with u32. Qed.
Lemma JEN_u32 key : in_u32 (HASH_JEN key).
Proof. apply jen_loop_u32. Qed.

Definition BER : hash_function := Build_hash_function HASH_BER BER_u32.
Definition SAX : hash_function := Build_hash_function HASH_SAX SAX_u32.
Definition FNV : hash_function := Build_hash_function HASH_FNV FNV_u32.
Definition OAT : hash_function := Build_hash_function HASH_OAT OAT_u32.
Definition SFH : hash_function := Build_hash_function HASH_SFH SFH_u32.

(** The one that hashes.c uses. *)
#[export] Instance JEN : hash_function := Build_hash_function HASH_JEN JEN_u32.

(** The published values of two of the functions. *)
Example FNV_a : HASH_FNV "a" = 0xe40c292c.
Proof. reflexivity. Qed.
Example FNV_foobar : HASH_FNV "foobar" = 0xbf9cf968.
Proof. reflexivity. Qed.
Example OAT_a : HASH_OAT "a" = 0xca2e9442.
Proof. reflexivity. Qed.
