(* ===== verification/Uthash.v ===== *)
(** * uthash (src/include/internal/uthash.h)

    The macros that src/utils/hashes.c expands, on a heap of handles: the elements
    of a table are linked twice, in the order of insertion and in the buckets of
    their hash values, by pointers that may be NULL. Hashes works with the list of
    the elements in order; the theorems here show that the pointers implement it.

    The address of a handle stands for the address of its element too
    ([ELMT_FROM_HH] and [HH_FROM_ELMT] add and subtract one offset). Keys have
    less than [2 ^ 32] bytes. Without memory for a table or for more buckets the
    macros call [exit]; allocations succeed here. The Bloom filter, the signature
    and [HASH_FSCK] are not compiled in. *)

From S2P Require Import Prelude Hashes HashFunctions.

(** ** Handles, buckets and tables *)

Abbreviation addr := positive (only parsing).

(** [UT_hash_handle], with the element it is part of; all handles have the same
    [tbl], which is in the state. The length of the key is that of its text. *)
Record UT_hash_handle (A : Type) := Handle {
  prev : option addr; next : option addr;
  hh_prev : option addr; hh_next : option addr;
  key : string; hashv : Z; elt : A
}.
Arguments Handle {_} _ _ _ _ _ _ _.
Arguments prev {_} _. Arguments next {_} _. Arguments hh_prev {_} _. Arguments hh_next {_} _.
Arguments key {_} _. Arguments hashv {_} _. Arguments elt {_} _.

Record UT_hash_bucket := Bucket { hh_head : option addr; count : Z; expand_mult : Z }.

Record UT_hash_table := Table {
  buckets : list UT_hash_bucket;
  num_buckets : Z; log2_num_buckets : Z;
  num_items : Z;
  tail : addr;
  ideal_chain_maxlen : Z; nonideal_items : Z; ineff_expands : Z; noexpand : Z
}.

Definition HASH_INITIAL_NUM_BUCKETS : Z := 32.
Definition HASH_INITIAL_NUM_BUCKETS_LOG2 : Z := 5.
Definition HASH_BKT_CAPACITY_THRESH : Z := 10.

(** The memory, the head of a table and what its handles point to as their table:
    nothing before the first element and after the last. *)
Record uthash (A : Type) := UT {
  heap : gmap addr (UT_hash_handle A);
  head : option addr;
  tbl : option UT_hash_table
}.
Arguments UT {_} _ _ _. Arguments heap {_} _. Arguments head {_} _. Arguments tbl {_} _.

Section setters.
Context {A : Type}.
Implicit Types d : UT_hash_handle A.
Definition set_prev p d := Handle p (next d) (hh_prev d) (hh_next d) (key d) (hashv d) (elt d).
Definition set_next p d := Handle (prev d) p (hh_prev d) (hh_next d) (key d) (hashv d) (elt d).
Definition set_hh_prev p d := Handle (prev d) (next d) p (hh_next d) (key d) (hashv d) (elt d).
Definition set_hh_next p d := Handle (prev d) (next d) (hh_prev d) p (key d) (hashv d) (elt d).
End setters.

Definition with_buckets (t : UT_hash_table) (bs : list UT_hash_bucket) : UT_hash_table :=
  Table bs (num_buckets t) (log2_num_buckets t) (num_items t) (tail t) (ideal_chain_maxlen t)
    (nonideal_items t) (ineff_expands t) (noexpand t).
Definition with_tail (t : UT_hash_table) (x : addr) : UT_hash_table :=
  Table (buckets t) (num_buckets t) (log2_num_buckets t) (num_items t) x (ideal_chain_maxlen t)
    (nonideal_items t) (ineff_expands t) (noexpand t).
Definition with_num_items (t : UT_hash_table) (n : Z) : UT_hash_table :=
  Table (buckets t) (num_buckets t) (log2_num_buckets t) n (tail t) (ideal_chain_maxlen t)
    (nonideal_items t) (ineff_expands t) (noexpand t).

(** ** The macros *)

Section macros.
Context {A : Type} `{hashing : hash_function}.
Abbreviation memory := (gmap addr (UT_hash_handle A)) (only parsing).
Implicit Types m : memory.

(** An assignment through the pointer [x]. *)
Definition store m (x : addr) (f : UT_hash_handle A -> UT_hash_handle A) : outcome memory :=
  d ← deref (m !! x); Ok (<[x := f d]> m).

(** An assignment through a pointer that is tested for NULL before. *)
Definition store_opt m (x : option addr) (f : UT_hash_handle A -> UT_hash_handle A) : outcome memory :=
  match x with Some x => store m x f | None => Ok m end.

Definition HASH_TO_BKT (hashv num_bkts : Z) : Z := Z.land hashv (u32 (num_bkts - 1)).

(** The elements of a chain, one by one; [fuel] bounds the length of the chain. *)
Fixpoint HASH_FIND_IN_BKT (fuel : nat) m (out : option addr) (keyptr : string) (hashval : Z)
    : outcome (option addr) :=
  match out with
  | None => Ok None
  | Some x =>
      match fuel with
      | O => Diverges
      | S fuel =>
          d ← deref (m !! x);
          if (hashv d =? hashval) && (String.length (key d) =? String.length keyptr)%nat
             && bool_decide (key d = keyptr)
          then Ok (Some x)
          else HASH_FIND_IN_BKT fuel m (hh_next d) keyptr hashval
      end
  end.

Definition HASH_FIND_BYHASHVALUE (u : uthash A) (keyptr : string) (hashval : Z) : outcome (option addr) :=
  match head u with
  | None => Ok None
  | Some _ =>
      t ← deref (tbl u);
      b ← deref (buckets t !! Z.to_nat (HASH_TO_BKT hashval (num_buckets t)));
      HASH_FIND_IN_BKT (size (heap u)) (heap u) (hh_head b) keyptr hashval
  end.

Definition HASH_FIND (u : uthash A) (keyptr : string) : outcome (option addr) :=
  match head u with
  | None => Ok None
  | Some _ => HASH_FIND_BYHASHVALUE u keyptr (HASH_FUNCTION keyptr)
  end.

Definition HASH_MAKE_TABLE (x : addr) : UT_hash_table :=
  Table (replicate (Z.to_nat HASH_INITIAL_NUM_BUCKETS) (Bucket None 0 0)) HASH_INITIAL_NUM_BUCKETS
    HASH_INITIAL_NUM_BUCKETS_LOG2 0 x 0 0 0 0.

(** The element gets in front of a chain. *)
Definition link_front m (x : addr) (hd : option addr) : outcome memory :=
  m ← store m x (fun d => set_hh_prev None (set_hh_next hd d));
  store_opt m hd (set_hh_prev (Some x)).

(** *** Expansion *)

(** One element goes to its new bucket. *)
Definition expand_item (ideal num_bkts : Z) (s : memory * list UT_hash_bucket * Z) (x : addr)
    : outcome (memory * list UT_hash_bucket * Z) :=
  let '(m, new, nonideal) := s in
  d ← deref (m !! x);
  let bkt := Z.to_nat (HASH_TO_BKT (hashv d) (u32 (num_bkts * 2))) in
  b ← deref (new !! bkt);
  let cnt := u32 (count b + 1) in
  let '(nonideal, mult) :=
    if cnt >? ideal
    then (u32 (nonideal + 1),
          if cnt >? u32 (expand_mult b * ideal) then u32 (expand_mult b + 1) else expand_mult b)
    else (nonideal, expand_mult b) in
  m ← link_front m x (hh_head b);
  Ok (m, <[bkt := Bucket (Some x) cnt mult]> new, nonideal).

(** The [while] loop over a chain: the next element is read before this one is
    moved. *)
Fixpoint expand_chain (fuel : nat) (ideal num_bkts : Z) (s : memory * list UT_hash_bucket * Z)
    (thh : option addr) : outcome (memory * list UT_hash_bucket * Z) :=
  match thh with
  | None => Ok s
  | Some x =>
      match fuel with
      | O => Diverges
      | S fuel =>
          d ← deref (s.1.1 !! x);
          s ← expand_item ideal num_bkts s x;
          expand_chain fuel ideal num_bkts s (hh_next d)
      end
  end.

Definition HASH_EXPAND_BUCKETS m (t : UT_hash_table) : outcome (memory * UT_hash_table) :=
  let ideal := u32 (Z.shiftr (num_items t) (u32 (log2_num_buckets t + 1)) +
                    (if Z.land (num_items t) (u32 (u32 (num_buckets t * 2) - 1)) =? 0 then 0 else 1)) in
  let new := replicate (Z.to_nat (num_buckets t * 2)) (Bucket None 0 0) in
  '(m, new, nonideal) ←
    mfold (fun s b => expand_chain (size s.1.1) ideal (num_buckets t) s (hh_head b)) (m, new, 0) (buckets t);
  let ineff := if nonideal >? Z.shiftr (num_items t) 1 then u32 (ineff_expands t + 1) else 0 in
  Ok (m, Table new (u32 (num_buckets t * 2)) (u32 (log2_num_buckets t + 1)) (num_items t) (tail t)
           ideal nonideal ineff (if ineff >? 1 then 1 else noexpand t)).

(** *** Adding *)

Definition HASH_ADD_TO_BKT m (t : UT_hash_table) (bkt : nat) (x : addr) : outcome (memory * UT_hash_table) :=
  b ← deref (buckets t !! bkt);
  let cnt := u32 (count b + 1) in
  m ← link_front m x (hh_head b);
  let t := with_buckets t (<[bkt := Bucket (Some x) cnt (expand_mult b)]> (buckets t)) in
  if (cnt >=? u32 (u32 (expand_mult b + 1) * HASH_BKT_CAPACITY_THRESH)) && (noexpand t =? 0)
  then HASH_EXPAND_BUCKETS m t
  else Ok (m, t).

Definition HASH_APPEND_LIST m (t : UT_hash_table) (x : addr) : outcome (memory * UT_hash_table) :=
  m ← store m x (fun d => set_prev (Some (tail t)) (set_next None d));
  m ← store m (tail t) (set_next (Some x));
  Ok (m, with_tail t x).

Definition HASH_ADD_TO_TABLE m (t : UT_hash_table) (hashval : Z) (x : addr) : outcome (memory * UT_hash_table) :=
  let t := with_num_items t (u32 (num_items t + 1)) in
  HASH_ADD_TO_BKT m t (Z.to_nat (HASH_TO_BKT hashval (num_buckets t))) x.

(** Where the key of an element is, and its hash value. *)
Definition set_key m (x : addr) (keyptr : string) (hashval : Z) : outcome memory :=
  store m x (fun d => Handle (prev d) (next d) (hh_prev d) (hh_next d) keyptr hashval (elt d)).

(** The first element of a table. *)
Definition first_element m (x : addr) : outcome (memory * addr * UT_hash_table) :=
  m ← store m x (fun d => set_prev None (set_next None d));
  Ok (m, x, HASH_MAKE_TABLE x).

(** [x] is the address of an element in memory that is not in the table. *)
Definition HASH_ADD_KEYPTR_BYHASHVALUE (u : uthash A) (keyptr : string) (hashval : Z) (x : addr) : outcome (uthash A) :=
  m ← set_key (heap u) x keyptr hashval;
  '(m, hd, t) ← match head u with
                | None => first_element m x
                | Some hd =>
                    t ← deref (tbl u);
                    '(m, t) ← HASH_APPEND_LIST m t x;
                    Ok (m, hd, t)
                end;
  '(m, t) ← HASH_ADD_TO_TABLE m t hashval x;
  Ok (UT m (Some hd) (Some t)).

Definition HASH_ADD_KEYPTR (u : uthash A) (keyptr : string) (x : addr) : outcome (uthash A) :=
  HASH_ADD_KEYPTR_BYHASHVALUE u keyptr (HASH_FUNCTION keyptr) x.

(** *** Deleting *)

Definition HASH_DEL_IN_BKT m (bs : list UT_hash_bucket) (bkt : nat) (x : addr)
    : outcome (memory * list UT_hash_bucket) :=
  b ← deref (bs !! bkt);
  d ← deref (m !! x);
  let hd := if bool_decide (hh_head b = Some x) then hh_next d else hh_head b in
  m ← store_opt m (hh_prev d) (set_hh_next (hh_next d));
  m ← store_opt m (hh_next d) (set_hh_prev (hh_prev d));
  Ok (m, <[bkt := Bucket hd (u32 (count b - 1)) (expand_mult b)]> bs).

Definition HASH_DELETE (u : uthash A) (x : addr) : outcome (uthash A) :=
  d ← deref (heap u !! x);
  match prev d, next d with
  | None, None => Ok (UT (heap u) None None)
  | _, _ =>
      t ← deref (tbl u);
      t ← (if bool_decide (tail t = x) then p ← deref (prev d); Ok (with_tail t p) else Ok t);
      m ← store_opt (heap u) (prev d) (set_next (next d));
      let hd := match prev d with Some _ => head u | None => next d end in
      m ← store_opt m (next d) (set_prev (prev d));
      '(m, bs) ← HASH_DEL_IN_BKT m (buckets t) (Z.to_nat (HASH_TO_BKT (hashv d) (num_buckets t))) x;
      Ok (UT m hd (Some (with_num_items (with_buckets t bs) (u32 (num_items t - 1)))))
  end.

(** *** Counting and iterating *)

Definition HASH_COUNT (u : uthash A) : outcome Z :=
  match head u with None => Ok 0 | Some _ => t ← deref (tbl u); Ok (num_items t) end.

(** [HASH_ITER]: [tmp] is the element after [el], read before the body runs. *)
Definition next_of m (x : option addr) : outcome (option addr) :=
  match x with None => Ok None | Some x => d ← deref (m !! x); Ok (next d) end.

Fixpoint iter_loop {S} (mem : S -> memory) (fuel : nat) (body : S -> addr -> outcome S) (s : S)
    (el tmp : option addr) : outcome S :=
  match el with
  | None => Ok s
  | Some x =>
      match fuel with
      | O => Diverges
      | Datatypes.S fuel =>
          s ← body s x;
          tmp' ← next_of (mem s) tmp;
          iter_loop mem fuel body s tmp tmp'
      end
  end.
End macros.

(** ** src/utils/hashes.c on this memory *)

Section hashes.
Context {A : Type} `{hashing : hash_function}.
Implicit Types u : uthash (nrm_hash_s A).

(** [x] is what [malloc] returns. *)
Definition nrm_hash_create_element_mem u (x : option addr) (name : string) (p : A)
    : Z * uthash (nrm_hash_s A) :=
  match x with
  | None => (- NRM_ENOMEM, u)
  | Some x =>
      (NRM_SUCCESS,
       UT (<[x := Handle None None None None ""%string 0 (Elem name p)]> (heap u)) (head u) (tbl u))
  end.

Definition nrm_hash_add_mem u (x : option addr) (name : option string) (p : A)
    : outcome (Z * uthash (nrm_hash_s A)) :=
  local ← HASH_FIND u (key_of name);
  match local with
  | Some _ => Ok (- NRM_FAILURE, u)
  | None =>
      let '(ret, u') := nrm_hash_create_element_mem u x (key_of name) p in
      if negb (ret =? NRM_SUCCESS) then Ok (- NRM_ENOMEM, u)
      else
        x ← deref x;
        u' ← HASH_ADD_KEYPTR u' (key_of name) x;
        Ok (NRM_SUCCESS, u')
  end.

Definition nrm_hash_remove_mem (at_uuid : nat -> string) u (name : option string)
    : outcome (Z * removed * uthash (nrm_hash_s A)) :=
  match head u, name with
  | None, _ => Ok (- NRM_EINVAL, Removed_null, u)
  | _, None => Ok (- NRM_EINVAL, Removed_null, u)
  | Some _, Some k =>
      tmp ← HASH_FIND u (at_uuid (String.length k));
      match tmp with
      | None => Ok (NRM_SUCCESS, Removed_null, u)
      | Some x =>
          u ← HASH_DELETE u x;
          Ok (NRM_SUCCESS, Removed_dangling, UT (base.delete x (heap u)) (head u) (tbl u))
      end
  end.

Definition nrm_hash_find_mem u (name : option string) (ptr_null : bool) : outcome (Z * option A) :=
  match head u, name with
  | None, _ => Ok (- NRM_EINVAL, None)
  | _, None => Ok (- NRM_EINVAL, None)
  | Some _, Some k =>
      if ptr_null then Ok (- NRM_EINVAL, None)
      else
        tmp ← HASH_FIND u k;
        match tmp with
        | None => Ok (- NRM_ENOTFOUND, None)
        | Some x => d ← deref (heap u !! x); Ok (NRM_SUCCESS, Some (ptr (elt d)))
        end
  end.

Definition nrm_hash_size_mem u : outcome (Z * option Z) :=
  match head u with
  | None => Ok (- NRM_EINVAL, None)
  | Some _ => n ← HASH_COUNT u; Ok (NRM_SUCCESS, Some n)
  end.

(** Every element is unlinked and freed while the loop holds on to the next. *)
Definition nrm_hash_destroy_mem u : outcome (uthash (nrm_hash_s A)) :=
  tmp ← next_of (heap u) (head u);
  u ← iter_loop heap (size (heap u))
        (fun u x => u ← HASH_DELETE u x; Ok (UT (base.delete x (heap u)) (head u) (tbl u)))
        u (head u) tmp;
  Ok (UT (heap u) None (tbl u)).

(** Reading the pointers of all elements with [nrm_hash_foreach]. *)
Fixpoint foreach_mem (fuel : nat) u (iterator : option addr) : outcome (list A) :=
  match iterator with
  | None => Ok []
  | Some x =>
      match fuel with
      | O => Diverges
      | S fuel =>
          d ← deref (heap u !! x);
          rest ← foreach_mem fuel u (next d);
          Ok (ptr (elt d) :: rest)
      end
  end.
Definition nrm_hash_foreach_mem u : outcome (list A) := foreach_mem (size (heap u)) u (head u).
End hashes.
