(* ===== verification/Links.v ===== *)
(** * Doubly linked lists

    Segments of a doubly linked list as a predicate on the function that gives the
    two pointers of a node, and what the assignments of an insertion and a removal
    do to them. Uthash keeps its elements in two such lists. *)

From S2P Require Import Prelude.

Section links.
Context {N : Type} `{EqDecision N}.

(** The pointers of a node, if it is in memory. *)
Definition links : Type := N -> option (option N * option N).
Implicit Types (g : links) (l : list N) (p n : option N).

(** The node that a segment starts with, when [n] follows it, and the one it ends
    with, when [p] comes before it. *)
Definition first l n : option N := match l with [] => n | x :: _ => Some x end.
Fixpoint final p l : option N := match l with [] => p | x :: l => final (Some x) l end.

Fixpoint segment g p l n : Prop :=
  match l with
  | [] => True
  | x :: l => g x = Some (p, first l n) /\ segment g (Some x) l n
  end.

Definition set_p g (x : option N) p : links := fun y =>
  if decide (x = Some y) then (fun r => (p, r.2)) <$> g y else g y.
Definition set_n g (x : option N) n : links := fun y =>
  if decide (x = Some y) then (fun r => (r.1, n)) <$> g y else g y.

Lemma set_p_ext g g' x p y : (forall z, g z = g' z) -> set_p g x p y = set_p g' x p y.
Proof. intros Hg. unfold set_p. by rewrite Hg. Qed.
Lemma set_n_ext g g' x n y : (forall z, g z = g' z) -> set_n g x n y = set_n g' x n y.
Proof. intros Hg. unfold set_n. by rewrite Hg. Qed.

Lemma first_app l1 l2 n : first (l1 ++ l2) n = first l1 (first l2 n).
Proof. by destruct l1. Qed.

Lemma final_app p l1 l2 : final p (l1 ++ l2) = final (final p l1) l2.
Proof. revert p; induction l1; intros p; cbn; auto. Qed.

Lemma final_snoc p l x : final p (l ++ [x]) = Some x.
Proof. by rewrite final_app. Qed.

Lemma final_elem p l x : final p l = Some x -> p = Some x \/ x ∈ l.
Proof.
  revert p; induction l as [|y l IH]; intros p H; [by left|]. apply IH in H as [[= ->]|H]; right; set_solver.
Qed.

Lemma first_elem l x : first l None = Some x -> x ∈ l.
Proof. destruct l; [done|]. intros [= ->]. set_solver. Qed.

Lemma segment_app g p l1 l2 n :
  segment g p (l1 ++ l2) n <-> segment g p l1 (first l2 n) /\ segment g (final p l1) l2 n.
Proof.
  revert p; induction l1 as [|x l1 IH]; intros p; cbn; [tauto|]. rewrite IH, first_app. tauto.
Qed.

Lemma segment_ext g g' p l n : (forall x, x ∈ l -> g x = g' x) -> segment g p l n -> segment g' p l n.
Proof.
  revert p; induction l as [|x l IH]; intros p Hg; [done|]. intros [Hx Hl]. split.
  - rewrite <- Hg by set_solver. done.
  - apply IH; [|done]. intros y Hy. apply Hg. set_solver.
Qed.

Lemma segment_set_p_other g p l n x q : x ∉ l -> segment g p l n -> segment (set_p g (Some x) q) p l n.
Proof. intros Hx. apply segment_ext. intros y Hy. unfold set_p. case_decide; [congruence|done]. Qed.
Lemma segment_set_n_other g p l n x q : x ∉ l -> segment g p l n -> segment (set_n g (Some x) q) p l n.
Proof. intros Hx. apply segment_ext. intros y Hy. unfold set_n. case_decide; [congruence|done]. Qed.

Lemma segment_set_p_None g p l n q : segment g p l n -> segment (set_p g None q) p l n.
Proof. apply segment_ext. intros y _. unfold set_p. by rewrite decide_False. Qed.
Lemma segment_set_n_None g p l n q : segment g p l n -> segment (set_n g None q) p l n.
Proof. apply segment_ext. intros y _. unfold set_n. by rewrite decide_False. Qed.

(** A new predecessor for the whole segment is one for its first node. *)
Lemma segment_set_first g p q l :
  NoDup l -> segment g p l None -> segment (set_p g (first l None) q) q l None.
Proof.
  destruct l as [|x l]; [done|]. intros [Hx _]%NoDup_cons [H1 H2]. split.
  - cbn. unfold set_p. by rewrite decide_True, H1.
  - by apply segment_set_p_other.
Qed.

(** A new successor, one for its last. *)
Lemma segment_set_final g l n m :
  NoDup l -> segment g None l n -> segment (set_n g (final None l) m) None l m.
Proof.
  destruct l as [|x l _] using rev_ind; [done|]. rewrite final_snoc.
  intros Hd. apply NoDup_app in Hd as (_ & Hd & _). rewrite !segment_app. intros [H1 [H2 _]]. split; [|split; [|done]].
  - cbn in *. apply segment_set_n_other; [|done]. intros Hx. apply (Hd x Hx). set_solver.
  - unfold set_n. by rewrite decide_True, H2.
Qed.

(** The last node has nothing after it. *)
Lemma final_last l1 x l2 : NoDup (l1 ++ x :: l2) -> final None (l1 ++ x :: l2) = Some x -> l2 = [].
Proof.
  rewrite final_app. cbn [final]. intros Hnd Hf. destruct l2 as [|y l2 _] using rev_ind; [done|].
  rewrite final_snoc in Hf. injection Hf as Hf. apply NoDup_app in Hnd as (_ & _ & [Hn _]%NoDup_cons). set_solver.
Qed.

(** *** The three operations *)

Lemma segment_append g l x y :
  NoDup l -> x ∉ l -> final None l = Some y -> is_Some (g x) -> segment g None l None ->
  segment (set_n (set_p (set_n g (Some x) None) (Some x) (Some y)) (Some y) (Some x)) None (l ++ [x]) None.
Proof.
  intros Hd Hx Hy [r Hr] Hl. rewrite segment_app. cbn [first segment]. rewrite Hy. split.
  - rewrite <- Hy. eapply segment_set_final; [done|]. apply segment_set_p_other; [done|].
    by apply segment_set_n_other.
  - split; [|done]. unfold set_n, set_p. assert (y <> x).
    { intros ->. destruct (final_elem _ _ _ Hy) as [|]; done. }
    rewrite decide_False by congruence. rewrite !decide_True by done. by rewrite Hr.
Qed.

Lemma segment_push g l x :
  NoDup l -> x ∉ l -> is_Some (g x) -> segment g None l None ->
  segment (set_p (set_p (set_n g (Some x) (first l None)) (Some x) None) (first l None) (Some x)) None
    (x :: l) None.
Proof.
  intros Hd Hx [r Hr] Hl. split.
  - unfold set_p at 1. rewrite decide_False by (intros H; by apply first_elem in H).
    unfold set_n, set_p. rewrite !decide_True by done. by rewrite Hr.
  - apply (segment_set_first _ None); [done|]. apply segment_set_p_other; [done|].
    by apply segment_set_n_other.
Qed.

(** An assignment to a neighbour that is not in the segment, or is NULL. *)
Lemma segment_set_p_out g p l n x q : (forall y, x = Some y -> y ∉ l) -> segment g p l n -> segment (set_p g x q) p l n.
Proof. destruct x; intros; [|by apply segment_set_p_None]. apply segment_set_p_other; auto. Qed.
Lemma segment_set_n_out g p l n x q : (forall y, x = Some y -> y ∉ l) -> segment g p l n -> segment (set_n g x q) p l n.
Proof. destruct x; intros; [|by apply segment_set_n_None]. apply segment_set_n_other; auto. Qed.

Lemma segment_insert g l1 x l2 :
  NoDup (l1 ++ l2) -> x ∉ l1 ++ l2 -> is_Some (g x) -> segment g None (l1 ++ l2) None ->
  segment (set_p (set_n (set_p (set_n g (Some x) (first l2 None)) (Some x) (final None l1))
                        (final None l1) (Some x)) (first l2 None) (Some x)) None (l1 ++ x :: l2) None.
Proof.
  intros (Hd1 & Hd & Hd2)%NoDup_app Hx [r Hr] [H1 H2]%segment_app. rewrite not_elem_of_app in Hx. destruct Hx as [Hx1 Hx2].
  set (g2 := set_p (set_n g (Some x) (first l2 None)) (Some x) (final None l1)).
  assert (G : forall p l n, x ∉ l -> segment g p l n -> segment g2 p l n).
  { intros p l n Hx Hs. apply segment_set_p_other; [done|]. by apply segment_set_n_other. }
  assert (Hf1 : forall y, final None l1 = Some y -> y ∈ l1) by (intros y [?|?]%final_elem; done).
  rewrite segment_app. cbn [first segment]. split; [|split].
  - apply segment_set_p_out; [intros y Hy%first_elem Hy'; by apply (Hd y Hy')|].
    eapply segment_set_final; [done|by apply G].
  - unfold set_p at 1. rewrite decide_False by (by intros ?%first_elem).
    unfold set_n at 1. rewrite decide_False by (by intros ?%Hf1).
    unfold g2, set_p, set_n. rewrite !decide_True by done. by rewrite Hr.
  - apply (segment_set_first _ (final None l1)); [done|].
    apply segment_set_n_out; [intros y Hy%Hf1; by apply Hd|by apply G].
Qed.

Lemma segment_middle g l1 x l2 :
  segment g None (l1 ++ x :: l2) None -> g x = Some (final None l1, first l2 None).
Proof. by intros [_ [H _]]%segment_app. Qed.

Lemma segment_remove g l1 x l2 :
  NoDup (l1 ++ x :: l2) -> segment g None (l1 ++ x :: l2) None ->
  segment (set_p (set_n g (final None l1) (first l2 None)) (first l2 None) (final None l1)) None
    (l1 ++ l2) None.
Proof.
  intros (Hd1 & Hd & Hd2)%NoDup_app. apply NoDup_cons in Hd2 as [Hx Hd2]. rewrite !segment_app.
  intros [H1 [_ H2]]. cbn [first] in *. split.
  - destruct (first l2 None) as [y|] eqn:Ey.
    + apply segment_set_p_other; [|by eapply segment_set_final].
      intros Hy. apply (Hd y Hy). apply first_elem in Ey. set_solver.
    + apply segment_set_p_None. by eapply segment_set_final.
  - apply (segment_set_first _ (Some x)); [done|].
    destruct (final None l1) as [y|] eqn:Ey; [|by apply segment_set_n_None].
    apply segment_set_n_other; [|done]. intros Hy. destruct (final_elem _ _ _ Ey) as [|Hy']; [done|].
    apply (Hd y Hy'). set_solver.
Qed.
End links.
