(* ===== verification/UthashRefine.v ===== *)
(** * uthash refines lists (src/include/internal/uthash.h, src/utils/hashes.c)

    The invariant of a table in memory and the refinement of the lists of Hashes:
    finding, adding, removing, counting and iterating through the pointers give
    what the list gives, and the table stays well-formed through expansions. *)

From S2P Require Import Prelude Hashes HashFunctions Uthash Links.

Create Rewrite HintDb views.

Section refine.
Context {A : Type}.
Abbreviation memory := (gmap addr (UT_hash_handle A)) (only parsing).
Implicit Types (m : memory) (d : UT_hash_handle A) (l c : list addr) (cs : list (list addr)).

(** ** The views of a memory *)

(** The links in the order of insertion and in a bucket, and what does not change. *)
Definition app_links m : links (N := addr) := fun x => (fun d => (prev d, next d)) <$> m !! x.
Definition bkt_links m : links (N := addr) := fun x => (fun d => (hh_prev d, hh_next d)) <$> m !! x.
Definition info m (x : addr) : option (string * Z * A) := (fun d => (key d, hashv d, elt d)) <$> m !! x.

(** Only links differ. *)
Definition same_info m m' : Prop := forall x, info m' x = info m x.

Lemma same_info_Some m m' x d :
  same_info m m' -> m !! x = Some d ->
  exists d', m' !! x = Some d' /\ key d' = key d /\ hashv d' = hashv d /\ elt d' = elt d.
Proof.
  intros Hs Hx. specialize (Hs x). unfold info in Hs. rewrite Hx in Hs.
  destruct (m' !! x) as [d'|]; [|done]. injection Hs as H1 H2 H3. by exists d'.
Qed.

Lemma same_info_is_Some m m' x : same_info m m' -> is_Some (m !! x) -> is_Some (m' !! x).
Proof. intros Hs [d Hd]. destruct (same_info_Some _ _ _ _ Hs Hd) as (d' & ? & _). by exists d'. Qed.

Lemma same_info_trans m1 m2 m3 : same_info m1 m2 -> same_info m2 m3 -> same_info m1 m3.
Proof. intros H1 H2 x. by rewrite H2. Qed.

Lemma same_info_dom m m' : same_info m m' -> dom m' = dom m.
Proof.
  intros Hs. apply set_eq. intros x. rewrite !elem_of_dom. specialize (Hs x). unfold info in Hs.
  destruct (m !! x), (m' !! x); naive_solver.
Qed.

Lemma same_info_size m m' : same_info m m' -> size m' = size m.
Proof. intros Hs. rewrite <- !size_dom. by rewrite (same_info_dom m m' Hs). Qed.

(** ** Assignments *)

Definition alter_opt (f : UT_hash_handle A -> UT_hash_handle A) (x : option addr) m : memory :=
  match x with Some x => alter f x m | None => m end.

Lemma store_ok m x f : is_Some (m !! x) -> store m x f = Ok (alter f x m).
Proof.
  intros [d Hd]. unfold store. rewrite Hd. cbn. f_equal. apply map_eq. intros y.
  destruct (decide (x = y)) as [<-|]; [by rewrite lookup_insert_eq, lookup_alter_eq, Hd|].
  by rewrite lookup_insert_ne, lookup_alter_ne.
Qed.

Lemma store_opt_ok m x f : (forall y, x = Some y -> is_Some (m !! y)) -> store_opt m x f = Ok (alter_opt f x m).
Proof. destruct x as [x|]; intros H; [|done]. apply store_ok. by apply H. Qed.

Lemma lookup_alter_opt f x m y :
  alter_opt f x m !! y = if decide (x = Some y) then f <$> m !! y else m !! y.
Proof.
  destruct x as [x|]; cbn; [|by rewrite decide_False].
  destruct (decide (x = y)) as [<-|Hne].
  - rewrite decide_True by done. apply lookup_alter_eq.
  - rewrite decide_False by congruence. by apply lookup_alter_ne.
Qed.

(** What an assignment to one of the four pointers does to the views. *)
Local Ltac view := intros y; unfold app_links, bkt_links, info, set_p, set_n; rewrite lookup_alter_opt;
  case_decide; [destruct (_ !! y); reflexivity|reflexivity].

Lemma app_set_prev m x p y : app_links (alter_opt (set_prev p) x m) y = set_p (app_links m) x p y.
Proof. revert y; view. Qed.
Lemma app_set_next m x p y : app_links (alter_opt (set_next p) x m) y = set_n (app_links m) x p y.
Proof. revert y; view. Qed.
Lemma bkt_set_prev m x p y : bkt_links (alter_opt (set_hh_prev p) x m) y = set_p (bkt_links m) x p y.
Proof. revert y; view. Qed.
Lemma bkt_set_next m x p y : bkt_links (alter_opt (set_hh_next p) x m) y = set_n (bkt_links m) x p y.
Proof. revert y; view. Qed.

Lemma app_set_hh_prev m x p y : app_links (alter_opt (set_hh_prev p) x m) y = app_links m y.
Proof. revert y; view. Qed.
Lemma app_set_hh_next m x p y : app_links (alter_opt (set_hh_next p) x m) y = app_links m y.
Proof. revert y; view. Qed.
Lemma bkt_set_app_prev m x p y : bkt_links (alter_opt (set_prev p) x m) y = bkt_links m y.
Proof. revert y; view. Qed.
Lemma bkt_set_app_next m x p y : bkt_links (alter_opt (set_next p) x m) y = bkt_links m y.
Proof. revert y; view. Qed.

Lemma info_set_prev m x p : same_info m (alter_opt (set_prev p) x m).
Proof. view. Qed.
Lemma info_set_next m x p : same_info m (alter_opt (set_next p) x m).
Proof. view. Qed.
Lemma info_set_hh_prev m x p : same_info m (alter_opt (set_hh_prev p) x m).
Proof. view. Qed.
Lemma info_set_hh_next m x p : same_info m (alter_opt (set_hh_next p) x m).
Proof. view. Qed.
End refine.

#[export] Hint Resolve info_set_prev info_set_next info_set_hh_prev info_set_hh_next same_info_trans : nrm.
#[export] Hint Rewrite @app_set_hh_prev @app_set_hh_next @bkt_set_app_prev @bkt_set_app_next
  @app_set_prev @app_set_next @bkt_set_prev @bkt_set_next : views.

Section buckets.
Context {A : Type}.
Abbreviation memory := (gmap addr (UT_hash_handle A)) (only parsing).
Implicit Types (m : memory) (d : UT_hash_handle A) (c : list addr) (cs : list (list addr)).

(** ** Buckets and their chains *)

Definition slot (n : Z) d : nat := Z.to_nat (HASH_TO_BKT (hashv d) n).

(** A bucket heads a chain of the elements whose hash value it has. *)
Definition chain_ok m (n : Z) (i : nat) (b : UT_hash_bucket) c : Prop :=
  hh_head b = first c None /\ count b = Z.of_nat (length c) /\ NoDup c /\
  segment (bkt_links m) None c None /\ forall x, x ∈ c -> exists d, m !! x = Some d /\ slot n d = i.

Definition bkts m (n : Z) (bs : list UT_hash_bucket) cs : Prop :=
  length bs = length cs /\
  forall i b c, bs !! i = Some b -> cs !! i = Some c -> chain_ok m n i b c.

(** Other chains do not have the element. *)
Lemma bkts_slot m n bs cs i c x d :
  bkts m n bs cs -> cs !! i = Some c -> m !! x = Some d -> x ∈ c -> slot n d = i.
Proof.
  intros [Hlen Hb] Hc Hx Hin. destruct (lookup_lt_is_Some_2 bs i) as [b Hbi].
  { rewrite Hlen. by eapply lookup_lt_Some. }
  destruct (Hb _ _ _ Hbi Hc) as (_ & _ & _ & _ & Hs). destruct (Hs x Hin) as (d' & Hd' & <-). congruence.
Qed.

Lemma bkts_join m n bs cs x d :
  bkts m n bs cs -> m !! x = Some d -> x ∈ mjoin cs <-> exists c, cs !! slot n d = Some c /\ x ∈ c.
Proof.
  intros Hb Hx. rewrite list_elem_of_join. split.
  - intros (c & Hin & Hc). apply list_elem_of_lookup in Hc as [i Hi].
    exists c. by rewrite (bkts_slot _ _ _ _ _ _ _ _ Hb Hi Hx Hin).
  - intros (c & Hc & Hin). exists c. split; [done|]. by eapply list_elem_of_lookup_2.
Qed.

(** A change in one chain that leaves the memory of the others alone. *)
Lemma bkts_insert m m' n bs cs i b c b' c' :
  bkts m n bs cs -> bs !! i = Some b -> cs !! i = Some c -> same_info m m' ->
  (forall y d, m !! y = Some d -> slot n d <> i -> bkt_links m' y = bkt_links m y) ->
  chain_ok m' n i b' c' -> bkts m' n (<[i := b']> bs) (<[i := c']> cs).
Proof.
  intros [Hlen Hb] Hbi Hci Hinfo Hm' Hc'. split; [by rewrite !length_insert|].
  intros j bj cj Hbj Hcj. destruct (decide (i = j)) as [<-|Hne].
  - rewrite list_lookup_insert_eq in Hbj by (by eapply lookup_lt_Some).
    rewrite list_lookup_insert_eq in Hcj by (by eapply lookup_lt_Some).
    injection Hbj as <-. by injection Hcj as <-.
  - rewrite list_lookup_insert_ne in Hbj by done. rewrite list_lookup_insert_ne in Hcj by done.
    destruct (Hb _ _ _ Hbj Hcj) as (H1 & H2 & H3 & H4 & H5). split; [done|]. split; [done|]. split; [done|].
    split.
    + eapply segment_ext; [|exact H4]. intros y Hy. destruct (H5 y Hy) as (d & Hd & Hs).
      symmetry. eapply Hm'; [exact Hd|congruence].
    + intros y Hy. destruct (H5 y Hy) as (d & Hd & <-).
      destruct (same_info_Some _ _ _ _ Hinfo Hd) as (d' & Hd' & _ & Hh & _). exists d'. split; [done|].
      unfold slot. by rewrite Hh.
Qed.

Lemma chain_info m m' n i c :
  same_info m m' -> (forall x, x ∈ c -> exists d, m !! x = Some d /\ slot n d = i) ->
  forall x, x ∈ c -> exists d, m' !! x = Some d /\ slot n d = i.
Proof.
  intros Hinfo Hs x Hx. destruct (Hs x Hx) as (d & Hd & <-).
  destruct (same_info_Some _ _ _ _ Hinfo Hd) as (d' & Hd' & _ & Hh & _). exists d'. split; [done|].
  unfold slot. by rewrite Hh.
Qed.

(** *** An element gets in front of its chain *)

Lemma bkts_push m n bs cs i b c x d :
  bkts m n bs cs -> bs !! i = Some b -> cs !! i = Some c -> m !! x = Some d -> slot n d = i -> x ∉ c ->
  exists m', link_front m x (hh_head b) = Ok m' /\ same_info m m' /\
  (forall y, app_links m' y = app_links m y) /\
  (forall y, y <> x -> y ∉ c -> m' !! y = m !! y) /\
  forall mult, bkts m' n (<[i := Bucket (Some x) (Z.of_nat (S (length c))) mult]> bs) (<[i := x :: c]> cs).
Proof.
  intros Hb Hbi Hci Hx Hslot Hn. pose proof Hb as [_ Hall].
  destruct (Hall _ _ _ Hbi Hci) as (Hhd & _ & Hnd & Hseg & Hs).
  set (m1 := alter_opt (set_hh_next (hh_head b)) (Some x) m).
  set (m2 := alter_opt (set_hh_prev None) (Some x) m1).
  set (m3 := alter_opt (set_hh_prev (Some x)) (hh_head b) m2).
  assert (I3 : same_info m m3) by (unfold m3, m2, m1; eauto with nrm).
  exists m3. split_and!; [|done| | |].
  - unfold link_front. rewrite store_ok by (by exists d). cbn [mbind outcome_bind].
    assert (alter (fun d => set_hh_prev None (set_hh_next (hh_head b) d)) x m = m2) as ->.
    { unfold m2, m1. cbn. apply map_eq. intros y. destruct (decide (x = y)) as [<-|].
      - rewrite !lookup_alter_eq. by destruct (m !! x).
      - by rewrite !lookup_alter_ne. }
    apply store_opt_ok. intros y Hy. rewrite Hhd in Hy. apply first_elem in Hy.
    destruct (Hs y Hy) as (dy & Hdy & _). apply (same_info_is_Some m); [unfold m2, m1; eauto with nrm|by exists dy].
  - intros y. unfold m3, m2, m1. by autorewrite with views.
  - intros y Hy Hyc. unfold m3, m2, m1. rewrite !lookup_alter_opt.
    rewrite !(decide_False (P := Some x = Some y)) by congruence.
    rewrite decide_False; [done|]. rewrite Hhd. by intros ?%first_elem.
  - intros mult. eapply bkts_insert; [exact Hb|exact Hbi|exact Hci|exact I3| |].
    + intros y dy Hy Hsl. unfold bkt_links. unfold m3, m2, m1. rewrite !lookup_alter_opt.
      assert (y <> x) by (intros ->; congruence).
      rewrite !(decide_False (P := Some x = Some y)) by congruence.
      rewrite decide_False; [done|]. rewrite Hhd. intros Hf%first_elem. destruct (Hs y Hf) as (d' & ? & ?). congruence.
    + split; [done|]. split; [done|]. split; [by constructor|]. split.
      * eapply segment_ext; [|apply (segment_push (bkt_links m) c x Hnd Hn); [|exact Hseg]].
        -- intros y _. unfold m3, m2, m1. rewrite bkt_set_prev, Hhd. apply set_p_ext. intros z.
           rewrite bkt_set_prev. apply set_p_ext. intros w. by rewrite bkt_set_next.
        -- unfold bkt_links. rewrite Hx. by eexists.
      * apply (chain_info m m3 n i (x :: c) I3). intros y [->|Hy]%elem_of_cons; [by exists d|by apply Hs].
Qed.

(** *** An element leaves its chain *)

Lemma bkts_del m n bs cs i b c1 x c2 d :
  bkts m n bs cs -> bs !! i = Some b -> cs !! i = Some (c1 ++ x :: c2) -> m !! x = Some d ->
  Z.of_nat (length (c1 ++ x :: c2)) < 2 ^ 32 ->
  exists m' bs', HASH_DEL_IN_BKT m bs i x = Ok (m', bs') /\ same_info m m' /\
  (forall y, app_links m' y = app_links m y) /\ bkts m' n bs' (<[i := c1 ++ c2]> cs).
Proof.
  intros Hb Hbi Hci Hx Hlen. pose proof Hb as [_ Hall].
  destruct (Hall _ _ _ Hbi Hci) as (Hhd & Hcnt & Hnd & Hseg & Hs).
  pose proof (segment_middle _ _ _ _ Hseg) as Hmid. unfold bkt_links in Hmid. rewrite Hx in Hmid.
  injection Hmid as Hp Hnx.
  set (m1 := alter_opt (set_hh_next (hh_next d)) (hh_prev d) m).
  set (m2 := alter_opt (set_hh_prev (hh_prev d)) (hh_next d) m1).
  assert (I1 : same_info m m1) by (unfold m1; eauto with nrm).
  assert (I2 : same_info m m2) by (unfold m2, m1; eauto with nrm).
  assert (Hpe : forall y, hh_prev d = Some y -> y ∈ c1).
  { intros y Hy. rewrite Hp in Hy. destruct (final_elem _ _ _ Hy) as [|]; done. }
  assert (Hne : forall y, hh_next d = Some y -> y ∈ c2) by (intros y Hy; rewrite Hnx in Hy; by apply first_elem).
  assert (Hin : forall y, y ∈ c1 \/ y ∈ c2 -> exists d, m !! y = Some d /\ slot n d = i).
  { intros y Hy. apply Hs. set_solver. }
  eexists m2, _. split_and!; [|done| |].
  - unfold HASH_DEL_IN_BKT. rewrite Hbi, Hx. cbn [deref mbind outcome_bind].
    rewrite store_opt_ok. 2:{ intros y Hy. destruct (Hin y (or_introl (Hpe y Hy))) as (dy & ? & _). by exists dy. }
    cbn [mbind outcome_bind]. fold m1. rewrite store_opt_ok; [reflexivity|].
    intros y Hy. destruct (Hin y (or_intror (Hne y Hy))) as (dy & ? & _).
    apply (same_info_is_Some m); [done|by exists dy].
  - intros y. unfold m2, m1. by autorewrite with views.
  - eapply bkts_insert; [exact Hb|exact Hbi|exact Hci|exact I2| |].
    + intros y dy Hy Hsl. unfold bkt_links, m2, m1. rewrite !lookup_alter_opt.
      rewrite decide_False. 2:{ intros H%Hne. destruct (Hin y (or_intror H)) as (? & ? & ?). congruence. }
      rewrite decide_False; [done|]. intros H%Hpe. destruct (Hin y (or_introl H)) as (? & ? & ?). congruence.
    + split_and!.
      * cbn [hh_head]. rewrite Hhd. destruct c1 as [|z c1]; cbn [app first].
        -- rewrite bool_decide_eq_true_2 by done. exact Hnx.
        -- rewrite bool_decide_eq_false_2; [done|]. intros [= ->].
           apply NoDup_app in Hnd as (_ & Hnd & _). apply (Hnd x); set_solver.
      * cbn [count]. rewrite Hcnt. rewrite u32_small; rewrite !length_app in *; cbn [length] in *; unfold in_u32; lia.
      * apply NoDup_app in Hnd as (? & Hd & [_ ?]%NoDup_cons). apply NoDup_app. split; [done|]. split; [|done].
        intros y H1 H2. apply (Hd y H1). set_solver.
      * eapply segment_ext; [|by apply (segment_remove (bkt_links m) c1 x c2 Hnd)].
        intros y _. unfold m2, m1. rewrite bkt_set_prev, Hp, Hnx. apply set_p_ext. intros z. by rewrite bkt_set_next.
      * apply (chain_info m m2 n i (c1 ++ c2) I2). intros y Hy. apply Hin. by apply elem_of_app.
Qed.
End buckets.

(** ** Expansion *)

Section expansion.
Context {A : Type}.
Abbreviation memory := (gmap addr (UT_hash_handle A)) (only parsing).
Implicit Types (m : memory) (d : UT_hash_handle A) (c : list addr) (cs : list (list addr)).

(** A power of two of buckets, each with a place in the array. *)
Lemma to_bkt_lt h k : 0 <= k <= 32 -> (Z.to_nat (HASH_TO_BKT h (2 ^ k)) < Z.to_nat (2 ^ k))%nat.
Proof.
  intros Hk. unfold HASH_TO_BKT. pose proof (Z.pow_pos_nonneg 2 k ltac:(lia) ltac:(lia)). rewrite u32_small.
  2:{ unfold in_u32. pose proof (Z.pow_le_mono_r 2 k 32 ltac:(lia) ltac:(lia)). lia. }
  replace (2 ^ k - 1) with (Z.ones k) by (rewrite Z.ones_equiv; lia). rewrite Z.land_ones by lia.
  pose proof (Z.mod_pos_bound h (2 ^ k) ltac:(lia)). lia.
Qed.

Lemma join_insert cs i c x : cs !! i = Some c -> mjoin (<[i := x :: c]> cs) ≡ₚ x :: mjoin cs.
Proof.
  revert i; induction cs as [|c' cs IH]; intros [|i] Hi; [done|done|by injection Hi as ->|].
  cbn in *. rewrite (IH i Hi). by rewrite Permutation_middle.
Qed.

Lemma join_length cs i c : cs !! i = Some c -> (length c <= length (mjoin cs))%nat.
Proof.
  revert i; induction cs as [|c' cs IH]; intros [|i] Hi; [done|done|injection Hi as Hi|specialize (IH i Hi)];
    change (mjoin (?a :: ?b)) with (a ++ mjoin b); rewrite length_app; [subst|]; lia.
Qed.

Variables (k num ideal : Z).
Hypothesis Hk : 0 <= k <= 32.
Hypothesis Hnum : u32 (num * 2) = 2 ^ k.

(** The new buckets so far, with the chains [cs]. *)
Definition expanding m (new : list UT_hash_bucket) cs : Prop :=
  bkts m (2 ^ k) new cs /\ length new = Z.to_nat (2 ^ k) /\ Z.of_nat (length (mjoin cs)) < 2 ^ 32 - 1.

Lemma expand_item_ok m new non cs x d :
  expanding m new cs -> m !! x = Some d -> x ∉ mjoin cs ->
  exists m' new' non' cs', expand_item ideal num (m, new, non) x = Ok (m', new', non') /\
    same_info m m' /\ (forall y, app_links m' y = app_links m y) /\
    (forall y, y <> x -> y ∉ mjoin cs -> m' !! y = m !! y) /\
    bkts m' (2 ^ k) new' cs' /\ length new' = length new /\ mjoin cs' ≡ₚ x :: mjoin cs.
Proof using Hk Hnum.
  intros (Hb & Hlen & Hsmall) Hx Hn. pose proof Hb as [Hl Hall].
  assert (Hs : (slot (2 ^ k) d < length new)%nat) by (rewrite Hlen; by apply to_bkt_lt).
  destruct (lookup_lt_is_Some_2 new _ Hs) as [b Hbi]. rewrite Hl in Hs.
  destruct (lookup_lt_is_Some_2 cs _ Hs) as [c Hci].
  assert (Hin : forall y, y ∈ c -> y ∈ mjoin cs).
  { intros y Hy. apply list_elem_of_join. exists c. split; [done|]. by eapply list_elem_of_lookup_2. }
  assert (Hxc : x ∉ c) by (intros Hxc; apply Hn; by apply Hin).
  destruct (bkts_push m (2 ^ k) new cs _ b c x d Hb Hbi Hci Hx eq_refl Hxc) as (m' & Hm' & Hi & Ha & Ho & Hpush).
  destruct (Hall _ _ _ Hbi Hci) as (_ & Hcnt & _). pose proof (join_length _ _ _ Hci) as Hjl.
  assert (Hc1 : u32 (count b + 1) = Z.of_nat (S (length c))) by (rewrite Hcnt, u32_small; unfold in_u32; lia).
  eexists m', _, _, (<[slot (2 ^ k) d := x :: c]> cs). split_and!.
  - unfold expand_item. rewrite Hx. cbn [deref mbind outcome_bind]. rewrite Hnum.
    change (Z.to_nat (HASH_TO_BKT (hashv d) (2 ^ k))) with (slot (2 ^ k) d). rewrite Hbi.
    cbn [deref mbind outcome_bind]. rewrite (surjective_pairing (if _ >? ideal then _ else _)).
    rewrite Hm'. cbn [mbind outcome_bind]. reflexivity.
  - done.
  - done.
  - intros y Hy Hyn. apply Ho; [done|]. intros Hyc. by apply Hyn, Hin.
  - rewrite Hc1. apply Hpush.
  - by rewrite length_insert.
  - by apply join_insert.
Qed.

Lemma expand_chain_ok ch : forall fuel m new non cs p,
  expanding m new cs -> segment (bkt_links m) p ch None -> (forall x, x ∈ ch -> is_Some (m !! x)) ->
  NoDup (ch ++ mjoin cs) -> Z.of_nat (length (ch ++ mjoin cs)) < 2 ^ 32 - 1 -> (length ch <= fuel)%nat ->
  exists m' new' non' cs', expand_chain fuel ideal num (m, new, non) (first ch None) = Ok (m', new', non') /\
    same_info m m' /\ (forall y, app_links m' y = app_links m y) /\
    (forall y, y ∉ ch -> y ∉ mjoin cs -> m' !! y = m !! y) /\
    expanding m' new' cs' /\ mjoin cs' ≡ₚ ch ++ mjoin cs.
Proof using Hk Hnum.
  induction ch as [|x ch IH]; intros fuel m new non cs p Hexp Hseg Hin Hnd Hsmall Hfuel.
  { eexists m, new, non, cs. split; [by destruct fuel|]. by split_and!. }
  destruct fuel as [|fuel]; [cbn in Hfuel; lia|]. destruct Hseg as [Hx Hseg].
  destruct (Hin x ltac:(set_solver)) as [d Hd].
  cbn [app] in Hnd. apply NoDup_cons in Hnd as [Hxn Hnd].
  destruct (expand_item_ok m new non cs x d Hexp Hd ltac:(set_solver))
    as (m1 & new1 & non1 & cs1 & E1 & I1 & A1 & O1 & B1 & L1 & P1).
  unfold bkt_links in Hx. rewrite Hd in Hx. injection Hx as _ Hnx.
  assert (Hsame : forall y, y ∈ ch -> m1 !! y = m !! y).
  { intros y Hy. apply O1; [set_solver|]. apply NoDup_app in Hnd as (_ & Hdis & _). by apply Hdis. }
  destruct (IH fuel m1 new1 non1 cs1 (Some x)) as (m' & new' & non' & cs' & E & I & Ap & O & Ex & P).
  - split; [done|]. destruct Hexp as (_ & Hl & _). split; [congruence|]. rewrite P1. rewrite length_app in Hsmall.
    cbn [length] in *. lia.
  - eapply segment_ext; [|exact Hseg]. intros y Hy. unfold bkt_links. by rewrite Hsame.
  - intros y Hy. rewrite Hsame by done. apply Hin. set_solver.
  - rewrite P1, <- Permutation_middle. by apply NoDup_cons.
  - rewrite length_app, P1. cbn [app length] in *. rewrite length_app in Hsmall. lia.
  - cbn in Hfuel. lia.
  - exists m', new', non', cs'. split_and!.
    + cbn [expand_chain first fst snd]. rewrite Hd. cbn [deref mbind outcome_bind]. rewrite E1.
      cbn [mbind outcome_bind]. by rewrite Hnx.
    + eauto with nrm.
    + intros y. by rewrite Ap, A1.
    + intros y Hy Hyn. rewrite O; [apply O1|set_solver|rewrite P1]; set_solver.
    + done.
    + rewrite P, P1. cbn [app]. by rewrite Permutation_middle.
Qed.

(** All chains of the old buckets. *)
Lemma expand_all_ok : forall bs ocs m new non cs,
  Forall2 (fun b c => hh_head b = first c None /\ segment (bkt_links m) None c None) bs ocs ->
  expanding m new cs -> (forall x, x ∈ mjoin ocs -> is_Some (m !! x)) ->
  NoDup (mjoin ocs ++ mjoin cs) -> Z.of_nat (length (mjoin ocs ++ mjoin cs)) < 2 ^ 32 - 1 ->
  exists m' new' non' cs',
    mfold (fun s b => expand_chain (size s.1.1) ideal num s (hh_head b)) (m, new, non) bs = Ok (m', new', non') /\
    same_info m m' /\ (forall y, app_links m' y = app_links m y) /\
    expanding m' new' cs' /\ mjoin cs' ≡ₚ mjoin ocs ++ mjoin cs.
Proof using Hk Hnum.
  induction bs as [|b bs IH]; intros ocs m new non cs Hbs Hexp Hin Hnd Hsmall.
  { apply Forall2_nil_inv_l in Hbs as ->. exists m, new, non, cs. by split_and!. }
  apply Forall2_cons_inv_l in Hbs as (c & ocs' & [Hh Hseg] & Hbs & ->). change (mjoin (c :: ocs')) with (c ++ mjoin ocs') in *.
  rewrite <- (assoc_L app) in Hnd. rewrite <- (assoc_L app) in Hsmall.
  assert (Hnd' : NoDup (c ++ mjoin cs)).
  { apply NoDup_app in Hnd as (? & Hd & (_ & _ & ?)%NoDup_app). apply NoDup_app. split; [done|]. split; [|done].
    intros x Hx. specialize (Hd x Hx). set_solver. }
  assert (Hfuel : (length c <= size m)%nat).
  { apply NoDup_app in Hnd' as (Hc & _ & _). rewrite <- size_dom, <- (size_list_to_set (C := gset addr) c) by done.
    apply subseteq_size. intros x Hx%elem_of_list_to_set. apply elem_of_dom. apply Hin. set_solver. }
  destruct (expand_chain_ok c (size m) m new non cs None Hexp Hseg)
    as (m1 & new1 & non1 & cs1 & E1 & I1 & A1 & O1 & X1 & P1); [set_solver|done| |done|].
  { rewrite !length_app in *. lia. }
  assert (Hsame : forall x, x ∈ mjoin ocs' -> m1 !! x = m !! x).
  { intros x Hx. apply NoDup_app in Hnd as (_ & Hd & (_ & Hd2 & _)%NoDup_app). apply O1; [|by apply Hd2].
    intros Hxc. apply (Hd x Hxc). set_solver. }
  destruct (IH ocs' m1 new1 non1 cs1) as (m' & new' & non' & cs' & E & I & Ap & X & P).
  - clear -Hbs Hsame. induction Hbs as [|b' c' bs' ocs'' [H1 H2] _ IH]; [done|]. cbn in Hsame. constructor.
    + split; [done|]. eapply segment_ext; [|exact H2]. intros y Hy. unfold bkt_links. rewrite Hsame; set_solver.
    + apply IH. intros x Hx. apply Hsame. set_solver.
  - done.
  - intros x Hx. rewrite Hsame by done. apply Hin. set_solver.
  - rewrite P1. rewrite (assoc_L app), (comm app (mjoin ocs')), <- (assoc_L app). done.
  - rewrite P1. rewrite !length_app in *. lia.
  - exists m', new', non', cs'. split_and!; [|eauto with nrm|intros y; by rewrite Ap, A1|done|].
    + cbn [mfold fst snd]. rewrite Hh, E1. cbn [mbind outcome_bind]. exact E.
    + rewrite P, P1. by rewrite !(assoc_L app), (comm app (mjoin ocs')).
Qed.
End expansion.

Section tables.
Context {A : Type}.
Abbreviation memory := (gmap addr (UT_hash_handle A)) (only parsing).
Implicit Types (m : memory) (d : UT_hash_handle A) (l c : list addr) (cs : list (list addr)).

Lemma join_replicate n : mjoin (replicate n (@nil addr)) = [].
Proof. by induction n. Qed.

Lemma bkts_empty m n sz : bkts m n (replicate sz (Bucket None 0 0)) (replicate sz []).
Proof.
  split; [by rewrite !length_replicate|]. intros i b c Hb Hc.
  apply lookup_replicate in Hb as [-> _]. apply lookup_replicate in Hc as [-> _].
  split_and!; try done; [constructor|]. intros x Hx. by apply not_elem_of_nil in Hx.
Qed.

(** The buckets of a table hold the elements of [l], each in its chain. *)
Record table_ok m (t : UT_hash_table) (n : nat) cs : Prop := {
  tok_log : 0 <= log2_num_buckets t <= 31;
  tok_num : num_buckets t = 2 ^ log2_num_buckets t;
  tok_len : length (buckets t) = Z.to_nat (num_buckets t);
  tok_items : num_items t = Z.of_nat n;
  tok_bkts : bkts m (num_buckets t) (buckets t) cs
}.

Lemma expand_ok m t n cs l :
  table_ok m t n cs -> log2_num_buckets t < 31 -> mjoin cs ≡ₚ l -> NoDup l ->
  Z.of_nat (length l) < 2 ^ 32 - 1 ->
  exists m' t' cs', HASH_EXPAND_BUCKETS m t = Ok (m', t') /\ same_info m m' /\
    (forall y, app_links m' y = app_links m y) /\ table_ok m' t' n cs' /\ mjoin cs' ≡ₚ l /\ tail t' = tail t /\
    log2_num_buckets t' = log2_num_buckets t + 1.
Proof.
  intros [Hlog Hnum Hlen Hitems Hb] Hroom Hp Hnd Hsmall. set (k := log2_num_buckets t + 1).
  assert (Hk : 0 <= k <= 32) by (unfold k; lia).
  assert (Hpow : num_buckets t * 2 = 2 ^ k).
  { rewrite Hnum. unfold k. rewrite Z.pow_add_r by lia. lia. }
  assert (Hsm : 0 < 2 ^ k <= 2 ^ 31).
  { split; [apply Z.pow_pos_nonneg; lia|]. apply Z.pow_le_mono_r; unfold k; lia. }
  assert (Hu : u32 (num_buckets t * 2) = 2 ^ k) by (rewrite Hpow, u32_small; unfold in_u32; lia).
  destruct Hb as [Hlb Hall].
  destruct (expand_all_ok k (num_buckets t)
    (u32 (Z.shiftr (num_items t) (u32 (log2_num_buckets t + 1)) +
          (if Z.land (num_items t) (u32 (u32 (num_buckets t * 2) - 1)) =? 0 then 0 else 1))) Hk Hu
    (buckets t) cs m (replicate (Z.to_nat (2 ^ k)) (Bucket None 0 0)) 0 (replicate (Z.to_nat (2 ^ k)) []))
    as (m' & new' & non' & cs' & E & I & Ap & (Hb' & Hl' & _) & P).
  - apply Forall2_same_length_lookup_2; [done|]. intros i b c Hbi Hci.
    destruct (Hall _ _ _ Hbi Hci) as (H1 & _ & _ & H4 & _). done.
  - split; [apply bkts_empty|]. rewrite length_replicate, join_replicate. split; [done|]. cbn. lia.
  - intros x (c & Hx & Hc)%list_elem_of_join. apply list_elem_of_lookup in Hc as [i Hci].
    destruct (lookup_lt_is_Some_2 (buckets t) i) as [b Hbi]; [rewrite Hlb; by eapply lookup_lt_Some|].
    destruct (Hall _ _ _ Hbi Hci) as (_ & _ & _ & _ & Hs). destruct (Hs x Hx) as (d & ? & _). by exists d.
  - by rewrite join_replicate, app_nil_r, Hp.
  - by rewrite join_replicate, app_nil_r, Hp.
  - rewrite join_replicate, app_nil_r in P. eexists m', _, cs'. split_and!; [|done|done| |by rewrite P| |].
    + unfold HASH_EXPAND_BUCKETS. rewrite Hpow in E |- *. rewrite E. cbn [mbind outcome_bind]. reflexivity.
    + assert (Hlk : u32 (log2_num_buckets t + 1) = k) by (rewrite u32_small; unfold in_u32, k in *; lia).
      split; cbn; rewrite ?Hlk; rewrite Hpow in Hu; rewrite ?Hpow, ?Hu; unfold k in *; try (done || lia).
    + done.
    + cbn. rewrite u32_small; unfold in_u32; lia.
Qed.

(** *** One more element *)

Lemma add_to_bkt_ok m t n cs l x d :
  table_ok m t n cs -> log2_num_buckets t < 31 -> mjoin cs ≡ₚ l -> m !! x = Some d -> NoDup (l ++ [x]) ->
  Z.of_nat (length (l ++ [x])) < 2 ^ 32 - 1 ->
  exists m' t' cs',
    HASH_ADD_TO_BKT m t (Z.to_nat (HASH_TO_BKT (hashv d) (num_buckets t))) x = Ok (m', t') /\
    same_info m m' /\ (forall y, app_links m' y = app_links m y) /\ table_ok m' t' n cs' /\
    mjoin cs' ≡ₚ l ++ [x] /\ tail t' = tail t /\
    log2_num_buckets t <= log2_num_buckets t' <= log2_num_buckets t + 1.
Proof.
  intros Hok Hroom Hp Hx Hnd Hsmall. pose proof Hok as [Hlog Hnum Hlen Hitems Hb]. pose proof Hb as [Hlb Hall].
  change (Z.to_nat (HASH_TO_BKT (hashv d) (num_buckets t))) with (slot (num_buckets t) d).
  assert (Hs : (slot (num_buckets t) d < length (buckets t))%nat).
  { rewrite Hlen, Hnum. apply to_bkt_lt. lia. }
  destruct (lookup_lt_is_Some_2 _ _ Hs) as [b Hbi]. rewrite Hlb in Hs.
  destruct (lookup_lt_is_Some_2 _ _ Hs) as [c Hci].
  pose proof (join_length _ _ _ Hci) as Hjl. rewrite Hp in Hjl. rewrite length_app in Hsmall. cbn in Hsmall.
  assert (Hxc : x ∉ c).
  { intros Hxc. apply NoDup_app in Hnd as (_ & Hd & _). apply (Hd x); [|set_solver].
    rewrite <- Hp. apply list_elem_of_join. exists c. split; [done|]. by eapply list_elem_of_lookup_2. }
  destruct (bkts_push m _ _ cs _ b c x d Hb Hbi Hci Hx eq_refl Hxc) as (m1 & E1 & I1 & A1 & _ & B1).
  destruct (Hall _ _ _ Hbi Hci) as (_ & Hcnt & _).
  assert (Hc1 : u32 (count b + 1) = Z.of_nat (S (length c))) by (rewrite Hcnt, u32_small; unfold in_u32; lia).
  set (t1 := with_buckets t (<[slot (num_buckets t) d := Bucket (Some x) (Z.of_nat (S (length c))) (expand_mult b)]>
                               (buckets t))).
  assert (Hok1 : table_ok m1 t1 n (<[slot (num_buckets t) d := x :: c]> cs)).
  { split; cbn; rewrite ?length_insert; done || apply B1. }
  assert (Hp1 : mjoin (<[slot (num_buckets t) d := x :: c]> cs) ≡ₚ l ++ [x]).
  { rewrite (join_insert _ _ _ _ Hci), Hp. by rewrite Permutation_app_comm. }
  unfold HASH_ADD_TO_BKT. rewrite Hbi. cbn [deref mbind outcome_bind]. rewrite E1, Hc1. cbn [mbind outcome_bind].
  fold t1. destruct (_ && _).
  - destruct (expand_ok m1 t1 n _ (l ++ [x]) Hok1) as (m2 & t2 & cs2 & E2 & I2 & A2 & Ok2 & P2 & T2 & L2);
      [done|done|done|rewrite length_app; cbn; lia|].
    exists m2, t2, cs2. split_and!; try done; [eauto with nrm|intros y; by rewrite A2, A1| |]; rewrite L2; cbn; lia.
  - exists m1, t1, (<[slot (num_buckets t) d := x :: c]> cs). split_and!; try done; cbn; lia.
Qed.
End tables.

(** ** The tables of hashes.c in memory *)

Section tables_of_hashes.
Context {A : Type} `{hashing : hash_function}.
Abbreviation memory := (gmap addr (UT_hash_handle (nrm_hash_s A))) (only parsing).
Implicit Types (m : memory) (l c : list addr) (cs : list (list addr)) (table : nrm_hash A).
Implicit Types (u : uthash (nrm_hash_s A)).

Definition element m (x : addr) (e : nrm_hash_s A) : Prop :=
  exists d, m !! x = Some d /\ elt d = e /\ key d = uuid e /\ hashv d = HASH_FUNCTION (uuid e).

(** The elements at the addresses [l] are those of [table], linked in this order
    and in the chains of the buckets. *)
Definition linked u l : Prop :=
  match l with
  | [] => head u = None
  | _ => exists t cs, tbl u = Some t /\ head u = first l None /\ final None l = Some (tail t) /\
           segment (app_links (heap u)) None l None /\ table_ok (heap u) t (length l) cs /\ mjoin cs ≡ₚ l
  end.

Lemma linked_intro u l t cs :
  l <> [] -> tbl u = Some t -> head u = first l None -> final None l = Some (tail t) ->
  segment (app_links (heap u)) None l None -> table_ok (heap u) t (length l) cs -> mjoin cs ≡ₚ l -> linked u l.
Proof. intros Hne. destruct l; [done|]. intros. by exists t, cs. Qed.

Lemma linked_table u l :
  linked u l -> l <> [] ->
  exists t cs hd, tbl u = Some t /\ head u = Some hd /\ final None l = Some (tail t) /\
    segment (app_links (heap u)) None l None /\ table_ok (heap u) t (length l) cs /\ mjoin cs ≡ₚ l /\
    first l None = Some hd.
Proof.
  intros Hl Hne. destruct l as [|x l]; [done|]. destruct Hl as (t & cs & H1 & H2 & H3 & H4 & H5 & H6). by exists t, cs, x.
Qed.

Definition repr u l table : Prop :=
  NoDup l /\ Forall2 (element (heap u)) l table /\ linked u l.

(** There is room for one more doubling of the buckets, whose number is in 32 bits. *)
Definition room u : Prop :=
  match head u, tbl u with Some _, Some t => log2_num_buckets t < 31 | _, _ => True end.

Lemma element_info m m' x e : same_info m m' -> element m x e -> element m' x e.
Proof.
  intros Hs (d & Hd & H1 & H2 & H3). destruct (same_info_Some _ _ _ _ Hs Hd) as (d' & Hd' & K & H & E).
  exists d'. split_and!; congruence.
Qed.

Lemma elements_info m m' l table :
  same_info m m' -> Forall2 (element m) l table -> Forall2 (element m') l table.
Proof. intros Hs Hf. eapply Forall2_impl; [exact Hf|]. intros x e. by apply element_info. Qed.

(** A memory that agrees on the elements of the chains. *)
Lemma table_ok_agree m m' t n cs :
  table_ok m t n cs -> (forall y, y ∈ mjoin cs -> bkt_links m' y = bkt_links m y /\ info m' y = info m y) ->
  table_ok m' t n cs.
Proof.
  intros [H1 H2 H3 H4 [Hl Hb]] Hag. split; [done..|]. split; [done|]. intros i b c Hbi Hci.
  destruct (Hb _ _ _ Hbi Hci) as (B1 & B2 & B3 & B4 & B5).
  assert (Hc : forall y, y ∈ c -> y ∈ mjoin cs).
  { intros y Hy. apply list_elem_of_join. exists c. split; [done|]. by eapply list_elem_of_lookup_2. }
  split_and!; try done.
  - eapply segment_ext; [|exact B4]. intros y Hy. symmetry. apply Hag. by apply Hc.
  - intros y Hy. destruct (B5 y Hy) as (d & Hd & Hs). destruct (Hag y (Hc y Hy)) as [_ Hi].
    unfold info in Hi. rewrite Hd in Hi. destruct (m' !! y) as [d'|]; [|done]. injection Hi as _ Hh _.
    exists d'. split; [done|]. unfold slot in *. by rewrite Hh.
Qed.

(** *** Finding *)

Lemma find_in_bkt_ok m k c : forall fuel p,
  segment (bkt_links m) p c None -> (forall x, x ∈ c -> exists e, element m x e) -> (length c <= fuel)%nat ->
  exists out, HASH_FIND_IN_BKT fuel m (first c None) k (HASH_FUNCTION k) = Ok out /\
    match out with
    | Some x => x ∈ c /\ exists e, element m x e /\ uuid e = k
    | None => forall x e, x ∈ c -> element m x e -> uuid e <> k
    end.
Proof.
  induction c as [|x c IH]; intros fuel p Hseg Hel Hf.
  { exists None. split; [by destruct fuel|]. intros x e Hx. by apply not_elem_of_nil in Hx. }
  destruct fuel as [|fuel]; [cbn in Hf; lia|]. destruct Hseg as [Hx Hseg].
  destruct (Hel x ltac:(set_solver)) as (e & d & Hd & He & Hk & Hh).
  unfold bkt_links in Hx. rewrite Hd in Hx. injection Hx as _ Hnx.
  cbn [HASH_FIND_IN_BKT first]. rewrite Hd. cbn [deref mbind outcome_bind]. destruct (decide (key d = k)) as [E|E].
  - rewrite Hh, <- Hk, E, Z.eqb_refl, Nat.eqb_refl, bool_decide_eq_true_2 by done. cbn [andb].
    exists (Some x). split; [done|]. split; [set_solver|]. exists e. split; [by exists d|congruence].
  - rewrite (bool_decide_eq_false_2 (key d = k)) by done. rewrite andb_false_r, Hnx.
    destruct (IH fuel (Some x) Hseg) as (out & Eo & Ho); [intros y Hy; apply Hel; set_solver|cbn in Hf; lia|].
    exists out. split; [done|]. destruct out as [y|].
    + destruct Ho as [Hy Ho]. split; [set_solver|done].
    + intros y ey [->|Hy]%elem_of_cons Hey; [|by apply (Ho y)].
      destruct Hey as (d' & Hd' & He' & Hk' & _). congruence.
Qed.

Lemma HASH_FIND_unique table e : hash_wf table -> e ∈ table -> Hashes.HASH_FIND table (uuid e) = Some e.
Proof.
  unfold hash_wf. induction table as [|e' table IH]; intros Hwf He; [by apply not_elem_of_nil in He|].
  rewrite fmap_cons in Hwf. apply NoDup_cons in Hwf as [Hn Hwf]. rewrite HASH_FIND_cons.
  apply elem_of_cons in He as [->|He]; [by rewrite decide_True|].
  rewrite decide_False; [by apply IH|]. intros E. apply Hn. rewrite E. by apply list_elem_of_fmap_2.
Qed.

(** What a lookup in memory is for the list. *)
Definition found_as m l table (k : string) (out : option addr) : Prop :=
  match out with
  | None => Hashes.HASH_FIND table k = None
  | Some x => exists l1 l2 t1 t2 e, l = l1 ++ x :: l2 /\ table = t1 ++ e :: t2 /\ length l1 = length t1 /\
                element m x e /\ uuid e = k /\ Hashes.HASH_FIND table k = Some e
  end.

Lemma elements_split m l table x :
  Forall2 (element m) l table -> x ∈ l ->
  exists l1 l2 t1 t2 e, l = l1 ++ x :: l2 /\ table = t1 ++ e :: t2 /\ length l1 = length t1 /\ element m x e.
Proof.
  intros Hf Hx. apply list_elem_of_split in Hx as (l1 & l2 & ->).
  apply Forall2_app_inv_l in Hf as (t1 & t2' & H1 & H2 & ->).
  apply Forall2_cons_inv_l in H2 as (e & t2 & He & H2 & ->).
  exists l1, l2, t1, t2, e. split_and!; try done. by eapply Forall2_length.
Qed.

Lemma element_unique m x e e' : element m x e -> element m x e' -> e = e'.
Proof. intros (d & Hd & <- & _) (d' & Hd' & <- & _). congruence. Qed.

Lemma hash_find_ok u l table k :
  repr u l table -> hash_wf table -> exists out, HASH_FIND u k = Ok out /\ found_as (heap u) l table k out.
Proof.
  intros (Hnd & Hel & Hl) Hwf. unfold HASH_FIND, HASH_FIND_BYHASHVALUE. destruct l as [|x0 l'].
  { apply Forall2_nil_inv_l in Hel as ->. cbn in Hl. rewrite Hl. by exists None. }
  destruct Hl as (t & cs & Ht & Hh & _ & _ & Hok & Hp). set (l := x0 :: l') in *. rewrite Hh. cbn [first l].
  fold l. rewrite Ht. cbn [deref mbind outcome_bind]. destruct Hok as [Hlog Hnum Hlen _ Hb].
  pose proof Hb as [Hlb Hall]. set (i := Z.to_nat (HASH_TO_BKT (HASH_FUNCTION k) (num_buckets t))).
  assert (Hi : (i < length (buckets t))%nat) by (unfold i; rewrite Hlen, Hnum; apply to_bkt_lt; lia).
  destruct (lookup_lt_is_Some_2 _ _ Hi) as [b Hbi]. rewrite Hlb in Hi.
  destruct (lookup_lt_is_Some_2 _ _ Hi) as [c Hci]. rewrite Hbi. cbn [deref mbind outcome_bind].
  destruct (Hall _ _ _ Hbi Hci) as (Hhd & _ & Hndc & Hseg & _). rewrite Hhd.
  assert (Hcl : forall x, x ∈ c -> x ∈ l).
  { intros x Hx. rewrite <- Hp. apply list_elem_of_join. exists c. split; [done|]. by eapply list_elem_of_lookup_2. }
  assert (Hel' : forall x, x ∈ l -> exists e, element (heap u) x e).
  { intros x Hx. destruct (elements_split _ _ _ _ Hel Hx) as (? & ? & ? & ? & e & _ & _ & _ & He). by exists e. }
  destruct (find_in_bkt_ok (heap u) k c (size (heap u)) None Hseg) as (out & E & Ho).
  { intros x Hx. by apply Hel', Hcl. }
  { rewrite <- size_dom, <- (size_list_to_set (C := gset addr) c) by done.
    apply subseteq_size. intros x Hx%elem_of_list_to_set. apply elem_of_dom.
    destruct (Hel' x (Hcl x Hx)) as (e & d & Hd & _). by exists d. }
  exists out. split; [exact E|]. destruct out as [x|]; cbn [found_as].
  - destruct Ho as [Hx (e & He & Hk)].
    destruct (elements_split _ _ _ _ Hel (Hcl x Hx)) as (l1 & l2 & t1 & t2 & e' & H1 & H2 & H3 & He').
    rewrite (element_unique _ _ _ _ He' He) in H2. exists l1, l2, t1, t2, e. split_and!; try done.
    rewrite <- Hk. apply HASH_FIND_unique; [done|]. rewrite H2. set_solver.
  - apply HASH_FIND_None. intros (e & -> & He)%list_elem_of_fmap.
    apply list_elem_of_lookup in He as [j Hj]. destruct (Forall2_lookup_r _ _ _ _ _ Hel Hj) as (x & Hxj & Hx).
    apply (Ho x e); [|done|done]. destruct Hx as (d & Hd & He & Hk & Hh').
    assert (Hin : x ∈ mjoin cs) by (rewrite Hp; by eapply list_elem_of_lookup_2).
    apply (bkts_join _ _ _ _ _ _ Hb Hd) in Hin as (c' & Hc' & Hx).
    unfold slot in Hc'. rewrite Hh' in Hc'. fold i in Hc'. congruence.
Qed.

(** *** Memory that the table does not use *)

Lemma repr_agree u m l table :
  repr u l table -> (forall y, y ∈ l -> m !! y = heap u !! y) -> repr (UT m (head u) (tbl u)) l table.
Proof.
  intros (Hnd & Hel & Hl) Hm. split; [done|]. split.
  - apply Forall2_same_length_lookup_2; [by eapply Forall2_length|]. intros i y e Hy He.
    destruct (Forall2_lookup_lr _ _ _ _ _ _ Hel Hy He) as (d & Hd & Hr). exists d.
    cbn [heap]. rewrite Hm by (by eapply list_elem_of_lookup_2). done.
  - unfold linked in *. destruct l as [|z l]; [done|]. destruct Hl as (t & cs & H1 & H2 & H3 & H4 & H5 & H6).
    exists t, cs. cbn [heap head tbl]. split_and!; try done.
    + eapply segment_ext; [|exact H4]. intros y Hy. unfold app_links. by rewrite Hm.
    + eapply table_ok_agree; [exact H5|]. intros y Hy. unfold bkt_links, info.
      rewrite Hm by (by rewrite <- H6). done.
Qed.

(** *** Adding *)

Lemma elements_is_Some m l table y : Forall2 (element m) l table -> y ∈ l -> is_Some (m !! y).
Proof.
  intros Hf Hy. destruct (elements_split _ _ _ _ Hf Hy) as (? & ? & ? & ? & ? & _ & _ & _ & (d & Hd & _)).
  by exists d.
Qed.

(** An element that is not in the table gets its key. *)
Lemma set_key_ok u l table x d :
  repr u l table -> x ∉ l -> heap u !! x = Some d ->
  exists m, set_key (heap u) x (uuid (elt d)) (HASH_FUNCTION (uuid (elt d))) = Ok m /\
    repr (UT m (head u) (tbl u)) l table /\ element m x (elt d) /\ dom m = dom (heap u).
Proof.
  intros Hr Hxl Hx. unfold set_key, store. rewrite Hx. cbn [deref mbind outcome_bind].
  eexists. split; [reflexivity|]. split; [|split].
  - apply repr_agree; [done|]. intros y Hy. rewrite lookup_insert_ne; [done|]. by intros ->.
  - eexists. by rewrite lookup_insert_eq.
  - rewrite dom_insert_L. apply subseteq_union_1_L. apply singleton_subseteq_l. apply elem_of_dom. by exists d.
Qed.

(** Two assignments to one element. *)
Lemma alter_two m x p n :
  alter (fun d => set_prev p (set_next n d)) x m = alter_opt (set_prev p) (Some x) (alter_opt (set_next n) (Some x) m).
Proof.
  apply map_eq. intros y. rewrite !lookup_alter_opt. destruct (decide (x = y)) as [<-|].
  - rewrite lookup_alter_eq, !decide_True by done. destruct (m !! x); reflexivity.
  - by rewrite lookup_alter_ne, !decide_False by congruence.
Qed.

Lemma append_ok m t l x cs :
  NoDup l -> x ∉ l -> final None l = Some (tail t) -> is_Some (m !! x) -> segment (app_links m) None l None ->
  (forall y, y ∈ l -> is_Some (m !! y)) -> table_ok m t (length l) cs ->
  exists m', HASH_APPEND_LIST m t x = Ok (m', with_tail t x) /\ same_info m m' /\
    (forall y, bkt_links m' y = bkt_links m y) /\ segment (app_links m') None (l ++ [x]) None /\
    table_ok m' (with_tail t x) (length l) cs.
Proof.
  intros Hnd Hxl Hfin Hx Hseg Hin Hok.
  set (m1 := alter_opt (set_prev (Some (tail t))) (Some x) (alter_opt (set_next None) (Some x) m)).
  set (m2 := alter_opt (set_next (Some x)) (Some (tail t)) m1).
  assert (I : same_info m m2) by (unfold m2, m1; eauto with nrm).
  assert (B : forall y, bkt_links m2 y = bkt_links m y)
    by (intros y; unfold m2, m1; by autorewrite with views).
  exists m2. split_and!; try done.
  - unfold HASH_APPEND_LIST. rewrite store_ok by done. cbn [mbind outcome_bind]. rewrite alter_two.
    fold m1. rewrite store_ok; [reflexivity|]. apply (same_info_is_Some m); [unfold m1; eauto with nrm|].
    destruct (final_elem _ _ _ Hfin) as [|Ht]; [done|]. by apply Hin.
  - eapply segment_ext; [|apply (segment_append (app_links m) l x (tail t) Hnd Hxl Hfin); [|exact Hseg]].
    + intros y _. unfold m2, m1. rewrite app_set_next. apply set_n_ext. intros z. rewrite app_set_prev.
      apply set_p_ext. intros w. by rewrite app_set_next.
    + unfold app_links. destruct Hx as [d ->]. by eexists.
  - assert (Hok2 : table_ok m2 t (length l) cs)
      by (eapply table_ok_agree; [exact Hok|]; intros y _; split; [apply B|apply I]).
    destruct Hok2 as [K1 K2 K3 K4 K5]. by split.
Qed.

Lemma linked_tail u l t : linked u l -> head u = Some t -> l <> [].
Proof. intros Hl Hh ->. cbn in Hl. congruence. Qed.

Lemma make_table_ok m x :
  table_ok m (with_num_items (HASH_MAKE_TABLE x) (u32 (num_items (HASH_MAKE_TABLE x) + 1))) 1
    (replicate 32 []).
Proof. split; cbn [log2_num_buckets num_buckets buckets num_items HASH_MAKE_TABLE with_num_items]; try done. apply bkts_empty. Qed.

(** The element [x], which is in the list of the table already, gets in its bucket. *)
Lemma add_to_table_ok m t cs l l' table x e hd :
  Forall2 (element m) l' table -> NoDup l' -> l' ≡ₚ l ++ [x] -> element m x e ->
  segment (app_links m) None l' None -> first l' None = Some hd -> final None l' = Some (tail t) ->
  table_ok m t (length l) cs -> mjoin cs ≡ₚ l -> log2_num_buckets t < 31 -> Z.of_nat (length l) < 2 ^ 32 - 2 ->
  exists m' t', HASH_ADD_TO_TABLE m t (HASH_FUNCTION (uuid e)) x = Ok (m', t') /\
    repr (UT m' (Some hd) (Some t')) l' table /\ dom m' = dom m.
Proof.
  intros Hel Hnd Hperm (d & Hd & _ & _ & Hh) Hseg Hfirst Hfinal Hok Hcs Hroom Hsmall.
  assert (Hlen : length l' = S (length l)) by (rewrite Hperm, length_app; cbn; lia).
  set (t1 := with_num_items t (u32 (num_items t + 1))).
  assert (Hok1 : table_ok m t1 (length l') cs).
  { destruct Hok as [K1 K2 K3 K4 K5]. split; try done. cbn [num_items with_num_items t1].
    rewrite K4, u32_small, Hlen; unfold in_u32; lia. }
  destruct (add_to_bkt_ok m t1 (length l') cs l x d Hok1 Hroom Hcs Hd) as (m2 & t2 & cs2 & E2 & I2 & A2 & Ok2 & P2 & T2 & _).
  { by rewrite <- Hperm. }
  { rewrite length_app. cbn. lia. }
  exists m2, t2. split; [|split].
  - unfold HASH_ADD_TO_TABLE. rewrite <- Hh. exact E2.
  - split; [done|]. split; [by eapply elements_info|].
    apply (linked_intro _ _ t2 cs2); cbn [heap head tbl]; try done.
    + by destruct l'.
    + by rewrite T2.
    + eapply segment_ext; [|exact Hseg]. intros z _. symmetry. apply A2.
    + by rewrite P2.
  - by rewrite (same_info_dom _ _ I2).
Qed.

(** The table of one element. *)
Lemma first_element_ok m x e :
  element m x e ->
  exists m' t', ('(m, hd, t) ← first_element m x;
                 '(m, t) ← HASH_ADD_TO_TABLE m t (HASH_FUNCTION (uuid e)) x; Ok (UT m (Some hd) (Some t))) =
                Ok (UT m' (Some x) (Some t')) /\
    repr (UT m' (Some x) (Some t')) [x] [e] /\ dom m' = dom m.
Proof.
  intros He. pose proof He as (d & Hd & _). unfold first_element. rewrite store_ok by (by exists d).
  cbn [mbind outcome_bind]. rewrite alter_two.
  set (m1 := alter_opt (set_prev None) (Some x) (alter_opt (set_next None) (Some x) m)).
  assert (I1 : same_info m m1) by (unfold m1; eauto with nrm).
  assert (He1 : element m1 x e) by (by eapply element_info).
  destruct (add_to_table_ok m1 (HASH_MAKE_TABLE x) (replicate 32 []) [] [x] [e] x e x) as (m' & t' & E & Hr & Hdom);
    try done.
  - by constructor.
  - apply NoDup_singleton.
  - split; [|done]. unfold m1. rewrite app_set_prev. unfold set_p. rewrite decide_True by done.
    rewrite app_set_next. unfold set_n, app_links. by rewrite decide_True, Hd.
  - split; try done. apply bkts_empty.
  - exists m', t'. rewrite E. cbn [mbind outcome_bind]. split; [done|]. split; [done|].
    by rewrite Hdom, (same_info_dom _ _ I1).
Qed.

Lemma hash_add_mem_ok u l table e x d :
  repr u l table -> room u -> x ∉ l -> heap u !! x = Some d -> elt d = e ->
  Z.of_nat (length table) < 2 ^ 32 - 2 ->
  exists u', HASH_ADD_KEYPTR u (uuid e) x = Ok u' /\ repr u' (l ++ [x]) (HASH_ADD table e) /\
    dom (heap u') = dom (heap u).
Proof.
  intros Hr Hroom Hxl Hx <- Hsmall. destruct (set_key_ok u l table x d Hr Hxl Hx) as (m0 & E0 & (Hnd & Hel & Hl) & He & Hdom).
  pose proof (Forall2_length _ _ _ Hel) as Hlen. cbn [heap head tbl] in *.
  assert (Hnd' : NoDup (l ++ [x])).
  { apply NoDup_app. split; [done|]. split; [|apply NoDup_singleton]. intros y Hy Hy'. set_solver. }
  unfold HASH_ADD_KEYPTR, HASH_ADD_KEYPTR_BYHASHVALUE. rewrite E0. cbn [mbind outcome_bind].
  destruct l as [|z l'].
  - cbn in Hl. rewrite Hl. apply Forall2_nil_inv_l in Hel as ->.
    destruct (first_element_ok m0 x (elt d) He) as (m' & t' & E & Hr' & Hdom').
    eexists. split; [exact E|]. split; [exact Hr'|]. cbn [heap]. congruence.
  - destruct Hl as (t & cs & Ht & Hh & Hf & Hs & Hok & Hp). set (l := z :: l') in *. cbn [heap head tbl] in *.
    unfold room in Hroom. rewrite Hh, Ht in Hroom. rewrite Hh. cbn [first l] in Hroom |- *. fold l.
    rewrite Ht. cbn [deref mbind outcome_bind].
    destruct (append_ok m0 t l x cs Hnd Hxl Hf) as (m1 & E1 & I1 & B1 & S1 & Ok1); [|done| |done|].
    { destruct He as (d0 & ? & _). by exists d0. }
    { intros y Hy. by eapply elements_is_Some. }
    rewrite E1. cbn [mbind outcome_bind].
    destruct (add_to_table_ok m1 (with_tail t x) cs l (l ++ [x]) (HASH_ADD table (elt d)) x (elt d) z)
      as (m' & t' & E & Hr' & Hdom'); try done.
    + apply Forall2_app; [by eapply elements_info|]. constructor; [by eapply element_info|constructor].
    + by eapply element_info.
    + by rewrite final_snoc.
    + lia.
    + rewrite E. eexists. split; [reflexivity|]. split; [exact Hr'|]. cbn [heap].
      by rewrite Hdom', (same_info_dom _ _ I1).
Qed.

(** *** Deleting *)

Lemma join_remove cs i c1 x c2 :
  cs !! i = Some (c1 ++ x :: c2) -> mjoin cs ≡ₚ x :: mjoin (<[i := c1 ++ c2]> cs).
Proof.
  revert i; induction cs as [|c cs IH]; intros [|i] Hi; [done|done|injection Hi as ->|].
  - cbn. rewrite <- !(assoc_L app). cbn [app]. symmetry. apply Permutation_middle.
  - change (mjoin (c :: cs)) with (c ++ mjoin cs). rewrite (IH i Hi).
    change (mjoin (<[S i := c1 ++ c2]> (c :: cs))) with (c ++ mjoin (<[i := c1 ++ c2]> cs)).
    symmetry. apply Permutation_middle.
Qed.

(** The element leaves the list of the table. *)
Lemma unlink_ok m l1 x l2 d :
  NoDup (l1 ++ x :: l2) -> segment (app_links m) None (l1 ++ x :: l2) None -> m !! x = Some d ->
  (forall y, y ∈ l1 ++ x :: l2 -> is_Some (m !! y)) ->
  exists m1 m2, store_opt m (prev d) (set_next (next d)) = Ok m1 /\
    store_opt m1 (next d) (set_prev (prev d)) = Ok m2 /\
    prev d = final None l1 /\ next d = first l2 None /\ same_info m m2 /\
    (forall y, bkt_links m2 y = bkt_links m y) /\ segment (app_links m2) None (l1 ++ l2) None.
Proof.
  intros Hnd Hseg Hx Hin. pose proof (segment_middle _ _ _ _ Hseg) as Hmid. unfold app_links in Hmid.
  rewrite Hx in Hmid. injection Hmid as Hp Hn.
  set (m1 := alter_opt (set_next (next d)) (prev d) m). set (m2 := alter_opt (set_prev (prev d)) (next d) m1).
  assert (I1 : same_info m m1) by (unfold m1; eauto with nrm).
  exists m1, m2. split_and!; try done.
  - apply store_opt_ok. intros y Hy. rewrite Hp in Hy. destruct (final_elem _ _ _ Hy) as [|]; [done|].
    apply Hin. set_solver.
  - apply store_opt_ok. intros y Hy. rewrite Hn in Hy. apply first_elem in Hy.
    apply (same_info_is_Some m); [done|]. apply Hin. set_solver.
  - unfold m2. eauto with nrm.
  - intros y. unfold m2, m1. by autorewrite with views.
  - eapply segment_ext; [|by apply (segment_remove (app_links m) l1 x l2 Hnd)].
    intros y _. unfold m2, m1. rewrite app_set_prev, Hp, Hn. apply set_p_ext. intros z. by rewrite app_set_next.
Qed.

(** The tail of the table moves to the element before it. *)
Lemma new_tail (t : UT_hash_table) l1 x l2 :
  NoDup (l1 ++ x :: l2) -> final None (l1 ++ x :: l2) = Some (tail t) -> l1 ++ l2 <> [] ->
  exists t', (if bool_decide (tail t = x) then p ← deref (final None l1); Ok (with_tail t p) else Ok t) = Ok t' /\
    final None (l1 ++ l2) = Some (tail t') /\ buckets t' = buckets t /\ num_buckets t' = num_buckets t /\
    num_items t' = num_items t /\ log2_num_buckets t' = log2_num_buckets t.
Proof.
  intros Hnd Hf Hne. case_bool_decide as Hx.
  - rewrite Hx in Hf. rewrite (final_last _ _ _ Hnd Hf) in *. destruct l1 as [|y l1 _] using rev_ind; [done|].
    rewrite final_snoc. eexists. split; [reflexivity|]. by rewrite app_nil_r, final_snoc.
  - exists t. split_and!; try done. destruct l2 as [|y l2 _] using rev_ind; [rewrite final_snoc in Hf; congruence|].
    change (x :: l2 ++ [y]) with ((x :: l2) ++ [y]) in Hf. rewrite (assoc_L app), final_snoc in Hf.
    by rewrite (assoc_L app), final_snoc.
Qed.

(** The element leaves its bucket. *)
Lemma unbucket_ok m t cs l1 x l2 d :
  table_ok m t (length (l1 ++ x :: l2)) cs -> mjoin cs ≡ₚ l1 ++ x :: l2 ->
  Z.of_nat (length (l1 ++ x :: l2)) < 2 ^ 32 -> m !! x = Some d ->
  exists m' bs' cs', HASH_DEL_IN_BKT m (buckets t) (Z.to_nat (HASH_TO_BKT (hashv d) (num_buckets t))) x = Ok (m', bs') /\
    same_info m m' /\ (forall y, app_links m' y = app_links m y) /\ mjoin cs' ≡ₚ l1 ++ l2 /\
    forall t', num_buckets t' = num_buckets t -> num_items t' = num_items t ->
      log2_num_buckets t' = log2_num_buckets t ->
      table_ok m' (with_num_items (with_buckets t' bs') (u32 (num_items t' - 1))) (length (l1 ++ l2)) cs'.
Proof.
  intros [Hlog Hnum Hbl Hitems Hb] Hp Hsmall Hd.
  assert (Hxj : x ∈ mjoin cs) by (rewrite Hp; set_solver).
  apply (bkts_join _ _ _ _ _ _ Hb Hd) in Hxj as (c & Hci & Hxc).
  apply list_elem_of_split in Hxc as (c1 & c2 & ->).
  destruct (lookup_lt_is_Some_2 (buckets t) (Z.to_nat (HASH_TO_BKT (hashv d) (num_buckets t)))) as [b Hbi].
  { destruct Hb as [-> _]. by eapply lookup_lt_Some. }
  destruct (bkts_del m _ _ cs _ b c1 x c2 d Hb Hbi Hci Hd) as (m' & bs' & E & I & Happ & B).
  { pose proof (join_length _ _ _ Hci) as Hjl. rewrite Hp in Hjl. lia. }
  exists m', bs', (<[Z.to_nat (HASH_TO_BKT (hashv d) (num_buckets t)) := c1 ++ c2]> cs). split_and!; [done..| |].
  - apply (Permutation_cons_inv (a := x)). rewrite <- (join_remove _ _ _ _ _ Hci), Hp.
    symmetry. apply Permutation_middle.
  - intros t' G2 G3 G4. split; cbn; rewrite ?G2, ?G3, ?G4; [done|done| | |done].
    + destruct B as [-> _]. rewrite length_insert. by destruct Hb as [<- _].
    + rewrite Hitems, u32_small; rewrite !length_app in *; cbn [length] in *; unfold in_u32; lia.
Qed.

(** What is left when an element leaves. *)
Lemma elements_remove m l1 x l2 t1 e t2 :
  NoDup (l1 ++ x :: l2) -> Forall2 (element m) (l1 ++ x :: l2) (t1 ++ e :: t2) -> length l1 = length t1 ->
  NoDup (l1 ++ l2) /\ Forall2 (element m) (l1 ++ l2) (t1 ++ t2).
Proof.
  intros Hnd Hel Hlen. split.
  - apply NoDup_app in Hnd as (? & Hd & [_ ?]%NoDup_cons). apply NoDup_app. split; [done|]. split; [|done].
    intros y Hy Hy'. apply (Hd y Hy). set_solver.
  - apply Forall2_app_inv in Hel as [? H]; [|done]. inversion H; subst. by apply Forall2_app.
Qed.

Lemma hash_delete_mem_ok u l1 x l2 t1 e t2 :
  repr u (l1 ++ x :: l2) (t1 ++ e :: t2) -> length l1 = length t1 ->
  Z.of_nat (length (t1 ++ e :: t2)) < 2 ^ 32 ->
  exists u', HASH_DELETE u x = Ok u' /\ repr u' (l1 ++ l2) (t1 ++ t2) /\ same_info (heap u) (heap u') /\
    (room u -> room u').
Proof.
  intros (Hnd & Hel & Hl) Hlen Hsmall. rewrite <- (Forall2_length _ _ _ Hel) in Hsmall.
  destruct (elements_remove _ _ _ _ _ _ _ Hnd Hel Hlen) as [Hnd' Hel'].
  destruct (linked_table u _ Hl) as (t & cs & hd & Ht & Hh & Hf & Hs & Hok & Hp & Hfirst); [by destruct l1|].
  assert (Hin : forall y, y ∈ l1 ++ x :: l2 -> is_Some (heap u !! y)) by (intros y Hy; eapply elements_is_Some; [exact Hel|exact Hy]).
  destruct (Hin x ltac:(set_solver)) as [d Hd].
  destruct (unlink_ok (heap u) l1 x l2 d Hnd Hs Hd Hin) as (m1 & m2 & E1 & E2 & Hpd & Hnx & I2 & B2 & S2).
  unfold HASH_DELETE. rewrite Hd. cbn [deref mbind outcome_bind].
  destruct (decide (l1 ++ l2 = [])) as [Hnil|Hne].
  { apply app_nil in Hnil as [-> ->]. rewrite Hpd, Hnx. cbn [final first]. eexists. split; [reflexivity|].
    split; [|by split]. split; [constructor|]. split; [|done]. by inversion Hel'. }
  destruct (new_tail t l1 x l2 Hnd Hf Hne) as (t' & Etail & Hf' & G1 & G2 & G3 & G4). rewrite <- Hpd in Etail.
  destruct (same_info_Some _ _ _ _ I2 Hd) as (d2 & Hd2 & _ & Hh2 & _).
  destruct (unbucket_ok m2 t cs l1 x l2 d2) as (m3 & bs' & cs' & E3 & I3 & A3 & Hp3 & Hok3); [|done..|].
  { eapply table_ok_agree; [exact Hok|]; intros y _; split; [apply B2|apply I2]. }
  rewrite Hh2 in E3. assert (I03 : same_info (heap u) m3) by eauto with nrm.
  exists (UT m3 (first (l1 ++ l2) None) (Some (with_num_items (with_buckets t' bs') (u32 (num_items t' - 1))))).
  split; [|split; [|split; [exact I03|]]].
  - destruct (prev d) as [pd|] eqn:Ep; [|destruct (next d) as [nd|] eqn:En].
    3:{ exfalso. apply Hne. destruct l2; [|done]. destruct l1 as [|y l1 _] using rev_ind; [done|].
        by rewrite final_snoc in Hpd. }
    all: rewrite Ht; cbn [deref mbind outcome_bind]; cbn [deref mbind outcome_bind] in Etail; rewrite Etail.
    all: cbn [mbind outcome_bind]; rewrite E1; cbn [mbind outcome_bind]; rewrite E2; cbn [mbind outcome_bind].
    all: rewrite G1, G2, E3; cbn [mbind outcome_bind]; do 2 f_equal.
    + destruct l1 as [|y l1]; [done|]. by rewrite Hh, <- Hfirst.
    + rewrite Hnx. destruct l1 as [|y l1 _] using rev_ind; [done|]. by rewrite final_snoc in Hpd.
  - split; [done|]. split; [by eapply elements_info|].
    eapply linked_intro; cbn [heap head tbl]; [done|reflexivity|reflexivity|done| |by apply Hok3|done].
    eapply segment_ext; [|exact S2]. intros y _. symmetry. apply A3.
  - unfold room. rewrite Hh, Ht. cbn [head tbl log2_num_buckets with_num_items with_buckets]. rewrite G4.
    destruct l1; cbn [app first]; [|done]. by destruct l2.
Qed.

Lemma repr_head u l table : repr u l table -> head u = first l None.
Proof.
  intros (_ & _ & Hl). unfold linked in Hl. destruct l; [done|]. by destruct Hl as (t & cs & _ & Hh & _).
Qed.

Lemma repr_next u x l table :
  repr u (x :: l) table -> exists d, heap u !! x = Some d /\ next d = first l None.
Proof.
  intros (_ & Hel & (t & cs & _ & _ & _ & [Hx _] & _)). unfold app_links in Hx.
  destruct (heap u !! x) as [d|]; [|done]. injection Hx as _ Hn. by exists d.
Qed.

Lemma repr_nil u l table : repr u l table -> l = [] <-> table = [].
Proof. intros (_ & Hel & _). pose proof (Forall2_length _ _ _ Hel). destruct l, table; naive_solver. Qed.

(** Unlinking an element and freeing it. *)
Lemma delete_free_ok u l1 x l2 t1 e t2 :
  repr u (l1 ++ x :: l2) (t1 ++ e :: t2) -> length l1 = length t1 ->
  Z.of_nat (length (t1 ++ e :: t2)) < 2 ^ 32 ->
  exists u', HASH_DELETE u x = Ok u' /\
    repr (UT (base.delete x (heap u')) (head u') (tbl u')) (l1 ++ l2) (t1 ++ t2) /\
    dom (base.delete x (heap u')) = dom (heap u) ∖ {[x]}.
Proof.
  intros Hr Hlen Hsm. destruct (hash_delete_mem_ok u l1 x l2 t1 e t2 Hr Hlen Hsm) as (u' & E & Hr' & Hi & _).
  exists u'. split; [done|]. split; [|by rewrite dom_delete_L, (same_info_dom _ _ Hi)]. apply repr_agree; [done|]. intros y Hy.
  rewrite lookup_delete_ne; [done|]. intros <-. destruct Hr as (Hnd & _).
  apply NoDup_app in Hnd as (_ & Hdis & [Hn _]%NoDup_cons). apply elem_of_app in Hy as [Hy|Hy]; [|done].
  apply (Hdis x Hy). set_solver.
Qed.

Lemma HASH_DEL_middle (t1 : nrm_hash A) e t2 :
  hash_wf (t1 ++ e :: t2) -> HASH_DEL (t1 ++ e :: t2) (uuid e) = t1 ++ t2.
Proof.
  unfold hash_wf. induction t1 as [|e' t1 IH]; cbn [app HASH_DEL]; [by rewrite decide_True|].
  rewrite fmap_cons. intros [Hn Hwf]%NoDup_cons. rewrite decide_False; [by rewrite IH|].
  intros E. apply Hn. rewrite E, fmap_app, fmap_cons. set_solver.
Qed.

Lemma destroy_loop_ok l : forall fuel u table,
  repr u l table -> Z.of_nat (length table) < 2 ^ 32 -> (length l <= fuel)%nat ->
  exists u', iter_loop heap fuel
      (fun u x => u ← HASH_DELETE u x; Ok (UT (base.delete x (heap u)) (head u) (tbl u))) u
      (first l None) (match l with [] => None | _ :: l => first l None end) = Ok u' /\
    head u' = None /\ dom (heap u') = dom (heap u) ∖ list_to_set l.
Proof.
  induction l as [|x l IH]; intros fuel u table Hr Hsm Hf.
  { exists u. split; [by destruct fuel|]. split; [by apply (repr_head u [] table)|]. set_solver. }
  destruct fuel as [|fuel]; [cbn in Hf; lia|]. pose proof Hr as (_ & Hel & _).
  apply Forall2_cons_inv_l in Hel as (e & t2 & _ & _ & ->).
  destruct (delete_free_ok u [] x l [] e t2 Hr eq_refl Hsm) as (u1 & E & Hr1 & Hd1). cbn [app] in Hr1.
  cbn [iter_loop first]. rewrite E. cbn [mbind outcome_bind].
  set (u2 := UT (base.delete x (heap u1)) (head u1) (tbl u1)) in *.
  destruct (IH fuel u2 t2 Hr1) as (u' & E' & Hh & Hd); [cbn [length] in Hsm; lia|cbn in Hf; lia|].
  exists u'. split; [|split; [done|rewrite Hd; unfold u2; cbn [heap]; rewrite Hd1; set_solver]].
  destruct l as [|y l]; cbn [first next_of mbind outcome_bind] in E' |- *; [done|].
  destruct (repr_next _ _ _ _ Hr1) as (d & Hdy & Hn). rewrite Hdy. cbn [deref mbind outcome_bind]. by rewrite Hn.
Qed.

Lemma foreach_mem_ok l : forall fuel u table,
  Forall2 (element (heap u)) l table -> (exists p, segment (app_links (heap u)) p l None) -> (length l <= fuel)%nat ->
  foreach_mem fuel u (first l None) = Ok (ptr <$> table).
Proof.
  induction l as [|x l IH]; intros fuel u table Hel [p Hs] Hf.
  { apply Forall2_nil_inv_l in Hel as ->. by destruct fuel. }
  destruct fuel as [|fuel]; [cbn in Hf; lia|].
  apply Forall2_cons_inv_l in Hel as (e & t2 & (d & Hd & He & _) & Hel & ->). destruct Hs as [Hx Hs].
  unfold app_links in Hx. rewrite Hd in Hx. injection Hx as _ Hn. cbn [foreach_mem first]. rewrite Hd.
  cbn [deref mbind outcome_bind]. rewrite Hn, (IH fuel u t2 Hel); [|by eexists|cbn in Hf; lia].
  cbn [mbind outcome_bind]. by rewrite He.
Qed.

Lemma repr_size u l table : repr u l table -> (length l <= size (heap u))%nat.
Proof.
  intros (Hnd & Hel & _). rewrite <- size_dom, <- (size_list_to_set (C := gset addr) l) by done.
  apply subseteq_size. intros x Hx%elem_of_list_to_set. apply elem_of_dom. by eapply elements_is_Some.
Qed.
End tables_of_hashes.

(** ** src/utils/hashes.c *)

Section hashes_c.
Context {A : Type} `{hashing : hash_function}.
Implicit Types (table : nrm_hash A) (u : uthash (nrm_hash_s A)).

Lemma add_mem_refines u l table x name p :
  repr u l table -> hash_wf table -> room u -> Z.of_nat (length table) < 2 ^ 32 - 2 ->
  (forall a, x = Some a -> heap u !! a = None) ->
  exists u' l', nrm_hash_add_mem u x name p = Ok (fst (nrm_hash_add (is_null x) table name p), u') /\
    repr u' l' (snd (nrm_hash_add (is_null x) table name p)).
Proof.
  intros Hr Hwf Hroom Hsm Hx. unfold nrm_hash_add_mem, nrm_hash_add.
  destruct (hash_find_ok u l table (key_of name) Hr Hwf) as (out & E & Hout). rewrite E. cbn [mbind outcome_bind].
  destruct out as [y|].
  { destruct Hout as (? & ? & ? & ? & e & _ & _ & _ & _ & _ & ->). by exists u, l. }
  rewrite Hout. destruct x as [a|]; [|by exists u, l]. specialize (Hx a eq_refl).
  cbn [is_null nrm_hash_create_element_mem nrm_hash_create_element fst snd].
  set (u1 := UT (<[a := Handle None None None None ""%string 0 (Elem (key_of name) p)]> (heap u)) (head u) (tbl u)).
  assert (Hal : a ∉ l).
  { intros Ha. destruct Hr as (_ & Hel & _). destruct (elements_is_Some _ _ _ _ Hel Ha) as [d Hd]. congruence. }
  assert (Hr1 : repr u1 l table).
  { apply (repr_agree u); [done|]. intros y Hy. rewrite lookup_insert_ne; [done|]. by intros <-. }
  destruct (hash_add_mem_ok u1 l table (Elem (key_of name) p) a
    (Handle None None None None ""%string 0 (Elem (key_of name) p)) Hr1 Hroom Hal) as (u' & E' & Hr' & _).
  - cbn [heap u1]. by rewrite lookup_insert_eq.
  - done.
  - done.
  - exists u', (l ++ [a]). split; [|exact Hr']. cbn [Z.eqb negb deref mbind outcome_bind].
    cbn [uuid] in E'. by rewrite E'.
Qed.

Lemma remove_mem_refines at_uuid u l table name :
  repr u l table -> hash_wf table -> Z.of_nat (length table) < 2 ^ 32 ->
  exists u' l', nrm_hash_remove_mem at_uuid u name = Ok (fst (nrm_hash_remove at_uuid table name), u') /\
    repr u' l' (snd (nrm_hash_remove at_uuid table name)).
Proof.
  intros Hr Hwf Hsm. unfold nrm_hash_remove_mem, nrm_hash_remove. pose proof (repr_nil _ _ _ Hr) as Hnil.
  pose proof (repr_head _ _ _ Hr) as Hh. destruct l as [|x0 l0].
  { rewrite (proj1 Hnil eq_refl), Hh in *. by exists u, []. }
  rewrite Hh. cbn [first]. destruct table as [|e0 t0]; [naive_solver|]. destruct name as [k|]; [|by eexists _, _].
  destruct (hash_find_ok u _ _ (at_uuid (String.length k)) Hr Hwf) as (out & E & Hout). rewrite E.
  cbn [mbind outcome_bind]. destruct out as [x|]; [|rewrite Hout; by eexists _, _].
  destruct Hout as (l1 & l2 & t1 & t2 & e & Hl & Ht & Hlen & _ & Hk & ->). rewrite Hl, Ht in *.
  destruct (delete_free_ok u l1 x l2 t1 e t2 Hr Hlen Hsm) as (u' & E' & Hr' & _). rewrite E'.
  eexists _, (l1 ++ l2). split; [reflexivity|]. cbn [fst snd]. by rewrite <- Hk, HASH_DEL_middle.
Qed.

Lemma find_mem_refines u l table name ptr_null :
  repr u l table -> hash_wf table -> nrm_hash_find_mem u name ptr_null = Ok (nrm_hash_find table name ptr_null).
Proof.
  intros Hr Hwf. unfold nrm_hash_find_mem, nrm_hash_find. pose proof (repr_nil _ _ _ Hr) as Hnil.
  rewrite (repr_head _ _ _ Hr). destruct l as [|x0 l0]; [by rewrite (proj1 Hnil eq_refl)|]. cbn [first].
  destruct table as [|e0 t0]; [naive_solver|]. destruct name as [k|]; [|done]. destruct ptr_null; [done|].
  destruct (hash_find_ok u _ _ k Hr Hwf) as (out & E & Hout). rewrite E. cbn [mbind outcome_bind].
  destruct out as [x|]; [|by rewrite Hout].
  destruct Hout as (? & ? & ? & ? & e & _ & _ & _ & (d & Hd & <- & _) & _ & ->). by rewrite Hd.
Qed.

Lemma size_mem_refines u l table :
  repr u l table -> Z.of_nat (length table) < 2 ^ 32 -> nrm_hash_size_mem u = Ok (nrm_hash_size table).
Proof.
  intros Hr Hsm. unfold nrm_hash_size_mem, nrm_hash_size, HASH_COUNT. pose proof (repr_nil _ _ _ Hr) as Hnil.
  rewrite (repr_head _ _ _ Hr). destruct l as [|x0 l0]; [by rewrite (proj1 Hnil eq_refl)|]. cbn [first].
  destruct Hr as (_ & Hel & (t & cs & Ht & _ & _ & _ & Hok & _)). rewrite Ht. cbn [deref mbind outcome_bind].
  rewrite (tok_items _ _ _ _ Hok), (Forall2_length _ _ _ Hel). destruct table; [naive_solver|].
  rewrite u32_small; [done|]. unfold in_u32. lia.
Qed.

(** C6: the pointers of uthash implement the tables that Hashes works with. In
    every well-formed table, with the buckets, the order of insertion and the
    counters as the macros keep them, the functions of hashes.c return what they
    return on the list of the elements, whatever the hash values, expansions
    included, and leave a well-formed table of the resulting list; nothing outside
    of the memory of the elements is read. *)
Theorem uthash_refines_hashes u l table at_uuid :
  repr u l table -> hash_wf table -> room u -> Z.of_nat (length table) < 2 ^ 32 - 2 ->
  (forall x name p, (forall a, x = Some a -> heap u !! a = None) ->
     exists u' l', nrm_hash_add_mem u x name p = Ok (fst (nrm_hash_add (is_null x) table name p), u') /\
       repr u' l' (snd (nrm_hash_add (is_null x) table name p))) /\
  (forall name, exists u' l',
     nrm_hash_remove_mem at_uuid u name = Ok (fst (nrm_hash_remove at_uuid table name), u') /\
     repr u' l' (snd (nrm_hash_remove at_uuid table name))) /\
  (forall name ptr_null, nrm_hash_find_mem u name ptr_null = Ok (nrm_hash_find table name ptr_null)) /\
  nrm_hash_size_mem u = Ok (nrm_hash_size table) /\
  nrm_hash_foreach_mem u = Ok (ptr <$> table).
Proof.
  intros Hr Hwf Hroom Hsm. split; [intros; by apply (add_mem_refines u l)|].
  split; [intros name; apply (remove_mem_refines at_uuid u l); [done|done|lia]|].
  split; [intros; by apply (find_mem_refines u l)|]. split; [apply (size_mem_refines u l); [done|lia]|].
  unfold nrm_hash_foreach_mem. rewrite (repr_head _ _ _ Hr). pose proof (repr_size _ _ _ Hr) as Hs.
  destruct Hr as (_ & Hel & Hl). apply (foreach_mem_ok l); [done| |done]. exists None.
  unfold linked in Hl. destruct l; [done|]. by destruct Hl as (t & cs & _ & _ & _ & H & _).
Qed.

(** C22: destroying a table frees each of its elements once and nothing else: the
    loop holds on to the next element while it frees one, so that no freed memory
    is read, and it ends. *)
Theorem uthash_destroy_frees u l table :
  repr u l table -> Z.of_nat (length table) < 2 ^ 32 ->
  exists u', nrm_hash_destroy_mem u = Ok u' /\ head u' = None /\
    dom (heap u') = dom (heap u) ∖ list_to_set l.
Proof.
  intros Hr Hsm. destruct (destroy_loop_ok l (size (heap u)) u table Hr Hsm (repr_size _ _ _ Hr))
    as (u' & E & Hh & Hd).
  exists (UT (heap u') None (tbl u')). split; [|done]. unfold nrm_hash_destroy_mem.
  rewrite (repr_head _ _ _ Hr). destruct l as [|x l]; cbn [first next_of mbind outcome_bind] in *.
  - by rewrite E.
  - destruct (repr_next _ _ _ _ Hr) as (d & Hx & Hn). rewrite Hx. cbn [deref mbind outcome_bind].
    by rewrite Hn, E.
Qed.
End hashes_c.

(** ** Witnesses *)

(** A sequence of additions to an empty table at the addresses from 1 on. *)
Fixpoint add_keys (keys : list string) (a : addr) (u : uthash (nrm_hash_s nat)) : outcome (uthash (nrm_hash_s nat)) :=
  match keys with
  | [] => Ok u
  | k :: keys => '(_, u) ← nrm_hash_add_mem u (Some a) (Some k) (length keys); add_keys keys (Pos.succ a) u
  end.

Definition empty_hash : uthash (nrm_hash_s nat) := UT ∅ None None.

Lemma empty_repr : repr empty_hash [] [].
Proof. split; [constructor|]. by split. Qed.

(** Three hundred keys make the table expand. *)
Definition many_keys : list string :=
  (fun n => String (Ascii.ascii_of_nat (n / 16 + 32)) (String (Ascii.ascii_of_nat (n mod 16 + 64)) EmptyString)) <$> seq 0 300.

Example many_keys_expand :
  (u ← add_keys many_keys 1 empty_hash; t ← deref (tbl u);
   Ok (num_buckets t, num_items t, nrm_hash_find_mem u (many_keys !! 123%nat) false)) =
  Ok (64, 300, Ok (NRM_SUCCESS, Some 176%nat)).
Proof. vm_compute. reflexivity. Qed.

Lemma one_key_repr :
  exists u l, nrm_hash_add_mem empty_hash (Some 1%positive) (Some "k"%string) 7%nat = Ok (NRM_SUCCESS, u) /\
    repr u l [Elem "k"%string 7%nat] /\ room u.
Proof.
  destruct (add_mem_refines empty_hash [] [] (Some 1%positive) (Some "k"%string) 7%nat empty_repr
    (NoDup_nil_2) I eq_refl) as (u' & l' & E & Hr); [by intros a|].
  exists u', l'. split; [exact E|]. split; [exact Hr|].
  vm_compute in E. injection E as <-. reflexivity.
Qed.

Lemma uthash_refines_hashes_witness :
  exists u, nrm_hash_add_mem empty_hash (Some 1%positive) (Some "k"%string) 7%nat = Ok (NRM_SUCCESS, u) /\
    nrm_hash_find_mem u (Some "k"%string) false = Ok (NRM_SUCCESS, Some 7%nat) /\
    nrm_hash_size_mem u = Ok (NRM_SUCCESS, Some 1) /\ nrm_hash_foreach_mem u = Ok [7%nat].
Proof.
  destruct one_key_repr as (u & l & E & Hr & Hroom).
  destruct (uthash_refines_hashes u l [Elem "k"%string 7%nat] (fun _ => ""%string) Hr (NoDup_singleton _) Hroom eq_refl)
    as (_ & _ & Hf & Hs & Hall).
  exists u. split; [exact E|]. split; [exact (Hf (Some "k"%string) false)|]. split; [exact Hs|exact Hall].
Defined.

Lemma uthash_destroy_frees_witness :
  exists u u', nrm_hash_add_mem empty_hash (Some 1%positive) (Some "k"%string) 7%nat = Ok (NRM_SUCCESS, u) /\
    nrm_hash_destroy_mem u = Ok u' /\ head u' = None /\ size (heap u') = 0%nat.
Proof.
  destruct one_key_repr as (u & l & E & Hr & _).
  destruct (uthash_destroy_frees u l [Elem "k"%string 7%nat] Hr eq_refl) as (u' & E' & Hh & _).
  exists u, u'. split; [exact E|]. split; [exact E'|]. split; [exact Hh|].
  vm_compute in E. injection E as <-. vm_compute in E'. injection E' as <-. reflexivity.
Defined.
