(* ===== verification/Loops.v ===== *)
(** * The loop of czmq

    The servers, the client of the command line and the reactors of the wrappers
    all wait in [zloop_start]. The interface and its instance on a list of events
    are shared by Reactor and Server. *)

From S2P Require Import Prelude.

(** [zloop_start] hands events to their handlers in order until one of them
    returns -1, and returns -1 then; [None] while it waits for more. *)
Class Zloop := {
  zloop_start {S E : Type} :
    (S -> E -> outcome (Z * S)) -> S -> list E -> outcome (option Z * S);
  zloop_waits {S E} (step : S -> E -> outcome (Z * S)) s : zloop_start step s [] = Ok (None, s);
  zloop_handles {S E} (step : S -> E -> outcome (Z * S)) s e events :
    zloop_start step s (e :: events) =
    ('(rc, s) ← step s e; if rc =? -1 then Ok (Some (-1), s) else zloop_start step s events)
}.

Fixpoint list_zloop {S E} (step : S -> E -> outcome (Z * S)) (s : S) (events : list E)
    : outcome (option Z * S) :=
  match events with
  | [] => Ok (None, s)
  | e :: events => '(rc, s) ← step s e; if rc =? -1 then Ok (Some (-1), s) else list_zloop step s events
  end.
#[export] Instance list_loop : Zloop.
Proof. by refine {| zloop_start := @list_zloop |}. Defined.

(** ** Lemmas on the loop *)

Section loop.
Context `{Zloop} {S E : Type}.
Variable step : S -> E -> outcome (Z * S).
Implicit Types s : S.

(** Events whose handlers go on, one after the other. *)
Inductive goes_on : S -> list E -> S -> Prop :=
| goes_on_nil s : goes_on s [] s
| goes_on_cons s e rc s1 events s2 :
    step s e = Ok (rc, s1) -> rc <> -1 -> goes_on s1 events s2 -> goes_on s (e :: events) s2.

Lemma goes_on_app s events1 s1 events2 s2 :
  goes_on s events1 s1 -> goes_on s1 events2 s2 -> goes_on s (events1 ++ events2) s2.
Proof. induction 1; cbn; intros; [done|]. econstructor; eauto. Qed.

Lemma zloop_goes_on s events s1 rest :
  goes_on s events s1 -> zloop_start step s (events ++ rest) = zloop_start step s1 rest.
Proof.
  induction 1 as [|s e rc s1 events s2 He Hrc _ IH]; [done|].
  cbn [app]. rewrite zloop_handles, He. cbn [mbind outcome_bind].
  destruct (Z.eqb_spec rc (-1)); [done|]. exact IH.
Qed.

(** The loop stops at the first handler that returns -1; what follows is not
    handled. *)
Lemma zloop_stops s events s1 e s2 rest :
  goes_on s events s1 -> step s1 e = Ok (-1, s2) ->
  zloop_start step s (events ++ e :: rest) = Ok (Some (-1), s2).
Proof. intros Hgo He. by rewrite (zloop_goes_on _ _ _ _ Hgo), zloop_handles, He. Qed.

Lemma zloop_waiting s events s1 :
  goes_on s events s1 -> zloop_start step s events = Ok (None, s1).
Proof.
  intros Hgo. rewrite <- (app_nil_r events), (zloop_goes_on _ _ _ _ Hgo). apply zloop_waits.
Qed.

(** Every run that the handlers let through splits that way. *)
Lemma zloop_inv s events rc s' :
  zloop_start step s events = Ok (rc, s') ->
  (rc = None /\ goes_on s events s') \/
  (exists before s1 e rest, rc = Some (-1) /\ events = before ++ e :: rest /\
     goes_on s before s1 /\ step s1 e = Ok (-1, s')).
Proof.
  revert s. induction events as [|e events IH]; intros s.
  - rewrite zloop_waits. intros [= <- <-]. left. split; [done|constructor].
  - rewrite zloop_handles. intros Heq. apply bind_Ok_inv in Heq as ([r s1] & He & Heq).
    destruct (Z.eqb_spec r (-1)) as [->|Hr].
    + injection Heq as <- <-. right. exists [], s, e, events. repeat split; [constructor|done].
    + apply IH in Heq as [[-> Hgo]|(before & s2 & e' & rest & -> & -> & Hgo & He')].
      * left. split; [done|]. by econstructor.
      * right. exists (e :: before), s2, e', rest. repeat split; [|done]. by econstructor.
Qed.
End loop.
