(* ===== verification/Net.v ===== *)
(** * Sockets (src/net.c)

    A socket is the record of the options set on it. What czmq and the system answer are
    arguments: whether a socket can be made, the result of connecting or binding, and
    what the monitor of a socket receives, one message after the other. *)

From S2P Require Import Prelude.

Inductive zsock_type := ZMQ_DEALER | ZMQ_ROUTER | ZMQ_SUB | ZMQ_PUB.

(** The options of a socket: those that [zsock_new] leaves are the defaults of czmq. *)
Record zsock := Zsock {
  zs_type : zsock_type;
  zs_immediate : bool;
  zs_sndhwm : Z;
  zs_rcvhwm : Z;
  zs_sndtimeo : Z;
  zs_rcvtimeo : Z;
  zs_identity : option string;
  zs_subscribe : list string
}.

(** The defaults of ZeroMQ: 1000 messages, no timeout. *)
Definition zsock_new (type : zsock_type) : zsock := Zsock type false 1000 1000 (-1) (-1) None [].
Definition zsock_set_immediate (z : zsock) : zsock :=
  Zsock (zs_type z) true (zs_sndhwm z) (zs_rcvhwm z) (zs_sndtimeo z) (zs_rcvtimeo z) (zs_identity z)
    (zs_subscribe z).
Definition zsock_set_hwm (snd rcv : Z) (z : zsock) : zsock :=
  Zsock (zs_type z) (zs_immediate z) snd rcv (zs_sndtimeo z) (zs_rcvtimeo z) (zs_identity z) (zs_subscribe z).
Definition zsock_set_unbounded (z : zsock) : zsock := zsock_set_hwm 0 0 z.
Definition zsock_set_timeo (timeout : Z) (z : zsock) : zsock :=
  Zsock (zs_type z) (zs_immediate z) (zs_sndhwm z) (zs_rcvhwm z) timeout timeout (zs_identity z)
    (zs_subscribe z).
Definition zsock_set_identity (id : string) (z : zsock) : zsock :=
  Zsock (zs_type z) (zs_immediate z) (zs_sndhwm z) (zs_rcvhwm z) (zs_sndtimeo z) (zs_rcvtimeo z) (Some id)
    (zs_subscribe z).
Definition zsock_set_subscribe (topic : string) (z : zsock) : zsock :=
  Zsock (zs_type z) (zs_immediate z) (zs_sndhwm z) (zs_rcvhwm z) (zs_sndtimeo z) (zs_rcvtimeo z) (zs_identity z)
    (zs_subscribe z ++ [topic]).

Section net.
(** [nrm_transmit] and [nrm_timeout], and whether [zsock_new] gives a socket. *)
Variables (nrm_transmit : Z) (nrm_timeout : Z) (oom : bool).

(** The result, and [*socket], which is left alone without transmission or memory. *)
Definition nrm_net_rpc_client_init (uuid : string) (socket : option zsock) : Z * option zsock :=
  if nrm_transmit =? 0 then (0, socket)
  else if oom then (1, socket)
  else (0, Some (zsock_set_identity uuid (zsock_set_timeo nrm_timeout (zsock_set_unbounded
                   (zsock_set_immediate (zsock_new ZMQ_DEALER)))))).

Definition nrm_net_rpc_server_init (socket : option zsock) : Z * option zsock :=
  if nrm_transmit =? 0 then (0, socket)
  else if oom then (1, socket)
  else (0, Some (zsock_set_timeo nrm_timeout (zsock_set_unbounded
                   (zsock_set_immediate (zsock_new ZMQ_ROUTER))))).

Definition nrm_net_sub_init (socket : option zsock) : Z * option zsock :=
  if nrm_transmit =? 0 then (0, socket)
  else if oom then (1, socket)
  else let z := zsock_new ZMQ_SUB in
       (0, Some (zsock_set_subscribe "null" (zsock_set_hwm (zs_sndhwm z) 0 z))).

Definition nrm_net_sub_set_topic (socket : option zsock) (topic : string) : outcome (Z * option zsock) :=
  z ← deref socket; Ok (0, Some (zsock_set_subscribe topic z)).

Definition nrm_net_pub_init (socket : option zsock) : Z * option zsock :=
  if nrm_transmit =? 0 then (0, socket)
  else if oom then (1, socket)
  else let z := zsock_new ZMQ_PUB in (0, Some (zsock_set_hwm 0 (zs_rcvhwm z) z)).

(** The loop on what the monitor receives; [None] is a timeout, and a message has the
    name of its event as its first frame. The list is what it receives, in order. *)
Fixpoint monitor_loop (monitor : list (option string)) : option Z :=
  match monitor with
  | [] => None
  | None :: _ => Some (- NRM_FAILURE)
  | Some event :: monitor => if bool_decide (event = "CONNECTED"%string) then Some 0 else monitor_loop monitor
  end.

(** The result, or [None] while the monitor waits; [connect] is that of
    [zsock_connect], and the monitor could be made. *)
Definition nrm_net_connect_and_wait (monitor_ok : bool) (connect : Z) (monitor : list (option string))
    : outcome (option Z) :=
  if nrm_transmit =? 0 then Ok (Some 0)
  else
    _ ← c_assert monitor_ok;
    if negb (connect =? 0) then Ok (Some connect) else Ok (monitor_loop monitor).

(** [bind] is the result of [zsock_bind], the port or -1. *)
Definition nrm_net_bind (bind errno : Z) : Z :=
  if nrm_transmit =? 0 then 0 else if bind =? -1 then - errno else 0.
Definition nrm_net_bind_2 (bind errno : Z) : Z :=
  if nrm_transmit =? 0 then 0 else if bind =? -1 then - errno else 0.

(** ** Lemmas *)

(** The two ends of an RPC connection agree on their options, and drop nothing. *)
Lemma rpc_unbounded uuid s0 s1 c s :
  (nrm_transmit =? 0) = false -> oom = false ->
  nrm_net_rpc_client_init uuid s0 = (0, Some c) -> nrm_net_rpc_server_init s1 = (0, Some s) ->
  zs_sndhwm c = 0 /\ zs_rcvhwm s = 0 /\ zs_sndhwm s = 0 /\ zs_rcvhwm c = 0 /\
  zs_immediate c = true /\ zs_immediate s = true /\ zs_identity c = Some uuid /\ zs_identity s = None.
Proof.
  unfold nrm_net_rpc_client_init, nrm_net_rpc_server_init. intros -> ->. cbn. by intros [= <-] [= <-].
Qed.

(** Connecting returns 0 exactly when the monitor sees the connection before a timeout,
    whatever other events come first. *)
Lemma connect_waits monitor rc :
  (nrm_transmit =? 0) = false ->
  nrm_net_connect_and_wait true 0 monitor = Ok (Some rc) <->
  exists before after,
    (monitor = before ++ Some "CONNECTED"%string :: after /\ rc = 0 \/
     monitor = before ++ None :: after /\ rc = - NRM_FAILURE) /\
    Forall (fun e => exists name, e = Some name /\ name <> "CONNECTED"%string) before.
Proof.
  intros Ht. unfold nrm_net_connect_and_wait. rewrite Ht. cbn.
  assert (Hloop : monitor_loop monitor = Some rc <->
    exists before after,
      (monitor = before ++ Some "CONNECTED"%string :: after /\ rc = 0 \/
       monitor = before ++ None :: after /\ rc = - NRM_FAILURE) /\
      Forall (fun e => exists name, e = Some name /\ name <> "CONNECTED"%string) before).
  2:{ rewrite <- Hloop. split; [by intros [= ->]|by intros ->]. }
  induction monitor as [|[event|] monitor IH]; cbn [monitor_loop].
  - split; [done|]. intros (before & after & [[H _]|[H _]] & _); by destruct before.
  - destruct (bool_decide_reflect (event = "CONNECTED"%string)) as [->|Hne].
    + split.
      * intros [= <-]. exists [], monitor. split; [by left|constructor].
      * intros ([|b before] & after & [[H ->]|[H ->]] & Hb); try done;
          injection H as <- _; by apply Forall_cons in Hb as [(n & [= <-] & Hn) _].
    + rewrite IH. split.
      * intros (before & after & H & Hb). exists (Some event :: before), after. split.
        -- destruct H as [[-> ->]|[-> ->]]; [by left|by right].
        -- constructor; [by exists event|done].
      * intros ([|b before] & after & [[H ->]|[H ->]] & Hb); try (cbn in H; congruence);
          injection H as <- ->; apply Forall_cons in Hb as [_ Hb]; exists before, after; (split; [|done]);
          [by left|by right].
  - split.
    + intros [= <-]. exists [], monitor. split; [by right|constructor].
    + intros ([|b before] & after & [[H ->]|[H ->]] & Hb); try done;
        injection H as <- _; by apply Forall_cons in Hb as [(n & [=] & _) _].
Qed.
End net.
