(* ===== verification/Json.v ===== *)
(** * JSON values, as the library uses jansson

    jansson is a parameter: the class [Jansson] gives the values, their
    constructors and what reading a constructed value back gives. The file
    derives the packing and unpacking of objects that the converters of the
    library are written with. *)

From Stdlib Require Import Ascii.
From S2P Require Import Prelude Decimal Vectors Doubles.

(** The kinds of values, over the type of the values they contain. *)
Inductive json_view (J : Type) :=
| J_object (members : list (string * J))
| J_array (items : list J)
| J_string (s : string)
| J_integer (i : Z)
| J_real (d : double)
| J_true
| J_false
| J_null.
Arguments J_object {_} _.
Arguments J_array {_} _.
Arguments J_string {_} _.
Arguments J_integer {_} _.
Arguments J_real {_} _.
Arguments J_true {_}.
Arguments J_false {_}.
Arguments J_null {_}.

(** [json_string] refuses text that is not UTF-8: [utf8_check]; ASCII is. *)
Class Jansson := {
  json_t : Type;
  json_make : json_view json_t -> json_t;
  json_look : json_t -> json_view json_t;
  utf8_check : string -> bool;
  json_look_make : forall v, json_look (json_make v) = v;
  utf8_check_ascii : forall s, Forall (fun c => (nat_of_ascii c < 128)%nat)
                                 (String.list_ascii_of_string s) -> utf8_check s = true
}.

(** Trees are such values; every byte string counts as text. *)
#[warnings="-register-all"]
Inductive jtree := JTree (v : json_view jtree).
#[export] Instance jtree_jansson : Jansson := {|
  json_t := jtree;
  json_make := JTree;
  json_look := fun '(JTree v) => v;
  utf8_check := fun _ => true;
  json_look_make := fun v => eq_refl;
  utf8_check_ascii := fun s _ => eq_refl
|}.

Section json.
Context `{Jansson}.

(** ** Constructors; NULL on a value that JSON does not have *)

Definition json_string (s : option string) : option json_t :=
  match s with
  | None => None
  | Some s => if utf8_check s then Some (json_make (J_string s)) else None
  end.

Definition finite (d : double) : bool :=
  match d with S754_nan | S754_infinity _ => false | _ => true end.

Definition json_real (d : double) : option json_t :=
  if finite d then Some (json_make (J_real d)) else None.

Definition json_integer (i : Z) : json_t := json_make (J_integer i).

(** [json_array_append_new] does nothing on a NULL value. *)
Definition json_array_of (items : list (option json_t)) : json_t :=
  json_make (J_array (omap id items)).

(** ** Readers *)

Definition json_is_array (j : option json_t) : bool :=
  match j with
  | Some j => match json_look j with J_array _ => true | _ => false end
  | None => false
  end.

(** The elements that [json_array_foreach] visits. *)
Definition json_array_items (j : json_t) : list json_t :=
  match json_look j with J_array items => items | _ => [] end.

Definition json_integer_value (j : json_t) : Z :=
  match json_look j with J_integer i => i | _ => 0 end.
Definition json_real_value (j : json_t) : double :=
  match json_look j with J_real d => d | _ => d0 end.

Definition assoc (k : string) (l : list (string * json_t)) : option json_t :=
  snd <$> (snd <$> list_find (fun p => p.1 = k) l).

Definition json_object_get (j : option json_t) (k : string) : option json_t :=
  match j with
  | Some j => match json_look j with J_object l => assoc k l | _ => None end
  | None => None
  end.

(** ** [json_pack("{s:...}", ...)] *)

(** One member: format ["s"], ["s?"], ["s*"], ["o"], ["o?"], ["f"], ["I"]. *)
Inductive pack_item :=
| P_s (s : option string)
| P_s_opt (s : option string)
| P_s_star (s : option string)
| P_o (j : option json_t)
| P_o_opt (j : option json_t)
| P_f (d : double)
| P_I (i : Z).

(** [None] is an error; [Some None] leaves the member out. *)
Definition pack_value (it : pack_item) : option (option json_t) :=
  match it with
  | P_s s => Some <$> json_string s
  | P_s_opt None => Some (Some (json_make J_null))
  | P_s_opt s => Some <$> json_string s
  | P_s_star None => Some None
  | P_s_star s => Some <$> json_string s
  | P_o j => Some <$> j
  | P_o_opt None => Some (Some (json_make J_null))
  | P_o_opt j => Some <$> j
  | P_f d => Some <$> json_real d
  | P_I i => Some (Some (json_integer i))
  end.

Fixpoint pack_members (l : list (string * pack_item)) : option (list (string * json_t)) :=
  match l with
  | [] => Some []
  | (k, it) :: l =>
      v ← pack_value it;
      rest ← pack_members l;
      Some (match v with Some v => (k, v) :: rest | None => rest end)
  end.

Definition json_pack (l : list (string * pack_item)) : option json_t :=
  (fun ms => json_make (J_object ms)) <$> pack_members l.

(** ** [json_unpack]: one member at a time; [None] is an error *)

Definition unpack_string (j : json_t) : option string :=
  match json_look j with J_string s => Some s | _ => None end.
Definition unpack_f (j : json_t) : option double :=
  match json_look j with J_real d => Some d | _ => None end.

Definition json_is_object (j : option json_t) : bool :=
  match j with
  | Some j => match json_look j with J_object _ => true | _ => false end
  | None => false
  end.

(** ["s:x"]: the member must be there. *)
Definition unpack_req {T} (j : option json_t) (k : string) (conv : json_t -> option T) : option T :=
  v ← json_object_get j k; conv v.

(** ["s?:x"]: a missing member leaves the variable as it is. *)
Definition unpack_opt {T} (j : option json_t) (k : string) (conv : json_t -> option T) (old : T)
    : option T :=
  match json_object_get j k with None => Some old | Some v => conv v end.

(** ** Packing and unpacking *)

Lemma object_get_make ms k : json_object_get (Some (json_make (J_object ms))) k = assoc k ms.
Proof. unfold json_object_get. by rewrite json_look_make. Qed.

Lemma is_object_make ms : json_is_object (Some (json_make (J_object ms))) = true.
Proof. unfold json_is_object. by rewrite json_look_make. Qed.

Lemma assoc_cons k k' v l : assoc k ((k', v) :: l) = if decide (k' = k) then Some v else assoc k l.
Proof.
  unfold assoc. cbn [list_find fst]. destruct (decide (k' = k)); [done|].
  by destruct (list_find _ l) as [[]|].
Qed.

Lemma array_items_of items : json_array_items (json_array_of items) = omap id items.
Proof. unfold json_array_items, json_array_of. by rewrite json_look_make. Qed.

Lemma is_array_of items : json_is_array (Some (json_array_of items)) = true.
Proof. unfold json_is_array, json_array_of. by rewrite json_look_make. Qed.

Lemma integer_value_of i : json_integer_value (json_integer i) = i.
Proof. unfold json_integer_value, json_integer. by rewrite json_look_make. Qed.

Lemma unpack_string_make s : unpack_string (json_make (J_string s)) = Some s.
Proof. unfold unpack_string. by rewrite json_look_make. Qed.

Lemma unpack_f_make d : unpack_f (json_make (J_real d)) = Some d.
Proof. unfold unpack_f. by rewrite json_look_make. Qed.

Lemma real_value_of d j : json_real d = Some j -> json_real_value j = d.
Proof.
  unfold json_real. destruct (finite d); [|done]. intros [= <-].
  unfold json_real_value. by rewrite json_look_make.
Qed.

End json.

(** Decides the comparisons of member names. *)
Ltac decide_keys :=
  repeat first [rewrite decide_True by reflexivity | rewrite decide_False by discriminate].

#[global] Arguments unpack_string : simpl never.
#[global] Arguments unpack_f : simpl never.
#[global] Arguments json_real_value : simpl never.
#[global] Arguments json_integer_value : simpl never.
#[global] Arguments json_array_items : simpl never.
#[global] Arguments json_is_array : simpl never.
#[global] Arguments json_array_of : simpl never.
#[global] Arguments json_object_get : simpl never.

Lemma omap_Some_fmap {A B} (f : A -> B) (l : list A) :
  omap id ((fun x => Some (f x)) <$> l) = f <$> l.
Proof. induction l as [|x l IH]; [done|]. cbn. by rewrite <- IH. Qed.
