(* ===== verification/Timers.v ===== *)
(** * Times (src/utils/timers.c)

    A time is a [struct timespec] of 64-bit integers. Arithmetic wraps, where
    C leaves it undefined: no time that is [time_ok] overflows. *)

From Stdlib Require Import Ascii.
From S2P Require Import Prelude Decimal Vectors Doubles Json.

Record nrm_time := Time { tv_sec : Z; tv_nsec : Z }.

(** [clock_gettime] overwrites the time with the clock's. *)
Definition nrm_time_gettime (clock : nrm_time) (now : nrm_time) : nrm_time := clock.

Definition nrm_time_diff (start stop : nrm_time) : Z :=
  i64 (i64 (tv_nsec stop - tv_nsec start) + i64 (1000000000 * i64 (tv_sec stop - tv_sec start))).

Definition nrm_time_tons (now : nrm_time) : Z :=
  i64 (tv_nsec now + i64 (1000000000 * tv_sec now)).

(** C division truncates. *)
Definition nrm_time_fromns (ns : Z) : nrm_time :=
  Time (Z.quot ns 1000000000) (Z.rem ns 1000000000).

(** Conversion of a double to [int64_t]: truncation; undefined out of range. *)
Definition d_to_i64 (d : double) : outcome Z :=
  match d with
  | S754_zero _ => Ok 0
  | S754_finite s m e =>
      let a := if 0 <=? e then Zpos m * 2 ^ e else Zpos m / 2 ^ (- e) in
      let z := if s then - a else a in
      if (LONG_MIN <=? z) && (z <=? LONG_MAX) then Ok z else Undefined
  | _ => Undefined
  end.

Definition nrm_time_fromfreq (freq : double) : outcome nrm_time :=
  sleeptime ← d_to_i64 (ddiv (d_of_Z 1000000000) freq);
  Ok (nrm_time_fromns sleeptime).

Section json.
Context `{Jansson}.

(** The number is written as text. A failed allocation stops at the assertion. *)
Definition nrm_time_to_json (oom : bool) (time : nrm_time) : outcome json_t :=
  let ns := nrm_time_tons time in
  let buf := dec ns in
  _ ← c_assert (negb (length buf =? 0)%nat);
  _ ← c_assert (negb oom);
  let msg := json_string (Some (String.string_of_list_ascii buf)) in
  _ ← c_assert (negb (is_null msg));
  deref msg.

(** [sscanf] of a 64-bit decimal; a text with no number stops at the assertion. *)
Definition nrm_time_from_json (time : nrm_time) (json : json_t) : outcome (Z * nrm_time) :=
  match unpack_string json with
  | None => Ok (-1, time)
  | Some s =>
      let '(ns, some) := scan_int (String.list_ascii_of_string s) in
      _ ← c_assert some;
      Ok (0, nrm_time_fromns (fst (strtol (String.list_ascii_of_string s))))
  end.
End json.

(** ** Properties *)

(** A time whose nanoseconds are normalised and whose seconds fit in nanoseconds
    of 64 bits. *)
Definition time_ok (t : nrm_time) : Prop :=
  0 <= tv_sec t < 2 ^ 33 /\ 0 <= tv_nsec t < 1000000000.

Lemma tons_ok t : time_ok t -> nrm_time_tons t = tv_nsec t + 1000000000 * tv_sec t.
Proof.
  intros [Hs Hn]. unfold nrm_time_tons. rewrite (i64_small (1000000000 * _)) by (unfold in_i64; lia).
  apply i64_small. unfold in_i64. lia.
Qed.

Lemma fromns_tons t : time_ok t -> nrm_time_fromns (nrm_time_tons t) = t.
Proof.
  intros Ht. rewrite tons_ok by done. destruct Ht as [Hs Hn]. destruct t as [s n]. cbn in *.
  unfold nrm_time_fromns. rewrite Z.quot_div_nonneg, Z.rem_mod_nonneg by lia. f_equal; zlia.
Qed.

Lemma tons_fromns ns : in_i64 ns -> nrm_time_tons (nrm_time_fromns ns) = ns.
Proof.
  unfold in_i64, nrm_time_tons, nrm_time_fromns. intros Hns. cbn [tv_sec tv_nsec].
  pose proof (Z.quot_rem ns 1000000000 ltac:(lia)) as Hqr.
  assert (Hq : - 2 ^ 63 <= 1000000000 * Z.quot ns 1000000000 < 2 ^ 63) by zlia.
  rewrite (i64_small (1000000000 * _)) by exact Hq.
  rewrite i64_small by (unfold in_i64; lia). lia.
Qed.

Lemma dec_not_nil z : dec z <> [].
Proof.
  unfold dec. case_tests; [done|].
  destruct (dec_digits_head (dec_fuel z) z) as (c & l & -> & _); [done|unfold dec_fuel; lia|done].
Qed.

Lemma dec_ascii z : Forall (fun c => (nat_of_ascii c < 128)%nat) (dec z).
Proof.
  assert (Hd : forall fuel z, 0 <= z ->
            Forall (fun c => (nat_of_ascii c < 128)%nat) (dec_digits fuel z)).
  { intros fuel w Hw. eapply Forall_impl; [by apply dec_digits_digits|].
    intros c [d Hc]. unfold digit_val in Hc.
    destruct (Z.leb_spec 48 (Z.of_nat (nat_of_ascii c))),
             (Z.leb_spec (Z.of_nat (nat_of_ascii c)) 57); cbn in Hc; try done. lia. }
  unfold dec. case_tests; [|by apply Hd]. apply Forall_cons.
  split; [by apply Nat.ltb_lt|]. apply Hd. lia.
Qed.

(** Nanoseconds and [struct timespec] are inverse of each other on every
    64-bit count, negative ones included, and a normalised time survives the
    conversion to JSON and back. *)
Theorem time_roundtrip `{Jansson} t ns old :
  time_ok t -> in_i64 ns ->
  nrm_time_fromns (nrm_time_tons t) = t /\
  nrm_time_tons (nrm_time_fromns ns) = ns /\
  exists j, nrm_time_to_json false t = Ok j /\ nrm_time_from_json old j = Ok (0, t).
Proof.
  intros Ht Hns. split; [by apply fromns_tons|]. split; [by apply tons_fromns|].
  unfold nrm_time_to_json. pose proof (dec_not_nil (nrm_time_tons t)) as Hne.
  destruct (dec (nrm_time_tons t)) as [|c l] eqn:E; [done|]. rewrite <- E.
  replace (length (dec (nrm_time_tons t)) =? 0)%nat with false by (by rewrite E).
  cbn [negb c_assert mbind outcome_bind]. unfold json_string.
  rewrite utf8_check_ascii by (rewrite String.list_ascii_of_string_of_list_ascii; apply dec_ascii).
  cbn [is_null negb c_assert mbind outcome_bind deref]. eexists. split; [reflexivity|].
  unfold nrm_time_from_json. rewrite unpack_string_make, String.list_ascii_of_string_of_list_ascii.
  rewrite scan_int_dec, strtol_dec.
  - cbn [c_assert mbind outcome_bind fst]. by rewrite fromns_tons.
  - rewrite tons_ok by done. destruct Ht. unfold in_i64. lia.
Qed.

Lemma time_roundtrip_witness :
  time_ok (Time 1700000000 5) /\
  nrm_time_fromns (nrm_time_tons (Time 1700000000 5)) = Time 1700000000 5 /\
  nrm_time_tons (nrm_time_fromns (-7)) = -7 /\
  exists j, nrm_time_to_json false (Time 1700000000 5) = Ok j /\
            nrm_time_from_json (Time 0 0) j = Ok (0, Time 1700000000 5).
Proof.
  assert (Ht : time_ok (Time 1700000000 5)) by (unfold time_ok; cbn; lia).
  split; [exact Ht|].
  apply (time_roundtrip (Time 1700000000 5) (-7) (Time 0 0)); [exact Ht|unfold in_i64; lia].
Defined.

(** Differences of normalised times are exact. *)
Lemma time_diff_exact t1 t2 :
  time_ok t1 -> time_ok t2 -> nrm_time_diff t1 t2 = nrm_time_tons t2 - nrm_time_tons t1.
Proof.
  intros H1 H2. rewrite !tons_ok by done. destruct H1, H2. unfold nrm_time_diff.
  rewrite (i64_small (tv_nsec t2 - _)), (i64_small (tv_sec t2 - _)) by (unfold in_i64; lia).
  rewrite (i64_small (1000000000 * _)) by (unfold in_i64; lia).
  rewrite i64_small by (unfold in_i64; lia). lia.
Qed.
