(* ===== verification/Reactor.v ===== *)
(** * The reactor (src/reactor.c)

    A reactor is a loop with one poller, on a file descriptor that gets the
    signals of the process, and timers. The process is its mask of blocked
    signals and its open descriptors; what the system calls return is an
    argument. A user callback works on the global variables of its program, of
    type [U]; the programs of src/binaries do not use the reactor they are
    given. *)

From S2P Require Import Prelude Vectors Doubles Json Timers Loops.

(** ** Data *)

(** The fields of [struct signalfd_siginfo] in use. *)
Record signalfd_siginfo := Siginfo { ssi_signo : Z; ssi_code : Z; ssi_pid : Z }.

Definition SIGINT : Z := 2.
Definition SIGTERM : Z := 15.
Definition SIGCHLD : Z := 17.

Record process := Process { blocked : gset Z; open_fds : list Z }.

(** [nrm_reactor_user_callbacks_t]; NULL is [None]. *)
Record nrm_reactor_user_callbacks (U : Type) := ReactorCallbacks {
  rcb_signal : option (U -> signalfd_siginfo -> outcome (Z * U));
  rcb_timer : option (U -> outcome (Z * U))
}.
Arguments ReactorCallbacks {_} _ _.
Arguments rcb_signal {_} _.
Arguments rcb_timer {_} _.

(** [struct nrm_reactor_s]; its loop is the descriptor of its poller and the
    delays of its timers in milliseconds. *)
Record nrm_reactor (U : Type) := Reactor {
  r_sfd : Z;
  r_timers : list Z;
  oldmask : gset Z;
  r_callbacks : nrm_reactor_user_callbacks U;
  r_user : U
}.
Arguments Reactor {_} _ _ _ _ _.
Arguments r_sfd {_} _.
Arguments r_timers {_} _.
Arguments oldmask {_} _.
Arguments r_callbacks {_} _.
Arguments r_user {_} _.

(** What the system answers during the creation: the [errno] of a failed
    [zloop_new], the result of [pthread_sigmask], the descriptor of [signalfd],
    and [errno]. *)
Record syscalls := Syscalls {
  sys_zloop : option Z;
  sys_sigmask : Z;
  sys_signalfd : Z;
  sys_errno : Z
}.

Section reactor.
Context `{Zloop} {U : Type}.
Implicit Types self : nrm_reactor U.

(** ** Creation *)

Definition default_sigmask : gset Z := {[ SIGINT; SIGTERM ]}.

Definition nrm_reactor_create (sys : syscalls) (reactor_null oom : bool) (sigmask : option (gset Z))
    (user : U) (p : process) : Z * option (nrm_reactor U) * process :=
  if reactor_null then (- NRM_EINVAL, None, p)
  else if oom then (- NRM_ENOMEM, None, p)
  else match sys_zloop sys with
  | Some errno => (- errno, None, p)
  | None =>
      let sigmask := default default_sigmask sigmask in
      (* a failure leaves the mask, and the one saved is what calloc made *)
      let '(old, p1) := if sys_sigmask sys =? 0
                        then (blocked p, Process (blocked p ∪ sigmask) (open_fds p))
                        else (∅, p) in
      if sys_sigmask sys =? -1 then (- sys_errno sys, None, p1)
      else if sys_signalfd sys =? -1 then (- sys_errno sys, None, Process old (open_fds p1))
      else (0, Some (Reactor (sys_signalfd sys) [] old (ReactorCallbacks None None) user),
            Process (blocked p1) (open_fds p1 ++ [sys_signalfd sys]))
  end.

Definition nrm_reactor_setcallbacks (reactor : option (nrm_reactor U))
    (callbacks : nrm_reactor_user_callbacks U) : Z * option (nrm_reactor U) :=
  match reactor with
  | None => (- NRM_EINVAL, None)
  | Some r => (0, Some (Reactor (r_sfd r) (r_timers r) (oldmask r) callbacks (r_user r)))
  end.

(** The product wraps, where C leaves an overflow undefined, and the number of
    milliseconds is cut to an int. *)
Definition nrm_reactor_settimer (reactor : option (nrm_reactor U)) (sleeptime : nrm_time)
    : Z * option (nrm_reactor U) :=
  match reactor with
  | None => (- NRM_EINVAL, None)
  | Some r =>
      let millisecs := i32 (i64 (i64 (tv_sec sleeptime * 1000) + Z.quot (tv_nsec sleeptime) 1000000)) in
      (0, Some (Reactor (r_sfd r) (r_timers r ++ [millisecs]) (oldmask r) (r_callbacks r) (r_user r)))
  end.

(** ** The callbacks of the loop *)

Definition reactor_with_user self (u : U) : nrm_reactor U :=
  Reactor (r_sfd self) (r_timers self) (oldmask self) (r_callbacks self) u.

(** [None] is a short read. Without a callback the loop exits. *)
Definition nrm_reactor_signal_callback self (fdsi : option signalfd_siginfo)
    : outcome (Z * nrm_reactor U) :=
  _ ← c_assert (negb (is_null fdsi));
  fdsi ← deref fdsi;
  match rcb_signal (r_callbacks self) with
  | Some f => '(ret, u) ← f (r_user self) fdsi; Ok (ret, reactor_with_user self u)
  | None => Ok (-1, self)
  end.

Definition nrm_reactor_timer_callback self : outcome (Z * nrm_reactor U) :=
  match rcb_timer (r_callbacks self) with
  | Some f => '(ret, u) ← f (r_user self); Ok (ret, reactor_with_user self u)
  | None => Ok (0, self)
  end.

(** What wakes the loop: the poller, or a timer by its rank. The loop has no
    timer that was not set. *)
Inductive reactor_event :=
| Re_signal (fdsi : option signalfd_siginfo)
| Re_timer (timerid : nat).

Definition reactor_step self (e : reactor_event) : outcome (Z * nrm_reactor U) :=
  match e with
  | Re_signal fdsi => nrm_reactor_signal_callback self fdsi
  | Re_timer i => if is_null (r_timers self !! i) then Ok (0, self)
                  else nrm_reactor_timer_callback self
  end.

Definition nrm_reactor_start (reactor : option (nrm_reactor U)) (events : list reactor_event)
    : outcome (option Z * option (nrm_reactor U)) :=
  match reactor with
  | None => Ok (Some (- NRM_EINVAL), None)
  | Some r => '(rc, r) ← zloop_start reactor_step r events; Ok (rc, Some r)
  end.

(** The pointer after the call, and the process. The descriptor is left open. *)
Definition nrm_reactor_destroy (reactor : option (option (nrm_reactor U))) (p : process)
    : option (nrm_reactor U) * process :=
  match reactor with
  | Some (Some r) => (None, Process (oldmask r) (open_fds p))
  | _ => (None, p)
  end.
End reactor.

(** ** Lemmas *)

Section lemmas.
Context `{Zloop} {U : Type}.
Implicit Types r : nrm_reactor U.

(** A reactor that is not created leaves the mask of the process as it was,
    provided [pthread_sigmask] answers as documented: 0 or an error number. *)
Lemma create_fails_clean sys oom sigmask (u : U) p rc p' :
  sys_sigmask sys = 0 ->
  nrm_reactor_create sys false oom sigmask u p = (rc, None, p') -> p' = p.
Proof.
  intros Hm. unfold nrm_reactor_create. rewrite Hm. destruct oom; [by intros [= _ <-]|].
  destruct (sys_zloop sys); [by intros [= _ <-]|]. cbn.
  destruct (sys_signalfd sys =? -1); [|done]. intros [= _ <-]. by destruct p.
Qed.

Lemma create_ok sys sigmask (u : U) p :
  sys_zloop sys = None -> sys_sigmask sys = 0 -> sys_signalfd sys <> -1 ->
  nrm_reactor_create sys false false sigmask u p =
  (0, Some (Reactor (sys_signalfd sys) [] (blocked p) (ReactorCallbacks None None) u),
   Process (blocked p ∪ default default_sigmask sigmask) (open_fds p ++ [sys_signalfd sys])).
Proof.
  intros Hz Hm Hs. unfold nrm_reactor_create. rewrite Hz, Hm. cbn.
  by destruct (Z.eqb_spec (sys_signalfd sys) (-1)).
Qed.

(** The error of [pthread_sigmask] is its result, never -1: the test for -1 lets
    it through, and the mask that [nrm_reactor_destroy] restores is empty. *)
Lemma sigmask_error_ignored sys sigmask (u : U) p :
  sys_zloop sys = None -> 0 < sys_sigmask sys -> sys_signalfd sys <> -1 ->
  exists r p', nrm_reactor_create sys false false sigmask u p = (0, Some r, p') /\
    blocked p' = blocked p /\ blocked (snd (nrm_reactor_destroy (Some (Some r)) p')) = ∅.
Proof.
  intros Hz Hm Hs. unfold nrm_reactor_create. rewrite Hz. cbn.
  destruct (Z.eqb_spec (sys_sigmask sys) 0); [lia|].
  destruct (Z.eqb_spec (sys_sigmask sys) (-1)); [lia|].
  destruct (Z.eqb_spec (sys_signalfd sys) (-1)); [done|]. cbn. by eexists _, _.
Qed.

(** The delay of a timer is exact up to the largest [int], 24 days. *)
Lemma settimer_delay r t :
  time_ok t -> tv_sec t * 1000 + tv_nsec t / 1000000 <= INT_MAX ->
  nrm_reactor_settimer (Some r) t =
  (0, Some (Reactor (r_sfd r) (r_timers r ++ [tv_sec t * 1000 + tv_nsec t / 1000000]) (oldmask r)
                    (r_callbacks r) (r_user r))).
Proof.
  unfold time_ok, INT_MAX. intros [Hs Hn] Hle. unfold nrm_reactor_settimer.
  rewrite Z.quot_div_nonneg by lia.
  assert (Hq : 0 <= tv_nsec t / 1000000 < 1000) by zlia.
  rewrite (i64_small (tv_sec t * 1000)) by (unfold in_i64; lia).
  rewrite i64_small by (unfold in_i64; lia). rewrite i32_small by (unfold in_i32; lia). done.
Qed.

Lemma settimer_wraps r :
  nrm_reactor_settimer (Some r) (Time 2147484 0) =
  (0, Some (Reactor (r_sfd r) (r_timers r ++ [-2147483296]) (oldmask r) (r_callbacks r) (r_user r))).
Proof. reflexivity. Qed.

(** Timers whose callback goes on run it as often as they fire. *)
Lemma ticks_go_on r t (f : U -> U) n i :
  rcb_timer (r_callbacks r) = Some t -> is_Some (r_timers r !! i) ->
  (forall u, exists rc, t u = Ok (rc, f u) /\ rc <> -1) ->
  goes_on reactor_step r (replicate n (Re_timer i)) (reactor_with_user r (Nat.iter n f (r_user r))).
Proof.
  intros Ht [d Hi] Hf. revert r Ht Hi. induction n as [|n IH]; intros r Ht Hi; cbn [replicate].
  - destruct r. constructor.
  - destruct (Hf (r_user r)) as (rc & Hu & Hrc). econstructor; [|exact Hrc|].
    + cbn [reactor_step]. rewrite Hi. cbn [is_null]. unfold nrm_reactor_timer_callback.
      rewrite Ht, Hu. reflexivity.
    + rewrite Nat.iter_succ_r. by apply (IH (reactor_with_user r (f (r_user r)))).
Qed.
End lemmas.

(** ** The life of a reactor *)

(** C32: a reactor made, as by the programs that sample at a frequency, with the
    default mask, a timer callback and no signal callback, always ends: after any
    number of ticks, each of which runs the callback once, the first signal makes
    [nrm_reactor_start] return -1 whatever is pending behind it, and
    [nrm_reactor_destroy] gives the process its mask of signals back. The signals
    of the mask stay blocked meanwhile; the descriptor stays open. *)
Theorem reactor_ends_on_signal `{Zloop} {U} sys p (u : U) t (f : U -> U) sleeptime n fdsi rest :
  sys_zloop sys = None -> sys_sigmask sys = 0 -> sys_signalfd sys <> -1 ->
  (forall u, exists rc, t u = Ok (rc, f u) /\ rc <> -1) ->
  exists r0 p0 r1 r2 r3,
    nrm_reactor_create sys false false None u p = (0, Some r0, p0) /\
    SIGINT ∈ blocked p0 /\ SIGTERM ∈ blocked p0 /\ blocked p ⊆ blocked p0 /\
    nrm_reactor_setcallbacks (Some r0) (ReactorCallbacks None (Some t)) = (0, Some r1) /\
    nrm_reactor_settimer (Some r1) sleeptime = (0, Some r2) /\
    nrm_reactor_start (Some r2) (replicate n (Re_timer 0)) = Ok (None, Some r3) /\
    nrm_reactor_start (Some r2) (replicate n (Re_timer 0) ++ Re_signal (Some fdsi) :: rest)
      = Ok (Some (-1), Some r3) /\
    r_user r3 = Nat.iter n f u /\
    nrm_reactor_destroy (Some (Some r3)) p0
      = (None, Process (blocked p) (open_fds p ++ [sys_signalfd sys])).
Proof.
  intros Hz Hm Hs Hf. rewrite create_ok by done. eexists _, _, _, _, _.
  split; [reflexivity|]. cbn [blocked]. unfold default_sigmask. cbn [default from_option].
  split; [set_solver|]. split; [set_solver|]. split; [set_solver|].
  split; [reflexivity|]. split; [reflexivity|]. cbn [r_timers app].
  set (r2 := Reactor _ [_] _ _ _).
  assert (Hgo : goes_on reactor_step r2 (replicate n (Re_timer 0))
                  (reactor_with_user r2 (Nat.iter n f u))).
  { apply (ticks_go_on r2 t f); [done|by eexists|done]. }
  unfold nrm_reactor_start. rewrite (zloop_waiting _ _ _ _ Hgo).
  split; [reflexivity|]. rewrite (zloop_stops _ _ _ _ (Re_signal (Some fdsi)) _ rest Hgo eq_refl). done.
Qed.

Lemma reactor_ends_on_signal_witness :
  exists r0 p0 r1 r2 r3,
    nrm_reactor_create (Syscalls None 0 7 0) false false None 0 (Process {[ SIGCHLD ]} [])
      = (0, Some r0, p0) /\
    SIGINT ∈ blocked p0 /\ SIGTERM ∈ blocked p0 /\ {[ SIGCHLD ]} ⊆ blocked p0 /\
    nrm_reactor_setcallbacks (Some r0) (ReactorCallbacks None (Some (fun u => Ok (0, u + 1))))
      = (0, Some r1) /\
    nrm_reactor_settimer (Some r1) (Time 1 0) = (0, Some r2) /\
    nrm_reactor_start (Some r2) (replicate 3 (Re_timer 0)) = Ok (None, Some r3) /\
    nrm_reactor_start (Some r2)
      (replicate 3 (Re_timer 0) ++ Re_signal (Some (Siginfo SIGINT 0 1)) :: [Re_timer 0])
      = Ok (Some (-1), Some r3) /\
    r_user r3 = 3 /\
    nrm_reactor_destroy (Some (Some r3)) p0 = (None, Process {[ SIGCHLD ]} [7]).
Proof.
  refine (reactor_ends_on_signal (Syscalls None 0 7 0) (Process {[ SIGCHLD ]} []) 0
           (fun u => Ok (0, u + 1)) (fun u => u + 1) (Time 1 0) 3 (Siginfo SIGINT 0 1) [Re_timer 0] _ _ _ _);
    [done..|]. intros u. by exists 0.
Defined.
