(* ===== verification/Getopt.v ===== *)
(** * The option parser of the C library

    The interface of [getopt_long] that src/tools.c and src/binaries/nrmc.c rely
    on, and an instance for option texts that start with ["+"], which stop at the
    first word that is not an option. The order is fixed by the first call of a
    program, and that of [nrm_tools_parse_args] has the ["+"], so it is the one in
    force in the whole of nrmc. *)

From Stdlib Require Import Ascii.
From S2P Require Import Prelude.

(** [struct option]; [opt_flag] is whether its third field is not NULL. *)
Record longopt := Longopt {
  opt_name : string;
  opt_has_arg : bool;
  opt_flag : bool;
  opt_val : Z
}.

Definition code (c : ascii) : Z := Z.of_nat (nat_of_ascii c).

(** The global [optind], and what is left of the word being read. *)
Record getopt_state := Getopt_state { optind : Z; nextchar : list ascii }.

(** What a call returns: the code, [optarg], and the value stored through the
    flag of a long option. *)
Record getopt_result := Result {
  go_code : Z;
  go_arg : option (list ascii);
  go_flag : option Z
}.

(** The short options of a text, with whether they take an argument. *)
Fixpoint short_options (s : list ascii) : list (ascii * bool) :=
  match s with
  | [] => []
  | c :: s' => if decide (c = ":"%char) then short_options s'
               else (c, bool_decide (head s' = Some ":"%char)) :: short_options s'
  end.

(** The text without its leading ["+"]. *)
Definition strip_order (s : list ascii) : list ascii :=
  match s with c :: s' => if decide (c = "+"%char) then s' else s | [] => [] end.

(** The codes that the options give, with whether an argument comes along. *)
Definition options_of (s : list ascii) (l : list longopt) : list (Z * bool) :=
  ((fun '(c, b) => (code c, b)) <$> short_options (strip_order s)) ++
  ((fun o => (if opt_flag o then 0 else opt_val o, opt_has_arg o)) <$> l).

(** The documented behaviour: a call gives -1 and is done; or an error, ["?"] or
    [":"]; or the code of an option it was given, with its argument if it takes
    one. It moves on, and stays in the words. *)
Class Getopt := {
  getopt_long : list (list ascii) -> list ascii -> list longopt -> getopt_state ->
                getopt_result * getopt_state;
  getopt_left : list (list ascii) -> getopt_state -> nat;
  getopt_code argv s l g r g' :
    getopt_long argv s l g = (r, g') ->
    go_code r = -1 \/ go_code r = code "?" \/ go_code r = code ":" \/
    exists takes, (go_code r, takes) ∈ options_of s l /\ (takes = true -> is_Some (go_arg r));
  getopt_moves argv s l g r g' :
    getopt_long argv s l g = (r, g') -> go_code r <> -1 ->
    (getopt_left argv g' < getopt_left argv g)%nat;
  getopt_in argv s l g r g' :
    getopt_long argv s l g = (r, g') -> 1 <= optind g <= Z.of_nat (length argv) ->
    1 <= optind g' <= Z.of_nat (length argv)
}.

(** ** An instance *)

Definition go_end : getopt_result := Result (-1) None None.
Definition go_unknown : getopt_result := Result (code "?") None None.
Definition go_missing : getopt_result := Result (code ":") None None.

(** Past the letters that are left of the word at [i]. *)
Definition after_letter (i : Z) (rest : list ascii) : getopt_state :=
  match rest with [] => Getopt_state (i + 1) [] | _ => Getopt_state i rest end.

Definition go_short (argv : list (list ascii)) (s : list ascii) (i : Z) (c : ascii)
    (rest : list ascii) : getopt_result * getopt_state :=
  match list_find (fun o => o.1 = c) (short_options (strip_order s)) with
  | None => (go_unknown, after_letter i rest)
  | Some (_, (_, false)) => (Result (code c) None None, after_letter i rest)
  | Some (_, (_, true)) =>
      match rest with
      | _ :: _ => (Result (code c) (Some rest) None, Getopt_state (i + 1) [])
      | [] => match argv !! Z.to_nat (i + 1) with
              | Some a => (Result (code c) (Some a) None, Getopt_state (i + 2) [])
              | None => (go_missing, Getopt_state (i + 1) [])
              end
      end
  end.

(** The name of a long option and what follows its ["="]. *)
Fixpoint split_eq (w : list ascii) : list ascii * option (list ascii) :=
  match w with
  | [] => ([], None)
  | c :: w => if decide (c = "="%char) then ([], Some w)
              else let '(n, v) := split_eq w in (c :: n, v)
  end.

(** An exact name, or the only one that the word abbreviates. *)
Definition find_long (l : list longopt) (name : list ascii) : option longopt :=
  match filter (fun o => String.list_ascii_of_string (opt_name o) = name) l with
  | o :: _ => Some o
  | [] => match filter (fun o => name `prefix_of` String.list_ascii_of_string (opt_name o)) l with
          | [o] => Some o
          | _ => None
          end
  end.

Definition go_found (o : longopt) (arg : option (list ascii)) : getopt_result :=
  if opt_flag o then Result 0 arg (Some (opt_val o)) else Result (opt_val o) arg None.

Definition go_long (argv : list (list ascii)) (l : list longopt) (i : Z) (w : list ascii)
    : getopt_result * getopt_state :=
  let '(name, value) := split_eq w in
  match find_long l name, value with
  | None, _ => (go_unknown, Getopt_state (i + 1) [])
  | Some o, Some v => if opt_has_arg o then (go_found o (Some v), Getopt_state (i + 1) [])
                      else (go_unknown, Getopt_state (i + 1) [])
  | Some o, None =>
      if opt_has_arg o then
        match argv !! Z.to_nat (i + 1) with
        | Some a => (go_found o (Some a), Getopt_state (i + 2) [])
        | None => (go_missing, Getopt_state (i + 1) [])
        end
      else (go_found o None, Getopt_state (i + 1) [])
  end.

(** A word: not an option, the end of the options, a long option, letters. *)
Definition go_word (argv : list (list ascii)) (s : list ascii) (l : list longopt) (g : getopt_state)
    (w : list ascii) : getopt_result * getopt_state :=
  match w with
  | c :: d :: rest =>
      if decide (c = "-"%char) then
        if decide (d = "-"%char) then
          match rest with
          | [] => (go_end, Getopt_state (optind g + 1) [])
          | _ => go_long argv l (optind g) rest
          end
        else go_short argv s (optind g) d rest
      else (go_end, g)
  | _ => (go_end, g)
  end.

Definition getopt_plus (argv : list (list ascii)) (s : list ascii) (l : list longopt)
    (g : getopt_state) : getopt_result * getopt_state :=
  if optind g <? 1 then (go_end, g)
  else match argv !! Z.to_nat (optind g) with
  | None => (go_end, g)
  | Some w =>
      match nextchar g with
      | c :: rest => go_short argv s (optind g) c rest
      | [] => go_word argv s l g w
      end
  end.

(** The letters left, or the words left with their letters. *)
Definition plus_left (argv : list (list ascii)) (g : getopt_state) : nat :=
  let words i := sum_list ((fun w : list ascii => S (length w)) <$> drop i argv) in
  match nextchar g with
  | [] => words (Z.to_nat (optind g))
  | rest => length rest + words (S (Z.to_nat (optind g)))
  end.

Lemma short_options_code s c b :
  (c, b) ∈ short_options (strip_order s) -> forall l, (code c, b) ∈ options_of s l.
Proof. intros Hc l. apply elem_of_app. left. apply list_elem_of_fmap. by exists (c, b). Qed.

Lemma find_long_elem l name o : find_long l name = Some o -> o ∈ l.
Proof.
  unfold find_long.
  destruct (filter (fun o => String.list_ascii_of_string (opt_name o) = name) l) as [|o1 l1] eqn:E1.
  - clear E1. destruct (filter _ l) as [|o2 [|]] eqn:E2; try done. intros Heq. injection Heq as <-.
    assert (o2 ∈ [o2]) as Hin by left. rewrite <- E2 in Hin. by apply list_elem_of_filter in Hin as [_ ?].
  - intros Heq. injection Heq as <-. assert (o1 ∈ o1 :: l1) as Hin by left. rewrite <- E1 in Hin.
    by apply list_elem_of_filter in Hin as [_ ?].
Qed.

(** What a result of the instance must be, for a state it comes from. *)
Definition good_result argv s l (left : nat) (p : getopt_result * getopt_state) : Prop :=
  let '(r, g') := p in
  (go_code r = -1 \/ go_code r = code "?" \/ go_code r = code ":" \/
   exists takes, (go_code r, takes) ∈ options_of s l /\ (takes = true -> is_Some (go_arg r))) /\
  (plus_left argv g' < left)%nat /\ 1 <= optind g' <= Z.of_nat (length argv).

Section instance.
Variables (argv : list (list ascii)) (s : list ascii) (l : list longopt).

(** The words from [i] on, each with one more than its letters. *)
Definition words_left (i : nat) : nat := sum_list ((fun w : list ascii => S (length w)) <$> drop i argv).

Lemma words_step i w : argv !! i = Some w -> words_left i = (S (length w) + words_left (S i))%nat.
Proof. intros Hw. unfold words_left. by rewrite (drop_S _ _ _ Hw). Qed.

Lemma words_mono i : (words_left (S i) <= words_left i)%nat.
Proof.
  destruct (argv !! i) as [w|] eqn:E; [rewrite (words_step _ _ E); lia|].
  apply lookup_ge_None in E. unfold words_left. by rewrite !drop_ge by lia.
Qed.

Lemma plus_left_nil i : plus_left argv (Getopt_state i []) = words_left (Z.to_nat i).
Proof. reflexivity. Qed.
Lemma plus_left_cons i c rest :
  plus_left argv (Getopt_state i (c :: rest)) = (S (length rest) + words_left (S (Z.to_nat i)))%nat.
Proof. reflexivity. Qed.

Lemma in_argv i w : 1 <= i -> argv !! Z.to_nat i = Some w -> i + 1 <= Z.of_nat (length argv).
Proof. intros Hi Hw%lookup_lt_Some. lia. Qed.

(** Letters of the word at [i]: what is left afterwards. *)
Lemma go_short_good i w c rest :
  1 <= i -> argv !! Z.to_nat i = Some w ->
  good_result argv s l (S (length rest) + words_left (S (Z.to_nat i))) (go_short argv s i c rest).
Proof.
  intros Hi Hw. pose proof (in_argv _ _ Hi Hw) as Hin.
  assert (Hafter : (plus_left argv (after_letter i rest) <
                    S (length rest) + words_left (S (Z.to_nat i)))%nat /\
                   1 <= optind (after_letter i rest) <= Z.of_nat (length argv)).
  { destruct rest; cbn [after_letter optind].
    - rewrite plus_left_nil, Z2Nat.inj_add by lia. rewrite Nat.add_1_r. cbn [length]. lia.
    - rewrite plus_left_cons. cbn [length]. lia. }
  unfold go_short. destruct (list_find _ _) as [[j [c' []]]|] eqn:E.
  - apply list_find_Some in E as (Hj & Hc & _). cbn in Hc. subst c'.
    apply list_elem_of_lookup_2 in Hj. pose proof (short_options_code _ _ _ Hj l) as Hcode.
    assert (Hnext : words_left (Z.to_nat (i + 1)) = words_left (S (Z.to_nat i)))
      by (f_equal; lia).
    destruct rest as [|c' rest]; [destruct (argv !! Z.to_nat (i + 1)) as [a|] eqn:Ea|];
      unfold good_result; cbn [go_code go_arg optind]; rewrite plus_left_nil.
    + pose proof (in_argv (i + 1) _ ltac:(lia) Ea). pose proof (words_mono (S (Z.to_nat i))).
      replace (Z.to_nat (i + 2)) with (S (S (Z.to_nat i))) by lia.
      split; [right; right; right; by exists true; eauto|]. cbn [length]. lia.
    + rewrite Hnext. cbn [length]. split; [by right; right; left|]. lia.
    + rewrite Hnext. cbn [length]. split; [right; right; right; exists true; eauto|]. lia.
  - apply list_find_Some in E as (Hj & Hc & _). cbn in Hc. subst c'.
    apply list_elem_of_lookup_2 in Hj. pose proof (short_options_code _ _ _ Hj l) as Hcode.
    split; [|exact Hafter]. right; right; right. by exists false.
  - split; [|exact Hafter]. by right; left.
Qed.

Lemma go_found_code o arg :
  o ∈ l -> (opt_has_arg o = true -> is_Some arg) ->
  exists takes, (go_code (go_found o arg), takes) ∈ options_of s l /\
                (takes = true -> is_Some (go_arg (go_found o arg))).
Proof.
  intros Ho Ha. exists (opt_has_arg o). unfold go_found. split; [|by destruct (opt_flag o)].
  apply elem_of_app. right. apply list_elem_of_fmap. exists o. by destruct (opt_flag o).
Qed.

Lemma go_long_good i w0 w :
  1 <= i -> argv !! Z.to_nat i = Some w0 ->
  good_result argv s l (S (length w0) + words_left (S (Z.to_nat i))) (go_long argv l i w).
Proof.
  intros Hi Hw. pose proof (in_argv _ _ Hi Hw) as Hin.
  assert (Hnext : words_left (Z.to_nat (i + 1)) = words_left (S (Z.to_nat i))) by (f_equal; lia).
  assert (H1 : (plus_left argv (Getopt_state (i + 1) []) <
                S (length w0) + words_left (S (Z.to_nat i)))%nat /\
               1 <= optind (Getopt_state (i + 1) []) <= Z.of_nat (length argv)).
  { rewrite plus_left_nil, Hnext. cbn. lia. }
  unfold go_long. destruct (split_eq w) as [name value].
  destruct (find_long l name) as [o|] eqn:Eo; [|split; [by right; left|exact H1]].
  apply find_long_elem in Eo. destruct value as [v|].
  - destruct (opt_has_arg o); (split; [|exact H1]); [|by right; left].
    right; right; right. apply go_found_code; eauto.
  - destruct (opt_has_arg o) eqn:Ea.
    + destruct (argv !! Z.to_nat (i + 1)) as [a|] eqn:E; [|split; [by right; right; left|exact H1]].
      split; [right; right; right; apply go_found_code; eauto|].
      pose proof (in_argv (i + 1) _ ltac:(lia) E). pose proof (words_mono (S (Z.to_nat i))).
      rewrite plus_left_nil. replace (Z.to_nat (i + 2)) with (S (S (Z.to_nat i))) by lia.
      cbn [optind]. lia.
    + split; [|exact H1]. right; right; right. apply go_found_code; [done|]. by rewrite Ea.
Qed.
End instance.

(** The state of the parser is one it can be in: not past the end, and letters
    left only of a word there is. *)
Lemma getopt_plus_cases argv s l g r g' :
  getopt_plus argv s l g = (r, g') ->
  (go_code r = -1 /\
   (1 <= optind g <= Z.of_nat (length argv) -> 1 <= optind g' <= Z.of_nat (length argv))) \/
  good_result argv s l (plus_left argv g) (r, g').
Proof.
  unfold getopt_plus. destruct (Z.ltb_spec (optind g) 1) as [|Hi]; [intros [= <- <-]; by left|].
  destruct (argv !! Z.to_nat (optind g)) as [w|] eqn:Ew; [|intros [= <- <-]; by left].
  destruct g as [i next]. cbn [optind nextchar] in *. destruct next as [|c rest]; intros Heq.
  2: { right. rewrite <- Heq, plus_left_cons. by eapply go_short_good. }
  assert (Hleft : plus_left argv (Getopt_state i []) =
                  (S (length w) + words_left argv (S (Z.to_nat i)))%nat).
  { rewrite plus_left_nil. by apply words_step. }
  rewrite Hleft. unfold go_word in Heq.
  destruct w as [|c [|d rest]]; [injection Heq as <- <-; by left..|].
  destruct (decide (c = "-"%char)); [|injection Heq as <- <-; by left].
  destruct (decide (d = "-"%char)).
  - destruct rest as [|x rest].
    + injection Heq as <- <-. left. split; [done|]. cbn [optind].
      pose proof (in_argv argv i _ Hi Ew). lia.
    + right. rewrite <- Heq. by eapply go_long_good.
  - right. rewrite <- Heq. cbn [optind].
    pose proof (go_short_good argv s l i _ d rest Hi Ew) as Hg.
    destruct (go_short argv s i d rest). destruct Hg as (? & ? & ?).
    split; [done|]. cbn [length]. lia.
Qed.

#[export] Instance plus_getopt : Getopt.
Proof.
  refine {| getopt_long := getopt_plus; getopt_left := plus_left |}.
  - intros argv s l g r g' [[-> _]|[Hr _]]%getopt_plus_cases; [by left|exact Hr].
  - intros argv s l g r g' [[Hr _]|(_ & ? & _)]%getopt_plus_cases; done.
  - intros argv s l g r g' [[_ Hin]|(_ & _ & ?)]%getopt_plus_cases; auto.
Defined.
