(* ===== verification/Tools.v ===== *)
(** * The helpers of the programs (src/tools.c, include/nrm/tools.h)

    The parser of the options that the programs share. The texts of the short
    options are an array of characters written by [strcpy] and [strcat], the long
    options an array of entries: the writes are checked against the bounds. *)

From Stdlib Require Import Ascii.
From S2P Require Import Prelude Decimal Vectors Doubles Runtime Getopt.

(** ** Flags *)

Definition NRM_TOOLS_ARGS_FLAG_FREQ : Z := Z.shiftl 1 0.
Definition NRM_TOOLS_ARGS_FLAG_EVENT : Z := Z.shiftl 1 1.
Definition NRM_TOOLS_ARGS_FLAG_INHERIT : Z := Z.shiftl 1 2.
Definition NRM_TOOLS_ARGS_FLAG_MAX : nat := 3.

Definition NRM_TOOLS_FLAGS_GET (f i : Z) : Z := Z.land f i.
Definition NRM_TOOLS_FLAGS_SET (f i : Z) : Z := Z.lor f i.
Definition NRM_TOOLS_FLAGS_ISSET (f i : Z) : bool := negb (NRM_TOOLS_FLAGS_GET f i =? 0).

(** ** Arrays of characters *)

Definition NUL : ascii := Ascii.zero.

(** Where the first NUL is. *)
Definition c_strlen (buf : list ascii) : outcome nat :=
  match list_find (fun c => c = NUL) buf with Some (i, _) => Ok i | None => Undefined end.

Definition buf_write {A} (buf : list A) (off : nat) (src : list A) : outcome (list A) :=
  if (off + length src <=? length buf)%nat
  then Ok (take off buf ++ src ++ drop (off + length src) buf) else Undefined.

Definition strcpy (buf src : list ascii) : outcome (list ascii) := buf_write buf 0 (src ++ [NUL]).
Definition strcat (buf src : list ascii) : outcome (list ascii) :=
  n ← c_strlen buf; buf_write buf n (src ++ [NUL]).

(** What a reader of the arrays sees: the characters before the first NUL, the
    entries before the first null one. *)
Definition read_text (buf : list ascii) : outcome (list ascii) := n ← c_strlen buf; Ok (take n buf).

Fixpoint read_options (l : list (option longopt)) : outcome (list longopt) :=
  match l with
  | [] => Undefined
  | None :: _ => Ok []
  | Some o :: l => os ← read_options l; Ok (o :: os)
  end.

(** ** Arguments *)

(** [nrm_tools_args_t]; [events] is NULL unless the flag is set. *)
Record nrm_tools_args_t := Args {
  progname : string;
  flags : Z;
  upstream_uri : option string;
  pub_port : Z;
  rpc_port : Z;
  log_level : Z;
  ask_help : Z;
  ask_version : Z;
  freq : double;
  events : option (list string);
  inheritance : Z
}.

Definition set_uri v a := Args (progname a) (flags a) v (pub_port a) (rpc_port a) (log_level a)
  (ask_help a) (ask_version a) (freq a) (events a) (inheritance a).
Definition set_pub_port v a := Args (progname a) (flags a) (upstream_uri a) v (rpc_port a) (log_level a)
  (ask_help a) (ask_version a) (freq a) (events a) (inheritance a).
Definition set_rpc_port v a := Args (progname a) (flags a) (upstream_uri a) (pub_port a) v (log_level a)
  (ask_help a) (ask_version a) (freq a) (events a) (inheritance a).
Definition set_log_level v a := Args (progname a) (flags a) (upstream_uri a) (pub_port a) (rpc_port a) v
  (ask_help a) (ask_version a) (freq a) (events a) (inheritance a).
Definition set_help v a := Args (progname a) (flags a) (upstream_uri a) (pub_port a) (rpc_port a)
  (log_level a) v (ask_version a) (freq a) (events a) (inheritance a).
Definition set_version v a := Args (progname a) (flags a) (upstream_uri a) (pub_port a) (rpc_port a)
  (log_level a) (ask_help a) v (freq a) (events a) (inheritance a).
Definition set_freq v a := Args (progname a) (flags a) (upstream_uri a) (pub_port a) (rpc_port a)
  (log_level a) (ask_help a) (ask_version a) v (events a) (inheritance a).
Definition set_events v a := Args (progname a) (flags a) (upstream_uri a) (pub_port a) (rpc_port a)
  (log_level a) (ask_help a) (ask_version a) (freq a) v (inheritance a).
Definition set_inheritance v a := Args (progname a) (flags a) (upstream_uri a) (pub_port a) (rpc_port a)
  (log_level a) (ask_help a) (ask_version a) (freq a) (events a) v.

(** ** The tables of options *)

Definition common_shortopts : list ascii := String.list_ascii_of_string "+:vhqVl:u:r:p:".

Definition common_longopts : list longopt :=
  [ Longopt "help" false false (code "h");
    Longopt "version" false false (code "V");
    Longopt "log-level" true false (code "l");
    Longopt "quiet" false false (code "q");
    Longopt "verbose" false false (code "v");
    Longopt "uri" true false (code "u");
    Longopt "rpc" true false (code "r");
    Longopt "pub" true false (code "p") ].

(** [sizeof] counts the NUL, and the null entry. *)
Definition common_short_size : nat := length common_shortopts + 1.
Definition common_long_size : nat := length common_longopts + 1.
Definition full_short_size : nat := common_short_size + 2 * NRM_TOOLS_ARGS_FLAG_MAX.
Definition full_long_size : nat := common_long_size + NRM_TOOLS_ARGS_FLAG_MAX.

(** The arrays, and [longopts_idx]. *)
Record opttables := Tables {
  full_shortopts : list ascii;
  full_longopts : list (option longopt);
  longopts_idx : nat
}.

Definition common_tables : outcome opttables :=
  let shorts := replicate full_short_size NUL in
  let longs := replicate full_long_size None in
  shorts ← strcpy shorts common_shortopts;
  longs ← buf_write longs 0 ((Some <$> common_longopts) ++ [None]);
  Ok (Tables shorts longs (common_long_size - 1)).

Definition add_option (t : opttables) (fs : string) (fl : longopt) : outcome opttables :=
  shorts ← strcat (full_shortopts t) (String.list_ascii_of_string fs);
  longs ← buf_write (full_longopts t) (longopts_idx t) [Some fl];
  Ok (Tables shorts longs (longopts_idx t + 1)).

(** The tables for the flags, and the defaults of what they add. *)
Definition flag_tables (args : nrm_tools_args_t) : outcome (opttables * nrm_tools_args_t) :=
  t ← common_tables;
  '(t, args) ← (if NRM_TOOLS_FLAGS_ISSET (flags args) NRM_TOOLS_ARGS_FLAG_FREQ
                then t ← add_option t "f:" (Longopt "freq" true false (code "f"));
                     Ok (t, set_freq (d_of_Z 1) args)
                else Ok (t, args));
  '(t, args) ← (if NRM_TOOLS_FLAGS_ISSET (flags args) NRM_TOOLS_ARGS_FLAG_EVENT
                then t ← add_option t "e:" (Longopt "event" true false (code "e"));
                     Ok (t, set_events (Some []) args)
                else Ok (t, args));
  if NRM_TOOLS_FLAGS_ISSET (flags args) NRM_TOOLS_ARGS_FLAG_INHERIT
  then t ← add_option t "i" (Longopt "inherit" false false (code "i"));
       Ok (t, set_inheritance 0 args)
  else Ok (t, args).

Definition default_values (args : nrm_tools_args_t) : nrm_tools_args_t :=
  set_uri None (set_rpc_port 3456 (set_pub_port 2345 (set_log_level NRM_LOG_NORMAL
    (set_version 0 (set_help 0 args))))).

Definition text_of (s : list ascii) : string := String.string_of_list_ascii s.

(** ** Parsing *)

Section parsing.
Context `{Getopt}.
Variable strtod : list ascii -> double * bool * bool.

(** A parsed argument is stored, or its error returned. *)
Definition store_parsed {A} (p : Z * option A) (set : A -> nrm_tools_args_t -> nrm_tools_args_t)
    (args : nrm_tools_args_t) : outcome (option Z * nrm_tools_args_t) :=
  if p.1 =? 0 then v ← deref p.2; Ok (None, set v args) else Ok (Some p.1, args).

(** One option; [Some] is an early return. The level of the log wraps when -v is given
    at [INT_MAX], where C leaves it undefined. *)
Definition parse_option (r : getopt_result) (args : nrm_tools_args_t)
    : outcome (option Z * nrm_tools_args_t) :=
  let c := go_code r in
  if c =? 0 then Ok (None, args)
  else if c =? code "h" then Ok (None, set_help 1 args)
  else if c =? code "V" then Ok (None, set_version 1 args)
  else if c =? code "p" then optarg ← deref (go_arg r); store_parsed (nrm_parse_uint optarg) set_pub_port args
  else if c =? code "r" then optarg ← deref (go_arg r); store_parsed (nrm_parse_uint optarg) set_rpc_port args
  else if c =? code "u" then optarg ← deref (go_arg r); Ok (None, set_uri (Some (text_of optarg)) args)
  else if c =? code "v" then Ok (None, set_log_level (i32 (log_level args + 1)) args)
  else if c =? code "q" then Ok (None, set_log_level NRM_LOG_QUIET args)
  else if c =? code "l" then optarg ← deref (go_arg r); store_parsed (nrm_parse_int optarg) set_log_level args
  else if c =? code "f" then
    _ ← c_assert (NRM_TOOLS_FLAGS_ISSET (flags args) NRM_TOOLS_ARGS_FLAG_FREQ);
    optarg ← deref (go_arg r); store_parsed (nrm_parse_double strtod optarg) set_freq args
  else if c =? code "e" then
    _ ← c_assert (NRM_TOOLS_FLAGS_ISSET (flags args) NRM_TOOLS_ARGS_FLAG_EVENT);
    optarg ← deref (go_arg r); l ← deref (events args);
    Ok (None, set_events (Some (l ++ [text_of optarg])) args)
  else if c =? code "i" then
    _ ← c_assert (NRM_TOOLS_FLAGS_ISSET (flags args) NRM_TOOLS_ARGS_FLAG_INHERIT);
    Ok (None, set_inheritance 1 args)
  else Ok (Some (- NRM_EINVAL), args).

(** The fuel is what the parser has left to read. *)
Fixpoint parse_loop (fuel : nat) (argv : list (list ascii)) (shorts : list ascii)
    (longs : list longopt) (g : getopt_state) (args : nrm_tools_args_t)
    : outcome (option Z * getopt_state * nrm_tools_args_t) :=
  match fuel with
  | O => Diverges
  | S fuel =>
      let '(r, g) := getopt_long argv shorts longs g in
      if go_code r =? -1 then Ok (None, g, args)
      else '(err, args) ← parse_option r args;
           match err with
           | Some err => Ok (Some err, g, args)
           | None => parse_loop fuel argv shorts longs g args
           end
  end.

(** The code, and the state in which it leaves the parser. *)
Definition nrm_tools_parse_args (argv : list (list ascii)) (args : nrm_tools_args_t)
    : outcome (Z * getopt_state * nrm_tools_args_t) :=
  '(t, args) ← flag_tables args;
  let args := default_values args in
  shorts ← read_text (full_shortopts t);
  longs ← read_options (full_longopts t);
  let g := Getopt_state 1 [] in
  '(err, g, args) ← parse_loop (S (getopt_left argv g)) argv shorts longs g args;
  match err with
  | Some err => Ok (err, g, args)
  | None =>
      let args := if is_null (upstream_uri args) then set_uri (Some "tcp://127.0.0.1"%string) args
                  else args in
      Ok (optind g, g, args)
  end.
End parsing.

(** ** Help *)

Definition newline : string := String (ascii_of_nat 10) "".

Definition common_help : list string :=
  (fun s => (s ++ newline)%string) <$>
  [ "Allowed options:"; "--help, -h             : print this help message";
    "--version, -V          : print program version";
    "--verbose, -v          : increase verbosity";
    "--quiet, -q            : no log output";
    "--log-level, -l <int>  : set log level (0-5)";
    "--uri, -u <str>        : daemon socket uri to connect to";
    "--rpc, -r  <uint>      : daemon rpc port to use";
    "--pub, -p  <uint>      : daemon pub/sub port to use" ]%string.

Definition extra_help : list string :=
  (fun s => (s ++ newline)%string) <$>
  [ "--freq, -f <double>    : signal frequency (in Hz)";
    "--event, -e <string>   : event name(s)";
    "--inherit, -i          : enable event inheritance" ]%string.

(** What is printed, piece by piece. *)
Definition nrm_tools_print_help (args : nrm_tools_args_t) : Z * list string :=
  (0, [("Usage: " ++ progname args ++ " [options]" ++ newline ++ newline)%string] ++ common_help ++
      mjoin (imap (fun i s => if NRM_TOOLS_FLAGS_ISSET (flags args) (Z.shiftl 1 (Z.of_nat i))
                              then [s] else []) extra_help)).

Definition nrm_tools_print_version (nrm_version_string : string) (args : nrm_tools_args_t)
    : Z * list string :=
  (0, [(progname args ++ ": version " ++ nrm_version_string ++ newline)%string]).

(** The names of events are released with their vector. *)
Definition nrm_tools_args_destroy (args : nrm_tools_args_t) : outcome (Z * nrm_tools_args_t) :=
  if NRM_TOOLS_FLAGS_ISSET (flags args) NRM_TOOLS_ARGS_FLAG_EVENT
  then _ ← deref (events args); Ok (0, set_events None args)
  else Ok (0, args).

(** ** The tables stay in their arrays *)

Definition wants_freq (args : nrm_tools_args_t) : bool :=
  NRM_TOOLS_FLAGS_ISSET (flags args) NRM_TOOLS_ARGS_FLAG_FREQ.
Definition wants_event (args : nrm_tools_args_t) : bool :=
  NRM_TOOLS_FLAGS_ISSET (flags args) NRM_TOOLS_ARGS_FLAG_EVENT.
Definition wants_inherit (args : nrm_tools_args_t) : bool :=
  NRM_TOOLS_FLAGS_ISSET (flags args) NRM_TOOLS_ARGS_FLAG_INHERIT.

(** The texts that the flags ask for. *)
Definition shorts_for (f e i : bool) : list ascii :=
  common_shortopts ++ (if f then ["f"; ":"]%char else []) ++ (if e then ["e"; ":"]%char else []) ++
  (if i then ["i"]%char else []).
Definition longs_for (f e i : bool) : list longopt :=
  common_longopts ++ (if f then [Longopt "freq" true false (code "f")] else []) ++
  (if e then [Longopt "event" true false (code "e")] else []) ++
  (if i then [Longopt "inherit" false false (code "i")] else []).

Definition flag_defaults (f e i : bool) (args : nrm_tools_args_t) : nrm_tools_args_t :=
  let args := if f then set_freq (d_of_Z 1) args else args in
  let args := if e then set_events (Some []) args else args in
  if i then set_inheritance 0 args else args.

Definition tables_for (f e i : bool) : outcome opttables :=
  t ← common_tables;
  t ← (if f then add_option t "f:" (Longopt "freq" true false (code "f")) else Ok t);
  t ← (if e then add_option t "e:" (Longopt "event" true false (code "e")) else Ok t);
  if i then add_option t "i" (Longopt "inherit" false false (code "i")) else Ok t.

Lemma option_stage (b : bool) (m : outcome opttables) t (set : nrm_tools_args_t -> nrm_tools_args_t) args
    {B} (k : opttables * nrm_tools_args_t -> outcome B) :
  ((if b then t ← m; Ok (t, set args) else Ok (t, args)) ≫= k) =
  (t ← (if b then m else Ok t); k (t, if b then set args else args)).
Proof. destruct b; [destruct m|]; done. Qed.

Lemma flag_tables_for args :
  flag_tables args =
  (t ← tables_for (wants_freq args) (wants_event args) (wants_inherit args);
   Ok (t, flag_defaults (wants_freq args) (wants_event args) (wants_inherit args) args)).
Proof.
  unfold flag_tables, tables_for, flag_defaults, wants_freq, wants_event, wants_inherit.
  generalize common_tables as ct. intros [t| | |]; [|done..].
  cbn [mbind outcome_bind]. rewrite option_stage.
  destruct (if NRM_TOOLS_FLAGS_ISSET (flags args) NRM_TOOLS_ARGS_FLAG_FREQ
    then add_option _ _ _ else _)
    as [t1| | |]; [|done..]. cbn [mbind outcome_bind].
  set (args1 := if NRM_TOOLS_FLAGS_ISSET (flags args) NRM_TOOLS_ARGS_FLAG_FREQ then _ else args).
  assert (Hf1 : flags args1 = flags args) by (unfold args1; by case_match). rewrite Hf1, option_stage.
  destruct (if NRM_TOOLS_FLAGS_ISSET (flags args) NRM_TOOLS_ARGS_FLAG_EVENT
    then add_option _ _ _ else _)
    as [t2| | |]; [|done..]. cbn [mbind outcome_bind].
  set (args2 := if NRM_TOOLS_FLAGS_ISSET (flags args) NRM_TOOLS_ARGS_FLAG_EVENT then _ else args1).
  assert (Hf2 : flags args2 = flags args) by (unfold args2; by case_match). rewrite Hf2.
  destruct (NRM_TOOLS_FLAGS_ISSET (flags args) NRM_TOOLS_ARGS_FLAG_INHERIT); [|done].
  by destruct (add_option t2 _ _).
Qed.

(** No write leaves an array, and a NUL and a null entry remain. *)
Lemma tables_for_ok f e i :
  exists t, tables_for f e i = Ok t /\
    length (full_shortopts t) = full_short_size /\ length (full_longopts t) = full_long_size /\
    read_text (full_shortopts t) = Ok (shorts_for f e i) /\
    read_options (full_longopts t) = Ok (longs_for f e i).
Proof. destruct f, e, i; (eexists; split; [vm_compute; reflexivity|by vm_compute]). Qed.

(** ** Parsing is safe *)

Lemma parse_uint_cases s :
  (exists v, nrm_parse_uint s = (0, Some v) /\ 0 <= v <= INT_MAX) \/
  (exists err, nrm_parse_uint s = (err, None) /\ err < 0).
Proof.
  unfold nrm_parse_uint, NRM_EINVAL, NRM_EDOM, INT_MAX. destruct (strtol s) as [ret errno].
  destruct errno; [right; eexists; split; [reflexivity|lia]|]. rewrite Z.gtb_ltb. case_tests; cbn [orb].
  1-3: right; eexists; split; [reflexivity|lia].
  left. exists (u32 ret). rewrite u32_small by (unfold in_u32; lia). split; [done|lia].
Qed.

Lemma parse_int_cases s :
  (exists v, nrm_parse_int s = (0, Some v)) \/ (exists err, nrm_parse_int s = (err, None) /\ err < 0).
Proof.
  unfold nrm_parse_int, NRM_EINVAL, NRM_EDOM. destruct (strtol s) as [ret errno].
  destruct errno; [right; eexists; split; [reflexivity|lia]|].
  destruct (_ || _); [right; eexists; split; [reflexivity|lia]|left; eauto].
Qed.

Lemma parse_double_cases strtod s :
  (exists v, nrm_parse_double strtod s = (0, Some v)) \/
  (exists err, nrm_parse_double strtod s = (err, None) /\ err < 0).
Proof.
  unfold nrm_parse_double, NRM_EINVAL. destruct (strtod s) as [[ret errno] atstart].
  destruct errno; [right; eexists; split; [reflexivity|lia]|].
  destruct (_ && _); [right; eexists; split; [reflexivity|lia]|left; eauto].
Qed.

(** Runs the parser on a word that is known. *)
Ltac run_word :=
  unfold go_word, go_long, go_short; cbn [optind];
  repeat match goal with
  | |- context [decide (?a = ?b :> ascii)] =>
      let d := eval vm_compute in (decide (a = b)) in change (decide (a = b)) with d; cbv iota
  | |- context [split_eq ?w] =>
      let r := eval vm_compute in (split_eq w) in change (split_eq w) with r; cbv iota beta
  | |- context [find_long ?l ?n] =>
      let r := eval vm_compute in (find_long l n) in change (find_long l n) with r; cbv iota beta
  | |- context [list_find ?p ?l] =>
      let r := eval vm_compute in (list_find p l) in change (list_find p l) with r; cbv iota beta
  end; cbn [opt_has_arg opt_flag opt_val].

(** Decides the tests on the codes of options. *)
Ltac decide_codes :=
  repeat match goal with
  | |- context [code ?c =? ?d] =>
      let b := eval vm_compute in (code c =? d) in change (code c =? d) with b
  end; cbv iota.

(** What stays true of the arguments while the options are read. *)
Definition args_inv (a0 a : nrm_tools_args_t) : Prop :=
  progname a = progname a0 /\ flags a = flags a0 /\ 0 <= pub_port a <= INT_MAX /\
  0 <= rpc_port a <= INT_MAX /\ (wants_event a0 = true -> is_Some (events a)).

Section safety.
Context `{Getopt}.
Variable strtod : list ascii -> double * bool * bool.

Lemma store_parsed_safe {A} (p : Z * option A) set a0 args :
  (exists v, p = (0, Some v) /\ args_inv a0 (set v args)) \/ (exists err, p = (err, None) /\ err < 0) ->
  args_inv a0 args ->
  exists err args', store_parsed p set args = Ok (err, args') /\ args_inv a0 args' /\
    (forall z, err = Some z -> z < 0).
Proof.
  intros [(v & -> & Hv)|(err & -> & Hlt)] Hargs; unfold store_parsed; cbn.
  - by eexists _, _.
  - destruct (Z.eqb_spec err 0); [lia|]. eexists _, _. split; [reflexivity|].
    split; [done|]. by intros z [= <-].
Qed.

(** An option of the tables is handled without failing. *)
Lemma parse_option_safe r takes a0 args :
  (go_code r, takes) ∈ options_of (shorts_for (wants_freq a0) (wants_event a0) (wants_inherit a0))
                                  (longs_for (wants_freq a0) (wants_event a0) (wants_inherit a0)) ->
  (takes = true -> is_Some (go_arg r)) -> args_inv a0 args ->
  exists err args', parse_option strtod r args = Ok (err, args') /\ args_inv a0 args' /\
    (forall z, err = Some z -> z < 0).
Proof.
  intros Hin Harg Hargs. destruct r as [c arg fl]. cbn [go_code go_arg] in *.
  assert (Hfl : flags args = flags a0) by apply Hargs.
  unfold parse_option. cbn [go_code go_arg]. rewrite Hfl.
  fold (wants_freq a0) (wants_event a0) (wants_inherit a0).
  pose proof Hargs as (Hpn & _ & Hpp & Hrp & Hev). unfold INT_MAX in Hpp, Hrp.
  assert (Hdone : forall a, args_inv a0 a -> exists err args',
            Ok (None, a) = Ok (err, args') /\ args_inv a0 args' /\ (forall z : Z, err = Some z -> z < 0))
    by (intros a Ha; by eexists _, _).
  assert (Hopt : (c, takes) ∈
    [(code "h", false); (code "V", false); (code "v", false); (code "q", false); (code "l", true);
     (code "u", true); (code "r", true); (code "p", true)] \/
     (c = code "f" /\ takes = true /\ wants_freq a0 = true) \/
     (c = code "e" /\ takes = true /\ wants_event a0 = true) \/
     (c = code "i" /\ takes = false /\ wants_inherit a0 = true)).
  { revert Hin. rewrite !list_elem_of_In.
    destruct (wants_freq a0), (wants_event a0), (wants_inherit a0); vm_compute; intuition congruence. }
  clear Hin. rewrite list_elem_of_In in Hopt. cbn [In] in Hopt.
  destruct Hopt as [Hopt|[(-> & -> & Hw)|[(-> & -> & Hw)|(-> & -> & Hw)]]].
  - destruct_or? Hopt; try done; injection Hopt as <- <-;
      try (destruct (Harg eq_refl) as [v ->]); decide_codes; cbn [deref mbind outcome_bind];
      try (apply Hdone; repeat split; cbn; done || (unfold INT_MAX in *; lia)).
    + apply store_parsed_safe; [|done]. destruct (parse_int_cases v) as [[x Hx]|He]; [left|by right].
      exists x. split; [done|]. repeat split; cbn; done || (unfold INT_MAX in *; lia).
    + apply store_parsed_safe; [|done]. destruct (parse_uint_cases v) as [(x & Hx & Hr)|He]; [left|by right].
      exists x. split; [done|]. repeat split; cbn; done || (unfold INT_MAX in *; lia).
    + apply store_parsed_safe; [|done]. destruct (parse_uint_cases v) as [(x & Hx & Hr)|He]; [left|by right].
      exists x. split; [done|]. repeat split; cbn; done || (unfold INT_MAX in *; lia).
  - destruct (Harg eq_refl) as [v ->]. rewrite Hw. decide_codes. cbn [c_assert deref mbind outcome_bind].
    apply store_parsed_safe; [|done].
    destruct (parse_double_cases strtod v) as [[x Hx]|He]; [left|by right].
    exists x. split; [done|]. repeat split; cbn; done || (unfold INT_MAX in *; lia).
  - destruct (Harg eq_refl) as [v ->]. rewrite Hw. destruct (Hev Hw) as [l Hl]. decide_codes.
    rewrite Hl. cbn [c_assert deref mbind outcome_bind]. apply Hdone. repeat split; cbn; done || (unfold INT_MAX in *; lia) || by eexists.
  - rewrite Hw. decide_codes. apply Hdone. repeat split; cbn; done || (unfold INT_MAX in *; lia).
Qed.
End safety.

Section loop.
Context `{Getopt}.
Variables (strtod : list ascii -> double * bool * bool) (a0 : nrm_tools_args_t)
          (argv : list (list ascii)).
Let shorts := shorts_for (wants_freq a0) (wants_event a0) (wants_inherit a0).
Let longs := longs_for (wants_freq a0) (wants_event a0) (wants_inherit a0).

(** The parser leaves the loop, and the fuel is enough. *)
Lemma parse_loop_safe fuel g args :
  (getopt_left argv g < fuel)%nat -> 1 <= optind g <= Z.of_nat (length argv) -> args_inv a0 args ->
  exists err g' args', parse_loop strtod fuel argv shorts longs g args = Ok (err, g', args') /\
    args_inv a0 args' /\ 1 <= optind g' <= Z.of_nat (length argv) /\
    (forall z, err = Some z -> z < 0).
Proof.
  revert g args. induction fuel as [|fuel IH]; intros g args Hfuel Hg Hargs; [lia|].
  cbn [parse_loop]. destruct (getopt_long argv shorts longs g) as [r g1] eqn:E.
  pose proof (getopt_in _ _ _ _ _ _ E Hg) as Hg1.
  destruct (Z.eqb_spec (go_code r) (-1)) as [|Hc]; [by eexists _, _, _|].
  pose proof (getopt_moves _ _ _ _ _ _ E Hc) as Hleft.
  assert (Hone : exists err args', parse_option strtod r args = Ok (err, args') /\ args_inv a0 args' /\
                   (forall z, err = Some z -> z < 0)).
  { destruct (getopt_code _ _ _ _ _ _ E) as [|[Hq|[Hq|(takes & Hin & Harg)]]]; [done|..].
    1,2: unfold parse_option; rewrite Hq; decide_codes; eexists _, _; split; [reflexivity|];
         split; [done|]; unfold NRM_EINVAL; intros z [= <-]; lia.
    by eapply parse_option_safe. }
  destruct Hone as (err & args1 & -> & Hargs1 & Herr). cbn [mbind outcome_bind].
  destruct err as [err|]; [by eexists _, _, _|]. apply IH; [lia|done|done].
Qed.
End loop.

Lemma args_inv_start a0 :
  args_inv a0 (default_values (flag_defaults (wants_freq a0) (wants_event a0) (wants_inherit a0) a0)).
Proof.
  unfold args_inv, flag_defaults, default_values, INT_MAX.
  destruct (wants_freq a0), (wants_event a0), (wants_inherit a0); cbn;
    repeat split; lia || done || (intros _; by eexists).
Qed.

(** The parser always returns: an error or an index in [argv], with a URI. *)
Lemma parse_args_ok `{Getopt} strtod argv args :
  argv <> [] ->
  exists rc g a, nrm_tools_parse_args strtod argv args = Ok (rc, g, a) /\
    flags a = flags args /\ 0 <= pub_port a <= INT_MAX /\ 0 <= rpc_port a <= INT_MAX /\
    (wants_event args = true -> is_Some (events a)) /\
    (rc < 0 \/ (1 <= rc <= Z.of_nat (length argv) /\ is_Some (upstream_uri a))).
Proof.
  intros Hargv.
  destruct (tables_for_ok (wants_freq args) (wants_event args) (wants_inherit args))
    as (t & Ht & _ & _ & Hs & Hl).
  unfold nrm_tools_parse_args. rewrite flag_tables_for, Ht. cbn [mbind outcome_bind].
  rewrite Hs, Hl. cbn [mbind outcome_bind].
  assert (Hg0 : 1 <= optind (Getopt_state 1 []) <= Z.of_nat (length argv)).
  { cbn [optind]. destruct argv; [done|]. cbn [length]. lia. }
  destruct (parse_loop_safe strtod args argv (S (getopt_left argv (Getopt_state 1 [])))
              (Getopt_state 1 []) _ ltac:(lia) Hg0 (args_inv_start args))
    as (err & g & a & -> & Ha & Hg & Herr).
  cbn [mbind outcome_bind]. destruct Ha as (Hpn & Hfl & Hpp & Hrp & Hev).
  destruct err as [err|]; eexists _, _, _; (split; [reflexivity|]).
  - repeat (split; [done|]). left. by apply Herr.
  - destruct (upstream_uri a) eqn:Eu; cbn; repeat (split; [done|]); right; (split; [done|]);
      [by rewrite Eu|by eexists].
Qed.

(** C26: for every value of the flags, the arrays of [nrm_tools_parse_args] hold the
    options that the flags ask for: no write of [strcpy], [strcat] or of an entry
    leaves the [full_short_size] characters and [full_long_size] entries, and a NUL
    and a null entry are left behind them. So on every command line, with any
    [getopt_long] that behaves as documented, the parser returns, none of its
    assertions fails, the ports it stores are not beyond [INT_MAX], and the result is
    an error or an index in [argv], with a URI; there is a vector of events whenever
    they were asked for, after an error too. *)
Theorem parse_args_bounds `{Getopt} strtod argv args :
  argv <> [] ->
  let f := wants_freq args in let e := wants_event args in let i := wants_inherit args in
  exists t rc g a,
    flag_tables args = Ok (t, flag_defaults f e i args) /\
    length (full_shortopts t) = full_short_size /\ length (full_longopts t) = full_long_size /\
    read_text (full_shortopts t) = Ok (shorts_for f e i) /\
    read_options (full_longopts t) = Ok (longs_for f e i) /\
    nrm_tools_parse_args strtod argv args = Ok (rc, g, a) /\
    flags a = flags args /\ 0 <= pub_port a <= INT_MAX /\ 0 <= rpc_port a <= INT_MAX /\
    (e = true -> is_Some (events a)) /\
    (rc < 0 \/ (1 <= rc <= Z.of_nat (length argv) /\ is_Some (upstream_uri a))).
Proof.
  intros Hargv. cbv zeta.
  destruct (tables_for_ok (wants_freq args) (wants_event args) (wants_inherit args))
    as (t & Ht & Hls & Hll & Hs & Hl).
  destruct (parse_args_ok strtod argv args Hargv) as (rc & g & a & Hp & Hrest).
  exists t, rc, g, a. rewrite flag_tables_for, Ht. by repeat (split; [done|]).
Qed.

Definition no_args (fl : Z) : nrm_tools_args_t :=
  Args "nrm" fl None 0 0 0 0 0 d0 None 0.

Lemma parse_args_bounds_witness :
  let args := no_args 7 in let argv := [["n"%char]; ["-"; "i"]%char] in
  let f := wants_freq args in let e := wants_event args in let i := wants_inherit args in
  exists t rc g a,
    flag_tables args = Ok (t, flag_defaults f e i args) /\
    length (full_shortopts t) = full_short_size /\ length (full_longopts t) = full_long_size /\
    read_text (full_shortopts t) = Ok (shorts_for f e i) /\
    read_options (full_longopts t) = Ok (longs_for f e i) /\
    nrm_tools_parse_args (fun _ => (d0, false, true)) argv args = Ok (rc, g, a) /\
    flags a = flags args /\ 0 <= pub_port a <= INT_MAX /\ 0 <= rpc_port a <= INT_MAX /\
    (e = true -> is_Some (events a)) /\
    (rc < 0 \/ (1 <= rc <= Z.of_nat (length argv) /\ is_Some (upstream_uri a))).
Proof.
  apply (parse_args_bounds (fun _ => (d0, false, true)) [["n"%char]; ["-"; "i"]%char] (no_args 7)).
  discriminate.
Defined.

(** ** What is asked for is what is parsed *)

(** The options of a command line. *)
Inductive tool_option :=
| T_uri (s : list ascii) | T_rpc (n : Z) | T_pub (n : Z) | T_level (z : Z)
| T_verbose | T_quiet | T_help | T_version
| T_freq (s : list ascii) (v : double) | T_event (s : list ascii) | T_inherit.

Definition opt_word (long : bool) (c : ascii) (name : string) : list ascii :=
  if long then "-"%char :: "-"%char :: String.list_ascii_of_string name else ["-"%char; c].

(** An option as words, in its short or its long form. *)
Definition option_words (o : bool * tool_option) : list (list ascii) :=
  match o.2 with
  | T_uri s => [opt_word o.1 "u" "uri"; s]
  | T_rpc n => [opt_word o.1 "r" "rpc"; dec n]
  | T_pub n => [opt_word o.1 "p" "pub"; dec n]
  | T_level z => [opt_word o.1 "l" "log-level"; dec z]
  | T_verbose => [opt_word o.1 "v" "verbose"]
  | T_quiet => [opt_word o.1 "q" "quiet"]
  | T_help => [opt_word o.1 "h" "help"]
  | T_version => [opt_word o.1 "V" "version"]
  | T_freq s _ => [opt_word o.1 "f" "freq"; s]
  | T_event s => [opt_word o.1 "e" "event"; s]
  | T_inherit => [opt_word o.1 "i" "inherit"]
  end.

Definition option_effect (a : nrm_tools_args_t) (o : tool_option) : nrm_tools_args_t :=
  match o with
  | T_uri s => set_uri (Some (text_of s)) a
  | T_rpc n => set_rpc_port n a
  | T_pub n => set_pub_port n a
  | T_level z => set_log_level z a
  | T_verbose => set_log_level (i32 (log_level a + 1)) a
  | T_quiet => set_log_level NRM_LOG_QUIET a
  | T_help => set_help 1 a
  | T_version => set_version 1 a
  | T_freq _ v => set_freq v a
  | T_event s => set_events (Some (default [] (events a) ++ [text_of s])) a
  | T_inherit => set_inheritance 1 a
  end.

Section roundtrip.
Variables (strtod : list ascii -> double * bool * bool) (a0 : nrm_tools_args_t).

(** The option is one the flags allow, with an argument that its parser takes. *)
Definition option_fits (o : tool_option) : Prop :=
  match o with
  | T_rpc n | T_pub n => 0 <= n <= INT_MAX
  | T_level z => in_i32 z
  | T_freq s v => wants_freq a0 = true /\ strtod s = (v, false, false)
  | T_event _ => wants_event a0 = true
  | T_inherit => wants_inherit a0 = true
  | _ => True
  end.

Definition option_code (o : tool_option) : ascii :=
  match o with
  | T_uri _ => "u" | T_rpc _ => "r" | T_pub _ => "p" | T_level _ => "l" | T_verbose => "v"
  | T_quiet => "q" | T_help => "h" | T_version => "V" | T_freq _ _ => "f" | T_event _ => "e"
  | T_inherit => "i"
  end.

(** The parser reads the words of an option as its code and its argument. *)
Lemma getopt_option argv i long o post :
  1 <= i -> option_fits o -> drop (Z.to_nat i) argv = option_words (long, o) ++ post ->
  getopt_long argv (shorts_for (wants_freq a0) (wants_event a0) (wants_inherit a0))
    (longs_for (wants_freq a0) (wants_event a0) (wants_inherit a0)) (Getopt_state i [])
  = (Result (code (option_code o)) (option_words (long, o) !! 1%nat) None,
     Getopt_state (i + Z.of_nat (length (option_words (long, o)))) []).
Proof.
  intros Hi Hfit Hdrop. cbn [getopt_long plus_getopt]. unfold getopt_plus. cbn [optind nextchar].
  destruct (Z.ltb_spec i 1); [lia|].
  assert (Hat : forall k w, (option_words (long, o) ++ post) !! k = Some w ->
                  argv !! Z.to_nat (i + Z.of_nat k) = Some w).
  { intros k w Hk. rewrite <- Hdrop, lookup_drop in Hk. rewrite <- Hk. f_equal. lia. }
  assert (H0 : exists w, option_words (long, o) !! 0%nat = Some w) by (destruct o; cbn; eauto).
  destruct H0 as [w H0]. rewrite <- (Z.add_0_r i) at 1. change 0 with (Z.of_nat 0).
  rewrite (Hat 0%nat w) by (by apply lookup_app_l_Some).
  assert (H1 : forall a, option_words (long, o) !! 1%nat = Some a -> argv !! Z.to_nat (i + 1) = Some a)
    by (intros a Ha; apply (Hat 1%nat); by apply lookup_app_l_Some).
  clear Hat Hdrop.
  destruct long, o; cbn in H0, Hfit; injection H0 as <-;
    repeat match goal with H : _ /\ _ |- _ => destruct H end;
    try specialize (H1 _ eq_refl);
    destruct (wants_freq a0), (wants_event a0), (wants_inherit a0); try discriminate;
    run_word; rewrite ?H1; reflexivity.
Qed.

Lemma parse_option_effect long o args :
  option_fits o -> args_inv a0 args ->
  parse_option strtod (Result (code (option_code o)) (option_words (long, o) !! 1%nat) None) args =
  Ok (None, option_effect args o) /\ args_inv a0 (option_effect args o).
Proof.
  intros Hfit Hargs. pose proof Hargs as (Hpn & Hfl & Hpp & Hrp & Hev).
  assert (Hsame : forall a, progname a = progname args -> flags a = flags args ->
            pub_port a = pub_port args -> rpc_port a = rpc_port args ->
            (is_Some (events args) -> is_Some (events a)) -> args_inv a0 a).
  { intros a E1 E2 E3 E4 E5. unfold args_inv. rewrite E1, E2, E3, E4. repeat split; try done; [lia..|].
    auto. }
  unfold parse_option. cbn [go_code go_arg]. rewrite Hfl.
  fold (wants_freq a0) (wants_event a0) (wants_inherit a0).
  destruct o as [s|n|n|z| | | | |s v|s| ]; cbn [option_code option_words lookup list_lookup snd option_fits] in *;
    decide_codes; cbn [deref mbind outcome_bind].
  - split; [done|by apply Hsame].
  - rewrite parse_uint_dec by done. split; [done|]. unfold args_inv. cbn [option_effect set_rpc_port progname flags pub_port rpc_port events]. tauto.
  - rewrite parse_uint_dec by done. split; [done|]. unfold args_inv. cbn [option_effect set_pub_port progname flags pub_port rpc_port events]. tauto.
  - rewrite parse_int_dec by done. split; [done|by apply Hsame].
  - split; [done|by apply Hsame].
  - split; [done|by apply Hsame].
  - split; [done|by apply Hsame].
  - split; [done|by apply Hsame].
  - destruct Hfit as [-> Hv]. unfold nrm_parse_double. cbn [c_assert mbind outcome_bind]. rewrite Hv.
    rewrite andb_false_r. split; [done|by apply Hsame].
  - rewrite Hfit. destruct (Hev Hfit) as [l Hl]. cbn [c_assert mbind outcome_bind]. rewrite Hl.
    cbn [deref mbind outcome_bind]. split; [by cbn; rewrite Hl|]. by apply Hsame.
  - rewrite Hfit. split; [done|by apply Hsame].
Qed.

(** Options one after the other. *)
Lemma parse_loop_options argv opts fuel i args rest :
  1 <= i -> Forall (fun o => option_fits o.2) opts -> args_inv a0 args ->
  drop (Z.to_nat i) argv = mjoin (option_words <$> opts) ++ rest ->
  parse_loop strtod (length opts + fuel) argv
    (shorts_for (wants_freq a0) (wants_event a0) (wants_inherit a0))
    (longs_for (wants_freq a0) (wants_event a0) (wants_inherit a0)) (Getopt_state i []) args
  = parse_loop strtod fuel argv
      (shorts_for (wants_freq a0) (wants_event a0) (wants_inherit a0))
      (longs_for (wants_freq a0) (wants_event a0) (wants_inherit a0))
      (Getopt_state (i + Z.of_nat (length (mjoin (option_words <$> opts)))) [])
      (foldl option_effect args opts.*2).
Proof.
  intros Hi Hopts. revert i args Hi. induction Hopts as [|[long o] opts Ho _ IH]; intros i args Hi Hargs Hdrop.
  - cbn. by rewrite Z.add_0_r.
  - cbn [fmap list_fmap mjoin list_join foldl length Nat.add snd] in *. cbn [parse_loop].
    fold (mjoin (M := list) (option_words <$> opts)) in *.
    assert (Hdrop' : drop (Z.to_nat i) argv =
              option_words (long, o) ++ (mjoin (option_words <$> opts) ++ rest)) by by rewrite app_assoc.
    rewrite (getopt_option argv i long o _ Hi Ho Hdrop'). cbn [go_code].
    replace (code (option_code o) =? -1) with false by by destruct o.
    destruct (parse_option_effect long o args Ho Hargs) as [-> Hargs1]. cbn [mbind outcome_bind].
    rewrite IH; [..|lia|done|].
    + rewrite length_app, Nat2Z.inj_add, Z.add_assoc. done.
    + replace (Z.to_nat (i + _)) with (Z.to_nat i + length (option_words (long, o)))%nat by lia.
      rewrite <- drop_drop, Hdrop'. apply drop_app_length.
Qed.
End roundtrip.

(** Not an option: no word, or one without a dash, or a dash alone. *)
Definition stops (rest : list (list ascii)) : Prop :=
  match rest with c :: _ => head c <> Some "-"%char \/ c = ["-"%char] | [] => True end.

Lemma getopt_stops argv s l i rest :
  1 <= i -> drop (Z.to_nat i) argv = rest -> stops rest ->
  getopt_long argv s l (Getopt_state i []) = (go_end, Getopt_state i []).
Proof.
  intros Hi Hdrop Hstop. cbn [getopt_long plus_getopt]. unfold getopt_plus. cbn [optind nextchar].
  destruct (Z.ltb_spec i 1); [lia|].
  assert (Hl : argv !! Z.to_nat i = rest !! 0%nat).
  { rewrite <- Hdrop, lookup_drop. f_equal. lia. }
  rewrite Hl. destruct rest as [|w rest]; [done|]. cbn in *. unfold go_word.
  destruct w as [|c [|d w]]; [done..|]. destruct (decide (c = "-"%char)) as [->|]; [|done].
  by destruct Hstop.
Qed.

(** Every option is at least a word. *)
Lemma options_length opts : (length opts <= length (mjoin (option_words <$> opts)))%nat.
Proof.
  induction opts as [|[long o] opts IH]; [done|].
  change (mjoin (option_words <$> (long, o) :: opts))
    with (option_words (long, o) ++ mjoin (option_words <$> opts)).
  rewrite length_app. assert (1 <= length (option_words (long, o)))%nat by (destruct o; cbn; lia).
  cbn [length]. lia.
Qed.

Lemma words_left_length argv i : (length argv - i <= words_left argv i)%nat.
Proof.
  rewrite <- length_drop. unfold words_left. generalize (drop i argv) as ws.
  induction ws as [|w ws IH]; cbn in *; lia.
Qed.

Lemma parse_args_options strtod prog (opts : list (bool * tool_option)) rest args :
  Forall (fun o => option_fits strtod args o.2) opts -> stops rest ->
  let words := mjoin (option_words <$> opts) in
  let a := foldl option_effect
             (default_values
                (flag_defaults (wants_freq args) (wants_event args) (wants_inherit args) args)) opts.*2 in
  nrm_tools_parse_args strtod (prog :: words ++ rest) args =
  Ok (1 + Z.of_nat (length words), Getopt_state (1 + Z.of_nat (length words)) [],
      if is_null (upstream_uri a) then set_uri (Some "tcp://127.0.0.1"%string) a else a).
Proof.
  intros Hopts Hstop words a. unfold nrm_tools_parse_args. rewrite flag_tables_for.
  destruct (tables_for_ok (wants_freq args) (wants_event args) (wants_inherit args))
    as (t & -> & _ & _ & Hs & Hl).
  cbn [mbind outcome_bind]. rewrite Hs, Hl. cbn [mbind outcome_bind].
  set (argv := prog :: words ++ rest).
  assert (Hfuel : exists fuel, S (getopt_left argv (Getopt_state 1 [])) = (length opts + S fuel)%nat).
  { exists (getopt_left argv (Getopt_state 1 []) - length opts)%nat.
    enough (length opts <= getopt_left argv (Getopt_state 1 []))%nat by lia.
    cbn [getopt_left plus_getopt]. rewrite plus_left_nil.
    pose proof (words_left_length argv (Z.to_nat 1)). pose proof (options_length opts) as Hlen.
    fold words in Hlen. unfold argv in *. cbn [length] in *. rewrite length_app in *. lia. }
  destruct Hfuel as [fuel ->].
  rewrite (parse_loop_options strtod args argv opts (S fuel) 1 _ rest) by (done || apply args_inv_start).
  fold words a. cbn [parse_loop]. erewrite (getopt_stops _ _ _ _ rest); [done|lia| |done].
  replace (Z.to_nat (1 + _)) with (S (length words)) by lia. unfold argv. cbn [skipn].
  apply drop_app_length.
Qed.

(** C25: what a command line asks for is what is parsed. On a program name, then any
    options that the flags allow, each in its short or long form, then words the
    first of which is not an option, [nrm_tools_parse_args] returns the index of
    that word, and the arguments are the defaults changed by the options from left
    to right: the last one wins for URI, ports, frequency and level, levels add up
    after [-v], events accumulate in order. Without a URI the default is set. *)
Theorem parse_args_roundtrip strtod prog (opts : list (bool * tool_option)) rest args :
  Forall (fun o => option_fits strtod args o.2) opts -> stops rest ->
  let words := mjoin (option_words <$> opts) in
  let a := foldl option_effect
             (default_values
                (flag_defaults (wants_freq args) (wants_event args) (wants_inherit args) args)) opts.*2 in
  nrm_tools_parse_args strtod (prog :: words ++ rest) args =
  Ok (1 + Z.of_nat (length words), Getopt_state (1 + Z.of_nat (length words)) [],
      if is_null (upstream_uri a) then set_uri (Some "tcp://127.0.0.1"%string) a else a).
Proof. apply parse_args_options. Qed.

Lemma parse_args_roundtrip_witness :
  let args := no_args 2 in
  let opts := [(true, T_uri ["u"%char]); (false, T_event ["a"%char]); (false, T_verbose);
               (true, T_event ["b"%char]); (false, T_pub 5)] in
  let words := mjoin (option_words <$> opts) in
  nrm_tools_parse_args (fun _ => (d0, false, true)) (["n"%char] :: words ++ [["c"%char]; ["-"; "x"]%char]) args =
  Ok (10, Getopt_state 10 [],
      Args "nrm" 2 (Some "u"%string) 5 3456 4 0 0 d0 (Some ["a"; "b"]%string) 0).
Proof.
  apply (parse_args_roundtrip (fun _ => (d0, false, true)) ["n"%char]
    [(true, T_uri ["u"%char]); (false, T_event ["a"%char]); (false, T_verbose);
     (true, T_event ["b"%char]); (false, T_pub 5)] [["c"%char]; ["-"; "x"]%char] (no_args 2)).
  - repeat constructor; cbn; unfold INT_MAX; lia.
  - left. discriminate.
Defined.
