(* ===== verification/Bitmaps.v ===== *)
(** * Bitmaps (src/utils/bitmaps.c, include/nrm/utils/bitmaps.h)

    A bitmap is an array of 32 words of 64 bits. The file models every
    operation of bitmaps.c on that representation, word by word, and relates
    it to the set of the indices whose bit is one. The two functions that set a
    bit are given by their accesses to the words, so that threads can be
    interleaved between any two of them. *)

From Stdlib Require Import Ascii.
From S2P Require Import Prelude Decimal.

(** ** Representation *)

Definition NRM_BITMAP_MAX : Z := 2048.
Definition NRM_BITMAP_BYTES : Z := NRM_BITMAP_MAX / 8.
(** [sizeof(unsigned long)] on the 64-bit targets of the library. *)
Definition sizeof_ulong : Z := 8.
Definition NRM_BITMAP_SIZE : Z := NRM_BITMAP_BYTES / sizeof_ulong.
Definition NRM_BITMAP_NBITS : Z := 8 * sizeof_ulong.
Definition NRM_BITMAP_NTH (i : Z) : Z := i / NRM_BITMAP_NBITS.
Definition NRM_BITMAP_ITH (i : Z) : Z := i mod NRM_BITMAP_NBITS.

(** [struct nrm_bitmap]. *)
Record nrm_bitmap := Bitmap { mask : list Z }.

(** The bitmap in zero-initialised memory. *)
Definition bitmap_zero : nrm_bitmap := Bitmap (replicate (Z.to_nat NRM_BITMAP_SIZE) 0).

(** ** Operations

    A pointer that the code compares with NULL is an [option]. An [unsigned
    int] parameter converts its argument modulo 2^32. *)

Definition nrm_bitmap_isset (bitmap : option nrm_bitmap) (i : Z) : Z :=
  match bitmap with
  | None => -1
  | Some b =>
      let i := u32 i in
      if i >=? NRM_BITMAP_MAX then -1
      else c_bool (negb (Z.land (mask b !!! Z.to_nat (NRM_BITMAP_NTH i))
                                (Z.shiftl 1 (NRM_BITMAP_ITH i)) =? 0))
  end.

(** [bitmap->mask[NTH(i)] |= 1UL << ITH(i)]. *)
Definition or_bit (b : nrm_bitmap) (i : Z) : nrm_bitmap :=
  let n := Z.to_nat (NRM_BITMAP_NTH i) in
  Bitmap (<[n := Z.lor (mask b !!! n) (Z.shiftl 1 (NRM_BITMAP_ITH i))]> (mask b)).

Definition nrm_bitmap_set (bitmap : option nrm_bitmap) (i : Z) : Z * option nrm_bitmap :=
  match bitmap with
  | None => (-1, None)
  | Some b =>
      let i := u32 i in
      if i >=? NRM_BITMAP_MAX then (-1, Some b) else (0, Some (or_bit b i))
  end.

(** *** Accesses to the words of a bitmap

    What a function does to the memory of [mask], access by access, and what it returns.
    Between two accesses other threads run. [|=] loads a word and then stores it;
    [__atomic_or_fetch] is one access, which loads and stores. As every access is to one
    word, the order that [__ATOMIC_RELAXED] leaves open, that of different words, cannot
    be seen in one. *)

Inductive access :=
| Return (rc : Z)
| Load_word (n : nat) (next : Z -> access)
| Store_word (n : nat) (w : Z) (next : access)
| Atomic_or_fetch (n : nat) (w : Z) (next : Z -> access).

(** The next access of a function, on the words. *)
Definition access_step (c : access) (words : list Z) : option (access * list Z) :=
  match c with
  | Return _ => None
  | Load_word n next => Some (next (words !!! n), words)
  | Store_word n w next => Some (next, <[n := w]> words)
  | Atomic_or_fetch n w next => let v := Z.lor (words !!! n) w in Some (next v, <[n := v]> words)
  end.

(** A function that runs alone. *)
Fixpoint alone (c : access) (words : list Z) : Z * list Z :=
  match c with
  | Return rc => (rc, words)
  | Load_word n next => alone (next (words !!! n)) words
  | Store_word n w next => alone next (<[n := w]> words)
  | Atomic_or_fetch n w next => let v := Z.lor (words !!! n) w in alone (next v) (<[n := v]> words)
  end.

(** The body of [nrm_bitmap_set], after its test for NULL. *)
Definition set_accesses (i : Z) : access :=
  let i := u32 i in
  if i >=? NRM_BITMAP_MAX then Return (-1)
  else Load_word (Z.to_nat (NRM_BITMAP_NTH i)) (fun w =>
       Store_word (Z.to_nat (NRM_BITMAP_NTH i)) (Z.lor w (Z.shiftl 1 (NRM_BITMAP_ITH i)))
       (Return 0)).

(** That of [nrm_bitmap_set_atomic]. *)
Definition set_atomic_accesses (i : Z) : access :=
  let i := u32 i in
  if i >=? NRM_BITMAP_MAX then Return (-1)
  else Atomic_or_fetch (Z.to_nat (NRM_BITMAP_NTH i)) (Z.shiftl 1 (NRM_BITMAP_ITH i)) (fun _ =>
       Return 0).

Definition nrm_bitmap_set_atomic (bitmap : option nrm_bitmap) (i : Z) : Z * option nrm_bitmap :=
  match bitmap with
  | None => (-1, None)
  | Some b => let '(rc, words) := alone (set_atomic_accesses i) (mask b) in (rc, Some (Bitmap words))
  end.

(** The inner loop of [nrm_bitmap_nset] over the bits of a word. *)
Fixpoint nset_word (n : nat) (b : Z) (nset : Z) : Z :=
  match n with
  | O => nset
  | S n' => nset_word n' (Z.shiftr b 1) (nset + (if Z.land b 1 =? 0 then 0 else 1))
  end.

Definition nrm_bitmap_nset (bitmap : option nrm_bitmap) : Z :=
  match bitmap with
  | None => -1
  | Some b =>
      foldl (fun nset n => nset_word (Z.to_nat NRM_BITMAP_NBITS) (mask b !!! n) nset) 0
            (seq 0 (Z.to_nat NRM_BITMAP_SIZE))
  end.

Definition nrm_bitmap_copy (dest src : nrm_bitmap) : Z * nrm_bitmap :=
  (0, Bitmap (mask src)).

(** The bytes of a word in memory, least significant first. *)
Fixpoint word_bytes (n : nat) (w : Z) : list Z :=
  match n with O => [] | S n' => w mod 256 :: word_bytes n' (w / 256) end.
Definition mask_bytes (b : nrm_bitmap) : list Z := mask b ≫= word_bytes 8.

(** [memcmp] up to the sign of its result, which is all the code looks at. *)
Fixpoint memcmp (a b : list Z) : Z :=
  match a, b with
  | x :: a', y :: b' => if x <? y then -1 else if y <? x then 1 else memcmp a' b'
  | _, _ => 0
  end.

Definition nrm_bitmap_cmp (one two : nrm_bitmap) : Z :=
  memcmp (mask_bytes one) (mask_bytes two).

Definition nrm_bitmap_reset (bitmap : nrm_bitmap) : Z * nrm_bitmap := (0, bitmap_zero).

(** [calloc(n, size)]: NULL on overflow or when memory is short. *)
Definition calloc_ok (oom : bool) (n size : Z) : bool := negb oom && (n * size <? 2 ^ 64).

(** The loop of [nrm_bitmap_to_array]; [fuel] counts the iterations left before
    [i] reaches [NRM_BITMAP_MAX]. *)
Fixpoint to_array_loop (fuel : nat) (map : option nrm_bitmap) (size i set : Z)
    (items : list Z) : list Z :=
  match fuel with
  | O => items
  | S f =>
      if set <? size then
        if nrm_bitmap_isset map i =? 0
        then to_array_loop f map size (i + 1) set items
        else to_array_loop f map size (i + 1) (set + 1) (<[Z.to_nat set := i]> items)
      else items
  end.

(** The result is the return code, [*nitems] and [*items]. *)
Definition nrm_bitmap_to_array (oom : bool) (map : option nrm_bitmap)
    : Z * Z * option (list Z) :=
  let size := u64 (nrm_bitmap_nset map) in
  if calloc_ok oom size 4 then
    (0, size, Some (to_array_loop (Z.to_nat NRM_BITMAP_MAX) map size 0 0
                      (replicate (Z.to_nat size) 0)))
  else (- NRM_ENOMEM, size, None).

(** [for (i < nitems) nrm_bitmap_set(map, items[i])]. *)
Definition set_items (map : option nrm_bitmap) (items : list Z) : option nrm_bitmap :=
  foldl (fun m it => snd (nrm_bitmap_set m it)) map items.

Definition nrm_bitmap_from_array (map : nrm_bitmap) (items : list Z)
    : Z * option nrm_bitmap :=
  let '(_, m) := nrm_bitmap_reset map in (0, set_items (Some m) items).

(** ** Conversion to a string *)

(** [log10f(i) >= r] for [i < 2048]: [log10f(0)] is minus infinity, and the
    powers of ten below 2048 have exact logarithms. *)
Definition log10f_ge (i r : Z) : bool := (1 <=? i) && (10 ^ (Z.min r 20) <=? i).

(** Writing characters into a buffer at an offset. *)
Definition write_at (off : nat) (cs : list ascii) (buf : list ascii) : outcome (list ascii) :=
  if (off + length cs <=? length buf)%nat
  then Ok (take off buf ++ cs ++ drop (off + length cs) buf) else Undefined.

(** [snprintf(buf + off, n, ...)] of the text [cs]: the buffer and the length the
    text needs. *)
Definition snprintf (buf : list ascii) (off : nat) (n : Z) (cs : list ascii)
    : outcome (list ascii * Z) :=
  if n =? 0 then Ok (buf, Z.of_nat (length cs))
  else let k := Z.min (n - 1) (Z.of_nat (length cs)) in
       buf' ← write_at off (take (Z.to_nat k) cs ++ [zero]) buf;
       Ok (buf', Z.of_nat (length cs)).

(** The C string at the start of a buffer. *)
Fixpoint cstring (buf : list ascii) : list ascii :=
  match buf with
  | c :: buf' => if decide (c = zero) then [] else c :: cstring buf'
  | [] => []
  end.

(** The loop of [nrm_bitmap_to_string]. After [realloc] the code goes on writing
    through [cur], which points into the freed block. *)
Fixpoint to_string_loop (fuel : nat) (bitmap : option nrm_bitmap) (nbits i printed : Z)
    (bufsize size : Z) (buf : list ascii) : outcome (list ascii) :=
  match fuel with
  | O => Ok buf
  | S f =>
      if printed <? nbits then
        if nrm_bitmap_isset bitmap i =? 0
        then to_string_loop f bitmap nbits (i + 1) printed bufsize size buf
        else if log10f_ge i (u64 (bufsize - size)) then Undefined
        else
          let text := if printed =? 0 then dec i else ","%char :: dec i in
          '(buf', used) ← snprintf buf (Z.to_nat (size - 1)) (u64 (bufsize - size)) text;
          to_string_loop f bitmap nbits (i + 1) (printed + 1) bufsize (size + used) buf'
      else Ok buf
  end.

(** The result is NULL or the string in the buffer; [oom] says that [calloc]
    finds no memory. *)
Definition nrm_bitmap_to_string (oom : bool) (bitmap : option nrm_bitmap)
    : outcome (option (list ascii)) :=
  match bitmap with
  | None => Ok None
  | Some b =>
      let bufsize := 256 in
      _ ← c_assert (negb oom);
      buf ← to_string_loop (Z.to_nat NRM_BITMAP_MAX) bitmap
              (u64 (nrm_bitmap_nset bitmap)) 0 0 bufsize 1
              (replicate (Z.to_nat bufsize) zero);
      Ok (Some (cstring buf))
  end.

(** ** The set of indices a bitmap stands for *)

(** Well-formed: 32 words, each of 64 bits. *)
Definition bitmap_wf (b : nrm_bitmap) : Prop :=
  length (mask b) = Z.to_nat NRM_BITMAP_SIZE /\ Forall in_u64 (mask b).

#[export] Instance bitmap_wf_dec b : Decision (bitmap_wf b).
Proof. unfold bitmap_wf, in_u64. apply _. Defined.

(** The bit of index [i]. *)
Definition bit (b : nrm_bitmap) (i : Z) : bool :=
  Z.testbit (mask b !!! Z.to_nat (i / 64)) (i mod 64).

(** The indices of the bits that are one, in increasing order. *)
Definition bitmap_bits (b : nrm_bitmap) : list Z :=
  filter (fun i => bit b i = true) (seqZ 0 NRM_BITMAP_MAX).

(** ** One bit *)

Lemma land_bit_test w k :
  0 <= k -> negb (Z.land w (Z.shiftl 1 k) =? 0) = Z.testbit w k.
Proof.
  intros Hk. rewrite Z.shiftl_1_l.
  destruct (Z.testbit w k) eqn:E.
  - destruct (Z.eqb_spec (Z.land w (2 ^ k)) 0) as [H|H]; [|done].
    assert (Z.testbit (Z.land w (2 ^ k)) k = true) as Hb
      by (by rewrite Z.land_spec, E, Z.pow2_bits_true).
    by rewrite H, Z.bits_0 in Hb.
  - replace (Z.land w (2 ^ k)) with 0; [done|].
    apply Z.bits_inj'. intros n Hn. rewrite Z.bits_0, Z.land_spec.
    rewrite Z.pow2_bits_eqb by done. destruct (Z.eqb_spec k n); [subst; by rewrite E|].
    by rewrite andb_false_r.
Qed.

Lemma isset_bit b i :
  0 <= i < NRM_BITMAP_MAX -> nrm_bitmap_isset (Some b) i = c_bool (bit b i).
Proof.
  unfold NRM_BITMAP_MAX. intros Hi. unfold nrm_bitmap_isset, NRM_BITMAP_MAX.
  rewrite u32_small by (unfold in_u32; lia).
  rewrite Z.geb_leb. destruct (Z.leb_spec 2048 i); [lia|].
  unfold bit, NRM_BITMAP_NTH, NRM_BITMAP_ITH, NRM_BITMAP_NBITS, sizeof_ulong.
  rewrite land_bit_test by zlia. done.
Qed.

Lemma isset_zero_bit b i :
  0 <= i < NRM_BITMAP_MAX -> (nrm_bitmap_isset (Some b) i =? 0) = negb (bit b i).
Proof. intros Hi. rewrite isset_bit by done. by destruct (bit b i). Qed.

Lemma word_index_lt i : 0 <= i < NRM_BITMAP_MAX -> (Z.to_nat (i / 64) < 32)%nat.
Proof. unfold NRM_BITMAP_MAX. intros. zlia. Qed.

Lemma bit_or_bit b i j :
  bitmap_wf b -> 0 <= i < NRM_BITMAP_MAX -> 0 <= j < NRM_BITMAP_MAX ->
  bit (or_bit b i) j = bit b j || (i =? j).
Proof.
  intros [Hl _] Hi Hj. pose proof (word_index_lt i Hi).
  unfold bit, or_bit, NRM_BITMAP_NTH, NRM_BITMAP_ITH, NRM_BITMAP_NBITS, sizeof_ulong.
  change (8 * 8) with 64. cbn [mask].
  change (Z.to_nat NRM_BITMAP_SIZE) with 32%nat in Hl.
  destruct (decide (Z.to_nat (i / 64) = Z.to_nat (j / 64))) as [Heq|Hne].
  - rewrite Heq, list_lookup_total_insert_eq by (rewrite Hl; lia).
    rewrite Z.lor_spec, Z.shiftl_1_l, Z.pow2_bits_eqb by zlia. f_equal.
    unfold NRM_BITMAP_MAX in *.
    destruct (Z.eqb_spec (i mod 64) (j mod 64)), (Z.eqb_spec i j); zlia || done.
  - rewrite list_lookup_total_insert_ne by done.
    destruct (Z.eqb_spec i j) as [->|]; [done|]. by rewrite orb_false_r.
Qed.

Lemma lor_u64 w k : in_u64 w -> 0 <= k < 64 -> in_u64 (Z.lor w (Z.shiftl 1 k)).
Proof.
  unfold in_u64. intros Hw Hk. rewrite Z.shiftl_1_l.
  split; [apply Z.lor_nonneg; split; [lia|apply Z.pow_nonneg; lia]|].
  destruct (Z.eq_dec w 0) as [->|Hw0].
  { rewrite Z.lor_0_l. apply Z.pow_lt_mono_r; lia. }
  apply Z.log2_lt_pow2.
  - enough (0 <= Z.lor w (2 ^ k) /\ Z.lor w (2 ^ k) <> 0) by lia.
    split; [apply Z.lor_nonneg; split; [lia|apply Z.pow_nonneg; lia]|].
    intros H. apply Z.lor_eq_0_iff in H. lia.
  - rewrite Z.log2_lor by (try apply Z.pow_nonneg; lia).
    rewrite Z.log2_pow2 by lia. apply Z.max_lub_lt; [|lia].
    apply Z.log2_lt_pow2; lia.
Qed.

Lemma wf_lookup b n : bitmap_wf b -> in_u64 (mask b !!! n).
Proof.
  intros [_ Hf]. rewrite list_lookup_total_alt.
  destruct (mask b !! n) as [w|] eqn:E; simpl.
  - by eapply Forall_lookup_1.
  - unfold in_u64. simpl. lia.
Qed.

Lemma or_bit_wf b i : bitmap_wf b -> bitmap_wf (or_bit b i).
Proof.
  intros Hwf. pose proof (wf_lookup b (Z.to_nat (NRM_BITMAP_NTH i)) Hwf).
  destruct Hwf as [Hl Hf]. split; cbn [mask or_bit].
  - by rewrite length_insert.
  - apply Forall_insert; [done|]. apply lor_u64; [done|].
    unfold NRM_BITMAP_ITH. apply Z.mod_pos_bound. done.
Qed.

Lemma bitmap_zero_wf : bitmap_wf bitmap_zero.
Proof. by apply (bool_decide_unpack _). Qed.

Lemma bit_zero i : 0 <= i < NRM_BITMAP_MAX -> bit bitmap_zero i = false.
Proof.
  intros Hi. pose proof (word_index_lt i Hi).
  unfold bit, bitmap_zero. cbn [mask].
  rewrite lookup_total_replicate_2 by (change (Z.to_nat NRM_BITMAP_SIZE) with 32%nat; lia).
  apply Z.bits_0.
Qed.

#[export] Hint Resolve or_bit_wf bitmap_zero_wf : nrm.

(** Two well-formed bitmaps with the same bits are equal. *)
Lemma bitmap_ext b1 b2 :
  bitmap_wf b1 -> bitmap_wf b2 ->
  (forall i, 0 <= i < NRM_BITMAP_MAX -> bit b1 i = bit b2 i) -> b1 = b2.
Proof.
  intros H1 H2 Hbit. destruct b1 as [m1], b2 as [m2]. f_equal.
  pose proof (proj1 H1) as Hl1. pose proof (proj1 H2) as Hl2.
  cbn [mask] in *. change (Z.to_nat NRM_BITMAP_SIZE) with 32%nat in *.
  apply (list_eq_same_length _ _ 32); [done..|]. intros n x y Hn Hx Hy.
  apply Z.bits_inj'. intros k Hk.
  pose proof (wf_lookup _ n H1) as W1. pose proof (wf_lookup _ n H2) as W2. cbn [mask] in W1, W2.
  rewrite (list_lookup_total_correct _ _ _ Hx) in W1.
  rewrite (list_lookup_total_correct _ _ _ Hy) in W2.
  destruct (decide (k < 64)) as [Hk64|Hk64].
  - specialize (Hbit (64 * Z.of_nat n + k)). unfold bit in Hbit. cbn [mask] in Hbit.
    replace ((64 * Z.of_nat n + k) / 64) with (Z.of_nat n) in Hbit by zlia.
    replace ((64 * Z.of_nat n + k) mod 64) with k in Hbit by zlia.
    rewrite Nat2Z.id in Hbit.
    rewrite (list_lookup_total_correct _ _ _ Hx), (list_lookup_total_correct _ _ _ Hy) in Hbit.
    apply Hbit. unfold NRM_BITMAP_MAX. lia.
  - unfold in_u64 in *.
    rewrite !Z.bits_above_log2; try done; try lia.
    + destruct (Z.eq_dec y 0) as [->|]; [simpl; lia|].
      pose proof (proj1 (Z.log2_lt_pow2 y 64 ltac:(lia)) ltac:(lia)). lia.
    + destruct (Z.eq_dec x 0) as [->|]; [simpl; lia|].
      pose proof (proj1 (Z.log2_lt_pow2 x 64 ltac:(lia)) ltac:(lia)). lia.
Qed.

(** ** Counting *)

(** The indices below [n] of the bits of a word. *)
Definition word_bits (w : Z) (n : Z) : list Z :=
  filter (fun k => Z.testbit w k = true) (seqZ 0 n).

Lemma filter_fmap_add (P : Z -> Prop) `{forall x, Decision (P x)} a n :
  filter P (seqZ a n) = Z.add a <$> filter (fun i => P (a + i)) (seqZ 0 n).
Proof. rewrite <- (filter_fmap_list (Z.add a) P), fmap_add_seqZ. by rewrite Z.add_0_r. Qed.

Lemma nset_word_count n w acc :
  nset_word n w acc = acc + Z.of_nat (length (word_bits w (Z.of_nat n))).
Proof.
  revert w acc; induction n as [|n IH]; intros w acc; [simpl; lia|].
  cbn [nset_word]. rewrite IH. unfold word_bits.
  replace (Z.of_nat (S n)) with (1 + Z.of_nat n) by lia.
  rewrite (seqZ_app 0 1 (Z.of_nat n)), filter_app, length_app by lia.
  rewrite (filter_fmap_add _ (0 + 1)), length_fmap.
  change (seqZ 0 1) with [0]. rewrite filter_cons, filter_nil.
  assert ((Z.land w 1 =? 0) = negb (Z.testbit w 0)) as ->.
  { pose proof (land_bit_test w 0 ltac:(lia)) as H. change (Z.shiftl 1 0) with 1 in H.
    rewrite <- H. by rewrite negb_involutive. }
  assert (filter (fun i => Z.testbit w (0 + 1 + i) = true) (seqZ 0 (Z.of_nat n))
          = filter (fun k => Z.testbit (Z.shiftr w 1) k = true) (seqZ 0 (Z.of_nat n))) as ->.
  { apply filter_ext_elem. intros k Hk%elem_of_seqZ.
    rewrite Z.shiftr_spec by lia. by rewrite Z.add_comm. }
  destruct (Z.testbit w 0); simpl; lia.
Qed.

Lemma bits_of_words b m :
  filter (fun i => bit b i = true) (seqZ 0 (64 * Z.of_nat m + 64))
  = filter (fun i => bit b i = true) (seqZ 0 (64 * Z.of_nat m))
    ++ (Z.add (64 * Z.of_nat m) <$> word_bits (mask b !!! m) 64).
Proof.
  rewrite seqZ_app, filter_app by lia. f_equal.
  rewrite Z.add_0_l, (filter_fmap_add _ (64 * Z.of_nat m)). f_equal.
  apply filter_ext_elem. intros k Hk%elem_of_seqZ.
  unfold bit. replace ((64 * Z.of_nat m + k) / 64) with (Z.of_nat m) by zlia.
  replace ((64 * Z.of_nat m + k) mod 64) with k by zlia. by rewrite Nat2Z.id.
Qed.

Lemma nset_words b m :
  foldl (fun nset n => nset_word 64 (mask b !!! n) nset) 0 (seq 0 m)
  = Z.of_nat (length (filter (fun i => bit b i = true) (seqZ 0 (64 * Z.of_nat m)))).
Proof.
  induction m as [|m IH]; [done|].
  rewrite seq_S, foldl_app, IH. cbn [foldl].
  rewrite nset_word_count. change (Z.of_nat 64) with 64. rewrite Nat.add_0_l.
  replace (64 * Z.of_nat (S m)) with (64 * Z.of_nat m + 64) by lia.
  rewrite bits_of_words, length_app, length_fmap. lia.
Qed.

Lemma nset_bits b : nrm_bitmap_nset (Some b) = Z.of_nat (length (bitmap_bits b)).
Proof. apply (nset_words b 32). Qed.

Lemma bits_length_le b : (length (bitmap_bits b) <= 2048)%nat.
Proof.
  unfold bitmap_bits. etransitivity; [apply length_filter|].
  rewrite length_seqZ. done.
Qed.

Lemma nset_u64 b : u64 (nrm_bitmap_nset (Some b)) = Z.of_nat (length (bitmap_bits b)).
Proof.
  rewrite nset_bits. apply u64_small. pose proof (bits_length_le b). unfold in_u64. lia.
Qed.

Lemma elem_of_bits b i :
  i ∈ bitmap_bits b <-> 0 <= i < NRM_BITMAP_MAX /\ bit b i = true.
Proof.
  unfold bitmap_bits. rewrite list_elem_of_filter, elem_of_seqZ. rewrite Z.add_0_l. tauto.
Qed.

(** ** Arrays *)

(** The bits from index [i] on. *)
Definition bits_from (b : nrm_bitmap) (i : Z) : list Z :=
  filter (fun i => bit b i = true) (seqZ i (NRM_BITMAP_MAX - i)).

Lemma bits_from_step b i :
  0 <= i < NRM_BITMAP_MAX ->
  bits_from b i = (if bit b i then [i] else []) ++ bits_from b (i + 1).
Proof.
  intros Hi. unfold bits_from. rewrite seqZ_cons by lia. rewrite filter_cons.
  replace (Z.pred (NRM_BITMAP_MAX - i)) with (NRM_BITMAP_MAX - (i + 1)) by lia.
  replace (Z.succ i) with (i + 1) by lia. by destruct (bit b i).
Qed.

Lemma bits_from_end b : bits_from b NRM_BITMAP_MAX = [].
Proof. done. Qed.

Lemma to_array_loop_bits b fuel i pre :
  0 <= i -> i + Z.of_nat fuel = NRM_BITMAP_MAX ->
  to_array_loop fuel (Some b) (Z.of_nat (length (pre ++ bits_from b i))) i
    (Z.of_nat (length pre)) (pre ++ replicate (length (bits_from b i)) 0)
  = pre ++ bits_from b i.
Proof.
  revert i pre; induction fuel as [|f IH]; intros i pre Hi Hfuel; cbn [to_array_loop].
  { replace i with NRM_BITMAP_MAX by lia. by rewrite bits_from_end. }
  rewrite length_app, Nat2Z.inj_add.
  destruct (Z.ltb_spec (Z.of_nat (length pre))
              (Z.of_nat (length pre) + Z.of_nat (length (bits_from b i)))) as [Hlt|Hge];
    [|by rewrite (nil_length_inv (bits_from b i)) by lia].
  rewrite isset_zero_bit by lia. rewrite bits_from_step by lia.
  rewrite bits_from_step in Hlt by lia.
  destruct (bit b i); cbn [negb app length] in *.
  - rewrite Nat2Z.id. rewrite insert_app_r_alt, Nat.sub_diag by lia. cbn [replicate insert list_insert].
    specialize (IH (i + 1) (pre ++ [i])). rewrite <- !app_assoc, !length_app in IH. cbn [app length] in IH.
    rewrite <- IH by lia. f_equal; lia.
  - specialize (IH (i + 1) pre). rewrite length_app, Nat2Z.inj_add in IH. apply IH; lia.
Qed.

Lemma to_array_bits oom b :
  nrm_bitmap_to_array oom (Some b) =
  if oom then (- NRM_ENOMEM, Z.of_nat (length (bitmap_bits b)), None)
  else (0, Z.of_nat (length (bitmap_bits b)), Some (bitmap_bits b)).
Proof.
  unfold nrm_bitmap_to_array. rewrite nset_u64. unfold calloc_ok.
  destruct oom; [done|]. pose proof (bits_length_le b).
  destruct (Z.ltb_spec (Z.of_nat (length (bitmap_bits b)) * 4) (2 ^ 64)); [|lia].
  cbn [negb andb]. rewrite Nat2Z.id. do 2 f_equal.
  apply (to_array_loop_bits b (Z.to_nat NRM_BITMAP_MAX) 0 []); [lia|done].
Qed.

Lemma set_bit b i :
  snd (nrm_bitmap_set (Some b) i) =
  Some (if u32 i <? NRM_BITMAP_MAX then or_bit b (u32 i) else b).
Proof.
  unfold nrm_bitmap_set. rewrite Z.geb_leb, Z.leb_antisym.
  by destruct (u32 i <? NRM_BITMAP_MAX).
Qed.

Lemma set_items_bits b items :
  bitmap_wf b ->
  exists b', set_items (Some b) items = Some b' /\ bitmap_wf b' /\
    forall j, 0 <= j < NRM_BITMAP_MAX ->
      bit b' j = bit b j || bool_decide (j ∈ u32 <$> items).
Proof.
  revert b; induction items as [|i items IH]; intros b Hwf.
  { exists b. split_and!; [done..|]. intros j _. by rewrite orb_false_r. }
  unfold set_items. cbn [foldl]. rewrite set_bit.
  pose proof (u32_range i) as Hr. unfold in_u32 in Hr.
  destruct (Z.ltb_spec (u32 i) NRM_BITMAP_MAX) as [Hi|Hi].
  - destruct (IH (or_bit b (u32 i))) as (b' & E & Hwf' & Hb'); [auto with nrm|].
    exists b'. split_and!; [done..|]. intros j Hj. rewrite Hb', bit_or_bit by (done || lia).
    rewrite fmap_cons, <- orb_assoc. f_equal.
    destruct (Z.eqb_spec (u32 i) j) as [->|Hne]; simpl.
    + symmetry. apply bool_decide_eq_true. left.
    + apply bool_decide_ext. rewrite elem_of_cons. split; [by right|by intros [->|]].
  - destruct (IH b Hwf) as (b' & E & Hwf' & Hb').
    exists b'. split_and!; [done..|]. intros j Hj. rewrite Hb' by done. f_equal.
    apply bool_decide_ext. rewrite fmap_cons, elem_of_cons. split; [by right|].
    intros [->|]; [lia|done].
Qed.

(** ** Comparison *)

Lemma memcmp_zero a b : length a = length b -> memcmp a b = 0 <-> a = b.
Proof.
  revert b; induction a as [|x a IH]; intros [|y b] Hlen; simplify_eq/=; [done|].
  destruct (Z.ltb_spec x y), (Z.ltb_spec y x).
  - lia.
  - split; [done|]. intros [= ? ?]. lia.
  - split; [done|]. intros [= ? ?]. lia.
  - assert (x = y) as -> by lia. rewrite IH by done. split; congruence.
Qed.

Lemma word_bytes_length n w : length (word_bytes n w) = n.
Proof. revert w; induction n; simpl; auto. Qed.

Lemma word_bytes_inj n w1 w2 :
  0 <= w1 < 256 ^ Z.of_nat n -> 0 <= w2 < 256 ^ Z.of_nat n ->
  word_bytes n w1 = word_bytes n w2 -> w1 = w2.
Proof.
  revert w1 w2; induction n as [|n IH]; intros w1 w2 H1 H2 Heq.
  { change (256 ^ Z.of_nat 0) with 1 in *. lia. }
  cbn [word_bytes] in Heq. injection Heq as Hm Hd.
  replace (256 ^ Z.of_nat (S n)) with (256 * 256 ^ Z.of_nat n) in *
    by (rewrite Nat2Z.inj_succ, Z.pow_succ_r; lia).
  assert (w1 / 256 = w2 / 256); [|zlia].
  apply IH; [split; [zlia|apply Z.div_lt_upper_bound; lia]..|done].
Qed.

Lemma bytes_of_words_inj m1 m2 :
  Forall in_u64 m1 -> Forall in_u64 m2 -> length m1 = length m2 ->
  m1 ≫= word_bytes 8 = m2 ≫= word_bytes 8 -> m1 = m2.
Proof.
  intros H1. revert m2. induction H1 as [|x m1 Hx _ IH]; intros [|y m2] H2 Hlen Heq;
    [done..|]. injection Hlen as Hlen.
  apply Forall_cons in H2 as [Hy H2].
  change (word_bytes 8 x ++ (m1 ≫= word_bytes 8) = word_bytes 8 y ++ (m2 ≫= word_bytes 8)) in Heq.
  apply app_inj_1 in Heq as [He Hr]; [|by rewrite !word_bytes_length].
  f_equal; [|by apply IH]. unfold in_u64 in *. by apply (word_bytes_inj 8).
Qed.

Lemma mask_bytes_length b : length (mask_bytes b) = (8 * length (mask b))%nat.
Proof.
  unfold mask_bytes. induction (mask b) as [|w m IH]; [done|].
  change (length (word_bytes 8 w ++ (m ≫= word_bytes 8)) = (8 * S (length m))%nat).
  rewrite length_app, word_bytes_length, IH. lia.
Qed.

Lemma cmp_zero b1 b2 :
  bitmap_wf b1 -> bitmap_wf b2 -> nrm_bitmap_cmp b1 b2 = 0 <-> b1 = b2.
Proof.
  intros [Hl1 Hf1] [Hl2 Hf2]. unfold nrm_bitmap_cmp.
  rewrite memcmp_zero by (rewrite !mask_bytes_length; lia).
  split; [|by intros ->]. intros Heq. destruct b1, b2. f_equal.
  apply bytes_of_words_inj; [done|done| |done].
  cbn [mask] in *. by rewrite Hl1, Hl2.
Qed.

(** ** Strings *)

(** The indices separated by commas. *)
Definition render (l : list Z) : list ascii :=
  match l with
  | [] => []
  | i :: l' => dec i ++ (l' ≫= fun j => ","%char :: dec j)
  end.

Lemma render_snoc l i :
  render (l ++ [i]) = render l ++ (if decide (l = []) then dec i else ","%char :: dec i).
Proof.
  destruct l as [|j l]; [simpl; by rewrite app_nil_r|].
  rewrite decide_False by done. cbn [app render]. rewrite bind_app. cbn [mbind list_bind].
  by rewrite app_nil_r, app_assoc.
Qed.

Lemma write_at_text text cs n :
  (length cs <= n)%nat ->
  write_at (length text) (cs ++ [zero]) (text ++ replicate (S n) zero)
  = Ok ((text ++ cs) ++ replicate (S (n - length cs)) zero).
Proof.
  intros Hn. unfold write_at. rewrite !length_app, length_replicate. cbn [length].
  destruct (Nat.leb_spec (length text + (length cs + 1)) (length text + S n)); [|lia].
  f_equal. rewrite take_app_length. rewrite <- !app_assoc. f_equal. f_equal.
  rewrite drop_app_ge, drop_replicate by lia. cbn [replicate app]. do 2 f_equal. lia.
Qed.

Lemma snprintf_text text cs n :
  (length cs < n)%nat ->
  snprintf (text ++ replicate (S n) zero) (length text) (Z.of_nat n) cs
  = Ok ((text ++ cs) ++ replicate (S (n - length cs)) zero, Z.of_nat (length cs)).
Proof.
  intros Hn. unfold snprintf. destruct (Z.eqb_spec (Z.of_nat n) 0); [lia|].
  rewrite Z.min_r by lia. rewrite Nat2Z.id, take_ge by lia.
  by rewrite write_at_text by lia.
Qed.


(** An index below 2048 is below ten to the number of its digits. *)
Lemma dec_length_bound i :
  0 <= i < NRM_BITMAP_MAX -> (1 <= length (dec i))%nat /\ i < 10 ^ Z.of_nat (length (dec i)).
Proof.
  intros Hi.
  assert (Hall : forallb (fun i => (1 <=? length (dec i))%nat
                          && (i <? 10 ^ Z.of_nat (length (dec i)))) (seqZ 0 NRM_BITMAP_MAX) = true)
    by (vm_compute; reflexivity).
  rewrite forallb_forall in Hall. specialize (Hall i).
  rewrite andb_true_iff, Nat.leb_le, Z.ltb_lt in Hall. apply Hall.
  apply list_elem_of_In, elem_of_seqZ. lia.
Qed.

(** The buffer is not found short while the text that is left fits. *)
Lemma log10f_ge_false i r :
  0 <= i < NRM_BITMAP_MAX -> Z.of_nat (length (dec i)) < r -> log10f_ge i r = false.
Proof.
  intros Hi Hr. unfold log10f_ge. apply andb_false_iff. right. apply Z.leb_gt.
  destruct (dec_length_bound i Hi) as [H1 H2].
  assert (Hcap : i < 10 ^ 20) by (unfold NRM_BITMAP_MAX in Hi; lia).
  destruct (Z.min_spec r 20) as [[_ ->]|[_ ->]]; [|done].
  eapply Z.lt_le_trans; [exact H2|]. apply Z.pow_le_mono_r; lia.
Qed.

Lemma render_app_length l1 l2 : (length (render l1) <= length (render (l1 ++ l2)))%nat.
Proof.
  revert l1; induction l2 as [|x l2 IH]; intros l1; [by rewrite app_nil_r|].
  specialize (IH (l1 ++ [x])). rewrite <- app_assoc in IH. etransitivity; [|exact IH].
  rewrite render_snoc, length_app. lia.
Qed.

Lemma to_string_loop_render b fuel i pre :
  0 <= i -> i + Z.of_nat fuel = NRM_BITMAP_MAX ->
  (length (render (pre ++ bits_from b i)) <= 254)%nat ->
  to_string_loop fuel (Some b) (Z.of_nat (length (pre ++ bits_from b i))) i
    (Z.of_nat (length pre)) 256 (1 + Z.of_nat (length (render pre)))
    (render pre ++ replicate (256 - length (render pre)) zero)
  = Ok (render (pre ++ bits_from b i)
        ++ replicate (256 - length (render (pre ++ bits_from b i))) zero).
Proof.
  revert i pre; induction fuel as [|f IH]; intros i pre Hi Hfuel Hlen; cbn [to_string_loop].
  { replace i with NRM_BITMAP_MAX by lia. by rewrite bits_from_end, app_nil_r. }
  rewrite length_app, Nat2Z.inj_add.
  destruct (Z.ltb_spec (Z.of_nat (length pre))
              (Z.of_nat (length pre) + Z.of_nat (length (bits_from b i)))) as [Hlt|Hge];
    [|by rewrite (nil_length_inv (bits_from b i)), app_nil_r by lia].
  rewrite isset_zero_bit by lia.
  pose proof (IH (i + 1) (pre ++ [i])) as IH1. pose proof (IH (i + 1) pre) as IH0.
  rewrite bits_from_step in * by lia.
  destruct (bit b i); cbn [negb app] in *; [|rewrite length_app, Nat2Z.inj_add in IH0; apply IH0; lia].
  clear IH IH0 Hlt. rewrite <- app_assoc in IH1. cbn [app] in IH1.
  pose proof (render_app_length (pre ++ [i]) (bits_from b (i + 1))) as Hpre.
  rewrite <- app_assoc in Hpre. cbn [app] in Hpre. rewrite render_snoc in Hpre, IH1.
  replace (if Z.of_nat (length pre) =? 0 then dec i else ","%char :: dec i)
    with (if decide (pre = []) then dec i else ","%char :: dec i)
    by (destruct pre; [done|by rewrite decide_False by done]).
  set (cs := if decide (pre = []) then dec i else ","%char :: dec i) in *.
  assert (Hcs : (length (dec i) <= length cs)%nat) by (subst cs; case_decide; cbn [length]; lia).
  rewrite length_app in Hpre. rewrite u64_small by (unfold in_u64; lia).
  rewrite log10f_ge_false by lia.
  replace (256 - (1 + Z.of_nat (length (render pre)))) with
    (Z.of_nat (255 - length (render pre))) by lia.
  replace (Z.to_nat (1 + Z.of_nat (length (render pre)) - 1)) with (length (render pre)) by lia.
  replace (256 - length (render pre))%nat with (S (255 - length (render pre))) by lia.
  rewrite snprintf_text by lia. cbn [mbind outcome_bind].
  rewrite <- IH1 by lia. rewrite !length_app. cbn [length]. f_equal; [lia..|].
  f_equal. f_equal. lia.
Qed.

Lemma bits_from_0 b : bits_from b 0 = bitmap_bits b.
Proof. unfold bits_from, bitmap_bits. by rewrite Z.sub_0_r. Qed.

Lemma to_string_loop_start b fuel :
  Z.of_nat fuel = NRM_BITMAP_MAX -> (length (render (bitmap_bits b)) <= 254)%nat ->
  to_string_loop fuel (Some b) (Z.of_nat (length (bitmap_bits b))) 0 0 256 1
    (replicate (Z.to_nat 256) zero)
  = Ok (render (bitmap_bits b) ++ replicate (256 - length (render (bitmap_bits b))) zero).
Proof.
  intros Hf Hlen. rewrite <- bits_from_0 in *.
  apply (to_string_loop_render b fuel 0 []); [lia|lia|exact Hlen].
Qed.

Lemma cstring_text text n :
  Forall (fun c => c <> zero) text -> cstring (text ++ replicate (S n) zero) = text.
Proof.
  induction 1 as [|c text Hc _ IH]; [done|]. cbn [app cstring].
  rewrite decide_False by done. by rewrite IH.
Qed.

Lemma dec_not_zero i : 0 <= i -> Forall (fun c => c <> zero) (dec i).
Proof.
  intros Hi. unfold dec. destruct (Z.ltb_spec i 0); [lia|].
  eapply Forall_impl; [by apply dec_digits_digits|]. by intros c [d Hd] ->.
Qed.

Lemma render_not_zero l : Forall (fun i => 0 <= i) l -> Forall (fun c => c <> zero) (render l).
Proof.
  intros Hl. induction l as [|i l IH] using rev_ind; [constructor|].
  apply Forall_app in Hl as [Hl Hi]. apply Forall_cons in Hi as [Hi _].
  rewrite render_snoc. apply Forall_app. split; [by apply IH|].
  case_decide; [apply dec_not_zero, Hi|].
  apply Forall_cons; split; [done|]. apply dec_not_zero, Hi.
Qed.

Lemma bits_nonneg b : Forall (fun i => 0 <= i) (bitmap_bits b).
Proof. apply Forall_forall. intros i [Hi _]%elem_of_bits. lia. Qed.

(** ** Threads that set bits of a shared bitmap

    Each thread is in the middle of a function; one at a time does its next access. *)

Record set_conf := Conf { words : list Z; threads : list access }.

Inductive thread_step : set_conf -> set_conf -> Prop :=
| one_access m m' ts t c c' :
    ts !! t = Some c -> access_step c m = Some (c', m') ->
    thread_step (Conf m ts) (Conf m' (<[t := c']> ts)).

(** Alone, the plain function is [nrm_bitmap_set]. *)
Lemma set_alone b i :
  nrm_bitmap_set (Some b) i = (let '(rc, words) := alone (set_accesses i) (mask b) in (rc, Some (Bitmap words))).
Proof. unfold nrm_bitmap_set, set_accesses. destruct b as [m]. by destruct (_ >=? _). Qed.

(** And the atomic one does the same. *)
Lemma set_atomic_alone b i : nrm_bitmap_set_atomic (Some b) i = nrm_bitmap_set (Some b) i.
Proof. unfold nrm_bitmap_set_atomic, nrm_bitmap_set, set_atomic_accesses. destruct b as [m]. by destruct (_ >=? _). Qed.

(** What [nrm_bitmap_set_atomic] returns. *)
Definition set_result (i : Z) : Z := if u32 i >=? NRM_BITMAP_MAX then -1 else 0.

(** A thread has not started, or is done; the bits are those of the start and those of
    the threads that are done. *)
Definition set_inv (b0 : nrm_bitmap) (idxs : list Z) (c : set_conf) : Prop :=
  bitmap_wf (Bitmap (words c)) /\
  Forall2 (fun i c => c = set_atomic_accesses i \/ c = Return (set_result i)) idxs (threads c) /\
  forall j, 0 <= j < NRM_BITMAP_MAX ->
    bit (Bitmap (words c)) j = true <->
    bit b0 j = true \/ exists t i, idxs !! t = Some i /\ u32 i = j /\ threads c !! t = Some (Return 0).

Lemma set_atomic_start i : set_atomic_accesses i <> Return 0.
Proof. unfold set_atomic_accesses. by destruct (_ >=? _). Qed.

Lemma set_inv_init b0 idxs : bitmap_wf b0 -> set_inv b0 idxs (Conf (mask b0) (set_atomic_accesses <$> idxs)).
Proof.
  intros Hwf. destruct b0 as [m]. split_and!; [done| |].
  - apply Forall2_fmap_r, Forall_Forall2_diag, Forall_forall. intros i _. by left.
  - intros j _. split; [by left|]. intros [?|(t & i & _ & _ & H)]; [done|]. cbn [threads] in H.
    apply list_lookup_fmap_Some in H as (i' & H & _). symmetry in H. by apply set_atomic_start in H.
Qed.

Lemma set_inv_step b0 idxs c c' : set_inv b0 idxs c -> thread_step c c' -> set_inv b0 idxs c'.
Proof.
  intros (Hwf & Hts & Hbits) Hstep. destruct Hstep as [m m' ts t a a' Ht Ha]. cbn [words threads] in *.
  destruct (Forall2_lookup_r _ _ _ _ _ Hts Ht) as (i & Hi & [->| ->]); [|done].
  pose proof (lookup_lt_Some _ _ _ Ht) as Hlt. unfold set_atomic_accesses in Ha.
  destruct (u32 i >=? NRM_BITMAP_MAX) eqn:Hmax; [done|]. injection Ha as <- <-.
  assert (Hrange : 0 <= u32 i < NRM_BITMAP_MAX).
  { rewrite Z.geb_leb, Z.leb_gt in Hmax. split; [|done]. by apply Z.mod_pos_bound. }
  set (m' := <[_ := _]> m). change m' with (mask (or_bit (Bitmap m) (u32 i))).
  split_and!; [by apply (or_bit_wf (Bitmap m) (u32 i))| |]; cbn [threads words].
  - apply Forall2_same_length_lookup. split; [rewrite length_insert; by eapply Forall2_length|].
    intros t' i' x Hi' [(<- & <- & _)|(Hne & Hx)]%list_lookup_insert_Some.
    + right. rewrite Hi in Hi'. injection Hi' as <-. unfold set_result. by rewrite Hmax.
    + exact (Forall2_lookup_lr _ _ _ _ _ _ Hts Hi' Hx).
  - intros j Hj. change (Bitmap (mask ?b)) with b. rewrite bit_or_bit, orb_true_iff, Z.eqb_eq, Hbits by done. split.
    + intros [[?|(t' & i' & Hi' & Hu & Hret)]|<-]; [by left| |right].
      * right. exists t', i'. split_and!; [done..|]. rewrite list_lookup_insert_ne; [done|]. intros <-.
        rewrite Ht in Hret. injection Hret as Hret. by apply set_atomic_start in Hret.
      * exists t, i. split_and!; [done..|]. by apply list_lookup_insert_eq.
    + intros [?|(t' & i' & Hi' & Hu & Hret)]; [by left; left|]. destruct (decide (t = t')) as [<-|Hne].
      * right. congruence.
      * rewrite list_lookup_insert_ne in Hret by done. left. right. by exists t', i'.
Qed.

(** ** Properties *)

(** Setting a bit returns 0 and changes that bit only when the index is
    below [NRM_BITMAP_MAX]; otherwise the call returns -1 and the bitmap is
    unchanged. The representation invariant is preserved, and every index is
    read back with [nrm_bitmap_isset]. *)
Theorem bitmap_set_isset b i :
  bitmap_wf b -> in_u32 i ->
  exists b',
    nrm_bitmap_set (Some b) i = (if i <? NRM_BITMAP_MAX then 0 else -1, Some b') /\
    bitmap_wf b' /\
    forall j, in_u32 j ->
      nrm_bitmap_isset (Some b') j =
        if (j =? i) && (i <? NRM_BITMAP_MAX) then 1 else nrm_bitmap_isset (Some b) j.
Proof.
  intros Hwf Hi. unfold nrm_bitmap_set. rewrite u32_small, Z.geb_leb by done.
  destruct (Z.leb_spec NRM_BITMAP_MAX i), (Z.ltb_spec i NRM_BITMAP_MAX); try lia.
  { exists b. split_and!; [done..|]. intros j _. by rewrite andb_false_r. }
  exists (or_bit b i). split_and!; [done|auto with nrm|]. intros j Hj. rewrite andb_true_r.
  unfold in_u32 in *. destruct (Z.ltb_spec j NRM_BITMAP_MAX).
  - rewrite !isset_bit, bit_or_bit by (done || lia). rewrite (Z.eqb_sym j i).
    by destruct (i =? j), (bit b j).
  - unfold nrm_bitmap_isset. rewrite u32_small, Z.geb_leb by done.
    destruct (Z.leb_spec NRM_BITMAP_MAX j); [|lia]. destruct (Z.eqb_spec j i); [lia|done].
Qed.

Lemma bitmap_set_isset_witness :
  bitmap_wf bitmap_zero /\ in_u32 70 /\
  exists b', nrm_bitmap_set (Some bitmap_zero) 70 = (0, Some b') /\ bitmap_wf b' /\
    forall j, in_u32 j -> nrm_bitmap_isset (Some b') j =
      if (j =? 70) && true then 1 else nrm_bitmap_isset (Some bitmap_zero) j.
Proof.
  split_and!; [apply bitmap_zero_wf|unfold in_u32; lia|].
  apply (bitmap_set_isset bitmap_zero 70); [apply bitmap_zero_wf|unfold in_u32; lia].
Defined.

(** C36: [nrm_bitmap_to_array] returns the set indices in increasing order, as
    many as [nrm_bitmap_nset] counts, and [nrm_bitmap_from_array] of that array
    gives the bitmap back, whatever the bitmap held before. *)
Theorem bitmap_array_roundtrip b old :
  bitmap_wf b ->
  exists items,
    nrm_bitmap_to_array false (Some b) = (0, nrm_bitmap_nset (Some b), Some items) /\
    StronglySorted Z.lt items /\
    (forall i, i ∈ items <-> 0 <= i < NRM_BITMAP_MAX /\ nrm_bitmap_isset (Some b) i = 1) /\
    nrm_bitmap_from_array old items = (0, Some b).
Proof.
  intros Hwf. exists (bitmap_bits b). rewrite to_array_bits, nset_bits. split_and!.
  - done.
  - apply StronglySorted_filter, StronglySorted_seqZ.
  - intros i. rewrite elem_of_bits. split; intros [Hi Hb]; (split; [done|]).
    + by rewrite isset_bit, Hb.
    + rewrite isset_bit in Hb by done. by destruct (bit b i).
  - unfold nrm_bitmap_from_array, nrm_bitmap_reset.
    destruct (set_items_bits bitmap_zero (bitmap_bits b) bitmap_zero_wf) as (b' & -> & Hwf' & Hb').
    do 2 f_equal. apply bitmap_ext; [done..|]. intros i Hi. rewrite Hb', bit_zero by done.
    cbn [orb]. assert (u32 <$> bitmap_bits b = bitmap_bits b) as ->.
    { rewrite <- (list_fmap_id (bitmap_bits b)) at 2. apply list_fmap_ext.
      intros ? x Hx%list_elem_of_lookup_2. apply elem_of_bits in Hx as [Hx _].
      change (u32 x = x). apply u32_small. unfold in_u32, NRM_BITMAP_MAX in *. lia. }
    destruct (bit b i) eqn:E.
    + apply bool_decide_eq_true, elem_of_bits. done.
    + apply bool_decide_eq_false. intros [_ H]%elem_of_bits. congruence.
Qed.

Lemma bitmap_array_roundtrip_witness :
  bitmap_wf (or_bit bitmap_zero 5) /\
  exists items,
    nrm_bitmap_to_array false (Some (or_bit bitmap_zero 5))
      = (0, nrm_bitmap_nset (Some (or_bit bitmap_zero 5)), Some items) /\
    StronglySorted Z.lt items /\
    (forall i, i ∈ items <-> 0 <= i < NRM_BITMAP_MAX
                           /\ nrm_bitmap_isset (Some (or_bit bitmap_zero 5)) i = 1) /\
    nrm_bitmap_from_array bitmap_zero items = (0, Some (or_bit bitmap_zero 5)).
Proof.
  split; [auto with nrm|].
  apply (bitmap_array_roundtrip (or_bit bitmap_zero 5) bitmap_zero). auto with nrm.
Defined.

(** As long as the text of the indices fits in the 256 bytes that
    [nrm_bitmap_to_string] allocates, less the two it keeps, the result is the
    set indices in increasing order, separated by commas, with no access
    outside the buffer. *)
Theorem bitmap_to_string_render b :
  (length (render (bitmap_bits b)) <= 254)%nat ->
  nrm_bitmap_to_string false (Some b) = Ok (Some (render (bitmap_bits b))).
Proof.
  intros Hlen. unfold nrm_bitmap_to_string. rewrite nset_u64.
  assert (Hfuel : Z.of_nat (Z.to_nat NRM_BITMAP_MAX) = NRM_BITMAP_MAX) by done.
  revert Hfuel. generalize (Z.to_nat NRM_BITMAP_MAX) as fuel. intros fuel Hfuel.
  cbn [c_assert negb mbind outcome_bind].
  rewrite to_string_loop_start by done. cbn [mbind outcome_bind].
  replace (256 - length (render (bitmap_bits b)))%nat
    with (S (255 - length (render (bitmap_bits b)))) by lia.
  rewrite cstring_text; [done|]. apply render_not_zero, bits_nonneg.
Qed.

Lemma bitmap_to_string_render_witness :
  (length (render (bitmap_bits (or_bit (or_bit bitmap_zero 5) 70))) <= 254)%nat /\
  nrm_bitmap_to_string false (Some (or_bit (or_bit bitmap_zero 5) 70))
  = Ok (Some ["5"; ","; "7"; "0"]%char).
Proof.
  split; [vm_compute; lia|].
  rewrite (bitmap_to_string_render (or_bit (or_bit bitmap_zero 5) 70)) by (vm_compute; lia).
  vm_compute. reflexivity.
Defined.

(** The bitmap of the CPUs 0 to [n]-1. *)
Definition cpus (n : Z) : nrm_bitmap := foldl or_bit bitmap_zero (seqZ 0 n).

(** Beyond that length the result is cut short without an error (89 CPUs), then
    the remaining size wraps around or the buffer is reallocated under the
    cursor, and the call writes outside its buffer (128 CPUs). *)
Theorem bitmap_to_string_overflow :
  (exists s, nrm_bitmap_to_string false (Some (cpus 89)) = Ok (Some s)
             /\ s <> render (bitmap_bits (cpus 89))) /\
  nrm_bitmap_to_string false (Some (cpus 128)) = Undefined.
Proof.
  split; [|vm_compute; reflexivity].
  eexists. split; [vm_compute; reflexivity|].
  intros H. apply (f_equal length) in H. revert H. vm_compute. lia.
Qed.

(** C37: threads call [nrm_bitmap_set_atomic] on one bitmap, each with an index of its
    own, and their accesses to the words are interleaved in any way. Once all have
    returned, the bitmap holds the bits that it had and the bits of all threads: no
    update is lost; each call has returned 0, or -1 for an index out of range, which
    sets nothing. *)
Theorem bitmap_set_atomic_no_lost_update b0 idxs c :
  bitmap_wf b0 ->
  rtc thread_step (Conf (mask b0) (set_atomic_accesses <$> idxs)) c ->
  Forall (fun t => exists rc, t = Return rc) (threads c) ->
  bitmap_wf (Bitmap (words c)) /\
  threads c = (fun i => Return (if u32 i >=? NRM_BITMAP_MAX then -1 else 0)) <$> idxs /\
  forall j, 0 <= j < NRM_BITMAP_MAX ->
    nrm_bitmap_isset (Some (Bitmap (words c))) j = 1 <->
    nrm_bitmap_isset (Some b0) j = 1 \/ j ∈ u32 <$> idxs.
Proof.
  intros Hwf Hrun Hdone.
  assert (set_inv b0 idxs c) as (Hwf' & Hts & Hbits).
  { eapply (rtc_ind_l (fun c0 => set_inv b0 idxs c0 -> set_inv b0 idxs c)); [done| |exact Hrun|].
    - intros c1 c2 Hstep _ IH Hinv. apply IH. by eapply set_inv_step.
    - by apply set_inv_init. }
  assert (Hret : threads c = (fun i => Return (set_result i)) <$> idxs).
  { clear -Hts Hdone. induction Hts as [|i a idxs ts Ha _ IH]; [done|].
    apply Forall_cons in Hdone as [[rc ->] Hdone]. cbn [fmap list_fmap]. rewrite (IH Hdone). f_equal.
    destruct Ha as [Ha|Ha]; [|done]. unfold set_atomic_accesses, set_result in *. by destruct (_ >=? _). }
  split; [done|]. split; [exact Hret|]. intros j Hj. rewrite !isset_bit by done.
  assert (Hcb : forall x, c_bool x = 1 <-> x = true) by (intros []; done).
  rewrite !Hcb, Hbits by done. apply or_iff_compat_l. rewrite list_elem_of_fmap. split.
  - intros (t & i & Hi & <- & _). exists i. split; [done|]. by eapply list_elem_of_lookup_2.
  - intros (i & -> & Hin). apply list_elem_of_lookup in Hin as [t Ht]. exists t, i. split_and!; [done..|].
    rewrite Hret, list_lookup_fmap, Ht. cbn. unfold set_result.
    destruct (Z.geb_spec (u32 i) NRM_BITMAP_MAX); [lia|done].
Qed.

(** Two threads on one word, and one with an index out of range. *)
Lemma bitmap_set_atomic_no_lost_update_witness :
  exists c, rtc thread_step (Conf (mask bitmap_zero) (set_atomic_accesses <$> [5; 6; 4000])) c /\
    threads c = [Return 0; Return 0; Return (-1)] /\
    forall j, 0 <= j < NRM_BITMAP_MAX ->
      nrm_bitmap_isset (Some (Bitmap (words c))) j = 1 <->
      nrm_bitmap_isset (Some bitmap_zero) j = 1 \/ j ∈ [5; 6; 4000].
Proof.
  pose (c := Conf (mask (or_bit (or_bit bitmap_zero 6) 5)) [Return 0; Return 0; Return (-1)]).
  assert (Hrun : rtc thread_step (Conf (mask bitmap_zero) (set_atomic_accesses <$> [5; 6; 4000])) c).
  { eapply rtc_l; [eapply (one_access _ _ _ 1); [reflexivity|vm_compute; reflexivity]|].
    eapply rtc_l; [eapply (one_access _ _ _ 0); [reflexivity|vm_compute; reflexivity]|].
    vm_compute. apply rtc_refl. }
  exists c. split; [exact Hrun|]. split; [reflexivity|].
  apply (bitmap_set_atomic_no_lost_update bitmap_zero [5; 6; 4000] c);
    [apply bitmap_zero_wf|exact Hrun|repeat constructor; by eexists].
Defined.

(** With the plain [nrm_bitmap_set] an update can be lost: both threads load the
    word before either stores it. *)
Theorem bitmap_set_lost_update :
  exists c, rtc thread_step (Conf (mask bitmap_zero) (set_accesses <$> [5; 6])) c /\
    threads c = [Return 0; Return 0] /\
    nrm_bitmap_isset (Some (Bitmap (words c))) 5 = 0.
Proof.
  exists (Conf (mask (or_bit bitmap_zero 6)) [Return 0; Return 0]). split_and!; [|done|vm_compute; reflexivity].
  eapply rtc_l; [by eapply (one_access _ _ _ 0)|].
  eapply rtc_l; [by eapply (one_access _ _ _ 1)|].
  eapply rtc_l; [by eapply (one_access _ _ _ 0)|].
  eapply rtc_l; [by eapply (one_access _ _ _ 1)|].
  vm_compute. apply rtc_refl.
Qed.
