(* ===== verification/Scopes.v ===== *)
(** * Scopes, slices and sensors (src/utils/scopes.c, src/slices.c,
      src/sensor.c), and the JSON form of bitmaps

    A scope is a name and three bitmaps: CPUs, NUMA nodes and GPUs. A NULL
    [nrm_string_t] is [None]. *)

From Stdlib Require Import Ascii.
From S2P Require Import Prelude Decimal Vectors Doubles Bitmaps Json.

(** ** Bitmaps and JSON (bitmaps.c) *)

Section bitmap_json.
Context `{Jansson}.

(** The indices that the loop of [nrm_bitmap_to_json] appends. *)
Fixpoint to_json_loop (fuel : nat) (bitmap : option nrm_bitmap) (size i printed : Z)
    (ret : list Z) : list Z :=
  match fuel with
  | O => ret
  | S f =>
      if printed <? size then
        if nrm_bitmap_isset bitmap i =? 0 then to_json_loop f bitmap size (i + 1) printed ret
        else to_json_loop f bitmap size (i + 1) (printed + 1) (ret ++ [i])
      else ret
  end.

Definition nrm_bitmap_to_json (bitmap : option nrm_bitmap) : json_t :=
  let size := u64 (nrm_bitmap_nset bitmap) in
  json_array_of ((fun i => Some (json_integer i)) <$>
    to_json_loop (Z.to_nat NRM_BITMAP_MAX) bitmap size 0 0 []).

(** [json_int_t] narrows to [unsigned int] in the call. *)
Definition nrm_bitmap_from_json (bitmap : nrm_bitmap) (json : option json_t) : Z * nrm_bitmap :=
  if json_is_array json then
    let '(_, b) := nrm_bitmap_reset bitmap in
    let items := match json with Some j => json_integer_value <$> json_array_items j | None => [] end in
    (0, default b (set_items (Some b) items))
  else (- NRM_EINVAL, bitmap).

Lemma to_json_loop_bits b fuel i pre :
  0 <= i -> i + Z.of_nat fuel = NRM_BITMAP_MAX ->
  to_json_loop fuel (Some b) (Z.of_nat (length (pre ++ bits_from b i))) i
    (Z.of_nat (length pre)) pre = pre ++ bits_from b i.
Proof.
  revert i pre; induction fuel as [|f IH]; intros i pre Hi Hfuel; cbn [to_json_loop].
  { replace i with NRM_BITMAP_MAX by lia. by rewrite bits_from_end, app_nil_r. }
  rewrite length_app, Nat2Z.inj_add.
  destruct (Z.ltb_spec (Z.of_nat (length pre))
              (Z.of_nat (length pre) + Z.of_nat (length (bits_from b i)))) as [Hlt|Hge];
    [|by rewrite (nil_length_inv (bits_from b i)), app_nil_r by lia].
  rewrite isset_zero_bit by lia. rewrite bits_from_step by lia.
  pose proof (IH (i + 1) (pre ++ [i])) as IH1. pose proof (IH (i + 1) pre) as IH0.
  destruct (bit b i); cbn [negb app length] in *.
  - rewrite <- !app_assoc, !length_app in IH1. cbn [app length] in IH1.
    rewrite <- IH1 by lia. f_equal; lia.
  - rewrite length_app, Nat2Z.inj_add in IH0. apply IH0; lia.
Qed.

Lemma to_json_bits b fuel :
  Z.of_nat fuel = NRM_BITMAP_MAX ->
  to_json_loop fuel (Some b) (Z.of_nat (length (bitmap_bits b))) 0 0 [] = bitmap_bits b.
Proof.
  intros Hf. rewrite <- bits_from_0. apply (to_json_loop_bits b fuel 0 []); lia.
Qed.

(** Setting the indices of a bitmap in an empty one gives it back. *)
Lemma set_items_bits_id b : bitmap_wf b -> set_items (Some bitmap_zero) (bitmap_bits b) = Some b.
Proof.
  intros Hwf.
  destruct (set_items_bits bitmap_zero (bitmap_bits b) bitmap_zero_wf) as (b' & -> & Hwf' & Hb').
  f_equal. apply bitmap_ext; [done..|]. intros i Hi. rewrite Hb', bit_zero by done. cbn [orb].
  assert (u32 <$> bitmap_bits b = bitmap_bits b) as ->.
  { rewrite <- (list_fmap_id (bitmap_bits b)) at 2. apply list_fmap_ext.
    intros ? x Hx%list_elem_of_lookup_2. apply elem_of_bits in Hx as [Hx _].
    change (u32 x = x). apply u32_small. unfold in_u32, NRM_BITMAP_MAX in *. lia. }
  destruct (bit b i) eqn:E.
  - apply bool_decide_eq_true, elem_of_bits. done.
  - apply bool_decide_eq_false. intros [_ Hb]%elem_of_bits. congruence.
Qed.

Lemma bitmap_json_roundtrip b old :
  bitmap_wf b -> nrm_bitmap_from_json old (Some (nrm_bitmap_to_json (Some b))) = (0, b).
Proof.
  intros Hwf. unfold nrm_bitmap_from_json, nrm_bitmap_to_json. rewrite is_array_of, array_items_of.
  rewrite omap_Some_fmap, nset_u64.
  assert (Hfuel : Z.of_nat (Z.to_nat NRM_BITMAP_MAX) = NRM_BITMAP_MAX) by done.
  revert Hfuel. generalize (Z.to_nat NRM_BITMAP_MAX) as fuel. intros fuel Hfuel.
  rewrite to_json_bits, <- list_fmap_compose by done. cbn [nrm_bitmap_reset].
  rewrite (list_fmap_ext (json_integer_value ∘ json_integer) id);
    [|intros; apply integer_value_of].
  rewrite list_fmap_id. by rewrite set_items_bits_id.
Qed.

End bitmap_json.

#[global] Arguments nrm_bitmap_to_json : simpl never.
#[global] Arguments nrm_bitmap_from_json : simpl never.

(** ** Scopes *)

Definition NRM_SCOPE_TYPE_CPU : Z := 0.
Definition NRM_SCOPE_TYPE_NUMA : Z := 1.
Definition NRM_SCOPE_TYPE_GPU : Z := 2.
Definition NRM_SCOPE_TYPE_MAX : Z := 3.

(** [struct nrm_scope]. *)
Record nrm_scope := Scope { scope_uuid : option string; maps : list nrm_bitmap }.

(** The allocation is not checked. *)
Definition nrm_scope_create (oom : bool) (name : option string) : outcome nrm_scope :=
  if oom then Undefined
  else Ok (Scope name (replicate (Z.to_nat NRM_SCOPE_TYPE_MAX) bitmap_zero)).

(** Access to [maps[type]]: outside the array is undefined. *)
Definition scope_map (s : nrm_scope) (type : Z) : outcome nrm_bitmap :=
  if 0 <=? type then deref (maps s !! Z.to_nat type) else Undefined.
Definition with_map (s : nrm_scope) (type : Z) (b : nrm_bitmap) : nrm_scope :=
  Scope (scope_uuid s) (<[Z.to_nat type := b]> (maps s)).

Definition nrm_scope_add (s : nrm_scope) (type num : Z) : outcome (Z * nrm_scope) :=
  b ← scope_map s type;
  let '(rc, b') := nrm_bitmap_set (Some b) num in
  Ok (rc, with_map s type (default b b')).

Definition nrm_scope_add_atomic (s : nrm_scope) (type num : Z) : outcome (Z * nrm_scope) :=
  b ← scope_map s type;
  let '(rc, b') := nrm_bitmap_set_atomic (Some b) num in
  Ok (rc, with_map s type (default b b')).

Definition nrm_scope_length (s : nrm_scope) (type : Z) : outcome Z :=
  b ← scope_map s type; Ok (u64 (nrm_bitmap_nset (Some b))).

(** [nrm_string_decref(s->uuid)] dereferences the name. *)
Definition nrm_scope_destroy (s : option nrm_scope) : outcome Z :=
  s ← deref s; _ ← deref (scope_uuid s); Ok 0.

(** [nrm_scope_create] of the name, then [nrm_bitmap_copy] of each map. *)
Definition nrm_scope_dup (oom : bool) (s : nrm_scope) : outcome nrm_scope :=
  ret ← nrm_scope_create oom (scope_uuid s);
  mfold (fun r i =>
           d ← scope_map r i;
           b ← scope_map s i;
           Ok (with_map r i (snd (nrm_bitmap_copy d b))))
        ret (seqZ 0 NRM_SCOPE_TYPE_MAX).

(** The loop returns at the first pair of maps that differ. *)
Fixpoint scope_cmp_loop (one two : nrm_scope) (idx : list Z) : outcome Z :=
  match idx with
  | [] => Ok 0
  | i :: idx =>
      a ← scope_map one i;
      b ← scope_map two i;
      if negb (nrm_bitmap_cmp a b =? 0) then Ok 1 else scope_cmp_loop one two idx
  end.
Definition nrm_scope_cmp (one two : nrm_scope) : outcome Z :=
  scope_cmp_loop one two (seqZ 0 NRM_SCOPE_TYPE_MAX).

(** The text that [nrm_scope_snprintf] prints. *)
Definition dquote : ascii := "034"%char.
Definition str (s : string) : list ascii := String.list_ascii_of_string s.
Definition member (key : string) (v : list ascii) : list ascii :=
  [dquote] ++ str key ++ [dquote] ++ str ": [" ++ v ++ str "]".
Definition scope_text (name c n g : list ascii) : list ascii :=
  str "name: " ++ name ++ str ": {" ++ member "cpu" c ++ str ", " ++ member "numa" n
  ++ str ", " ++ member "gpu" g ++ str "}".

(** [sizeof(format)]: the characters, the four ["%s"] and the NUL. *)
Definition scope_format_size : Z :=
  Z.of_nat (length (scope_text (str "%s") (str "%s") (str "%s") (str "%s"))) + 1.

(** The code, and the text in the buffer when it is 0. *)
Definition nrm_scope_snprintf (oom : bool) (bufsize : Z) (s : nrm_scope)
    : outcome (Z * option (list ascii)) :=
  cb ← scope_map s 0; c ← nrm_bitmap_to_string oom (Some cb); c ← deref c;
  nb ← scope_map s 1; n ← nrm_bitmap_to_string oom (Some nb); n ← deref n;
  gb ← scope_map s 2; g ← nrm_bitmap_to_string oom (Some gb); g ← deref g;
  let len := Z.of_nat (length c) + Z.of_nat (length n) + Z.of_nat (length g) in
  if bufsize <? len + scope_format_size - 6 then Ok (-1, None)
  else
    name ← deref (scope_uuid s);
    let text := scope_text (str name) c n g in
    Ok (0, Some (take (Z.to_nat (bufsize - 1)) text)).

Definition nrm_scope_uuid (scope : nrm_scope) : option string := scope_uuid scope.

(** [getcpu] gives the CPU and the node of the calling thread. *)
Definition nrm_scope_threadshared (getcpu : Z * Z) (s : nrm_scope) : outcome (Z * nrm_scope) :=
  '(_, s) ← nrm_scope_add_atomic s NRM_SCOPE_TYPE_CPU (fst getcpu);
  '(_, s) ← nrm_scope_add_atomic s NRM_SCOPE_TYPE_NUMA (snd getcpu);
  Ok (0, s).

Definition nrm_scope_threadprivate (getcpu : Z * Z) (s : nrm_scope) : outcome (Z * nrm_scope) :=
  '(_, s) ← nrm_scope_add s NRM_SCOPE_TYPE_CPU (fst getcpu);
  '(_, s) ← nrm_scope_add s NRM_SCOPE_TYPE_NUMA (snd getcpu);
  Ok (0, s).

(** ** Slices and sensors *)

Record nrm_slice := Slice { slice_uuid : option string }.
Record nrm_sensor := Sensor { sensor_uuid : option string }.

Definition nrm_slice_create (oom : bool) (name : option string) : outcome nrm_slice :=
  if oom then Undefined else Ok (Slice name).
Definition nrm_slice_uuid (slice : nrm_slice) : option string := slice_uuid slice.

(** The outer option is the parameter, the inner one the pointer it points to;
    the result is the latter after the call. *)
Definition nrm_slice_destroy (slice : option (option nrm_slice)) : outcome (option nrm_slice) :=
  match slice with
  | Some (Some s) => _ ← deref (slice_uuid s); Ok None
  | Some None => Ok None
  | None => Ok None
  end.

Definition nrm_sensor_create (oom : bool) (name : option string) : outcome nrm_sensor :=
  if oom then Undefined else Ok (Sensor name).
Definition nrm_sensor_uuid (sensor : nrm_sensor) : option string := sensor_uuid sensor.
Definition nrm_sensor_destroy (sensor : option (option nrm_sensor)) : outcome (option nrm_sensor) :=
  match sensor with
  | Some (Some s) => _ ← deref (sensor_uuid s); Ok None
  | Some None => Ok None
  | None => Ok None
  end.

Section scope_json.
Context `{Jansson}.

Definition nrm_slice_to_json (slice : nrm_slice) : option json_t :=
  json_pack [("uuid"%string, P_s (slice_uuid slice))].
Definition nrm_sensor_to_json (sensor : nrm_sensor) : option json_t :=
  json_pack [("uuid"%string, P_s (sensor_uuid sensor))].

Definition nrm_scope_to_json (scope : nrm_scope) : outcome (option json_t) :=
  cpu ← scope_map scope 0;
  numa ← scope_map scope 1;
  gpu ← scope_map scope 2;
  Ok (json_pack [("uuid"%string, P_s_star (scope_uuid scope));
                 ("cpu"%string, P_o (Some (nrm_bitmap_to_json (Some cpu))));
                 ("numa"%string, P_o (Some (nrm_bitmap_to_json (Some numa))));
                 ("gpu"%string, P_o (Some (nrm_bitmap_to_json (Some gpu))))]).

(** The four members, or the error of [json_unpack_ex]. *)
Definition scope_unpack (json : option json_t)
    : option (option string * option json_t * option json_t * option json_t) :=
  if json_is_object json then
    uuid ← unpack_opt json "uuid" (fun v => Some <$> unpack_string v) None;
    cpu ← unpack_opt json "cpu" (fun v => Some (Some v)) None;
    numa ← unpack_opt json "numa" (fun v => Some (Some v)) None;
    gpu ← unpack_opt json "gpu" (fun v => Some (Some v)) None;
    Some (uuid, cpu, numa, gpu)
  else None.

Definition nrm_scope_from_json (scope : nrm_scope) (json : option json_t)
    : outcome (Z * nrm_scope) :=
  match scope_unpack json with
  | None => Ok (- NRM_EINVAL, scope)
  | Some (uuid, cpu, numa, gpu) =>
      let scope := match uuid with
                   | Some u => Scope (Some u) (maps scope)
                   | None => scope
                   end in
      b0 ← scope_map scope 0;
      let scope := with_map scope 0 (snd (nrm_bitmap_from_json b0 cpu)) in
      b1 ← scope_map scope 1;
      let scope := with_map scope 1 (snd (nrm_bitmap_from_json b1 numa)) in
      b2 ← scope_map scope 2;
      let scope := with_map scope 2 (snd (nrm_bitmap_from_json b2 gpu)) in
      Ok (0, scope)
  end.
End scope_json.

(** ** Properties *)

(** Evaluates constant array indices. *)
Ltac const_idx :=
  change (Z.to_nat 0) with 0%nat; change (Z.to_nat 1) with 1%nat; change (Z.to_nat 2) with 2%nat.

(** Three well-formed maps. *)
Definition scope_wf (s : nrm_scope) : Prop :=
  length (maps s) = Z.to_nat NRM_SCOPE_TYPE_MAX /\ Forall bitmap_wf (maps s).

Lemma scope_wf_maps s :
  scope_wf s -> exists a b c, s = Scope (scope_uuid s) [a; b; c] /\
                              bitmap_wf a /\ bitmap_wf b /\ bitmap_wf c.
Proof.
  intros [Hl Hf]. destruct s as [u m]. cbn in *.
  destruct m as [|a [|b [|c [|]]]]; try discriminate Hl. exists a, b, c.
  rewrite !Forall_cons in Hf. tauto.
Qed.

Lemma scope_wf_3 u a b c : bitmap_wf a -> bitmap_wf b -> bitmap_wf c -> scope_wf (Scope u [a; b; c]).
Proof. intros Ha Hb Hc. split; [done|]. cbn [maps]. by repeat apply Forall_cons_2. Qed.

Lemma scope_create_wf name s : nrm_scope_create false name = Ok s -> scope_wf s.
Proof.
  intros [= <-]. apply scope_wf_3; apply bitmap_zero_wf.
Qed.

Lemma scope_to_json_ok `{Jansson} s : scope_wf s -> exists j, nrm_scope_to_json s = Ok j.
Proof. intros Hwf. destruct (scope_wf_maps s Hwf) as (a & b & c & -> & _). by eexists. Qed.

(** A scope survives its JSON form: reading back what [nrm_scope_to_json]
    wrote restores the name and the three maps in whatever scope is read into. *)
Theorem scope_json_roundtrip `{Jansson} s old name :
  scope_wf s -> length (maps old) = 3%nat -> scope_uuid s = Some name -> utf8_check name = true ->
  exists j, nrm_scope_to_json s = Ok (Some j) /\ nrm_scope_from_json old (Some j) = Ok (0, s).
Proof.
  intros Hwf Hold Hu Hutf. destruct (scope_wf_maps s Hwf) as (a & b & c & -> & Ha & Hb & Hc).
  cbn [scope_uuid] in Hu. rewrite Hu. destruct old as [ou om]. cbn [maps] in Hold.
  destruct om as [|x [|y [|z [|]]]]; try discriminate Hold.
  unfold nrm_scope_to_json, scope_map. cbn [maps Z.leb Z.compare deref mbind outcome_bind lookup].
  cbn. rewrite Hutf. cbn. eexists. split; [reflexivity|].
  unfold nrm_scope_from_json, scope_unpack. rewrite is_object_make. unfold unpack_opt.
  rewrite !object_get_make, !assoc_cons. decide_keys. rewrite unpack_string_make. cbn.
  const_idx. cbn. rewrite bitmap_json_roundtrip by done. cbn.
  rewrite bitmap_json_roundtrip by done. cbn. by rewrite bitmap_json_roundtrip by done.
Qed.

Lemma scope_json_roundtrip_witness :
  let s := Scope (Some "nrm") [or_bit bitmap_zero 3; bitmap_zero; bitmap_zero] in
  let old := Scope None [bitmap_zero; bitmap_zero; bitmap_zero] in
  exists j, nrm_scope_to_json s = Ok (Some j) /\ nrm_scope_from_json old (Some j) = Ok (0, s).
Proof.
  intros s old. apply (scope_json_roundtrip s old "nrm"); [|reflexivity..].
  apply scope_wf_3; auto with nrm.
Defined.

(** [nrm_scope_dup] gives a scope with the same name and maps. *)
Lemma scope_dup_same s : scope_wf s -> nrm_scope_dup false s = Ok s.
Proof.
  intros Hs. destruct (scope_wf_maps s Hs) as (a & b & c & -> & Ha & Hb & Hc). by destruct a, b, c.
Qed.

(** [nrm_scope_cmp] returns 0 exactly on scopes with the same maps. *)
Lemma scope_cmp_maps s t :
  scope_wf s -> scope_wf t -> exists r, nrm_scope_cmp s t = Ok r /\ (r = 0 <-> maps s = maps t).
Proof.
  intros Hs Ht. destruct (scope_wf_maps s Hs) as (a & b & c & -> & Ha & Hb & Hc).
  destruct (scope_wf_maps t Ht) as (a' & b' & c' & -> & Ha' & Hb' & Hc').
  assert (Hcmp : forall x y, bitmap_wf x -> bitmap_wf y ->
            negb (nrm_bitmap_cmp x y =? 0) = true <-> x <> y).
  { intros x y Hx Hy. rewrite <- (cmp_zero x y Hx Hy).
    destruct (Z.eqb_spec (nrm_bitmap_cmp x y) 0); cbn; split; congruence. }
  unfold nrm_scope_cmp. change (seqZ 0 NRM_SCOPE_TYPE_MAX) with [0; 1; 2].
  cbn [scope_cmp_loop scope_map maps Z.leb Z.compare]. const_idx. cbn -[nrm_bitmap_cmp Z.eqb negb].
  destruct (negb (nrm_bitmap_cmp a a' =? 0)) eqn:E1;
    [eexists; split; [done|]; apply Hcmp in E1; [|done..]; split; [done|congruence]|].
  destruct (negb (nrm_bitmap_cmp b b' =? 0)) eqn:E2;
    [eexists; split; [done|]; apply Hcmp in E2; [|done..]; split; [done|congruence]|].
  destruct (negb (nrm_bitmap_cmp c c' =? 0)) eqn:E3;
    [eexists; split; [done|]; apply Hcmp in E3; [|done..]; split; [done|congruence]|].
  rewrite negb_false_iff, Z.eqb_eq in E1, E2, E3. rewrite cmp_zero in E1, E2, E3 by done.
  exists 0. split; [done|]. by subst.
Qed.

(** The length check of [nrm_scope_snprintf] leaves the name out: with a name of
    ten characters the text is cut short and the call returns 0. *)
Theorem scope_snprintf_truncates :
  exists s text, nrm_scope_snprintf false 45 s = Ok (0, Some text) /\
    text <> scope_text (str "nrm.global") [] [] [] /\ scope_uuid s = Some "nrm.global"%string.
Proof.
  exists (Scope (Some "nrm.global"%string) [bitmap_zero; bitmap_zero; bitmap_zero]).
  eexists. split; [vm_compute; reflexivity|]. split; [|done].
  intros H. apply (f_equal length) in H. revert H. vm_compute. discriminate.
Qed.
