(* ===== verification/Topology.v ===== *)
(** * The scopes of the topology (src/hwloc.c)

    The daemon starts from a scope per object of the machine that hwloc reports.
    What hwloc answers is a record: the objects of each depth, the devices of the
    operating system, and the sets of CPUs and nodes, each as the list that
    [hwloc_bitmap_foreach_begin] goes through. *)

From Stdlib Require Import Ascii.
From S2P Require Import Prelude Decimal Vectors Doubles Hashes Bitmaps Json Scopes.

(** ** What hwloc answers *)

(** An object: what [hwloc_obj_type_snprintf] would print of its type in a large
    enough buffer, whether its type is [HWLOC_OBJ_PU], and its fields. *)
Record hwloc_obj := Obj {
  o_type_text : string;
  o_is_pu : bool;
  logical_index : Z;
  nodeset : list Z;
  cpuset : list Z
}.

Inductive hwloc_osdev_type := HWLOC_OBJ_OSDEV_GPU | HWLOC_OBJ_OSDEV_COPROC | Other_osdev.

(** A device; [os_cpuset] is whether its [cpuset] is not NULL. *)
Record hwloc_osdev := Osdev {
  os_name : string;
  os_type : hwloc_osdev_type;
  io_arity : Z;
  os_cpuset : bool
}.

Record hwloc_topology := Topology {
  by_depth : list (list hwloc_obj);
  osdevs : list hwloc_osdev;
  allowed_cpuset : list Z;
  allowed_nodeset : list Z
}.

(** ** Printing names *)

(** [snprintf] of a text into a buffer of [n] bytes, as a string. *)
Definition snprintf_text_n (n : nat) (s : string) : string := String.substring 0 (n - 1) s.
Definition dec_text (z : Z) : string := String.string_of_list_ascii (dec z).

Definition type_buffer (object : hwloc_obj) : string := snprintf_text_n 128 (o_type_text object).
Definition obj_name (object : hwloc_obj) : string :=
  snprintf_text_n 256 ("nrm.hwloc." ++ type_buffer object ++ "." ++ dec_text (logical_index object)).
Definition pu_numa_name (object : hwloc_obj) (bit : Z) : string :=
  snprintf_text_n 256 ("nrm.hwloc." ++ type_buffer object ++ "." ++ dec_text (logical_index object)
                       ++ "." ++ dec_text bit).
Definition osdev_name (object : hwloc_osdev) : string :=
  snprintf_text_n 256 ("nrm.hwloc." ++ os_name object).

(** ** nrm_scope_hwloc_scopes *)

(** [hwloc_bitmap_foreach_begin(bit, set) nrm_scope_add(scope, type, bit)]. *)
Definition add_set (scope : nrm_scope) (type : Z) (set : list Z) : outcome nrm_scope :=
  mfold (fun s bit => '(_, s) ← nrm_scope_add s type bit; Ok s) scope set.

(** [nrm_hash_add(scopes, nrm_scope_uuid(this_scope), this_scope)], its result
    ignored. *)
Definition add_this_scope (scopes : nrm_hash nrm_scope) (this_scope : nrm_scope)
    : nrm_hash nrm_scope :=
  snd (nrm_hash_add false scopes (nrm_scope_uuid this_scope) this_scope).

(** The body of the loop on NUMA nodes of a PU with several. *)
Definition add_pu_numa (object : hwloc_obj) (scopes : nrm_hash nrm_scope) (bit : Z)
    : outcome (nrm_hash nrm_scope) :=
  this_scope ← nrm_scope_create false (Some (pu_numa_name object bit));
  '(_, this_scope) ← nrm_scope_add this_scope NRM_SCOPE_TYPE_NUMA bit;
  this_scope ← add_set this_scope NRM_SCOPE_TYPE_CPU (cpuset object);
  Ok (add_this_scope scopes this_scope).

(** The body of the loop on objects. *)
Definition add_object (scopes : nrm_hash nrm_scope) (object : hwloc_obj)
    : outcome (nrm_hash nrm_scope) :=
  if bool_decide (type_buffer object = "L2"%string) || bool_decide (type_buffer object = "L1d"%string)
  then Ok scopes
  else
    this_scope ← nrm_scope_create false (Some (obj_name object));
    this_scope ← add_set this_scope NRM_SCOPE_TYPE_NUMA (nodeset object);
    let numa_count := Z.of_nat (length (nodeset object)) in
    this_scope ← add_set this_scope NRM_SCOPE_TYPE_CPU (cpuset object);
    let scopes := add_this_scope scopes this_scope in
    if o_is_pu object && (numa_count >? 1) then mfold (add_pu_numa object) scopes (nodeset object)
    else Ok scopes.

Definition is_gpu (object : hwloc_osdev) : bool :=
  match os_type object with Other_osdev => false | _ => true end.

(** Whether some GPU has devices of its own. *)
Definition subdevices (t : hwloc_topology) : bool :=
  foldl (fun b object => if negb (is_gpu object) then b
                         else if negb (io_arity object =? 0) then true else b) false (osdevs t).

(** The body of the loop on devices, with its counter. *)
Definition add_osdev (subs : bool) (sc : nrm_hash nrm_scope * Z) (object : hwloc_osdev)
    : outcome (nrm_hash nrm_scope * Z) :=
  let '(scopes, counter) := sc in
  _ ← c_assert (negb (os_cpuset object));
  if negb (is_gpu object) then Ok (scopes, counter)
  else if subs && (io_arity object =? 0) then Ok (scopes, counter)
  else
    this_scope ← nrm_scope_create false (Some (osdev_name object));
    '(_, this_scope) ← nrm_scope_add this_scope NRM_SCOPE_TYPE_GPU counter;
    Ok (add_this_scope scopes this_scope, counter + 1).

Definition nrm_scope_hwloc_scopes (t : hwloc_topology) (scopes : nrm_hash nrm_scope)
    : outcome (Z * nrm_hash nrm_scope) :=
  scopes ← mfold (fun scopes level => mfold add_object scopes level) scopes (by_depth t);
  '(scopes, _) ← mfold (add_osdev (subdevices t)) (scopes, 0) (osdevs t);
  Ok (0, scopes).

(** ** nrm_scope_create_hwloc_allowed *)

(** The topology is loaded under flags, of which the three that are meant are
    given; the allocations of hwloc are never released. *)
Definition nrm_scope_create_hwloc_allowed (load : Z -> hwloc_topology)
    (is_thissystem restrict_to_cpubinding restrict_to_membinding : Z) (name : option string)
    : outcome nrm_scope :=
  let t := load (Z.land (Z.land is_thissystem restrict_to_cpubinding) restrict_to_membinding) in
  ret ← nrm_scope_create false name;
  ret ← add_set ret NRM_SCOPE_TYPE_CPU (allowed_cpuset t);
  add_set ret NRM_SCOPE_TYPE_NUMA (allowed_nodeset t).

(** ** The scopes that are wanted *)

(** A bitmap of a set: the members below [NRM_BITMAP_MAX]. *)
Definition bitmap_of (set : list Z) : nrm_bitmap := default bitmap_zero (set_items (Some bitmap_zero) set).

Definition scope_of (name : string) (cpus numas gpus : list Z) : nrm_scope :=
  Scope (Some name) [bitmap_of cpus; bitmap_of numas; bitmap_of gpus].

Definition cache_skipped (o : hwloc_obj) : Prop :=
  type_buffer o = "L2"%string \/ type_buffer o = "L1d"%string.
#[export] Instance cache_skipped_dec o : Decision (cache_skipped o) := _.

(** The scopes of an object: all its nodes, then, for a PU of several, each. *)
Definition object_scopes (o : hwloc_obj) : list (string * nrm_scope) :=
  if decide (cache_skipped o) then []
  else (obj_name o, scope_of (obj_name o) (cpuset o) (nodeset o) []) ::
       (if o_is_pu o && (1 <? length (nodeset o))%nat
        then (fun bit => (pu_numa_name o bit, scope_of (pu_numa_name o bit) (cpuset o) [bit] []))
               <$> nodeset o
        else []).

(** The GPUs that count: as soon as one of them has devices of its own, only those
    that have, all otherwise; they are numbered in order. The code does not look at the
    parent of a device: one without devices is left out whether it is a part of another
    or stands alone. *)
Definition has_subdevices (t : hwloc_topology) : Prop :=
  Exists (fun o => is_gpu o = true /\ io_arity o <> 0) (osdevs t).
#[export] Instance has_subdevices_dec t : Decision (has_subdevices t) := _.
Definition counted_gpus (t : hwloc_topology) : list hwloc_osdev :=
  filter (fun o => is_gpu o = true /\ (has_subdevices t -> io_arity o <> 0)) (osdevs t).
Definition gpu_scopes (t : hwloc_topology) : list (string * nrm_scope) :=
  imap (fun i o => (osdev_name o, scope_of (osdev_name o) [] [] [Z.of_nat i])) (counted_gpus t).

Definition topology_scopes (t : hwloc_topology) : list (string * nrm_scope) :=
  mjoin ((fun level => mjoin (object_scopes <$> level)) <$> by_depth t) ++ gpu_scopes t.

(** A list of scopes added to a table, the first of each name. *)
Definition add_scopes (table : nrm_hash nrm_scope) (scopes : list (string * nrm_scope))
    : nrm_hash nrm_scope :=
  foldl (fun t e => snd (nrm_hash_add false t (Some e.1) e.2)) table scopes.

(** ** Lemmas *)

Lemma set_items_Some b set : exists b', set_items (Some b) set = Some b'.
Proof.
  revert b. induction set as [|i set IH]; intros b; [by eexists|].
  unfold set_items. cbn [foldl]. rewrite set_bit. apply IH.
Qed.

Lemma scope_add_at u ms k b i :
  ms !! k = Some b ->
  exists rc, nrm_scope_add (Scope u ms) (Z.of_nat k) i =
    Ok (rc, Scope u (<[k := if u32 i <? NRM_BITMAP_MAX then or_bit b (u32 i) else b]> ms)).
Proof.
  intros Hk. unfold nrm_scope_add, scope_map. cbn [maps].
  rewrite (proj2 (Z.leb_le 0 _)), Nat2Z.id, Hk by lia. cbn [deref mbind outcome_bind].
  pose proof (set_bit b i) as Hb. destruct (nrm_bitmap_set (Some b) i) as [rc b'].
  cbn [snd] in Hb. subst b'. exists rc. unfold with_map. cbn [scope_uuid maps default from_option].
  by rewrite Nat2Z.id.
Qed.

(** Adding a set to a map of a scope is [set_items]. *)
Lemma add_set_items u ms type k b set :
  type = Z.of_nat k -> ms !! k = Some b ->
  add_set (Scope u ms) type set = Ok (Scope u (<[k := default b (set_items (Some b) set)]> ms)).
Proof.
  intros ->. revert ms b. induction set as [|i set IH]; intros ms b Hk.
  - cbn. by rewrite list_insert_id.
  - unfold add_set. cbn [mfold]. destruct (scope_add_at u ms k b i Hk) as [rc ->].
    cbn [mbind outcome_bind]. set (b1 := if u32 i <? NRM_BITMAP_MAX then _ else _).
    assert (Hlen : (k < length ms)%nat) by (by apply lookup_lt_Some in Hk).
    unfold add_set in IH. rewrite (IH _ b1) by (by apply list_lookup_insert_eq).
    rewrite list_insert_insert_eq. do 3 f_equal. unfold set_items. cbn [foldl]. rewrite set_bit.
    fold b1. destruct (set_items_Some b1 set) as [b2 Hb2]. unfold set_items in Hb2. by rewrite Hb2.
Qed.

Lemma create_scope name :
  nrm_scope_create false name = Ok (Scope name [bitmap_zero; bitmap_zero; bitmap_zero]).
Proof. reflexivity. Qed.

Lemma bitmap_of_nil : bitmap_of [] = bitmap_zero.
Proof. reflexivity. Qed.

Lemma bitmap_of_wf set : bitmap_wf (bitmap_of set).
Proof.
  unfold bitmap_of. destruct (set_items_bits bitmap_zero set bitmap_zero_wf) as (b & -> & Hb & _). done.
Qed.

(** Membership in a bitmap of a set. *)
Lemma bit_bitmap_of set i :
  Forall in_u32 set -> 0 <= i < NRM_BITMAP_MAX -> bit (bitmap_of set) i = bool_decide (i ∈ set).
Proof.
  intros Hset Hi. unfold bitmap_of.
  destruct (set_items_bits bitmap_zero set bitmap_zero_wf) as (b & -> & _ & Hb). cbn.
  rewrite Hb, bit_zero by done. cbn [orb]. apply bool_decide_ext.
  assert (u32 <$> set = set) as ->; [|done].
  rewrite <- (list_fmap_id set) at 2. apply list_fmap_ext. intros n x Hx%list_elem_of_lookup_2.
  rewrite Forall_forall in Hset. by apply u32_small, Hset.
Qed.

Lemma scope_of_wf name c n g : scope_wf (scope_of name c n g).
Proof. apply scope_wf_3; apply bitmap_of_wf. Qed.

Lemma add_scopes_app table l1 l2 : add_scopes table (l1 ++ l2) = add_scopes (add_scopes table l1) l2.
Proof. apply foldl_app. Qed.

(** One [nrm_scope_add] is the set of one member. *)
Lemma scope_add_one s type i s' :
  add_set s type [i] = Ok s' -> exists rc, nrm_scope_add s type i = Ok (rc, s').
Proof.
  unfold add_set. cbn [mfold]. intros Heq. apply bind_Ok_inv in Heq as (s1 & Heq & [= <-]).
  apply bind_Ok_inv in Heq as ([rc s2] & -> & [= <-]). by eexists.
Qed.

Lemma add_pu_numa_scope o t bit :
  add_pu_numa o t bit =
  Ok (add_scopes t [(pu_numa_name o bit, scope_of (pu_numa_name o bit) (cpuset o) [bit] [])]).
Proof.
  unfold add_pu_numa. rewrite create_scope. cbn [mbind outcome_bind].
  destruct (scope_add_one _ _ _ _ (add_set_items (Some (pu_numa_name o bit))
             [bitmap_zero; bitmap_zero; bitmap_zero] NRM_SCOPE_TYPE_NUMA 1 bitmap_zero [bit] eq_refl eq_refl))
    as [rc ->]. cbn [mbind outcome_bind insert list_insert].
  by rewrite (add_set_items _ _ _ 0 bitmap_zero) by done.
Qed.

Lemma add_object_scopes scopes o : add_object scopes o = Ok (add_scopes scopes (object_scopes o)).
Proof.
  unfold add_object, object_scopes.
  assert (Hskip : bool_decide (type_buffer o = "L2"%string) || bool_decide (type_buffer o = "L1d"%string)
                  = bool_decide (cache_skipped o)).
  { unfold cache_skipped. by rewrite <- bool_decide_or. }
  rewrite Hskip. destruct (decide (cache_skipped o)) as [Hs|Hs];
    [by rewrite bool_decide_eq_true_2|rewrite bool_decide_eq_false_2 by done].
  rewrite create_scope. cbn [mbind outcome_bind].
  rewrite (add_set_items _ _ _ 1 bitmap_zero) by done. cbn [mbind outcome_bind].
  rewrite (add_set_items _ _ _ 0 bitmap_zero) by done. cbn [mbind outcome_bind insert list_insert].
  assert (Hn : (Z.of_nat (length (nodeset o)) >? 1) = (1 <? length (nodeset o))%nat).
  { rewrite Z.gtb_ltb. destruct (Nat.ltb_spec 1 (length (nodeset o))); [apply Z.ltb_lt|apply Z.ltb_ge]; lia. }
  rewrite Hn. fold (bitmap_of (cpuset o)) (bitmap_of (nodeset o)).
  change (add_this_scope scopes _)
    with (add_scopes scopes [(obj_name o, scope_of (obj_name o) (cpuset o) (nodeset o) [])]).
  destruct (o_is_pu o && _); [|done].
  change ((?x :: ?l)) with ([x] ++ l) at 2. rewrite add_scopes_app.
  generalize (add_scopes scopes [(obj_name o, scope_of (obj_name o) (cpuset o) (nodeset o) [])]) as t.
  generalize (nodeset o) as bits. intros bits. induction bits as [|bit bits IH]; intros t; [done|].
  cbn [mfold fmap list_fmap]. rewrite add_pu_numa_scope. cbn [mbind outcome_bind]. by rewrite IH.
Qed.

Lemma add_level_scopes scopes level :
  mfold add_object scopes level = Ok (add_scopes scopes (mjoin (object_scopes <$> level))).
Proof.
  revert scopes. induction level as [|o level IH]; intros scopes; [done|].
  cbn [mfold fmap list_fmap mjoin list_join]. rewrite add_object_scopes. cbn [mbind outcome_bind].
  rewrite IH. by rewrite add_scopes_app.
Qed.

Lemma add_levels_scopes scopes levels :
  mfold (fun scopes level => mfold add_object scopes level) scopes levels =
  Ok (add_scopes scopes (mjoin ((fun level => mjoin (object_scopes <$> level)) <$> levels))).
Proof.
  revert scopes. induction levels as [|l levels IH]; intros scopes; [done|].
  cbn [mfold fmap list_fmap mjoin list_join]. rewrite add_level_scopes. cbn [mbind outcome_bind].
  rewrite IH. by rewrite add_scopes_app.
Qed.

(** The flag of the first loop on devices. *)
Lemma subdevices_spec t : subdevices t = bool_decide (has_subdevices t).
Proof.
  unfold subdevices, has_subdevices.
  assert (Hfold : forall l b, foldl (fun b object => if negb (is_gpu object) then b
            else if negb (io_arity object =? 0) then true else b) b l
          = b || bool_decide (Exists (fun o => is_gpu o = true /\ io_arity o <> 0) l)).
  { induction l as [|o l IH]; intros b; cbn [foldl].
    - rewrite bool_decide_eq_false_2 by (intros Hex; inversion Hex). by rewrite orb_false_r.
    - rewrite IH. destruct (is_gpu o) eqn:Eg, (Z.eqb_spec (io_arity o) 0) as [Ea|Ea]; cbn [negb].
      1,3,4: f_equal; apply bool_decide_ext; rewrite Exists_cons; intuition congruence.
      rewrite orb_true_l. symmetry. apply orb_true_intro. right. apply bool_decide_eq_true.
      rewrite Exists_cons. by left. }
  apply Hfold.
Qed.

Lemma add_osdevs_scopes (P : Prop) `{Decision P} devs scopes n :
  Forall (fun o => os_cpuset o = false) devs ->
  exists n', mfold (add_osdev (bool_decide P)) (scopes, Z.of_nat n) devs =
    Ok (add_scopes scopes
          (imap (fun i o => (osdev_name o, scope_of (osdev_name o) [] [] [Z.of_nat (n + i)]))
             (filter (fun o => is_gpu o = true /\ (P -> io_arity o <> 0)) devs)), n').
Proof.
  intros Hc. revert scopes n. induction Hc as [|o devs Ho _ IH]; intros scopes n; [by eexists|].
  cbn [mfold]. unfold add_osdev at 2. rewrite Ho. cbn [negb c_assert mbind outcome_bind].
  rewrite filter_cons. destruct (is_gpu o) eqn:Eg; cbn [negb].
  2: { rewrite decide_False by (by intros [? _]). apply IH. }
  destruct (bool_decide P && (io_arity o =? 0)) eqn:E.
  { apply andb_prop in E as [EP%bool_decide_eq_true Ea%Z.eqb_eq].
    rewrite decide_False by (intros [_ Hp]; by apply Hp). apply IH. }
  rewrite decide_True.
  2: { split; [done|]. intros HP Ha. rewrite bool_decide_eq_true_2, Ha in E by done. done. }
  rewrite create_scope. cbn [mbind outcome_bind].
  destruct (scope_add_one _ _ _ _ (add_set_items (Some (osdev_name o))
             [bitmap_zero; bitmap_zero; bitmap_zero] NRM_SCOPE_TYPE_GPU 2 bitmap_zero [Z.of_nat n]
             eq_refl eq_refl)) as [rc ->]. cbn [mbind outcome_bind insert list_insert].
  replace (Z.of_nat n + 1) with (Z.of_nat (S n)) by lia.
  destruct (IH (add_this_scope scopes
      (Scope (Some (osdev_name o)) [bitmap_zero; bitmap_zero; bitmap_of [Z.of_nat n]])) (S n)) as [n' IHn].
  exists n'. unfold bitmap_of in IHn. rewrite IHn. rewrite imap_cons, Nat.add_0_r. do 2 f_equal.
  change (?x :: ?l) with ([x] ++ l). rewrite add_scopes_app. f_equal.
  apply imap_ext. intros i x _. cbn. by rewrite Nat.add_succ_r.
Qed.

(** The table is what the reference adds. *)
Lemma hwloc_scopes_ok t scopes :
  Forall (fun o => os_cpuset o = false) (osdevs t) ->
  nrm_scope_hwloc_scopes t scopes = Ok (0, add_scopes scopes (topology_scopes t)).
Proof.
  intros Hc. unfold nrm_scope_hwloc_scopes. rewrite add_levels_scopes. cbn [mbind outcome_bind].
  rewrite subdevices_spec.
  destruct (add_osdevs_scopes (has_subdevices t) (osdevs t)
    (add_scopes scopes (mjoin ((fun level => mjoin (object_scopes <$> level)) <$> by_depth t))) 0 Hc)
    as [n' E]. change (Z.of_nat 0) with 0 in E. rewrite E. cbn [mbind outcome_bind].
  unfold topology_scopes. by rewrite add_scopes_app.
Qed.

Lemma topology_scopes_wf t :
  Forall (fun e => scope_uuid e.2 = Some e.1 /\ scope_wf e.2) (topology_scopes t).
Proof.
  apply Forall_forall. intros [k s] [Hin|Hin]%elem_of_app.
  - apply list_elem_of_join in Hin as (l & Hin & Hl). apply list_elem_of_fmap in Hl as (level & -> & _).
    apply list_elem_of_join in Hin as (l & Hin & Hl). apply list_elem_of_fmap in Hl as (o & -> & _).
    unfold object_scopes in Hin. case_decide; [by apply not_elem_of_nil in Hin|].
    apply elem_of_cons in Hin as [[= -> ->]|Hin]; [split; [done|apply scope_of_wf]|].
    destruct (_ && _); [|by apply not_elem_of_nil in Hin].
    apply list_elem_of_fmap in Hin as (bit & [= -> ->] & _). split; [done|apply scope_of_wf].
  - apply elem_of_lookup_imap in Hin as (i & o & [= -> ->] & _). split; [done|apply scope_of_wf].
Qed.

(** The object that hwloc documents as the root gives the scope that the daemon
    looks for. *)
Lemma topology_machine t level o :
  level ∈ by_depth t -> o ∈ level -> o_type_text o = "Machine"%string -> logical_index o = 0 ->
  "nrm.hwloc.Machine.0"%string ∈ (topology_scopes t).*1.
Proof.
  intros Hl Ho Ht Hi. apply list_elem_of_fmap.
  exists (obj_name o, scope_of (obj_name o) (cpuset o) (nodeset o) []).
  assert (Hb : type_buffer o = "Machine"%string) by (unfold type_buffer; by rewrite Ht).
  split; [unfold obj_name; rewrite Hb, Hi; reflexivity|].
  apply elem_of_app. left. apply list_elem_of_join. eexists. split; [|by apply list_elem_of_fmap_2].
  apply list_elem_of_join. eexists. split; [|by apply list_elem_of_fmap_2].
  unfold object_scopes. rewrite decide_False by (unfold cache_skipped; rewrite Hb; by intros [|]). left.
Qed.

Lemma HASH_ADD_find (table : nrm_hash nrm_scope) e k :
  HASH_FIND (HASH_ADD table e) k =
  match HASH_FIND table k with Some x => Some x | None => if decide (uuid e = k) then Some e else None end.
Proof.
  unfold HASH_ADD. induction table as [|x table IH]; cbn [app].
  - rewrite HASH_FIND_cons. reflexivity.
  - rewrite !HASH_FIND_cons, IH. by destruct (decide (uuid x = k)).
Qed.

(** A name finds what was there, or the first scope added under it. *)
Lemma add_scopes_find table l k :
  ptr <$> HASH_FIND (add_scopes table l) k =
  match HASH_FIND table k with
  | Some e => Some (ptr e)
  | None => (fun x : nat * (string * nrm_scope) => x.2.2) <$> list_find (fun e => e.1 = k) l
  end.
Proof.
  revert table. induction l as [|[u s] l IH]; intros table.
  { change (add_scopes table []) with table. by destruct (HASH_FIND table k). }
  unfold add_scopes. cbn [foldl fst snd]. fold (add_scopes (nrm_hash_add false table (Some u) s).2 l).
  rewrite IH. unfold nrm_hash_add. change (key_of (Some u)) with u. cbn [list_find fst].
  assert (Hlater : forall z : option (nat * (string * nrm_scope)),
            (fun x : nat * (string * nrm_scope) => x.2.2) <$> (prod_map S id <$> z) =
            (fun x : nat * (string * nrm_scope) => x.2.2) <$> z) by by intros [[]|].
  destruct (HASH_FIND table u) as [e|] eqn:Eu; cbn [snd nrm_hash_create_element].
  - destruct (HASH_FIND table k) as [e'|] eqn:Ek; [done|].
    rewrite decide_False by congruence. by rewrite Hlater.
  - rewrite HASH_ADD_find. cbn [uuid]. destruct (HASH_FIND table k) as [e'|] eqn:Ek; [done|].
    case_decide; [done|]. by rewrite Hlater.
Qed.

Lemma add_scopes_inv table l :
  hash_wf table -> Forall (fun e => scope_uuid (ptr e) = Some (uuid e) /\ scope_wf (ptr e)) table ->
  Forall (fun e => scope_uuid e.2 = Some e.1 /\ scope_wf e.2) l ->
  hash_wf (add_scopes table l) /\
  Forall (fun e => scope_uuid (ptr e) = Some (uuid e) /\ scope_wf (ptr e)) (add_scopes table l).
Proof.
  intros Hwf Hf Hl. revert table Hwf Hf. induction Hl as [|[u s] l Hs _ IH]; intros table Hwf Hf; [done|].
  unfold add_scopes. cbn [foldl fst snd]. cbn [fst snd] in Hs.
  fold (add_scopes (nrm_hash_add false table (Some u) s).2 l). unfold nrm_hash_add.
  change (key_of (Some u)) with u. destruct (HASH_FIND table u) as [e|] eqn:E; cbn [snd nrm_hash_create_element].
  - by apply IH.
  - apply IH.
    + unfold hash_wf, HASH_ADD. rewrite fmap_app. apply NoDup_app. split; [done|].
      apply HASH_FIND_None in E. split; [|apply NoDup_singleton].
      intros x Hx Hu. apply list_elem_of_singleton in Hu as ->. done.
    + unfold HASH_ADD. apply Forall_app. split; [done|]. by apply Forall_singleton.
Qed.

(** ** The flags of the allowed scope *)

(** Flags of one bit each, combined with [&], are no flag: the scope that is
    said to hold what the process may use is not restricted by its bindings. *)
Lemma allowed_scope_unrestricted load a b c name :
  0 <= a -> 0 <= b -> a <> b ->
  nrm_scope_create_hwloc_allowed load (2 ^ a) (2 ^ b) c name =
  Ok (Scope name [bitmap_of (allowed_cpuset (load 0)); bitmap_of (allowed_nodeset (load 0)); bitmap_zero]).
Proof.
  intros Ha Hb Hne. unfold nrm_scope_create_hwloc_allowed.
  assert (Hz : Z.land (2 ^ a) (2 ^ b) = 0).
  { apply Z.bits_inj'. intros n Hn. rewrite Z.land_spec, Z.bits_0, !Z.pow2_bits_eqb by done.
    destruct (Z.eqb_spec a n), (Z.eqb_spec b n); try done. congruence. }
  rewrite Hz, Z.land_0_l, create_scope. cbn [mbind outcome_bind].
  rewrite (add_set_items _ _ _ 0 bitmap_zero) by done. cbn [mbind outcome_bind].
  by rewrite (add_set_items _ _ _ 1 bitmap_zero) by done.
Qed.

(** ** The table of the daemon *)

(** C20: whatever the topology, [nrm_scope_hwloc_scopes] builds the table of the
    reference [topology_scopes]: the scopes of the objects from the root down, L2 and
    L1d caches left out, with one more per NUMA node for a PU that has several, then
    the scopes of the GPUs, numbered: of all of them, or, as soon as one of them has
    devices of its own, of only those that have ([counted_gpus]; a GPU that stands alone
    and has none then gets no scope, like a subdevice). Its keys are distinct, a name
    finds the first scope made under it, every scope is well-formed and under its own
    name, and the bit of a CPU, node or GPU is set just when it is in the set of the
    object. It needs that devices have no CPU set, which the code asserts. *)
Theorem hwloc_scopes_equivalence t :
  Forall (fun o => os_cpuset o = false) (osdevs t) ->
  exists table,
    nrm_scope_hwloc_scopes t [] = Ok (0, table) /\ hash_wf table /\
    Forall (fun e => scope_uuid (ptr e) = Some (uuid e) /\ scope_wf (ptr e)) table /\
    (forall k, ptr <$> HASH_FIND table k =
       (fun x : nat * (string * nrm_scope) => x.2.2) <$> list_find (fun e => e.1 = k) (topology_scopes t)) /\
    (forall set i, Forall in_u32 set -> 0 <= i < NRM_BITMAP_MAX ->
       nrm_bitmap_isset (Some (bitmap_of set)) i = c_bool (bool_decide (i ∈ set))).
Proof.
  intros Hc. eexists. split; [by apply hwloc_scopes_ok|].
  destruct (add_scopes_inv [] (topology_scopes t)) as [Hwf Hall];
    [apply NoDup_nil_2|constructor|apply topology_scopes_wf|].
  split; [done|]. split; [done|]. split; [intros k; apply (add_scopes_find [])|].
  intros set i Hset Hi. rewrite isset_bit by done. by rewrite bit_bitmap_of.
Qed.

(** Which devices get a scope, in the presence of subdevices and without. *)
Lemma counted_gpus_spec t :
  counted_gpus t = if decide (has_subdevices t)
                   then filter (fun o => is_gpu o = true /\ io_arity o <> 0) (osdevs t)
                   else filter (fun o => is_gpu o = true) (osdevs t).
Proof. unfold counted_gpus. case_decide; apply list_filter_iff; intros o; tauto. Qed.

(** A package with two CPUs, two nodes and two GPUs, of which one has a subdevice; the
    other one, [card1], gets no scope. *)
Definition small_topology : hwloc_topology :=
  Topology
    [ [Obj "Machine" false 0 [0; 1] [0; 1]]; [Obj "L2" false 0 [0] [0]];
      [Obj "PU" true 0 [0; 1] [0]; Obj "PU" true 1 [1] [1]] ]
    [ Osdev "eth0" Other_osdev 0 false; Osdev "card0" HWLOC_OBJ_OSDEV_GPU 1 false;
      Osdev "card1" HWLOC_OBJ_OSDEV_GPU 0 false ] [0; 1] [0].

Example small_topology_names :
  (topology_scopes small_topology).*1 =
  ["nrm.hwloc.Machine.0"; "nrm.hwloc.PU.0"; "nrm.hwloc.PU.0.0"; "nrm.hwloc.PU.0.1"; "nrm.hwloc.PU.1";
   "nrm.hwloc.card0"]%string.
Proof. vm_compute. reflexivity. Qed.

Lemma hwloc_scopes_equivalence_witness :
  exists table,
    nrm_scope_hwloc_scopes small_topology [] = Ok (0, table) /\ hash_wf table /\
    Forall (fun e => scope_uuid (ptr e) = Some (uuid e) /\ scope_wf (ptr e)) table /\
    (forall k, ptr <$> HASH_FIND table k =
       (fun x : nat * (string * nrm_scope) => x.2.2) <$>
         list_find (fun e => e.1 = k) (topology_scopes small_topology)) /\
    (forall set i, Forall in_u32 set -> 0 <= i < NRM_BITMAP_MAX ->
       nrm_bitmap_isset (Some (bitmap_of set)) i = c_bool (bool_decide (i ∈ set))).
Proof. apply (hwloc_scopes_equivalence small_topology). repeat constructor. Defined.
