(* ===== verification/Actuators.v ===== *)
(** * Actuators (src/actuator.c, src/actuators/discrete.c,
      src/actuators/continuous.c)

    An actuator has a name, the client that created it, a value, and either
    the sorted list of its choices or its limits. Operations that depend on the
    type go through the table of functions of the actuator. *)

From Stdlib Require Import Ascii.
From S2P Require Import Prelude Decimal Vectors Doubles Bitmaps Json Scopes.

Definition NRM_ACTUATOR_TYPE_DISCRETE : Z := 0.
Definition NRM_ACTUATOR_TYPE_CONTINUOUS : Z := 1.
Definition NRM_ACTUATOR_TYPE_MAX : Z := 2.

(** ** Data *)

(** The union [u]; reading the member that was not written is undefined. *)
Inductive actuator_u :=
| U_choices (choices : list double)
| U_limits (min max : double).

(** [nrm_actuator_data_t]. *)
Record nrm_actuator_data := Data {
  a_type : Z;
  a_uuid : option string;
  a_clientid : option string;
  a_value : double;
  a_u : actuator_u
}.

(** The two tables [struct nrm_actuator_ops_s]. *)
Inductive nrm_actuator_ops := nrm_actuator_discrete_ops | nrm_actuator_continuous_ops.

Record nrm_actuator := Actuator { a_data : nrm_actuator_data; a_ops : nrm_actuator_ops }.

Definition choices_of (a : nrm_actuator) : outcome (list double) :=
  match a_u (a_data a) with U_choices l => Ok l | U_limits _ _ => Undefined end.
Definition limits_of (a : nrm_actuator) : outcome (double * double) :=
  match a_u (a_data a) with U_limits x y => Ok (x, y) | U_choices _ => Undefined end.

Definition with_u (a : nrm_actuator) (u : actuator_u) : nrm_actuator :=
  let d := a_data a in
  Actuator (Data (a_type d) (a_uuid d) (a_clientid d) (a_value d) u) (a_ops a).

(** ** discrete.c *)

Definition nrm_actuator_discrete_create (oom : bool) (name : option string) : outcome nrm_actuator :=
  if oom then Undefined
  else Ok (Actuator (Data NRM_ACTUATOR_TYPE_DISCRETE name None d0 (U_choices []))
                    nrm_actuator_discrete_ops).

(** The pointer after the call; [a_uuid] is dereferenced. *)
Definition nrm_actuator_discrete_destroy (actuator : option (option nrm_actuator))
    : outcome (option nrm_actuator) :=
  match actuator with
  | Some (Some a) => _ ← deref (a_uuid (a_data a)); _ ← choices_of a; Ok None
  | Some None => Ok None
  | None => Ok None
  end.

(** The [nchoices] first elements of the array [choices]. *)
Definition nrm_actuator_discrete_set_choices `{Qsort} (actuator : option nrm_actuator)
    (nchoices : Z) (choices : option (list double)) : outcome (Z * option nrm_actuator) :=
  match actuator, choices with
  | Some a, Some cs =>
      if nchoices =? 0 then Ok (- NRM_EINVAL, actuator)
      else
        _ ← choices_of a;
        if nchoices <=? Z.of_nat (length cs) then
          Ok (0, Some (with_u a (U_choices (qsort nrm_vector_sort_double_cmp
                                              (take (Z.to_nat nchoices) cs)))))
        else Undefined
  | _, _ => Ok (- NRM_EINVAL, actuator)
  end.

Definition nrm_actuator_discrete_list_choices (actuator : option nrm_actuator)
    (choices_null oom : bool) : outcome (Z * option (list double)) :=
  match actuator with
  | Some a =>
      if choices_null then Ok (- NRM_EINVAL, None)
      else cs ← choices_of a;
           if oom then Ok (- NRM_ENOMEM, None) else Ok (NRM_SUCCESS, Some cs)
  | None => Ok (- NRM_EINVAL, None)
  end.

(** The loop that looks for the closest choice: the choice and its distance. *)
Definition closest_step (value : double) (st : double * double) (d : double) : double * double :=
  let '(ret, dist) := st in
  if dlt (fabs (dsub value d)) dist then (d, fabs (dsub value d)) else (ret, dist).
Definition closest (value : double) (choices : list double) : double :=
  fst (foldl (closest_step value) (value, DBL_MAX) choices).

(** The code and [*value]. *)
Definition nrm_actuator_discrete_corrected_value (actuator : option nrm_actuator)
    (value : option double) : outcome (Z * option double) :=
  match actuator, value with
  | Some a, Some v =>
      cs ← choices_of a;
      if (length cs =? 0)%nat then Ok (- NRM_EINVAL, Some v)
      else
        min ← deref (cs !! 0%nat);
        max ← deref (cs !! (length cs - 1)%nat);
        if dlt v min then Ok (0, Some min)
        else if dlt max v then Ok (0, Some max)
        else Ok (0, Some (closest v cs))
  | _, _ => Ok (- NRM_EINVAL, value)
  end.

(** The loop over the choices stops at the first one equal to the value. *)
Definition nrm_actuator_discrete_validate_value (a : option nrm_actuator) (value : double)
    : outcome Z :=
  a ← deref a;
  cs ← choices_of a;
  match list_find (fun d => deq d value = true) cs with
  | Some _ => Ok 0
  | None => Ok (- NRM_EDOM)
  end.

(** ** continuous.c *)

Definition nrm_actuator_continuous_create (oom : bool) (name : option string)
    : outcome nrm_actuator :=
  if oom then Undefined
  else Ok (Actuator (Data NRM_ACTUATOR_TYPE_CONTINUOUS name None d0 (U_limits d0 d0))
                    nrm_actuator_continuous_ops).

Definition nrm_actuator_continuous_destroy (actuator : option (option nrm_actuator))
    : outcome (option nrm_actuator) :=
  match actuator with
  | Some (Some a) => _ ← deref (a_uuid (a_data a)); Ok None
  | Some None => Ok None
  | None => Ok None
  end.

Definition nrm_actuator_continuous_set_limits (actuator : option nrm_actuator) (min max : double)
    : Z * option nrm_actuator :=
  match actuator with
  | None => (- NRM_EINVAL, None)
  | Some a => (0, Some (with_u a (U_limits min max)))
  end.

Definition nrm_actuator_continuous_corrected_value (actuator : option nrm_actuator)
    (value : option double) : outcome (Z * option double) :=
  match actuator, value with
  | Some a, Some v =>
      '(min, max) ← limits_of a;
      if dlt v min then Ok (0, Some min)
      else if dlt max v then Ok (0, Some max)
      else Ok (0, Some v)
  | _, _ => Ok (- NRM_EINVAL, value)
  end.

Definition nrm_actuator_continuous_validate_value (a : option nrm_actuator) (value : double)
    : outcome Z :=
  match a with
  | None => Ok (- NRM_EINVAL)
  | Some a =>
      '(min, max) ← limits_of a;
      if dlt value min || dlt max value then Ok (- NRM_EDOM) else Ok 0
  end.

(** ** actuator.c *)

Definition nrm_actuator_uuid (actuator : option nrm_actuator) : outcome (option string) :=
  _ ← c_assert (negb (is_null actuator)); a ← deref actuator; Ok (a_uuid (a_data a)).
Definition nrm_actuator_clientid (actuator : option nrm_actuator) : outcome (option string) :=
  _ ← c_assert (negb (is_null actuator)); a ← deref actuator; Ok (a_clientid (a_data a)).
Definition nrm_actuator_value (actuator : option nrm_actuator) : outcome double :=
  _ ← c_assert (negb (is_null actuator)); a ← deref actuator; Ok (a_value (a_data a)).

Definition with_clientid (a : nrm_actuator) (c : option string) : nrm_actuator :=
  let d := a_data a in Actuator (Data (a_type d) (a_uuid d) c (a_value d) (a_u d)) (a_ops a).
Definition with_value (a : nrm_actuator) (v : double) : nrm_actuator :=
  let d := a_data a in Actuator (Data (a_type d) (a_uuid d) (a_clientid d) v (a_u d)) (a_ops a).

Definition nrm_actuator_set_clientid (actuator : option nrm_actuator) (clientid : option string)
    : outcome (Z * nrm_actuator) :=
  _ ← c_assert (negb (is_null actuator)); a ← deref actuator; Ok (0, with_clientid a clientid).
Definition nrm_actuator_set_value (actuator : option nrm_actuator) (value : double)
    : outcome (Z * nrm_actuator) :=
  _ ← c_assert (negb (is_null actuator)); a ← deref actuator; Ok (0, with_value a value).

(** Dispatch through [ops]. *)
Definition nrm_actuator_destroy (actuator : option (option nrm_actuator))
    : outcome (option nrm_actuator) :=
  match actuator with
  | Some (Some a) =>
      match a_ops a with
      | nrm_actuator_discrete_ops => nrm_actuator_discrete_destroy actuator
      | nrm_actuator_continuous_ops => nrm_actuator_continuous_destroy actuator
      end
  | Some None => Ok None
  | None => Ok None
  end.

Definition nrm_actuator_validate_value (actuator : option nrm_actuator) (value : double)
    : outcome Z :=
  _ ← c_assert (negb (is_null actuator));
  a ← deref actuator;
  match a_ops a with
  | nrm_actuator_discrete_ops => nrm_actuator_discrete_validate_value actuator value
  | nrm_actuator_continuous_ops => nrm_actuator_continuous_validate_value actuator value
  end.

Definition nrm_actuator_corrected_value (actuator : option nrm_actuator) (value : option double)
    : outcome (Z * option double) :=
  _ ← c_assert (negb (is_null actuator));
  a ← deref actuator;
  match a_ops a with
  | nrm_actuator_discrete_ops => nrm_actuator_discrete_corrected_value actuator value
  | nrm_actuator_continuous_ops => nrm_actuator_continuous_corrected_value actuator value
  end.

(** ** Names of the types *)

Definition nrm_actuator_type_table : list (Z * string) :=
  [(NRM_ACTUATOR_TYPE_DISCRETE, "DISCRETE"%string);
   (NRM_ACTUATOR_TYPE_CONTINUOUS, "CONTINUOUS"%string)].

Definition nrm_actuator_type_t2s (type : Z) : string :=
  if (type <? 0) || (type >? NRM_ACTUATOR_TYPE_MAX) then "UNKNOWN"%string
  else match list_find (fun e => e.1 = type) nrm_actuator_type_table with
       | Some (_, e) => e.2
       | None => "UNKNOWN"%string
       end.

Definition nrm_actuator_type_s2t (s : string) : Z :=
  match list_find (fun e => e.2 = s) nrm_actuator_type_table with
  | Some (i, _) => Z.of_nat i
  | None => -1
  end.

(** ** JSON *)

Section json.
Context `{Jansson}.

Definition nrm_vector_d_to_json (vector : list double) : json_t :=
  json_array_of (json_real <$> vector).

Definition nrm_vector_d_from_json (vector : list double) (json : option json_t) : Z * list double :=
  if json_is_array json then
    (0, match json with Some j => json_real_value <$> json_array_items j | None => [] end)
  else (- NRM_EINVAL, vector).

Definition nrm_actuator_discrete_to_json (actuator : nrm_actuator) : outcome (option json_t) :=
  cs ← choices_of actuator;
  Ok (json_pack [("choices"%string, P_o_opt (Some (nrm_vector_d_to_json cs)))]).

Definition nrm_actuator_to_json (actuator : nrm_actuator) : outcome (option json_t) :=
  let d := a_data actuator in
  sub ← (if a_type d =? NRM_ACTUATOR_TYPE_DISCRETE then nrm_actuator_discrete_to_json actuator
         else Ok None);
  let clientid := json_string (a_clientid d) in
  Ok (json_pack [("uuid"%string, P_s (a_uuid d));
                 ("clientid"%string, P_o_opt clientid);
                 ("value"%string, P_f (a_value d));
                 ("type"%string, P_s (Some (nrm_actuator_type_t2s (a_type d))));
                 ("subtype"%string, P_o_opt sub)]).

Definition nrm_actuator_discrete_from_json (actuator : nrm_actuator) (json : option json_t)
    : outcome (Z * nrm_actuator) :=
  if json_is_object json then
    match unpack_opt json "choices" (fun v => Some (Some v)) None with
    | None => Ok (- NRM_EINVAL, actuator)
    | Some choices =>
        cs ← choices_of actuator;
        let '(_, cs) := nrm_vector_d_from_json cs choices in
        Ok (0, with_u actuator (U_choices cs))
    end
  else Ok (- NRM_EINVAL, actuator).

(** [json_unpack_ex] stores the members in order; only the value goes to the
    actuator itself, and the member after it cannot fail. The member ["clientid"] is unpacked as an
    object into a [char *]: [json_text] is what the memory of a JSON value reads
    as a string. *)
Definition nrm_actuator_from_json (json_text : json_t -> string) (actuator : nrm_actuator)
    (json : option json_t) : outcome (Z * nrm_actuator) :=
  if json_is_object json then
    match (uuid ← unpack_req json "uuid" unpack_string;
           clientid ← unpack_opt json "clientid" (fun v => Some (Some (json_text v))) None;
           type ← unpack_req json "type" unpack_string;
           value ← unpack_opt json "value" unpack_f (a_value (a_data actuator));
           Some (uuid, clientid, type, value)) with
    | None => Ok (- NRM_EINVAL, actuator)
    | Some (uuid, clientid, type, value) =>
        let d := a_data actuator in
        let actuator := Actuator
          (Data (u64 (nrm_actuator_type_s2t type)) (Some uuid)
             (match clientid with Some c => Some c | None => a_clientid d end) value (a_u d))
          (a_ops actuator) in
        if a_type (a_data actuator) =? NRM_ACTUATOR_TYPE_DISCRETE
        then nrm_actuator_discrete_from_json actuator
               (match unpack_opt json "subtype" (fun v => Some (Some v)) None with
                | Some s => s | None => None end)
        else Ok (- NRM_EINVAL, actuator)
    end
  else Ok (- NRM_EINVAL, actuator).

End json.

(** ** The closest choice *)

Lemma closest_step_dist value ret dist d :
  (closest_step value (ret, dist) d).2 =
  if dlt (fabs (dsub value d)) dist then fabs (dsub value d) else dist.
Proof. unfold closest_step. by destruct (dlt _ _). Qed.

(** The loop keeps the first choice at the least distance seen so far. *)
Lemma closest_loop value cs ret dist :
  let r := foldl (closest_step value) (ret, dist) cs in
  (forall d, d ∈ cs -> dlt (fabs (dsub value d)) r.2 = false) /\
  (forall x, dlt x dist = false -> dlt x r.2 = false) /\
  (r = (ret, dist) \/ r.1 ∈ cs /\ r.2 = fabs (dsub value r.1) /\ dlt r.2 dist = true).
Proof.
  revert ret dist; induction cs as [|c cs IH]; intros ret dist; cbn [foldl].
  { split_and!; [set_solver|done|by left]. }
  destruct (closest_step value (ret, dist) c) as [ret1 dist1] eqn:E.
  unfold closest_step in E. destruct (dlt (fabs (dsub value c)) dist) eqn:Hlt;
    injection E as <- <-; cbn zeta.
  - destruct (IH c (fabs (dsub value c))) as (H1 & H2 & H3).
    assert (Hmono : forall x, dlt x dist = false -> dlt x (fabs (dsub value c)) = false).
    { intros x Hx. destruct (dlt x (fabs (dsub value c))) eqn:Hx'; [|done].
      by rewrite (dlt_trans _ _ _ Hx' Hlt) in Hx. }
    split_and!.
    + intros d [->|Hd]%elem_of_cons; [apply H2, dlt_irrefl|by apply H1].
    + intros x Hx. by apply H2, Hmono.
    + right. destruct H3 as [->|(Hin & Hd & Hlt')]; cbn [fst snd].
      * split_and!; [left|done|done].
      * split_and!; [by right|done|by eapply dlt_trans].
  - destruct (IH ret dist) as (H1 & H2 & H3). split_and!.
    + intros d [->|Hd]%elem_of_cons; [by apply H2|by apply H1].
    + done.
    + destruct H3 as [->|(Hin & Hd & Hlt')]; [by left|right]. split_and!; [by right|done|done].
Qed.

(** If some choice is nearer than [DBL_MAX], the result is a choice and no
    choice is nearer. *)
Lemma closest_spec value cs :
  (exists d, d ∈ cs /\ dlt (fabs (dsub value d)) DBL_MAX = true) ->
  closest value cs ∈ cs /\
  forall d, d ∈ cs -> dlt (fabs (dsub value d)) (fabs (dsub value (closest value cs))) = false.
Proof.
  intros (d & Hd & Hlt). unfold closest. destruct (closest_loop value cs value DBL_MAX)
    as (H1 & H2 & H3). destruct H3 as [H3|(Hin & Hdist & _)].
  - specialize (H1 d Hd). rewrite H3 in H1. cbn in H1. congruence.
  - split; [done|]. intros e He. rewrite <- Hdist. by apply H1.
Qed.

Lemma deq_refl x : is_nan x = false -> deq x x = true.
Proof.
  unfold deq, SFeqb, SFcompare. destruct x as [|[]| |[] m e]; try done; intros _.
  all: rewrite Z.compare_refl; change (Pos.compare_cont Eq m m) with (Pos.compare m m).
  all: by rewrite Pos.compare_refl.
Qed.

Lemma validate_choice a cs r :
  a_u (a_data a) = U_choices cs -> r ∈ cs -> is_nan r = false ->
  nrm_actuator_discrete_validate_value (Some a) r = Ok 0.
Proof.
  intros Hu Hr Hnan. unfold nrm_actuator_discrete_validate_value, choices_of. cbn [deref mbind outcome_bind].
  rewrite Hu. cbn [mbind outcome_bind].
  destruct (list_find (fun d => deq d r = true) cs) as [[]|] eqn:E; [done|].
  apply list_find_None in E. rewrite Forall_forall in E. destruct (E r Hr). by apply deq_refl.
Qed.

Lemma sorted_choices_ends cs min max d :
  StronglySorted (fun x y => nrm_vector_sort_double_cmp x y <= 0) cs ->
  cs !! 0%nat = Some min -> cs !! (length cs - 1)%nat = Some max -> d ∈ cs ->
  dlt d min = false /\ dlt max d = false.
Proof.
  intros Hs Hmin Hmax Hd. unfold nrm_vector_sort_double_cmp in Hs.
  assert (Hle : forall i j x y, (i < j)%nat -> cs !! i = Some x -> cs !! j = Some y -> dlt y x = false).
  { clear - Hs. induction Hs as [|z cs Hs IH Hz]; intros [|i] [|j] x y Hij Hx Hy; simplify_eq/=; try lia.
    - rewrite Forall_forall in Hz. specialize (Hz y (list_elem_of_lookup_2 _ _ _ Hy)).
      destruct (dlt x y) eqn:E1; [by apply dlt_asym|]. destruct (dlt y x); [lia|done].
    - eapply (IH i j); [lia|done..]. }
  apply list_elem_of_lookup_1 in Hd as [k Hk]. pose proof (lookup_lt_Some _ _ _ Hk). split.
  - destruct k as [|k]; [simplify_eq; apply dlt_irrefl|]. eapply (Hle 0%nat (S k)); [lia|done..].
  - destruct (decide (k = length cs - 1)%nat) as [->|]; [simplify_eq; apply dlt_irrefl|].
    eapply (Hle k (length cs - 1)%nat); [lia|done..].
Qed.

(** ** Properties *)

(** C39: for a discrete actuator whose choices were set to numbers, a requested
    number is corrected to one of the choices, which [nrm_actuator_validate_value]
    accepts: the least choice when the request is below all of them, the greatest
    when it is above, else a choice such that no other is nearer, provided that
    some choice is at a distance below [DBL_MAX]. *)
Theorem discrete_corrected_value_valid `{Qsort} a cs v :
  a_u (a_data a) = U_choices [] -> a_ops a = nrm_actuator_discrete_ops ->
  cs <> [] -> Forall (fun d => is_nan d = false) cs -> is_nan v = false ->
  (exists d, d ∈ cs /\ dlt (fabs (dsub v d)) DBL_MAX = true) ->
  exists a' r,
    nrm_actuator_discrete_set_choices (Some a) (Z.of_nat (length cs)) (Some cs) = Ok (0, Some a') /\
    nrm_actuator_corrected_value (Some a') (Some v) = Ok (0, Some r) /\
    nrm_actuator_validate_value (Some a') r = Ok 0 /\ r ∈ cs /\
    (dlt v r = true /\ (forall d, d ∈ cs -> dlt d r = false) \/
     dlt r v = true /\ (forall d, d ∈ cs -> dlt r d = false) \/
     (forall d, d ∈ cs -> dlt (fabs (dsub v d)) (fabs (dsub v r)) = false)).
Proof.
  intros Hu Hops Hne Hnan Hv Hnear.
  pose proof (double_cmp_ok cs Hnan) as Hok.
  set (l := qsort nrm_vector_sort_double_cmp cs).
  assert (Hperm : l ≡ₚ cs) by (by apply qsort_perm).
  assert (Hsorted : StronglySorted (fun x y => nrm_vector_sort_double_cmp x y <= 0) l)
    by (by apply qsort_sorted).
  assert (Hlen : length l = length cs) by (by apply Permutation_length).
  assert (Hcs0 : (length cs <> 0)%nat) by (destruct cs; [done|cbn; lia]).
  exists (with_u a (U_choices l)).
  assert (Hset : nrm_actuator_discrete_set_choices (Some a) (Z.of_nat (length cs)) (Some cs)
                 = Ok (0, Some (with_u a (U_choices l)))).
  { unfold nrm_actuator_discrete_set_choices, choices_of. rewrite Hu. cbn [mbind outcome_bind].
    destruct (Z.eqb_spec (Z.of_nat (length cs)) 0); [lia|].
    rewrite Z.leb_refl, Nat2Z.id, take_ge by done. done. }
  assert (Hvalid : forall r, r ∈ l -> nrm_actuator_validate_value (Some (with_u a (U_choices l))) r = Ok 0).
  { intros r Hr. unfold nrm_actuator_validate_value.
    cbn [is_null negb c_assert mbind outcome_bind deref with_u a_ops]. rewrite Hops.
    apply (validate_choice _ l); [done..|]. rewrite Forall_forall in Hnan. apply Hnan. by rewrite <- Hperm. }
  unfold nrm_actuator_corrected_value. cbn [is_null negb c_assert mbind outcome_bind deref with_u a_ops].
  rewrite Hops. cbn [nrm_actuator_discrete_corrected_value choices_of with_u a_data a_u mbind outcome_bind].
  unfold nrm_actuator_discrete_corrected_value, choices_of. cbn [with_u a_data a_u mbind outcome_bind].
  rewrite Hlen. destruct (Nat.eqb_spec (length cs) 0); [lia|].
  destruct (lookup_lt_is_Some_2 l 0) as [min Hmin]; [lia|].
  destruct (lookup_lt_is_Some_2 l (length cs - 1)) as [max Hmax]; [lia|].
  rewrite Hmin, Hmax. cbn [deref mbind outcome_bind].
  rewrite <- Hlen in Hmax. pose proof (list_elem_of_lookup_2 _ _ _ Hmin) as Hminin.
  pose proof (list_elem_of_lookup_2 _ _ _ Hmax) as Hmaxin.
  assert (Hends : forall d, d ∈ cs -> dlt d min = false /\ dlt max d = false).
  { intros d Hd. rewrite <- Hperm in Hd. by eapply sorted_choices_ends. }
  destruct (dlt v min) eqn:E1; [|destruct (dlt max v) eqn:E2].
  - exists min. split_and!; [done..|by apply Hvalid|by rewrite <- Hperm|]. left.
    split; [done|]. intros d Hd. by apply Hends.
  - exists max. split_and!; [done..|by apply Hvalid|by rewrite <- Hperm|]. right. left.
    split; [done|]. intros d Hd. by apply Hends.
  - destruct (closest_spec v l) as [Hin Hc].
    { destruct Hnear as (d & Hd & Hlt). exists d. by rewrite Hperm. }
    exists (closest v l). split_and!; [done..|by apply Hvalid|by rewrite <- Hperm|].
    right. right. intros d Hd. apply Hc. by rewrite Hperm.
Qed.

Lemma discrete_corrected_value_valid_witness :
  let a := Actuator (Data 0 (Some "a") None d0 (U_choices [])) nrm_actuator_discrete_ops in
  let cs := [d_of_Z 30; d_of_Z 10; d_of_Z 20] in
  exists a' r,
    nrm_actuator_discrete_set_choices (Some a) 3 (Some cs) = Ok (0, Some a') /\
    nrm_actuator_corrected_value (Some a') (Some (d_of_Z 14)) = Ok (0, Some r) /\
    nrm_actuator_validate_value (Some a') r = Ok 0.
Proof.
  intros a cs.
  destruct (discrete_corrected_value_valid a cs (d_of_Z 14)) as (a' & r & H1 & H2 & H3 & _);
    [reflexivity|reflexivity|discriminate|repeat constructor|reflexivity| |].
  - exists (d_of_Z 10). split; [right; left|vm_compute; reflexivity].
  - exists a', r. split; [exact H1|]. split; [exact H2|exact H3].
Defined.

(** For a continuous actuator with limits [min <= max], correcting a number
    clamps it into the limits, the corrected value is accepted by
    [nrm_actuator_validate_value], correcting again changes nothing, and a value
    that is accepted is left as it is. *)
Theorem continuous_corrected_value_clamps a min max v :
  a_ops a = nrm_actuator_continuous_ops ->
  is_nan min = false -> is_nan max = false -> is_nan v = false -> dlt max min = false ->
  exists a' r,
    nrm_actuator_continuous_set_limits (Some a) min max = (0, Some a') /\
    nrm_actuator_corrected_value (Some a') (Some v) = Ok (0, Some r) /\
    nrm_actuator_validate_value (Some a') r = Ok 0 /\
    nrm_actuator_corrected_value (Some a') (Some r) = Ok (0, Some r) /\
    (nrm_actuator_validate_value (Some a') v = Ok 0 -> r = v).
Proof.
  intros Hops Hmin Hmax Hv Hle. exists (with_u a (U_limits min max)).
  unfold nrm_actuator_corrected_value, nrm_actuator_validate_value.
  cbn [is_null negb c_assert mbind outcome_bind deref with_u a_ops]. rewrite Hops.
  unfold nrm_actuator_continuous_corrected_value, nrm_actuator_continuous_validate_value, limits_of.
  cbn [with_u a_data a_u mbind outcome_bind].
  destruct (dlt v min) eqn:E1; [|destruct (dlt max v) eqn:E2].
  - exists min. rewrite dlt_irrefl, Hle. cbn. split_and!; done.
  - exists max. rewrite dlt_irrefl, Hle. rewrite orb_true_r. cbn. split_and!; done.
  - exists v. rewrite E1, E2. cbn. split_and!; done.
Qed.

Lemma continuous_corrected_value_clamps_witness :
  let a := Actuator (Data 1 (Some "a") None d0 (U_limits d0 d0)) nrm_actuator_continuous_ops in
  exists a' r,
    nrm_actuator_continuous_set_limits (Some a) (d_of_Z 1) (d_of_Z 5) = (0, Some a') /\
    nrm_actuator_corrected_value (Some a') (Some (d_of_Z 9)) = Ok (0, Some r) /\
    nrm_actuator_validate_value (Some a') r = Ok 0.
Proof.
  intros a. destruct (continuous_corrected_value_clamps a (d_of_Z 1) (d_of_Z 5) (d_of_Z 9))
    as (a' & r & H1 & H2 & H3 & _); [reflexivity..|vm_compute; reflexivity|].
  exists a', r. split; [exact H1|]. split; [exact H2|exact H3].
Defined.

Lemma real_values_of `{Jansson} cs :
  Forall (fun d => finite d = true) cs ->
  json_real_value <$> omap id (json_real <$> cs) = cs.
Proof.
  induction 1 as [|d cs Hd _ IH]; [done|].
  assert (E : json_real d = Some (json_make (J_real d))) by (unfold json_real; by rewrite Hd).
  rewrite fmap_cons, E.
  change (json_real_value (json_make (J_real d)) :: (json_real_value <$> omap id (json_real <$> cs))
          = d :: cs).
  by rewrite IH, (real_value_of d).
Qed.

(** A discrete actuator survives its JSON form, except for the client: the
    member ["clientid"] is read as the memory of a JSON value, not as its text.
    A continuous actuator is refused with [-NRM_EINVAL]. *)
Theorem actuator_json_roundtrip `{Jansson} json_text a b cs name client :
  a_u (a_data a) = U_choices cs -> a_uuid (a_data a) = Some name ->
  a_clientid (a_data a) = Some client -> utf8_check name = true -> utf8_check client = true ->
  Forall (fun d => finite d = true) cs -> finite (a_value (a_data a)) = true ->
  (exists cs', a_u (a_data b) = U_choices cs') ->
  (a_type (a_data a) = NRM_ACTUATOR_TYPE_DISCRETE ->
   exists j, nrm_actuator_to_json a = Ok (Some j) /\
     nrm_actuator_from_json json_text b (Some j) =
     Ok (0, Actuator (Data NRM_ACTUATOR_TYPE_DISCRETE (Some name)
                        (Some (json_text (json_make (J_string client))))
                        (a_value (a_data a)) (U_choices cs)) (a_ops b))) /\
  (a_type (a_data a) = NRM_ACTUATOR_TYPE_CONTINUOUS ->
   exists j b', nrm_actuator_to_json a = Ok (Some j) /\
     nrm_actuator_from_json json_text b (Some j) = Ok (- NRM_EINVAL, b')).
Proof.
  intros Hu Hname Hclient Hutf1 Hutf2 Hfin Hval [cs' Hb].
  unfold nrm_actuator_to_json. rewrite Hname, Hclient.
  assert (Ht : forall t, utf8_check (nrm_actuator_type_t2s t) = true).
  { intros t. apply utf8_check_ascii. unfold nrm_actuator_type_t2s.
    destruct (_ || _); [repeat constructor; by apply Nat.ltb_lt|].
    destruct (list_find _ _) as [[i e]|] eqn:E; [|repeat constructor; by apply Nat.ltb_lt].
    apply list_find_Some in E as (E & _). destruct i as [|[|]]; cbn in E; simplify_eq;
      repeat constructor; by apply Nat.ltb_lt. }
  split; intros Htype; rewrite Htype.
  - cbn [Z.eqb NRM_ACTUATOR_TYPE_DISCRETE].
    unfold nrm_actuator_discrete_to_json, choices_of. rewrite Hu. cbn [mbind outcome_bind].
    unfold json_pack. cbn [pack_members pack_value]. unfold json_real, json_string.
    rewrite Hutf1, Hutf2, Hval, Ht. cbn.
    eexists. split; [reflexivity|]. unfold nrm_actuator_from_json.
    rewrite is_object_make. unfold unpack_req, unpack_opt. rewrite !object_get_make, !assoc_cons.
    decide_keys. cbn. rewrite !unpack_string_make, unpack_f_make. cbn.
    unfold nrm_actuator_discrete_from_json. rewrite is_object_make. unfold unpack_opt.
    rewrite object_get_make, assoc_cons. decide_keys. unfold choices_of. cbn. rewrite Hb. cbn.
    unfold nrm_vector_d_from_json, nrm_vector_d_to_json.
    rewrite is_array_of, array_items_of, real_values_of by done. by vm_compute (u64 _).
  - cbn [Z.eqb NRM_ACTUATOR_TYPE_DISCRETE NRM_ACTUATOR_TYPE_CONTINUOUS mbind outcome_bind].
    unfold json_pack. cbn [pack_members pack_value]. unfold json_real, json_string.
    rewrite Hutf1, Hutf2, Hval, Ht. cbn.
    eexists _, _. split; [reflexivity|]. unfold nrm_actuator_from_json.
    rewrite is_object_make. unfold unpack_req, unpack_opt. rewrite !object_get_make, !assoc_cons.
    decide_keys. cbn. rewrite !unpack_string_make, unpack_f_make. cbn. reflexivity.
Qed.

Lemma actuator_json_roundtrip_witness :
  let a := Actuator (Data 0 (Some "a") (Some "c") d0 (U_choices [d_of_Z 1]))
             nrm_actuator_discrete_ops in
  exists j, nrm_actuator_to_json a = Ok (Some j) /\
    nrm_actuator_from_json (fun _ => "x"%string) a (Some j) =
    Ok (0, Actuator (Data 0 (Some "a"%string) (Some "x"%string) d0 (U_choices [d_of_Z 1]))
             nrm_actuator_discrete_ops).
Proof.
  intros a. apply (actuator_json_roundtrip (fun _ => "x"%string) a a [d_of_Z 1] "a" "c");
    [reflexivity..|repeat constructor|reflexivity|eexists; reflexivity|reflexivity].
Defined.
