(* ===== verification/Events.v ===== *)
(** * Time series and the event base (src/timeserie.c, src/eventbase.c)

    The event base keeps, for each sensor and scope, the slices of one
    microsecond in which events were received. Objects that the code reaches
    through pointers stored in a hash table are updated in the table. *)

From S2P Require Import Prelude Vectors Doubles Hashes Bitmaps Json Timers Scopes.

(** ** Time series *)

(** [nrm_event_t]. *)
Record nrm_event := Event { e_time : nrm_time; e_value : double }.

(** [struct nrm_timeserie_s]. *)
Record nrm_timeserie := Timeserie {
  t_sensor_uuid : string;
  t_scope : nrm_scope;
  t_events : list nrm_event;
  t_start : nrm_time
}.

(** [oom] and [err] are the results of the two allocations. *)
Definition nrm_timeserie_create (ts_null oom : bool) (err : Z) (sensor_uuid : option string)
    (scope : option nrm_scope) : Z * option nrm_timeserie :=
  match sensor_uuid, scope with
  | Some u, Some s =>
      if ts_null then (- NRM_EINVAL, None)
      else if oom then (- NRM_ENOMEM, None)
      else if negb (err =? 0) then (err, None)
      else (0, Some (Timeserie u s [] (nrm_time_fromns 0)))
  | _, _ => (- NRM_EINVAL, None)
  end.

(** The pointer keeps its value after the memory is released. *)
Definition nrm_timeserie_destroy (ts : option (option nrm_timeserie)) : outcome unit :=
  match ts with None => Ok tt | Some t => _ ← deref t; Ok tt end.

Definition nrm_timeserie_add_event (ts : option nrm_timeserie) (time : nrm_time) (val : double)
    : Z * option nrm_timeserie :=
  match ts with
  | None => (- NRM_EINVAL, None)
  | Some t =>
      let start := if nrm_time_tons (t_start t) <? nrm_time_tons time then time else t_start t in
      (0, Some (Timeserie (t_sensor_uuid t) (t_scope t) (t_events t ++ [Event time val]) start))
  end.

Definition nrm_timeserie_add_events (ts : option nrm_timeserie) (events : list nrm_event)
    : Z * option nrm_timeserie :=
  match ts with
  | None => (- NRM_EINVAL, None)
  | Some t =>
      (0, foldl (fun t e => snd (nrm_timeserie_add_event t (e_time e) (e_value e))) (Some t) events)
  end.

Definition nrm_timeserie_get_events (ts : option nrm_timeserie) : option (list nrm_event) :=
  t_events <$> ts.

(** ** The event base *)

Definition TIMESLICE_PERIOD : Z := 1000.

(** [nrm_eb_timeslice_t], [nrm_eb_scopebase_t], [nrm_eb_sensorbase_t] and
    [struct nrm_eventbase_s]. *)
Record timeslice := Timeslice { ts_key : Z; ts_events : list nrm_event }.
Record scopebase := Scopebase { sc_uuid : string; sc_slices : list timeslice }.
Record sensorbase := Sensorbase { sb_uuid : string; sb_scopes : nrm_hash scopebase }.
Record eventbase := Eventbase { eb_maxperiods : Z; eb_sensors : nrm_hash sensorbase }.

(** C's remainder truncates towards zero. *)
Definition nrm_eb_time2key (t : nrm_time) : Z :=
  let key := nrm_time_tons t in i64 (key - Z.rem key TIMESLICE_PERIOD).

Definition nrm_eventbase_create (oom : bool) (maxperiods : Z) : option eventbase :=
  if oom then None else Some (Eventbase maxperiods []).

Definition nrm_eventbase_get_maxperiods (eb : eventbase) : Z := eb_maxperiods eb.

Definition nrm_eventbase_destroy (eventbase_ : option (option eventbase)) : option (option eventbase) :=
  match eventbase_ with Some _ => Some None | None => None end.

Definition nrm_eventbase_add_event (ts : timeslice) (time : nrm_time) (val : double) : timeslice :=
  Timeslice (ts_key ts) (ts_events ts ++ [Event time val]).

Definition nrm_eventbase_add_timeslice (slices : list timeslice) (key : Z) : list timeslice :=
  slices ++ [Timeslice key []].

Definition nrm_eventbase_add_scope (scopes : nrm_hash scopebase) (uuid : string)
    : nrm_hash scopebase :=
  snd (nrm_hash_add false scopes (Some uuid) (Scopebase uuid [])).

Definition nrm_eventbase_add_sensor (sensors : nrm_hash sensorbase) (uuid : string)
    : nrm_hash sensorbase :=
  snd (nrm_hash_add false sensors (Some uuid) (Sensorbase uuid [])).

(** Finding the entry of [uuid] or adding it: the table with the entry. An empty
    table is not searched; a NULL uuid there reaches [nrm_string_incref], and
    fails the assertion otherwise. *)
Definition find_or_add {A} (table : nrm_hash A) (u : option string)
    (add : nrm_hash A -> string -> nrm_hash A) : outcome (nrm_hash A * string) :=
  match table with
  | [] => u ← deref u; Ok (add table u, u)
  | _ =>
      let '(err, _) := nrm_hash_find table u false in
      _ ← c_assert ((err =? 0) || (err =? - NRM_ENOTFOUND));
      u ← deref u;
      Ok (if err =? - NRM_ENOTFOUND then add table u else table, u)
  end.

(** The slice of [key], added when it is missing, gets the event. *)
Fixpoint add_to_slice (slices : list timeslice) (key : Z) (time : nrm_time) (value : double)
    : list timeslice :=
  match slices with
  | [] => [nrm_eventbase_add_event (Timeslice key []) time value]
  | ts :: slices =>
      if ts_key ts =? key then nrm_eventbase_add_event ts time value :: slices
      else ts :: add_to_slice slices key time value
  end.

Definition nrm_eventbase_push_event (eb : option eventbase) (sensor_uuid : option string)
    (scope : option nrm_scope) (time : nrm_time) (value : double)
    : outcome (Z * option eventbase) :=
  match eb, scope with
  | Some eb, Some scope =>
      '(sensors, u) ← find_or_add (eb_sensors eb) sensor_uuid nrm_eventbase_add_sensor;
      sb ← deref (HASH_FIND sensors u);
      '(scopes, c) ← find_or_add (sb_scopes (ptr sb)) (scope_uuid scope) nrm_eventbase_add_scope;
      let key := nrm_time_tons time in
      let key := i64 (key - Z.rem key TIMESLICE_PERIOD) in
      let scopes := hash_update scopes c (fun sc =>
                      Scopebase (sc_uuid sc) (add_to_slice (sc_slices sc) key time value)) in
      let sensors := hash_update sensors u (fun sb => Sensorbase (sb_uuid sb) scopes) in
      Ok (0, Some (Eventbase (eb_maxperiods eb) sensors))
  | _, _ => Ok (- NRM_EINVAL, eb)
  end.

(** [now] is what [nrm_time_gettime] reads. The result of [nrm_timeserie_create] is
    not checked: without a sensor or scope the pointer is not initialised. *)
Definition nrm_eventbase_pull_timeserie (now : nrm_time) (eb : option eventbase)
    (sensor_uuid : option string) (scope : option nrm_scope) (since : nrm_time)
    : outcome (Z * option nrm_timeserie) :=
  match eb with
  | None => Ok (- NRM_EINVAL, None)
  | Some eb =>
      let '(_, ret) := nrm_timeserie_create false false 0 sensor_uuid scope in
      ret ← deref ret;
      scope ← deref scope;
      match nrm_hash_find (eb_sensors eb) sensor_uuid false with
      | (_, None) => Ok (0, Some ret)
      | (_, Some sb) =>
          match nrm_hash_find (sb_scopes sb) (scope_uuid scope) false with
          | (_, None) => Ok (0, Some ret)
          | (_, Some sc) =>
              let ksince := nrm_eb_time2key since in
              let know := nrm_eb_time2key now in
              Ok (0, foldl (fun ret tl =>
                       if (ts_key tl >=? ksince) && (ts_key tl <? know)
                       then snd (nrm_timeserie_add_events ret (ts_events tl)) else ret)
                     (Some ret) (sc_slices sc))
          end
      end
  end.

Definition nrm_eventbase_tick (eb : eventbase) (time : nrm_time) : Z * eventbase := (0, eb).

(** ** What the event base holds *)

(** The slices of a sensor and a scope. *)
Definition slices_of (eb : eventbase) (s c : string) : list timeslice :=
  match HASH_FIND (eb_sensors eb) s with
  | None => []
  | Some sb => match HASH_FIND (sb_scopes (ptr sb)) c with
               | None => []
               | Some sc => sc_slices (ptr sc)
               end
  end.

Lemma HASH_FIND_add {A} (table : nrm_hash A) e k :
  HASH_FIND (HASH_ADD table e) k =
  match HASH_FIND table k with
  | Some x => Some x
  | None => if decide (uuid e = k) then Some e else None
  end.
Proof.
  unfold HASH_ADD. induction table as [|x table IH]; cbn [app]; rewrite !HASH_FIND_cons; [done|].
  destruct (decide (uuid x = k)); done.
Qed.

(** The table after [find_or_add]: an entry that was missing is new. *)
Lemma find_or_add_spec {A} (table : nrm_hash A) u mk :
  find_or_add table (Some u) (fun t k => snd (nrm_hash_add false t (Some k) (mk k))) =
  Ok (match HASH_FIND table u with Some _ => table | None => HASH_ADD table (Elem u (mk u)) end, u).
Proof.
  unfold find_or_add, nrm_hash_add. change (key_of (Some u)) with u.
  destruct table as [|e table]; [done|]. unfold nrm_hash_find.
  destruct (HASH_FIND (e :: table) u) eqn:E; [done|].
  change ((- NRM_ENOTFOUND =? 0) || (- NRM_ENOTFOUND =? - NRM_ENOTFOUND)) with true.
  change (- NRM_ENOTFOUND =? - NRM_ENOTFOUND) with true.
  cbn [c_assert mbind outcome_bind deref]. change (key_of (Some u)) with u. by rewrite E.
Qed.

(** The entry that [find_or_add] returns. *)
Lemma find_or_add_lookup {A} (table : nrm_hash A) u (mk : string -> A) k :
  HASH_FIND (match HASH_FIND table u with Some _ => table
             | None => HASH_ADD table (Elem u (mk u)) end) k =
  match HASH_FIND table k with
  | Some x => Some x
  | None => if decide (u = k) then Some (Elem u (mk u)) else None
  end.
Proof.
  destruct (HASH_FIND table u) as [x|] eqn:E; [|apply HASH_FIND_add].
  destruct (HASH_FIND table k) eqn:E'; [done|]. destruct (decide (u = k)) as [->|]; congruence.
Qed.

(** [push] goes to the slices of its sensor and scope only. *)
Lemma push_slices eb s scope c time value :
  scope_uuid scope = Some c ->
  exists eb', nrm_eventbase_push_event (Some eb) (Some s) (Some scope) time value = Ok (0, Some eb') /\
    forall s' c', slices_of eb' s' c' =
      if decide (s = s' /\ c = c')
      then add_to_slice (slices_of eb s c) (nrm_eb_time2key time) time value
      else slices_of eb s' c'.
Proof.
  intros Hc. unfold nrm_eventbase_push_event.
  change nrm_eventbase_add_sensor with
    (fun t k => snd (nrm_hash_add false t (Some k) (Sensorbase k []))).
  change nrm_eventbase_add_scope with
    (fun t k => snd (nrm_hash_add false t (Some k) (Scopebase k []))).
  rewrite (find_or_add_spec (eb_sensors eb) s (fun k => Sensorbase k [])). cbn [mbind outcome_bind].
  rewrite (find_or_add_lookup (eb_sensors eb) s (fun k => Sensorbase k [])).
  set (sb := match HASH_FIND (eb_sensors eb) s with Some x => x | None => Elem s (Sensorbase s []) end).
  assert (match HASH_FIND (eb_sensors eb) s with
          | Some x => Some x | None => if decide (s = s) then Some (Elem s (Sensorbase s [])) else None
          end = Some sb) as -> by (subst sb; destruct (HASH_FIND _ s); [done|by rewrite decide_True]).
  cbn [deref mbind outcome_bind]. rewrite Hc.
  rewrite (find_or_add_spec (sb_scopes (ptr sb)) c (fun k => Scopebase k [])). cbn [mbind outcome_bind].
  eexists. split; [reflexivity|]. intros s' c'. unfold slices_of at 1. cbn [eb_sensors].
  rewrite hash_update_find, (find_or_add_lookup (eb_sensors eb) s (fun k => Sensorbase k [])).
  destruct (decide (s = s')) as [<-|Hs].
  2:{ rewrite decide_False by tauto. unfold slices_of.
      by destruct (HASH_FIND (eb_sensors eb) s') as [x|]. }
  assert (Hsl : forall c0, match HASH_FIND (sb_scopes (ptr sb)) c0 with
                  | Some sc => sc_slices (ptr sc) | None => [] end = slices_of eb s c0).
  { intros c0. unfold slices_of, sb. by destruct (HASH_FIND (eb_sensors eb) s). }
  assert (Hgoal : match HASH_FIND (hash_update
      (match HASH_FIND (sb_scopes (ptr sb)) c with Some _ => sb_scopes (ptr sb)
       | None => HASH_ADD (sb_scopes (ptr sb)) (Elem c (Scopebase c [])) end) c
      (fun sc => Scopebase (sc_uuid sc)
                   (add_to_slice (sc_slices sc) (nrm_eb_time2key time) time value))) c' with
      | Some sc => sc_slices (ptr sc) | None => [] end
      = if decide (s = s /\ c = c')
        then add_to_slice (slices_of eb s c) (nrm_eb_time2key time) time value
        else slices_of eb s c').
  { rewrite hash_update_find, (find_or_add_lookup _ c (fun k => Scopebase k [])).
    rewrite <- (Hsl c), <- (Hsl c').
    destruct (decide (c = c')) as [<-|Hne].
    - rewrite decide_True by done. by destruct (HASH_FIND (sb_scopes (ptr sb)) c).
    - rewrite decide_False by tauto. by destruct (HASH_FIND (sb_scopes (ptr sb)) c'). }
  destruct (HASH_FIND (eb_sensors eb) s) as [x|]; exact Hgoal.
Qed.

(** ** Keys *)

Lemma time2key_bounds t :
  time_ok t -> nrm_eb_time2key t <= nrm_time_tons t < nrm_eb_time2key t + TIMESLICE_PERIOD /\
               nrm_eb_time2key t mod TIMESLICE_PERIOD = 0.
Proof.
  intros Ht. unfold nrm_eb_time2key. rewrite tons_ok by done. destruct Ht as [Hs Hn].
  assert (Hr : 0 <= tv_nsec t + 1000000000 * tv_sec t < 2 ^ 63) by lia.
  revert Hr. generalize (tv_nsec t + 1000000000 * tv_sec t) as ns. intros ns Hr.
  unfold TIMESLICE_PERIOD. rewrite Z.rem_mod_nonneg by lia.
  rewrite i64_small by (unfold in_i64; zlia). split; zlia.
Qed.

(** ** Pulling what was pushed *)

Definition in_window (ksince know : Z) (ts : timeslice) : bool :=
  (ts_key ts >=? ksince) && (ts_key ts <? know).

(** The events of the slices in a window, in the order of the table. *)
Definition window_events (ksince know : Z) (slices : list timeslice) : list nrm_event :=
  slices ≫= fun ts => if in_window ksince know ts then ts_events ts else [].

Lemma add_events_events t events :
  exists t', nrm_timeserie_add_events (Some t) events = (0, Some t') /\
             t_events t' = t_events t ++ events /\ t_sensor_uuid t' = t_sensor_uuid t /\
             t_scope t' = t_scope t.
Proof.
  unfold nrm_timeserie_add_events. revert t; induction events as [|e events IH]; intros t.
  { exists t. by rewrite app_nil_r. }
  cbn [foldl nrm_timeserie_add_event snd].
  destruct (IH (Timeserie (t_sensor_uuid t) (t_scope t) (t_events t ++ [Event (e_time e) (e_value e)])
    (if nrm_time_tons (t_start t) <? nrm_time_tons (e_time e) then e_time e else t_start t)))
    as (t' & E & H1 & H2 & H3).
  injection E as E. rewrite E. exists t'. split_and!; [done| |done|done].
  rewrite H1. cbn. rewrite <- app_assoc. by destruct e.
Qed.

Lemma pull_loop ksince know slices t :
  exists t', foldl (fun ret tl => if (ts_key tl >=? ksince) && (ts_key tl <? know)
                                  then snd (nrm_timeserie_add_events ret (ts_events tl)) else ret)
               (Some t) slices = Some t' /\
    t_events t' = t_events t ++ window_events ksince know slices /\
    t_sensor_uuid t' = t_sensor_uuid t /\ t_scope t' = t_scope t.
Proof.
  revert t; induction slices as [|tl slices IH]; intros t; cbn [foldl].
  { exists t. cbn. by rewrite app_nil_r. }
  unfold window_events. cbn [mbind list_bind]. unfold in_window at 1.
  destruct ((ts_key tl >=? ksince) && (ts_key tl <? know)).
  - destruct (add_events_events t (ts_events tl)) as (t1 & -> & H1 & H2 & H3). cbn [snd].
    destruct (IH t1) as (t' & E & H1' & H2' & H3'). exists t'. split_and!; [done| |congruence|congruence].
    rewrite H1', H1. by rewrite <- app_assoc.
  - apply IH.
Qed.

Lemma pull_events now eb s scope c since :
  scope_uuid scope = Some c ->
  exists t, nrm_eventbase_pull_timeserie now (Some eb) (Some s) (Some scope) since = Ok (0, Some t) /\
    t_events t = window_events (nrm_eb_time2key since) (nrm_eb_time2key now) (slices_of eb s c) /\
    t_sensor_uuid t = s /\ t_scope t = scope.
Proof.
  intros Hc. unfold nrm_eventbase_pull_timeserie, slices_of.
  cbn [nrm_timeserie_create negb Z.eqb orb deref mbind outcome_bind].
  assert (Hf : forall A (table : nrm_hash A) k,
            (nrm_hash_find table (Some k) false).2 = ptr <$> HASH_FIND table k).
  { intros A table k. unfold nrm_hash_find. destruct table; [done|].
    by destruct (HASH_FIND _ k). }
  pose proof (Hf _ (eb_sensors eb) s) as H1.
  destruct (nrm_hash_find (eb_sensors eb) (Some s) false) as [rc sb]. cbn in H1. subst sb.
  destruct (HASH_FIND (eb_sensors eb) s) as [sb|]; cbn [fmap option_fmap option_map];
    [|eexists; split; [reflexivity|done]].
  rewrite Hc. pose proof (Hf _ (sb_scopes (ptr sb)) c) as H2.
  destruct (nrm_hash_find (sb_scopes (ptr sb)) (Some c) false) as [rc2 sc]. cbn in H2. subst sc.
  destruct (HASH_FIND (sb_scopes (ptr sb)) c) as [sc|]; cbn [fmap option_fmap option_map];
    [|eexists; split; [reflexivity|done]].
  destruct (pull_loop (nrm_eb_time2key since) (nrm_eb_time2key now) (sc_slices (ptr sc))
    (Timeserie s scope [] (nrm_time_fromns 0))) as (t & E & H & H' & H'').
  exists t. rewrite E. done.
Qed.

(** One more event in the window, or not. *)
Lemma window_add_to_slice ksince know slices key time value :
  window_events ksince know (add_to_slice slices key time value) ≡ₚ
  window_events ksince know slices ++
    (if (key >=? ksince) && (key <? know) then [Event time value] else []).
Proof.
  unfold window_events. induction slices as [|ts slices IH]; cbn [add_to_slice mbind list_bind].
  - unfold in_window. cbn. by destruct ((key >=? ksince) && (key <? know)).
  - destruct (Z.eqb_spec (ts_key ts) key) as [<-|Hne]; cbn [mbind list_bind].
    + unfold in_window. cbn [ts_key ts_events nrm_eventbase_add_event].
      destruct ((ts_key ts >=? ksince) && (ts_key ts <? know)).
      * rewrite <- !app_assoc. apply Permutation_app_head. apply Permutation_app_comm.
      * by rewrite app_nil_r.
    + rewrite <- app_assoc. apply Permutation_app_head. exact IH.
Qed.

(** ** Properties *)

(** One call of [nrm_eventbase_push_event]. *)
Record push := Push { p_sensor : string; p_scope : nrm_scope; p_time : nrm_time; p_value : double }.

Definition push_events (eb : eventbase) (pushes : list push) : outcome eventbase :=
  mfold (fun eb p =>
           '(_, eb) ← nrm_eventbase_push_event (Some eb) (Some (p_sensor p)) (Some (p_scope p))
                        (p_time p) (p_value p);
           deref eb) eb pushes.

(** The event of a push, if it is for the sensor and the scope and its slice is
    in the window. *)
Definition pushed_event (s c : string) (ksince know : Z) (p : push) : option nrm_event :=
  if decide (p_sensor p = s /\ scope_uuid (p_scope p) = Some c) then
    if (nrm_eb_time2key (p_time p) >=? ksince) && (nrm_eb_time2key (p_time p) <? know)
    then Some (Event (p_time p) (p_value p)) else None
  else None.

Lemma push_events_window s c ksince know pushes eb :
  Forall (fun p => is_Some (scope_uuid (p_scope p))) pushes ->
  exists eb', push_events eb pushes = Ok eb' /\
    window_events ksince know (slices_of eb' s c) ≡ₚ
    window_events ksince know (slices_of eb s c) ++ omap (pushed_event s c ksince know) pushes.
Proof.
  intros Hp. revert eb. induction Hp as [|p pushes [c' Hc] _ IH]; intros eb.
  { exists eb. cbn. by rewrite app_nil_r. }
  destruct (push_slices eb (p_sensor p) (p_scope p) c' (p_time p) (p_value p) Hc)
    as (eb1 & E & Hsl).
  destruct (IH eb1) as (eb' & E' & Hw). exists eb'.
  unfold push_events in *. cbn [mfold]. rewrite E. cbn [mbind outcome_bind deref].
  split; [exact E'|]. rewrite Hw, Hsl. clear E E' Hw.
  change (omap (pushed_event s c ksince know) (p :: pushes)) with
    (match pushed_event s c ksince know p with
     | Some e => e :: omap (pushed_event s c ksince know) pushes
     | None => omap (pushed_event s c ksince know) pushes end).
  unfold pushed_event at 2. rewrite Hc.
  destruct (decide (p_sensor p = s /\ c' = c)) as [[<- <-]|Hne].
  - rewrite decide_True by done. rewrite window_add_to_slice.
    destruct (_ && _); [by rewrite <- app_assoc|by rewrite app_nil_r].
  - rewrite decide_False by (intros [H1 [= H2]]; by apply Hne). done.
Qed.

(** *** The order in which events come back

    A slice is where its first event put it, and keeps its events in the order in
    which they were pushed. *)

(** The distinct keys of a list, each where it is first. *)
Fixpoint first_seen (l : list Z) : list Z :=
  match l with [] => [] | k :: l => k :: filter (fun k' => k' <> k) (first_seen l) end.

(** The events pushed for a sensor and a scope, with the keys of their slices. *)
Definition keyed (s c : string) : list push -> list (Z * nrm_event) :=
  omap (fun p => if decide (p_sensor p = s /\ scope_uuid (p_scope p) = Some c)
                 then Some (nrm_eb_time2key (p_time p), Event (p_time p) (p_value p)) else None).
Definition in_slice (k : Z) (l : list (Z * nrm_event)) : list nrm_event := snd <$> filter (fun x => x.1 = k) l.

Lemma elem_of_first_seen k l : k ∈ first_seen l <-> k ∈ l.
Proof.
  induction l as [|k' l IH]; [done|]. cbn [first_seen]. rewrite !elem_of_cons, list_elem_of_filter, IH.
  destruct (decide (k = k')); tauto.
Qed.

Lemma NoDup_first_seen l : NoDup (first_seen l).
Proof.
  induction l as [|k l IH]; [constructor|]. cbn [first_seen]. apply NoDup_cons. split; [|by apply NoDup_filter].
  rewrite list_elem_of_filter. tauto.
Qed.

Lemma first_seen_snoc l k :
  first_seen (l ++ [k]) = if decide (k ∈ l) then first_seen l else first_seen l ++ [k].
Proof.
  induction l as [|k' l IH]; [by case_decide as H; [apply not_elem_of_nil in H|]|].
  cbn [app first_seen]. rewrite IH. destruct (decide (k = k')) as [->|Hne].
  - rewrite (decide_True (P := k' ∈ k' :: l)) by (by left). case_decide; [done|].
    rewrite filter_app, filter_cons_False by tauto. by rewrite app_nil_r.
  - destruct (decide (k ∈ l)) as [Hin|Hin]; [by rewrite decide_True by (by right)|].
    rewrite decide_False by (by rewrite elem_of_cons; tauto).
    by rewrite filter_app, filter_cons_True.
Qed.

Lemma in_slice_none k l : k ∉ l.*1 -> in_slice k l = [].
Proof.
  unfold in_slice. induction l as [|x l IH]; [done|]. cbn [fmap list_fmap]. rewrite not_elem_of_cons.
  intros [Hne Hn]. rewrite filter_cons_False by congruence. by apply IH.
Qed.

Lemma filter_others (k : Z) (l : list Z) : k ∉ l -> filter (fun k' => k' <> k) l = l.
Proof.
  induction l as [|k' l IH]; [done|]. rewrite not_elem_of_cons. intros [Hne Hn].
  by rewrite filter_cons_True, IH by congruence.
Qed.

Definition add_keyed (slices : list timeslice) (x : Z * nrm_event) : list timeslice :=
  add_to_slice slices x.1 (e_time x.2) (e_value x.2).

Lemma add_grouped (f : Z -> list nrm_event) ks x :
  NoDup ks -> (x.1 ∉ ks -> f x.1 = []) ->
  add_keyed ((fun k => Timeslice k (f k)) <$> ks) x =
  (fun k => Timeslice k (f k ++ if decide (x.1 = k) then [x.2] else [])) <$>
    (if decide (x.1 ∈ ks) then ks else ks ++ [x.1]).
Proof.
  destruct x as [key [t v]]. unfold add_keyed. cbn [fst snd e_time e_value].
  induction 1 as [|k ks Hk Hnd IH]; intros Hf.
  { rewrite decide_False by apply not_elem_of_nil. cbn. rewrite Hf by apply not_elem_of_nil.
    by rewrite decide_True. }
  cbn [fmap list_fmap add_to_slice ts_key]. destruct (Z.eqb_spec k key) as [->|Hne].
  - rewrite (decide_True (P := key ∈ key :: ks)) by (by left). cbn [fmap list_fmap]. rewrite decide_True by done.
    unfold nrm_eventbase_add_event. cbn [ts_key ts_events]. f_equal.
    apply list_fmap_ext. intros i k' Hk'. rewrite decide_False, app_nil_r; [done|]. intros ->.
    apply Hk. by eapply list_elem_of_lookup_2.
  - change (list_fmap ?A ?B) with (@fmap list _ A B). rewrite IH.
    2:{ intros Hn. apply Hf. rewrite elem_of_cons. intros [|]; [by subst|done]. }
    destruct (decide (key ∈ ks)) as [Hin|Hin].
    + rewrite (decide_True (P := key ∈ k :: ks)) by (by right). cbn [fmap list_fmap].
      by rewrite decide_False, app_nil_r by congruence.
    + rewrite (decide_False (P := key ∈ k :: ks)) by (rewrite elem_of_cons; intros [|]; [by subst|done]).
      cbn [app fmap list_fmap]. by rewrite decide_False, app_nil_r by congruence.
Qed.

(** From nothing, the slices are those. *)
Lemma fold_grouped l :
  foldl add_keyed [] l = (fun k => Timeslice k (in_slice k l)) <$> first_seen l.*1.
Proof.
  induction l as [|x l IH] using rev_ind; [done|]. rewrite foldl_app. cbn [foldl]. rewrite IH.
  rewrite add_grouped; [|apply NoDup_first_seen|].
  2:{ rewrite elem_of_first_seen. apply in_slice_none. }
  rewrite fmap_app. cbn [fmap list_fmap]. rewrite first_seen_snoc.
  rewrite (decide_ext (x.1 ∈ first_seen l.*1) (x.1 ∈ l.*1)) by apply elem_of_first_seen.
  apply list_fmap_ext. intros _ k _. f_equal. unfold in_slice. rewrite filter_app, fmap_app.
  by case_decide as E; [rewrite filter_cons_True by done|rewrite filter_cons_False by done].
Qed.

Lemma push_events_slices s c pushes eb :
  Forall (fun p => is_Some (scope_uuid (p_scope p))) pushes ->
  exists eb', push_events eb pushes = Ok eb' /\
    slices_of eb' s c = foldl add_keyed (slices_of eb s c) (keyed s c pushes).
Proof.
  intros Hp. revert eb. induction Hp as [|p pushes [c' Hc] _ IH]; intros eb; [by exists eb|].
  destruct (push_slices eb (p_sensor p) (p_scope p) c' (p_time p) (p_value p) Hc) as (eb1 & E & Hsl).
  destruct (IH eb1) as (eb' & E' & Hw). exists eb'. unfold push_events in *. cbn [mfold]. rewrite E.
  cbn [mbind outcome_bind deref]. split; [exact E'|]. rewrite Hw, Hsl. unfold keyed. cbn [omap list_omap].
  rewrite Hc. destruct (decide (p_sensor p = s /\ c' = c)) as [[<- <-]|Hne].
  - by rewrite decide_True.
  - rewrite decide_False by (intros [H1 [= H2]]; by apply Hne). done.
Qed.

(** When the keys do not go down, the slices follow each other as the events do. *)
Lemma grouped_cons (g : Z -> list nrm_event) k l :
  StronglySorted Z.le l -> Forall (Z.le k) l -> (k ∉ l -> g k = []) ->
  g k ++ (filter (fun k' => k' <> k) (first_seen l) ≫= g) = first_seen l ≫= g.
Proof.
  intros Hs Hle Hg. destruct l as [|k1 l]; [cbn; by rewrite Hg by apply not_elem_of_nil|].
  destruct (decide (k1 = k)) as [->|Hne].
  - cbn [first_seen]. rewrite filter_cons_False, list_filter_filter_l by tauto. done.
  - assert (Hn : k ∉ k1 :: l).
    { apply StronglySorted_inv in Hs as [_ Hs]. apply Forall_cons in Hle as [Hk1 _].
      rewrite Forall_forall in Hs. intros [->|Hin]%elem_of_cons; [done|]. specialize (Hs _ Hin). lia. }
    rewrite Hg by done. by rewrite filter_others by (by rewrite elem_of_first_seen).
Qed.

Lemma grouped_sorted (w : Z -> bool) l :
  StronglySorted Z.le l.*1 ->
  (first_seen l.*1 ≫= fun k => if w k then in_slice k l else []) = snd <$> filter (fun x => w x.1 = true) l.
Proof.
  induction l as [|[k e] l IH]; intros Hs; [done|]. cbn [fmap list_fmap fst] in Hs.
  apply StronglySorted_inv in Hs as [Hs Hle]. change (list_fmap ?A ?B) with (@fmap list _ A B) in *.
  specialize (IH Hs). cbn [fmap list_fmap fst first_seen mbind list_bind].
  change (list_fmap ?A ?B) with (@fmap list _ A B).
  rewrite (Forall_bind_ext _ (fun k => if w k then in_slice k l else []) (filter _ _)).
  2:{ apply Forall_forall. intros k' Hk'. unfold in_slice.
      by rewrite filter_cons_False by (apply list_elem_of_filter in Hk' as [? _]; cbn; congruence). }
  rewrite <- (grouped_cons (fun k => if w k then in_slice k l else []) k) in IH; [|done..|].
  2:{ intros Hn. destruct (w k); [|done]. by apply in_slice_none. }
  unfold in_slice at 1. rewrite filter_cons_True by done. destruct (w k) eqn:Ew.
  - rewrite filter_cons_True by done. cbn [fmap list_fmap snd app]. f_equal. exact IH.
  - rewrite filter_cons_False by (cbn; congruence). exact IH.
Qed.

Lemma keyed_window s c ksince know pushes :
  snd <$> filter (fun x => (x.1 >=? ksince) && (x.1 <? know) = true) (keyed s c pushes) =
  omap (pushed_event s c ksince know) pushes.
Proof.
  induction pushes as [|p pushes IH]; [done|]. unfold keyed, pushed_event in *. cbn [omap list_omap].
  case_decide; [|exact IH]. destruct (_ && _) eqn:E.
  - rewrite filter_cons_True by exact E. cbn [fmap list_fmap snd]. f_equal. exact IH.
  - rewrite filter_cons_False by (cbn; congruence). exact IH.
Qed.

Lemma window_slices ksince know (f : Z -> list nrm_event) ks :
  window_events ksince know ((fun k => Timeslice k (f k)) <$> ks) =
  ks ≫= fun k => if (k >=? ksince) && (k <? know) then f k else [].
Proof.
  unfold window_events, in_window. induction ks as [|k ks IH]; [done|]. cbn [fmap list_fmap mbind list_bind ts_key ts_events].
  f_equal. exact IH.
Qed.

(** C13: whatever the sequence of events pushed to a new event base, pulling a
    sensor and a scope gives exactly the events pushed for that sensor and a
    scope of that name whose slice is at or after the slice of [since] and before
    the slice of the current time: none lost, none twice, none of another sensor
    or scope. They come slice after slice, in the order in which the slices got their
    first event, and in the order of pushing within a slice; which is the order of
    pushing as long as their times do not go back from one slice to an earlier one. *)
Theorem eventbase_pull_pushed maxperiods pushes now s scope c since :
  Forall (fun p => is_Some (scope_uuid (p_scope p))) pushes -> scope_uuid scope = Some c ->
  let ksince := nrm_eb_time2key since in
  let know := nrm_eb_time2key now in
  exists eb0 eb t,
    nrm_eventbase_create false maxperiods = Some eb0 /\ push_events eb0 pushes = Ok eb /\
    nrm_eventbase_pull_timeserie now (Some eb) (Some s) (Some scope) since = Ok (0, Some t) /\
    t_events t =
      (first_seen (keyed s c pushes).*1 ≫= fun k =>
         if (k >=? ksince) && (k <? know) then in_slice k (keyed s c pushes) else []) /\
    t_events t ≡ₚ omap (pushed_event s c ksince know) pushes /\
    (StronglySorted Z.le (keyed s c pushes).*1 -> t_events t = omap (pushed_event s c ksince know) pushes).
Proof.
  intros Hp Hc ksince know. eexists.
  destruct (push_events_window s c ksince know pushes (Eventbase maxperiods []) Hp) as (eb & E & Hw).
  destruct (push_events_slices s c pushes (Eventbase maxperiods []) Hp) as (eb' & E' & Hsl).
  assert (eb' = eb) as -> by congruence.
  destruct (pull_events now eb s scope c since Hc) as (t & Et & Hev & _).
  exists eb, t. split; [reflexivity|]. split; [done|]. split; [done|].
  fold ksince know in Hev. change (slices_of (Eventbase maxperiods []) s c) with (@nil timeslice) in *.
  rewrite fold_grouped in Hsl. rewrite Hsl, window_slices in Hev. split; [exact Hev|]. split.
  - rewrite Hev, <- window_slices, <- Hsl. exact Hw.
  - intros Hsorted. rewrite Hev, <- keyed_window.
    exact (grouped_sorted (fun k => (k >=? ksince) && (k <? know)) _ Hsorted).
Qed.

(** The event of the other sensor and the one after the window do not come. *)
Lemma eventbase_pull_pushed_witness :
  let sc := Scope (Some "nrm") [bitmap_zero; bitmap_zero; bitmap_zero] in
  let pushes := [Push "s" sc (Time 1 5) d0; Push "r" sc (Time 1 6) d0; Push "s" sc (Time 1 2) (d_of_Z 1);
                 Push "s" sc (Time 1 9999) d0; Push "s" sc (Time 3 0) d0] in
  exists eb0 eb t,
    nrm_eventbase_create false 1 = Some eb0 /\ push_events eb0 pushes = Ok eb /\
    nrm_eventbase_pull_timeserie (Time 2 0) (Some eb) (Some "s"%string) (Some sc) (Time 0 0)
      = Ok (0, Some t) /\
    t_events t = [Event (Time 1 5) d0; Event (Time 1 2) (d_of_Z 1); Event (Time 1 9999) d0].
Proof.
  intros sc pushes.
  destruct (eventbase_pull_pushed 1 pushes (Time 2 0) "s" sc "nrm" (Time 0 0)) as (eb0 & eb & t & H1 & H2 & H3 & H4 & _ & _);
    [repeat constructor; eexists; reflexivity|reflexivity|].
  exists eb0, eb, t. split; [exact H1|]. split; [exact H2|]. split; [exact H3|].
  rewrite H4. vm_compute. reflexivity.
Defined.

(** The field [start] of a time series is the time of its latest event, not of
    its first. *)
Theorem timeserie_start_is_latest :
  exists t, nrm_timeserie_add_events (Some (Timeserie "s" (Scope None []) [] (nrm_time_fromns 0)))
              [Event (Time 1 0) d0; Event (Time 2 0) d0] = (0, Some t) /\
            t_start t = Time 2 0.
Proof. eexists. split; vm_compute; reflexivity. Qed.
