(* ===== verification/Messages.v ===== *)
(** * Messages (src/messages.c, src/msg.proto, include/internal/messages.h)

    The structures that protobuf-c generates from msg.proto are records; a
    [oneof] is an inductive type with one constructor per member, and reading a
    member that is not the one set is undefined (no member set reads a NULL
    pointer). The file models the construction of messages from objects, of
    objects from messages, and the frames on the wire. Packing and the sockets
    are parameters. *)

From Stdlib Require Import Ascii.
From S2P Require Import Prelude Vectors Doubles Hashes Bitmaps Json Timers Scopes Actuators Events.

(** ** msg.proto *)

Definition NRM_MSG_TYPE_ACK : Z := 0.
Definition NRM_MSG_TYPE_LIST : Z := 1.
Definition NRM_MSG_TYPE_ADD : Z := 2.
Definition NRM_MSG_TYPE_REMOVE : Z := 3.
Definition NRM_MSG_TYPE_EVENTS : Z := 4.
Definition NRM_MSG_TYPE_ACTUATE : Z := 5.
Definition NRM_MSG_TYPE_EXIT : Z := 6.
Definition NRM_MSG_TYPE_TICK : Z := 7.
Definition NRM_MSG_TYPE_MAX : Z := 8.

Definition NRM_MSG_TARGET_TYPE_SLICE : Z := 0.
Definition NRM_MSG_TARGET_TYPE_SENSOR : Z := 1.
Definition NRM_MSG_TARGET_TYPE_SCOPE : Z := 2.
Definition NRM_MSG_TARGET_TYPE_ACTUATOR : Z := 3.
Definition NRM_MSG_TARGET_TYPE_MAX : Z := 4.

Record nrm_msg_scope := MScope {
  ms_uuid : option string; ms_cpus : list Z; ms_numas : list Z; ms_gpus : list Z }.
Record nrm_msg_event := MEvent { me_time : Z; me_value : double }.
Record nrm_msg_timeserie := MTimeserie {
  mt_sensor_uuid : option string; mt_scope : option nrm_msg_scope; mt_start : Z;
  mt_events : list nrm_msg_event }.
Record nrm_msg_sensor := MSensor { mse_uuid : option string }.
Record nrm_msg_slice := MSlice { msl_uuid : option string }.

(** [oneof data] of [Actuator]. *)
Inductive msg_actuator_data :=
| AD_none
| AD_discrete (choices : list double)
| AD_continuous (lmin lmax : double).
Record nrm_msg_actuator := MActuator {
  ma_uuid : option string; ma_clientid : option string; ma_value : double; ma_type : Z;
  ma_data : msg_actuator_data }.

Record nrm_msg_remove := MRemove { mr_type : Z; mr_uuid : option string }.

(** [oneof data] of [Add], [List] and [Message]. *)
Inductive msg_add_data :=
| Add_none
| Add_slice (m : nrm_msg_slice)
| Add_sensor (m : nrm_msg_sensor)
| Add_scope (m : nrm_msg_scope)
| Add_actuator (m : nrm_msg_actuator).
Record nrm_msg_add := MAdd { mad_type : Z; mad_data : msg_add_data }.

Inductive msg_list_data :=
| List_none
| List_slices (l : list nrm_msg_slice)
| List_sensors (l : list nrm_msg_sensor)
| List_scopes (l : list nrm_msg_scope)
| List_actuators (l : list nrm_msg_actuator).
Record nrm_msg_list := MList { ml_type : Z; ml_data : msg_list_data }.

Record nrm_msg_actuate := MActuate { mac_uuid : option string; mac_value : double }.

Inductive msg_data :=
| D_none
| D_list (m : nrm_msg_list)
| D_add (m : nrm_msg_add)
| D_remove (m : nrm_msg_remove)
| D_events (m : list nrm_msg_timeserie)
| D_actuate (m : nrm_msg_actuate).
Record nrm_msg := Msg { m_type : Z; m_data : msg_data }.

(** Reading a member of a [oneof]: NULL when none is set. *)
Definition get_list (m : nrm_msg) : outcome (option nrm_msg_list) :=
  match m_data m with D_list x => Ok (Some x) | D_none => Ok None | _ => Undefined end.
Definition get_add (m : nrm_msg) : outcome (option nrm_msg_add) :=
  match m_data m with D_add x => Ok (Some x) | D_none => Ok None | _ => Undefined end.
Definition get_remove (m : nrm_msg) : outcome (option nrm_msg_remove) :=
  match m_data m with D_remove x => Ok (Some x) | D_none => Ok None | _ => Undefined end.
Definition get_events (m : nrm_msg) : outcome (option (list nrm_msg_timeserie)) :=
  match m_data m with D_events x => Ok (Some x) | D_none => Ok None | _ => Undefined end.
Definition get_actuate (m : nrm_msg) : outcome (option nrm_msg_actuate) :=
  match m_data m with D_actuate x => Ok (Some x) | D_none => Ok None | _ => Undefined end.

Definition get_add_slice (m : nrm_msg_add) : outcome (option nrm_msg_slice) :=
  match mad_data m with Add_slice x => Ok (Some x) | Add_none => Ok None | _ => Undefined end.
Definition get_add_sensor (m : nrm_msg_add) : outcome (option nrm_msg_sensor) :=
  match mad_data m with Add_sensor x => Ok (Some x) | Add_none => Ok None | _ => Undefined end.
Definition get_add_scope (m : nrm_msg_add) : outcome (option nrm_msg_scope) :=
  match mad_data m with Add_scope x => Ok (Some x) | Add_none => Ok None | _ => Undefined end.
Definition get_add_actuator (m : nrm_msg_add) : outcome (option nrm_msg_actuator) :=
  match mad_data m with Add_actuator x => Ok (Some x) | Add_none => Ok None | _ => Undefined end.

Definition get_list_slices (m : nrm_msg_list) : outcome (option (list nrm_msg_slice)) :=
  match ml_data m with List_slices x => Ok (Some x) | List_none => Ok None | _ => Undefined end.
Definition get_list_sensors (m : nrm_msg_list) : outcome (option (list nrm_msg_sensor)) :=
  match ml_data m with List_sensors x => Ok (Some x) | List_none => Ok None | _ => Undefined end.
Definition get_list_scopes (m : nrm_msg_list) : outcome (option (list nrm_msg_scope)) :=
  match ml_data m with List_scopes x => Ok (Some x) | List_none => Ok None | _ => Undefined end.
Definition get_list_actuators (m : nrm_msg_list) : outcome (option (list nrm_msg_actuator)) :=
  match ml_data m with List_actuators x => Ok (Some x) | List_none => Ok None | _ => Undefined end.

Definition get_discrete (m : nrm_msg_actuator) : outcome (list double) :=
  match ma_data m with AD_discrete l => Ok l | _ => Undefined end.
Definition get_continuous (m : nrm_msg_actuator) : outcome (double * double) :=
  match ma_data m with AD_continuous a b => Ok (a, b) | _ => Undefined end.

(** ** Creating messages *)

(** Applying a constructor to every element of a vector. *)
Fixpoint map_outcome {A B} (f : A -> outcome B) (l : list A) : outcome (list B) :=
  match l with
  | [] => Ok []
  | x :: l => y ← f x; ys ← map_outcome f l; Ok (y :: ys)
  end.

(** [nrm__message__init] sets the first type and no member. *)
Definition nrm_msg_create (oom : bool) : option nrm_msg :=
  if oom then None else Some (Msg NRM_MSG_TYPE_ACK D_none).

Definition nrm_msg_destroy_received (msg : option (option nrm_msg)) : option (option nrm_msg) :=
  match msg with Some _ => Some None | None => None end.

Definition nrm_msg_fill (msg : option nrm_msg) (type : Z) : Z * option nrm_msg :=
  match msg with
  | Some m => if (type <? 0) || (type >=? NRM_MSG_TYPE_MAX) then (- NRM_EINVAL, msg)
              else (0, Some (Msg type (m_data m)))
  | None => (- NRM_EINVAL, None)
  end.

(** [strdup] dereferences the string. *)
Definition strdup (s : option string) : outcome (option string) := s ← deref s; Ok (Some s).

Definition nrm_msg_actuate_new (uuid : option string) (value : double) : outcome nrm_msg_actuate :=
  u ← strdup uuid; Ok (MActuate u value).
Definition nrm_msg_sensor_new (uuid : option string) : outcome nrm_msg_sensor :=
  u ← strdup uuid; Ok (MSensor u).
Definition nrm_msg_slice_new (uuid : option string) : outcome nrm_msg_slice :=
  u ← strdup uuid; Ok (MSlice u).
Definition nrm_msg_add_new (type : Z) : nrm_msg_add := MAdd type Add_none.

Definition nrm_msg_actuator_discrete_new (actuator : nrm_actuator) : outcome (list double) :=
  choices_of actuator.
Definition nrm_msg_actuator_continuous_new (actuator : nrm_actuator) : outcome (double * double) :=
  limits_of actuator.

Definition nrm_msg_actuator_new (actuator : nrm_actuator) : outcome nrm_msg_actuator :=
  let d := a_data actuator in
  u ← strdup (a_uuid d);
  data ← (if a_type d =? NRM_ACTUATOR_TYPE_DISCRETE then
            cs ← nrm_msg_actuator_discrete_new actuator; Ok (AD_discrete cs)
          else if a_type d =? NRM_ACTUATOR_TYPE_CONTINUOUS then
            '(lo, hi) ← nrm_msg_actuator_continuous_new actuator; Ok (AD_continuous lo hi)
          else Ok AD_none);
  Ok (MActuator u (a_clientid d) (a_value d) (i32 (a_type d)) data).

Definition nrm_msg_scope_new (scope : nrm_scope) : outcome nrm_msg_scope :=
  u ← strdup (scope_uuid scope);
  cpu ← scope_map scope NRM_SCOPE_TYPE_CPU;
  numa ← scope_map scope NRM_SCOPE_TYPE_NUMA;
  gpu ← scope_map scope NRM_SCOPE_TYPE_GPU;
  let items b := default [] (snd (nrm_bitmap_to_array false (Some b))) in
  Ok (MScope u (items cpu) (items numa) (items gpu)).

Definition nrm_msg_event_new (event : nrm_event) : nrm_msg_event :=
  MEvent (nrm_time_tons (e_time event)) (e_value event).

Definition nrm_msg_timeserie_new (timeserie : nrm_timeserie) : outcome nrm_msg_timeserie :=
  sc ← nrm_msg_scope_new (t_scope timeserie);
  Ok (MTimeserie (Some (t_sensor_uuid timeserie)) (Some sc) (nrm_time_tons (t_start timeserie))
        (nrm_msg_event_new <$> t_events timeserie)).

(** A NULL vector gives an empty list. *)
Definition nrm_msg_timeserielist_new (timeseries : option (list nrm_timeserie))
    : outcome (list nrm_msg_timeserie) :=
  match timeseries with None => Ok [] | Some l => map_outcome nrm_msg_timeserie_new l end.

Definition nrm_msg_set_events (msg : option nrm_msg) (timeseries : option (list nrm_timeserie))
    : outcome (Z * option nrm_msg) :=
  match msg with
  | None => Ok (- NRM_EINVAL, None)
  | Some m => l ← nrm_msg_timeserielist_new timeseries; Ok (0, Some (Msg (m_type m) (D_events l)))
  end.

Definition nrm_msg_set_actuate (msg : option nrm_msg) (uuid : option string) (value : double)
    : outcome (Z * option nrm_msg) :=
  match msg with
  | None => Ok (- NRM_EINVAL, None)
  | Some m => a ← nrm_msg_actuate_new uuid value; Ok (0, Some (Msg (m_type m) (D_actuate a)))
  end.

Definition nrm_msg_set_add_actuator (msg : option nrm_msg) (actuator : nrm_actuator)
    : outcome (Z * option nrm_msg) :=
  match msg with
  | None => Ok (- NRM_EINVAL, None)
  | Some m =>
      let add := nrm_msg_add_new NRM_MSG_TARGET_TYPE_ACTUATOR in
      a ← nrm_msg_actuator_new actuator;
      Ok (0, Some (Msg (m_type m) (D_add (MAdd (mad_type add) (Add_actuator a)))))
  end.

Definition nrm_msg_set_add_scope (msg : option nrm_msg) (scope : nrm_scope)
    : outcome (Z * option nrm_msg) :=
  match msg with
  | None => Ok (- NRM_EINVAL, None)
  | Some m =>
      let add := nrm_msg_add_new NRM_MSG_TARGET_TYPE_SCOPE in
      s ← nrm_msg_scope_new scope;
      Ok (0, Some (Msg (m_type m) (D_add (MAdd (mad_type add) (Add_scope s)))))
  end.

Definition nrm_msg_set_add_sensor (msg : option nrm_msg) (sensor : nrm_sensor)
    : outcome (Z * option nrm_msg) :=
  match msg with
  | None => Ok (- NRM_EINVAL, None)
  | Some m =>
      let add := nrm_msg_add_new NRM_MSG_TARGET_TYPE_SENSOR in
      s ← nrm_msg_sensor_new (sensor_uuid sensor);
      Ok (0, Some (Msg (m_type m) (D_add (MAdd (mad_type add) (Add_sensor s)))))
  end.

Definition nrm_msg_set_add_slice (msg : option nrm_msg) (slice : nrm_slice)
    : outcome (Z * option nrm_msg) :=
  match msg with
  | None => Ok (- NRM_EINVAL, None)
  | Some m =>
      let add := nrm_msg_add_new NRM_MSG_TARGET_TYPE_SLICE in
      s ← nrm_msg_slice_new (slice_uuid slice);
      Ok (0, Some (Msg (m_type m) (D_add (MAdd (mad_type add) (Add_slice s)))))
  end.

Definition nrm_msg_list_new (type : Z) : nrm_msg_list := MList type List_none.

Definition nrm_msg_actuatorlist_new (actuators : option (list nrm_actuator))
    : outcome (list nrm_msg_actuator) :=
  match actuators with None => Ok [] | Some l => map_outcome nrm_msg_actuator_new l end.
Definition nrm_msg_scopelist_new (scopes : option (list nrm_scope)) : outcome (list nrm_msg_scope) :=
  match scopes with None => Ok [] | Some l => map_outcome nrm_msg_scope_new l end.
Definition nrm_msg_sensorlist_new (sensors : option (list nrm_sensor))
    : outcome (list nrm_msg_sensor) :=
  match sensors with
  | None => Ok []
  | Some l => map_outcome (fun s => nrm_msg_sensor_new (sensor_uuid s)) l
  end.
Definition nrm_msg_slicelist_new (slices : option (list nrm_slice)) : outcome (list nrm_msg_slice) :=
  match slices with
  | None => Ok []
  | Some l => map_outcome (fun s => nrm_msg_slice_new (slice_uuid s)) l
  end.

Definition nrm_msg_set_list_actuators (msg : option nrm_msg) (actuators : option (list nrm_actuator))
    : outcome (Z * option nrm_msg) :=
  match msg with
  | None => Ok (- NRM_EINVAL, None)
  | Some m =>
      let list := nrm_msg_list_new NRM_MSG_TARGET_TYPE_ACTUATOR in
      l ← nrm_msg_actuatorlist_new actuators;
      Ok (0, Some (Msg (m_type m) (D_list (MList (ml_type list) (List_actuators l)))))
  end.

Definition nrm_msg_set_list_scopes (msg : option nrm_msg) (scopes : option (list nrm_scope))
    : outcome (Z * option nrm_msg) :=
  match msg with
  | None => Ok (- NRM_EINVAL, None)
  | Some m =>
      let list := nrm_msg_list_new NRM_MSG_TARGET_TYPE_SCOPE in
      l ← nrm_msg_scopelist_new scopes;
      Ok (0, Some (Msg (m_type m) (D_list (MList (ml_type list) (List_scopes l)))))
  end.

Definition nrm_msg_set_list_sensors (msg : option nrm_msg) (sensors : option (list nrm_sensor))
    : outcome (Z * option nrm_msg) :=
  match msg with
  | None => Ok (- NRM_EINVAL, None)
  | Some m =>
      let list := nrm_msg_list_new NRM_MSG_TARGET_TYPE_SENSOR in
      l ← nrm_msg_sensorlist_new sensors;
      Ok (0, Some (Msg (m_type m) (D_list (MList (ml_type list) (List_sensors l)))))
  end.

Definition nrm_msg_set_list_slices (msg : option nrm_msg) (slices : option (list nrm_slice))
    : outcome (Z * option nrm_msg) :=
  match msg with
  | None => Ok (- NRM_EINVAL, None)
  | Some m =>
      let list := nrm_msg_list_new NRM_MSG_TARGET_TYPE_SLICE in
      l ← nrm_msg_slicelist_new slices;
      Ok (0, Some (Msg (m_type m) (D_list (MList (ml_type list) (List_slices l)))))
  end.

Definition nrm_msg_remove_new (type : Z) (uuid : option string) : outcome nrm_msg_remove :=
  u ← strdup uuid; Ok (MRemove type u).

Definition nrm_msg_set_remove (msg : option nrm_msg) (type : Z) (uuid : option string)
    : outcome (Z * option nrm_msg) :=
  match msg with
  | None => Ok (- NRM_EINVAL, None)
  | Some m => r ← nrm_msg_remove_new type uuid; Ok (0, Some (Msg (m_type m) (D_remove r)))
  end.

(** ** Destroying messages that were created

    Only the choices of a discrete actuator are reached through the member of a
    [oneof]; the other members are only freed. *)

Definition nrm_msg_actuator_destroy (msg : option nrm_msg_actuator) : outcome unit :=
  match msg with
  | None => Ok tt
  | Some m =>
      if ma_type m =? NRM_ACTUATOR_TYPE_DISCRETE then _ ← get_discrete m; Ok tt
      else Ok tt
  end.

Definition nrm_msg_add_destroy (msg : option nrm_msg_add) : outcome unit :=
  match msg with
  | None => Ok tt
  | Some m =>
      if mad_type m =? NRM_MSG_TARGET_TYPE_SLICE then _ ← get_add_slice m; Ok tt
      else if mad_type m =? NRM_MSG_TARGET_TYPE_SENSOR then _ ← get_add_sensor m; Ok tt
      else if mad_type m =? NRM_MSG_TARGET_TYPE_SCOPE then _ ← get_add_scope m; Ok tt
      else if mad_type m =? NRM_MSG_TARGET_TYPE_ACTUATOR then
        a ← get_add_actuator m; nrm_msg_actuator_destroy a
      else Ok tt
  end.

Definition nrm_msg_actuatorlist_destroy (msg : option (list nrm_msg_actuator)) : outcome unit :=
  match msg with
  | None => Ok tt
  | Some l => mfold (fun _ a => nrm_msg_actuator_destroy (Some a)) tt l
  end.

Definition nrm_msg_list_destroy (msg : option nrm_msg_list) : outcome unit :=
  match msg with
  | None => Ok tt
  | Some m =>
      if ml_type m =? NRM_MSG_TARGET_TYPE_SLICE then _ ← get_list_slices m; Ok tt
      else if ml_type m =? NRM_MSG_TARGET_TYPE_SENSOR then _ ← get_list_sensors m; Ok tt
      else if ml_type m =? NRM_MSG_TARGET_TYPE_SCOPE then _ ← get_list_scopes m; Ok tt
      else if ml_type m =? NRM_MSG_TARGET_TYPE_ACTUATOR then
        l ← get_list_actuators m; nrm_msg_actuatorlist_destroy l
      else Ok tt
  end.

(** The pointer after the call. *)
Definition nrm_msg_destroy_created (msg : option (option nrm_msg)) : outcome (option nrm_msg) :=
  match msg with
  | Some (Some sub) =>
      _ ← (if m_type sub =? NRM_MSG_TYPE_ACTUATE then _ ← get_actuate sub; Ok tt
           else if m_type sub =? NRM_MSG_TYPE_ADD then a ← get_add sub; nrm_msg_add_destroy a
           else if m_type sub =? NRM_MSG_TYPE_LIST then l ← get_list sub; nrm_msg_list_destroy l
           else if m_type sub =? NRM_MSG_TYPE_EVENTS then _ ← get_events sub; Ok tt
           else if m_type sub =? NRM_MSG_TYPE_REMOVE then _ ← get_remove sub; Ok tt
           else Ok tt);
      Ok None
  | _ => Ok None
  end.

(** ** Parsing messages *)

Definition nrm_actuator_continuous_create_frommsg (msg : nrm_msg_actuator) : outcome nrm_actuator :=
  ret ← nrm_actuator_continuous_create false (ma_uuid msg);
  let ret := match ma_clientid msg with
             | Some c => with_clientid ret (Some c)
             | None => ret
             end in
  let ret := with_value ret (ma_value msg) in
  '(lmin, lmax) ← get_continuous msg;
  let '(_, ret) := nrm_actuator_continuous_set_limits (Some ret) lmin lmax in
  deref ret.

Definition nrm_actuator_discrete_create_frommsg `{Qsort} (msg : nrm_msg_actuator)
    : outcome nrm_actuator :=
  ret ← nrm_actuator_discrete_create false (ma_uuid msg);
  let ret := match ma_clientid msg with
             | Some c => with_clientid ret (Some c)
             | None => ret
             end in
  let ret := with_value ret (ma_value msg) in
  cs ← get_discrete msg;
  '(_, ret) ← nrm_actuator_discrete_set_choices (Some ret) (Z.of_nat (length cs)) (Some cs);
  deref ret.

(** NULL for a type that is not known. *)
Definition nrm_actuator_create_frommsg `{Qsort} (msg : option nrm_msg_actuator)
    : outcome (option nrm_actuator) :=
  match msg with
  | None => Ok None
  | Some m =>
      if ma_type m =? NRM_ACTUATOR_TYPE_DISCRETE
      then a ← nrm_actuator_discrete_create_frommsg m; Ok (Some a)
      else if ma_type m =? NRM_ACTUATOR_TYPE_CONTINUOUS
      then a ← nrm_actuator_continuous_create_frommsg m; Ok (Some a)
      else Ok None
  end.

(** [nrm_bitmap_from_array] of the three arrays, in place. *)
Definition scope_from_arrays (s : nrm_scope) (msg : nrm_msg_scope) : outcome nrm_scope :=
  b ← scope_map s NRM_SCOPE_TYPE_CPU;
  let s := with_map s NRM_SCOPE_TYPE_CPU (default b (snd (nrm_bitmap_from_array b (ms_cpus msg)))) in
  b ← scope_map s NRM_SCOPE_TYPE_NUMA;
  let s := with_map s NRM_SCOPE_TYPE_NUMA (default b (snd (nrm_bitmap_from_array b (ms_numas msg)))) in
  b ← scope_map s NRM_SCOPE_TYPE_GPU;
  let s := with_map s NRM_SCOPE_TYPE_GPU (default b (snd (nrm_bitmap_from_array b (ms_gpus msg)))) in
  Ok s.

Definition nrm_scope_create_frommsg (msg : option nrm_msg_scope) : outcome (option nrm_scope) :=
  match msg with
  | None => Ok None
  | Some m => s ← nrm_scope_create false (ms_uuid m); s ← scope_from_arrays s m; Ok (Some s)
  end.

Definition nrm_sensor_create_frommsg (msg : option nrm_msg_sensor) : outcome (option nrm_sensor) :=
  match msg with
  | None => Ok None
  | Some m => s ← nrm_sensor_create false (mse_uuid m); Ok (Some s)
  end.

Definition nrm_slice_create_frommsg (msg : option nrm_msg_slice) : outcome (option nrm_slice) :=
  match msg with
  | None => Ok None
  | Some m => s ← nrm_slice_create false (msl_uuid m); Ok (Some s)
  end.

Definition nrm_actuator_update_frommsg `{Qsort} (actuator : option nrm_actuator)
    (msg : option nrm_msg_actuator) : outcome (Z * option nrm_actuator) :=
  match actuator, msg with
  | Some a, Some m =>
      let d := a_data a in
      let a := Actuator (Data (a_type d) (ma_uuid m)
                 (match ma_clientid m with Some c => Some c | None => a_clientid d end)
                 (ma_value m) (a_u d)) (a_ops a) in
      a ← (if ma_type m =? NRM_ACTUATOR_TYPE_DISCRETE then
             cs ← get_discrete m;
             '(_, a) ← nrm_actuator_discrete_set_choices (Some a) (Z.of_nat (length cs)) (Some cs);
             Ok a
           else if ma_type m =? NRM_ACTUATOR_TYPE_CONTINUOUS then
             '(lmin, lmax) ← get_continuous m;
             Ok (snd (nrm_actuator_continuous_set_limits (Some a) lmin lmax))
           else Ok (Some a));
      Ok (0, a)
  | _, _ => Ok (- NRM_EINVAL, actuator)
  end.

Definition nrm_scope_update_frommsg (scope : option nrm_scope) (msg : option nrm_msg_scope)
    : outcome (Z * option nrm_scope) :=
  match scope, msg with
  | Some s, Some m => s ← scope_from_arrays s m; Ok (0, Some s)
  | _, _ => Ok (- NRM_EINVAL, scope)
  end.

Definition nrm_sensor_update_frommsg (sensor : option nrm_sensor) (msg : option nrm_msg_sensor) : Z :=
  match sensor, msg with Some _, Some _ => 0 | _, _ => - NRM_EINVAL end.
Definition nrm_slice_update_frommsg (slice : option nrm_slice) (msg : option nrm_msg_slice) : Z :=
  match slice, msg with Some _, Some _ => 0 | _, _ => - NRM_EINVAL end.

(** ** The wire

    A [zmsg_t] is the list of its frames. protobuf-c is a parameter; in a
    message that was unpacked no string is NULL: one that was not packed is
    empty. *)

Definition norm_string (s : option string) : option string := Some (default ""%string s).
Definition norm_scope (m : nrm_msg_scope) : nrm_msg_scope :=
  MScope (norm_string (ms_uuid m)) (ms_cpus m) (ms_numas m) (ms_gpus m).
Definition norm_actuator (m : nrm_msg_actuator) : nrm_msg_actuator :=
  MActuator (norm_string (ma_uuid m)) (norm_string (ma_clientid m)) (ma_value m) (ma_type m)
    (ma_data m).
Definition norm_sensor (m : nrm_msg_sensor) : nrm_msg_sensor := MSensor (norm_string (mse_uuid m)).
Definition norm_slice (m : nrm_msg_slice) : nrm_msg_slice := MSlice (norm_string (msl_uuid m)).
Definition norm_timeserie (m : nrm_msg_timeserie) : nrm_msg_timeserie :=
  MTimeserie (norm_string (mt_sensor_uuid m)) (norm_scope <$> mt_scope m) (mt_start m) (mt_events m).
Definition norm_add (m : nrm_msg_add) : nrm_msg_add :=
  MAdd (mad_type m)
    match mad_data m with
    | Add_none => Add_none
    | Add_slice x => Add_slice (norm_slice x)
    | Add_sensor x => Add_sensor (norm_sensor x)
    | Add_scope x => Add_scope (norm_scope x)
    | Add_actuator x => Add_actuator (norm_actuator x)
    end.
Definition norm_list (m : nrm_msg_list) : nrm_msg_list :=
  MList (ml_type m)
    match ml_data m with
    | List_none => List_none
    | List_slices l => List_slices (norm_slice <$> l)
    | List_sensors l => List_sensors (norm_sensor <$> l)
    | List_scopes l => List_scopes (norm_scope <$> l)
    | List_actuators l => List_actuators (norm_actuator <$> l)
    end.
Definition norm_msg (m : nrm_msg) : nrm_msg :=
  Msg (m_type m)
    match m_data m with
    | D_none => D_none
    | D_list x => D_list (norm_list x)
    | D_add x => D_add (norm_add x)
    | D_remove x => D_remove (MRemove (mr_type x) (norm_string (mr_uuid x)))
    | D_events l => D_events (norm_timeserie <$> l)
    | D_actuate x => D_actuate (MActuate (norm_string (mac_uuid x)) (mac_value x))
    end.

(** The generated code for msg.proto. *)
Class Protobuf := {
  nrm__message__pack : nrm_msg -> string;
  nrm__message__unpack : string -> option nrm_msg;
  unpack_pack : forall m, nrm__message__unpack (nrm__message__pack m) = Some (norm_msg m)
}.

Section wire.
Context `{Protobuf}.

Abbreviation zmsg := (list string) (only parsing).

(** [zmsg_pop]: czmq stops on a frame that is missing. *)
Definition zmsg_pop (zm : zmsg) : outcome (string * zmsg) :=
  match zm with f :: zm => Ok (f, zm) | [] => Assert_failed end.

Definition nrm_msg_push_packed_frames (zm : zmsg) (msg : nrm_msg) : zmsg :=
  zm ++ [""%string; nrm__message__pack msg].

Definition nrm_msg_pop_packed_frames (zm : zmsg) : outcome (option nrm_msg * zmsg) :=
  '(frame, zm) ← zmsg_pop zm;
  _ ← c_assert (String.length frame =? 0)%nat;
  '(frame, zm) ← zmsg_pop zm;
  Ok (nrm__message__unpack frame, zm).

Definition nrm_msg_pop_identity (zm : zmsg) : outcome (string * zmsg) := zmsg_pop zm.
Definition nrm_msg_push_identity (zm : zmsg) (uuid : string) : zmsg := zm ++ [uuid].
Definition nrm_msg_push_topic (zm : zmsg) (topic : string) : zmsg := zm ++ [topic].
Definition nrm_msg_pop_topic (zm : zmsg) : outcome (string * zmsg) := zmsg_pop zm.

(** What is given to [zmsg_send], and what the receiver makes of the frames. *)
Definition nrm_msg_send (msg : nrm_msg) : zmsg := nrm_msg_push_packed_frames [] msg.
Definition nrm_msg_sendto (msg : nrm_msg) (uuid : string) : zmsg :=
  nrm_msg_push_packed_frames (nrm_msg_push_identity [] uuid) msg.
Definition nrm_msg_recv (zm : zmsg) : outcome (option nrm_msg) :=
  '(msg, _) ← nrm_msg_pop_packed_frames zm; Ok msg.
Definition nrm_msg_recvfrom (zm : zmsg) : outcome (option nrm_msg * string) :=
  '(uuid, zm) ← nrm_msg_pop_identity zm;
  '(msg, _) ← nrm_msg_pop_packed_frames zm;
  Ok (msg, uuid).
Definition nrm_msg_pub (topic : string) (msg : nrm_msg) : zmsg :=
  nrm_msg_push_packed_frames (nrm_msg_push_topic [] topic) msg.
Definition nrm_msg_sub (zm : zmsg) : outcome (option nrm_msg * string) :=
  '(topic, zm) ← nrm_msg_pop_topic zm;
  '(msg, _) ← nrm_msg_pop_packed_frames zm;
  Ok (msg, topic).

End wire.

(** ** An instance of the generated code

    Messages are countable, so they can be written as strings of bits. *)

#[export] Instance nrm_msg_scope_eq_dec : EqDecision nrm_msg_scope.
Proof. solve_decision. Defined.
#[export] Instance nrm_msg_event_eq_dec : EqDecision nrm_msg_event.
Proof. solve_decision. Defined.
#[export] Instance nrm_msg_timeserie_eq_dec : EqDecision nrm_msg_timeserie.
Proof. solve_decision. Defined.
#[export] Instance nrm_msg_sensor_eq_dec : EqDecision nrm_msg_sensor.
Proof. solve_decision. Defined.
#[export] Instance nrm_msg_slice_eq_dec : EqDecision nrm_msg_slice.
Proof. solve_decision. Defined.
#[export] Instance msg_actuator_data_eq_dec : EqDecision msg_actuator_data.
Proof. solve_decision. Defined.
#[export] Instance nrm_msg_actuator_eq_dec : EqDecision nrm_msg_actuator.
Proof. solve_decision. Defined.
#[export] Instance nrm_msg_remove_eq_dec : EqDecision nrm_msg_remove.
Proof. solve_decision. Defined.
#[export] Instance msg_add_data_eq_dec : EqDecision msg_add_data.
Proof. solve_decision. Defined.
#[export] Instance nrm_msg_add_eq_dec : EqDecision nrm_msg_add.
Proof. solve_decision. Defined.
#[export] Instance msg_list_data_eq_dec : EqDecision msg_list_data.
Proof. solve_decision. Defined.
#[export] Instance nrm_msg_list_eq_dec : EqDecision nrm_msg_list.
Proof. solve_decision. Defined.
#[export] Instance nrm_msg_actuate_eq_dec : EqDecision nrm_msg_actuate.
Proof. solve_decision. Defined.
#[export] Instance msg_data_eq_dec : EqDecision msg_data.
Proof. solve_decision. Defined.
#[export] Instance nrm_msg_eq_dec : EqDecision nrm_msg.
Proof. solve_decision. Defined.

#[export] Instance double_countable : Countable double.
Proof.
  apply (inj_countable'
    (fun d => match d with
              | S754_zero s => inl (inl s) | S754_infinity s => inl (inr s)
              | S754_nan => inr (inl tt) | S754_finite s m e => inr (inr (s, m, e)) end)
    (fun x => match x with
              | inl (inl s) => S754_zero s | inl (inr s) => S754_infinity s
              | inr (inl _) => S754_nan | inr (inr (s, m, e)) => S754_finite s m e end)).
  by intros [].
Defined.
#[export] Instance nrm_msg_scope_countable : Countable nrm_msg_scope.
Proof.
  apply (inj_countable' (fun m => (ms_uuid m, ms_cpus m, ms_numas m, ms_gpus m))
           (fun '(a, b, c, d) => MScope a b c d)). by intros [].
Defined.
#[export] Instance nrm_msg_event_countable : Countable nrm_msg_event.
Proof. apply (inj_countable' (fun m => (me_time m, me_value m)) (fun '(a, b) => MEvent a b)). by intros []. Defined.
#[export] Instance nrm_msg_timeserie_countable : Countable nrm_msg_timeserie.
Proof.
  apply (inj_countable' (fun m => (mt_sensor_uuid m, mt_scope m, mt_start m, mt_events m))
           (fun '(a, b, c, d) => MTimeserie a b c d)). by intros [].
Defined.
#[export] Instance nrm_msg_sensor_countable : Countable nrm_msg_sensor.
Proof. apply (inj_countable' mse_uuid MSensor). by intros []. Defined.
#[export] Instance nrm_msg_slice_countable : Countable nrm_msg_slice.
Proof. apply (inj_countable' msl_uuid MSlice). by intros []. Defined.
#[export] Instance msg_actuator_data_countable : Countable msg_actuator_data.
Proof.
  apply (inj_countable'
    (fun d => match d with AD_none => None | AD_discrete l => Some (inl l)
              | AD_continuous a b => Some (inr (a, b)) end)
    (fun x => match x with None => AD_none | Some (inl l) => AD_discrete l
              | Some (inr (a, b)) => AD_continuous a b end)). by intros [].
Defined.
#[export] Instance nrm_msg_actuator_countable : Countable nrm_msg_actuator.
Proof.
  apply (inj_countable' (fun m => (ma_uuid m, ma_clientid m, ma_value m, ma_type m, ma_data m))
           (fun '(a, b, c, d, e) => MActuator a b c d e)). by intros [].
Defined.
#[export] Instance nrm_msg_remove_countable : Countable nrm_msg_remove.
Proof. apply (inj_countable' (fun m => (mr_type m, mr_uuid m)) (fun '(a, b) => MRemove a b)). by intros []. Defined.
#[export] Instance msg_add_data_countable : Countable msg_add_data.
Proof.
  apply (inj_countable'
    (fun d => match d with Add_none => None | Add_slice m => Some (inl (inl m))
              | Add_sensor m => Some (inl (inr m)) | Add_scope m => Some (inr (inl m))
              | Add_actuator m => Some (inr (inr m)) end)
    (fun x => match x with None => Add_none | Some (inl (inl m)) => Add_slice m
              | Some (inl (inr m)) => Add_sensor m | Some (inr (inl m)) => Add_scope m
              | Some (inr (inr m)) => Add_actuator m end)). by intros [].
Defined.
#[export] Instance nrm_msg_add_countable : Countable nrm_msg_add.
Proof. apply (inj_countable' (fun m => (mad_type m, mad_data m)) (fun '(a, b) => MAdd a b)). by intros []. Defined.
#[export] Instance msg_list_data_countable : Countable msg_list_data.
Proof.
  apply (inj_countable'
    (fun d => match d with List_none => None | List_slices m => Some (inl (inl m))
              | List_sensors m => Some (inl (inr m)) | List_scopes m => Some (inr (inl m))
              | List_actuators m => Some (inr (inr m)) end)
    (fun x => match x with None => List_none | Some (inl (inl m)) => List_slices m
              | Some (inl (inr m)) => List_sensors m | Some (inr (inl m)) => List_scopes m
              | Some (inr (inr m)) => List_actuators m end)). by intros [].
Defined.
#[export] Instance nrm_msg_list_countable : Countable nrm_msg_list.
Proof. apply (inj_countable' (fun m => (ml_type m, ml_data m)) (fun '(a, b) => MList a b)). by intros []. Defined.
#[export] Instance nrm_msg_actuate_countable : Countable nrm_msg_actuate.
Proof. apply (inj_countable' (fun m => (mac_uuid m, mac_value m)) (fun '(a, b) => MActuate a b)). by intros []. Defined.
#[export] Instance msg_data_countable : Countable msg_data.
Proof.
  apply (inj_countable'
    (fun d => match d with D_none => inl None | D_list m => inl (Some (inl m))
              | D_add m => inl (Some (inr m)) | D_remove m => inr (inl m)
              | D_events m => inr (inr (inl m)) | D_actuate m => inr (inr (inr m)) end)
    (fun x => match x with inl None => D_none | inl (Some (inl m)) => D_list m
              | inl (Some (inr m)) => D_add m | inr (inl m) => D_remove m
              | inr (inr (inl m)) => D_events m | inr (inr (inr m)) => D_actuate m end)).
  by intros [].
Defined.
#[export] Instance nrm_msg_countable : Countable nrm_msg.
Proof. apply (inj_countable' (fun m => (m_type m, m_data m)) (fun '(a, b) => Msg a b)). by intros []. Defined.

Fixpoint bits_of (p : positive) : string :=
  match p with
  | xH => EmptyString
  | xO p => String "0" (bits_of p)
  | xI p => String "1" (bits_of p)
  end.
Fixpoint of_bits (s : string) : positive :=
  match s with
  | EmptyString => xH
  | String c s => if decide (c = "0"%char) then xO (of_bits s) else xI (of_bits s)
  end.
Lemma of_bits_of p : of_bits (bits_of p) = p.
Proof.
  induction p as [p IH|p IH|]; cbn [bits_of of_bits]; [| |done].
  - rewrite decide_False by done. by rewrite IH.
  - rewrite decide_True by done. by rewrite IH.
Qed.

#[export] Instance bits_protobuf : Protobuf.
Proof.
  refine {| nrm__message__pack := fun m => bits_of (encode (norm_msg m));
            nrm__message__unpack := fun s => decode (of_bits s) |}.
  intros m. by rewrite of_bits_of, decode_encode.
Defined.

(** ** Properties *)

(** What is sent is what is received, on the three kinds of sockets: the
    message with its unset strings empty, and the identity or topic. *)
Lemma wire_roundtrip `{Protobuf} m id :
  nrm_msg_recv (nrm_msg_send m) = Ok (Some (norm_msg m)) /\
  nrm_msg_recvfrom (nrm_msg_sendto m id) = Ok (Some (norm_msg m), id) /\
  nrm_msg_sub (nrm_msg_pub id m) = Ok (Some (norm_msg m), id).
Proof.
  unfold nrm_msg_recv, nrm_msg_recvfrom, nrm_msg_sub, nrm_msg_pop_packed_frames. cbn.
  by rewrite unpack_pack.
Qed.

Lemma wire_roundtrip_witness :
  let m := Msg NRM_MSG_TYPE_ACTUATE (D_actuate (MActuate (Some "a"%string) d0)) in
  nrm_msg_recv (nrm_msg_send m) = Ok (Some (norm_msg m)) /\
  nrm_msg_recvfrom (nrm_msg_sendto m "id") = Ok (Some (norm_msg m), "id"%string) /\
  nrm_msg_sub (nrm_msg_pub "id" m) = Ok (Some (norm_msg m), "id"%string).
Proof. intros m. apply (wire_roundtrip m "id"). Defined.

(** The set indices of a bitmap, read into any bitmap, give it back. *)
Lemma from_array_bits old b : bitmap_wf b -> nrm_bitmap_from_array old (bitmap_bits b) = (0, Some b).
Proof. intros Hwf. unfold nrm_bitmap_from_array. cbn [nrm_bitmap_reset]. by rewrite set_items_bits_id. Qed.

Lemma scope_from_arrays_3 u x y z m :
  scope_from_arrays (Scope u [x; y; z]) m =
  Ok (Scope u [default x (snd (nrm_bitmap_from_array x (ms_cpus m)));
               default y (snd (nrm_bitmap_from_array y (ms_numas m)));
               default z (snd (nrm_bitmap_from_array z (ms_gpus m)))]).
Proof. done. Qed.

Lemma scope_new_frommsg s name :
  scope_wf s -> scope_uuid s = Some name ->
  exists ms, nrm_msg_scope_new s = Ok ms /\
             nrm_scope_create_frommsg (Some (norm_scope ms)) = Ok (Some s).
Proof.
  intros Hwf Hu. destruct (scope_wf_maps s Hwf) as (a & b & c & -> & Ha & Hb & Hc).
  cbn [scope_uuid] in Hu. subst. eexists. split.
  - unfold nrm_msg_scope_new. rewrite Hu. cbn [scope_uuid strdup deref mbind outcome_bind].
    unfold scope_map, NRM_SCOPE_TYPE_CPU, NRM_SCOPE_TYPE_NUMA, NRM_SCOPE_TYPE_GPU. const_idx.
    cbn [maps lookup list_lookup deref Z.leb Z.compare mbind outcome_bind].
    rewrite !to_array_bits. reflexivity.
  - unfold nrm_scope_create_frommsg, norm_scope, nrm_scope_create. cbn [mbind outcome_bind].
    change (Z.to_nat NRM_SCOPE_TYPE_MAX) with 3%nat. cbn [replicate].
    rewrite scope_from_arrays_3. cbn [ms_uuid ms_cpus ms_numas ms_gpus norm_string default mbind outcome_bind].
    cbn [snd from_option id]. rewrite !from_array_bits by done. cbn. by rewrite Hu.
Qed.

(** A scope sent in an ADD message arrives as it was: its name and its three
    maps, through the arrays of the message, packing, the wire and parsing. *)
Theorem add_scope_roundtrip `{Protobuf} s name :
  scope_wf s -> scope_uuid s = Some name ->
  exists m0 m1 m2 add ms,
    nrm_msg_create false = Some m0 /\ nrm_msg_fill (Some m0) NRM_MSG_TYPE_ADD = (0, Some m1) /\
    nrm_msg_set_add_scope (Some m1) s = Ok (0, Some m2) /\
    nrm_msg_recv (nrm_msg_send m2) = Ok (Some (norm_msg m2)) /\
    m_type (norm_msg m2) = NRM_MSG_TYPE_ADD /\ get_add (norm_msg m2) = Ok (Some add) /\
    mad_type add = NRM_MSG_TARGET_TYPE_SCOPE /\ get_add_scope add = Ok (Some ms) /\
    nrm_scope_create_frommsg (Some ms) = Ok (Some s).
Proof.
  intros Hwf Hu. destruct (scope_new_frommsg s name Hwf Hu) as (ms & Enew & Efrom).
  eexists _, _, _, _, (norm_scope ms). unfold nrm_msg_set_add_scope. rewrite Enew. cbn [mbind outcome_bind].
  split; [reflexivity|]. split; [reflexivity|]. split; [reflexivity|]. split.
  { unfold nrm_msg_recv, nrm_msg_pop_packed_frames. cbn. by rewrite unpack_pack. }
  split; [reflexivity|]. split; [reflexivity|]. split; [reflexivity|]. split; [reflexivity|done].
Qed.

Lemma add_scope_roundtrip_witness :
  let s := Scope (Some "nrm") [or_bit bitmap_zero 3; bitmap_zero; bitmap_zero] in
  exists m0 m1 m2 add ms,
    nrm_msg_create false = Some m0 /\ nrm_msg_fill (Some m0) NRM_MSG_TYPE_ADD = (0, Some m1) /\
    nrm_msg_set_add_scope (Some m1) s = Ok (0, Some m2) /\
    nrm_msg_recv (nrm_msg_send m2) = Ok (Some (norm_msg m2)) /\
    m_type (norm_msg m2) = NRM_MSG_TYPE_ADD /\ get_add (norm_msg m2) = Ok (Some add) /\
    mad_type add = NRM_MSG_TARGET_TYPE_SCOPE /\ get_add_scope add = Ok (Some ms) /\
    nrm_scope_create_frommsg (Some ms) = Ok (Some s).
Proof.
  intros s. apply (add_scope_roundtrip s "nrm"); [|reflexivity]. apply scope_wf_3; auto with nrm.
Defined.

(** The type, the union and the table of functions of an actuator agree. *)
Definition actuator_wf (a : nrm_actuator) : Prop :=
  match a_u (a_data a) with
  | U_choices cs => a_type (a_data a) = NRM_ACTUATOR_TYPE_DISCRETE /\
                    a_ops a = nrm_actuator_discrete_ops /\
                    Forall (fun d => is_nan d = false) cs
  | U_limits _ _ => a_type (a_data a) = NRM_ACTUATOR_TYPE_CONTINUOUS /\
                    a_ops a = nrm_actuator_continuous_ops
  end /\ is_Some (a_uuid (a_data a)).

(** The actuator that a message of [a] gives: the client is empty when there was
    none, and the choices are sorted again. *)
Definition same_actuator (a b : nrm_actuator) : Prop :=
  a_uuid (a_data b) = a_uuid (a_data a) /\
  a_clientid (a_data b) = norm_string (a_clientid (a_data a)) /\
  a_value (a_data b) = a_value (a_data a) /\
  a_type (a_data b) = a_type (a_data a) /\ a_ops b = a_ops a /\
  match a_u (a_data a), a_u (a_data b) with
  | U_choices cs, U_choices cs' =>
      cs' ≡ₚ cs /\ StronglySorted (fun x y => nrm_vector_sort_double_cmp x y <= 0) cs'
  | U_limits x y, U_limits x' y' => x' = x /\ y' = y
  | _, _ => False
  end.

Lemma actuator_new_frommsg `{Qsort} a :
  actuator_wf a ->
  exists ma b, nrm_msg_actuator_new a = Ok ma /\
    nrm_actuator_create_frommsg (Some (norm_actuator ma)) = Ok (Some b) /\
    same_actuator a b /\ actuator_wf b.
Proof.
  intros [Hwf [u Hu]]. destruct a as [[t u' c v un] ops]. cbn in *. subst u'.
  destruct un as [cs|x y]; [destruct Hwf as (-> & -> & Hnan)|destruct Hwf as (-> & ->)].
  - pose proof (double_cmp_ok cs Hnan) as Hok.
    eexists _, (Actuator (Data NRM_ACTUATOR_TYPE_DISCRETE (Some u) (norm_string c) v
      (U_choices (if (length cs =? 0)%nat then [] else qsort nrm_vector_sort_double_cmp cs)))
      nrm_actuator_discrete_ops).
    split; [reflexivity|]. split; [|split].
    + unfold nrm_actuator_create_frommsg, norm_actuator. cbn [ma_type ma_uuid ma_clientid ma_value ma_data].
      change (i32 NRM_ACTUATOR_TYPE_DISCRETE =? NRM_ACTUATOR_TYPE_DISCRETE) with true.
      unfold nrm_actuator_discrete_create_frommsg. cbn [nrm_actuator_discrete_create ma_uuid ma_clientid
        norm_string mbind outcome_bind get_discrete ma_data ma_value].
      unfold nrm_actuator_discrete_set_choices. destruct cs as [|d cs]; [done|].
      destruct (Z.eqb_spec (Z.of_nat (length (d :: cs))) 0); [done|].
      cbn [choices_of with_value with_clientid a_data a_u mbind outcome_bind].
      rewrite Z.leb_refl, Nat2Z.id, take_ge by done. done.
    + repeat split; cbn [a_data a_u]; (destruct (Nat.eqb_spec (length cs) 0) as [E|E];
        [apply nil_length_inv in E as ->|]); try done; try constructor; by auto using qsort_perm, qsort_sorted.
    + split; [|by exists u]. cbn. split_and!; [done..|]. destruct (_ =? _)%nat; [constructor|].
      rewrite Forall_forall in Hnan |- *. intros d Hd. apply Hnan. by rewrite <- (qsort_perm _ cs Hok).
  - eexists _, (Actuator (Data NRM_ACTUATOR_TYPE_CONTINUOUS (Some u) (norm_string c) v (U_limits x y))
      nrm_actuator_continuous_ops).
    split; [reflexivity|]. split; [reflexivity|]. split; [done|]. split; [done|by exists u].
Qed.

(** An actuator sent in an ADD message arrives with the same name, value,
    type and limits or choices (sorted), and the client it had, the empty one if
    it had none: through the message, packing, the wire and parsing. *)
Theorem add_actuator_roundtrip `{Protobuf, Qsort} a :
  actuator_wf a ->
  exists m0 m1 m2 add ma b,
    nrm_msg_create false = Some m0 /\ nrm_msg_fill (Some m0) NRM_MSG_TYPE_ADD = (0, Some m1) /\
    nrm_msg_set_add_actuator (Some m1) a = Ok (0, Some m2) /\
    nrm_msg_recv (nrm_msg_send m2) = Ok (Some (norm_msg m2)) /\
    get_add (norm_msg m2) = Ok (Some add) /\ mad_type add = NRM_MSG_TARGET_TYPE_ACTUATOR /\
    get_add_actuator add = Ok (Some ma) /\
    nrm_actuator_create_frommsg (Some ma) = Ok (Some b) /\ same_actuator a b.
Proof.
  intros Hwf. destruct (actuator_new_frommsg a Hwf) as (ma & b & Enew & Efrom & Hsame & _).
  eexists _, _, _, _, (norm_actuator ma), b.
  unfold nrm_msg_set_add_actuator. rewrite Enew. cbn [mbind outcome_bind].
  split; [reflexivity|]. split; [reflexivity|]. split; [reflexivity|]. split.
  { unfold nrm_msg_recv, nrm_msg_pop_packed_frames. cbn. by rewrite unpack_pack. }
  split; [reflexivity|]. split; [reflexivity|]. split; [reflexivity|]. split; [exact Efrom|exact Hsame].
Qed.

Lemma add_actuator_roundtrip_witness :
  let a := Actuator (Data 0 (Some "a"%string) None d0 (U_choices [d_of_Z 2; d_of_Z 1]))
             nrm_actuator_discrete_ops in
  exists m0 m1 m2 add ma b,
    nrm_msg_create false = Some m0 /\ nrm_msg_fill (Some m0) NRM_MSG_TYPE_ADD = (0, Some m1) /\
    nrm_msg_set_add_actuator (Some m1) a = Ok (0, Some m2) /\
    nrm_msg_recv (nrm_msg_send m2) = Ok (Some (norm_msg m2)) /\
    get_add (norm_msg m2) = Ok (Some add) /\ mad_type add = NRM_MSG_TARGET_TYPE_ACTUATOR /\
    get_add_actuator add = Ok (Some ma) /\
    nrm_actuator_create_frommsg (Some ma) = Ok (Some b) /\ same_actuator a b.
Proof.
  intros a. apply (add_actuator_roundtrip a). split; [|by exists "a"%string].
  cbn. split; [reflexivity|]. split; [reflexivity|]. repeat constructor.
Defined.
