(* ===== verification/MsgJson.v ===== *)
(** * Messages as JSON and control messages (src/messages.c)

    The pretty-printer of messages, the names of their types, and the control
    messages that the parts of a process exchange over a pipe. *)

From Stdlib Require Import Ascii.
From S2P Require Import Prelude Vectors Doubles Hashes Bitmaps Json Timers Scopes Actuators.
From S2P Require Import Runtime Events Messages.

(** ** Names *)

Definition nrm_msg_type_table : list (Z * string) :=
  [(NRM_MSG_TYPE_ACK, "ACK"%string); (NRM_MSG_TYPE_LIST, "LIST"%string);
   (NRM_MSG_TYPE_ADD, "ADD"%string); (NRM_MSG_TYPE_REMOVE, "REMOVE"%string);
   (NRM_MSG_TYPE_EVENTS, "EVENTS"%string); (NRM_MSG_TYPE_ACTUATE, "ACTUATE"%string);
   (NRM_MSG_TYPE_EXIT, "EXIT"%string); (NRM_MSG_TYPE_TICK, "TICK"%string)].

Definition nrm_msg_target_table : list (Z * string) :=
  [(NRM_MSG_TARGET_TYPE_ACTUATOR, "ACTUATOR"%string); (NRM_MSG_TARGET_TYPE_SLICE, "SLICE"%string);
   (NRM_MSG_TARGET_TYPE_SENSOR, "SENSOR"%string); (NRM_MSG_TARGET_TYPE_SCOPE, "SCOPE"%string)].

Definition nrm_msg_actuator_table : list (Z * string) :=
  [(NRM_ACTUATOR_TYPE_DISCRETE, "DISCRETE"%string);
   (NRM_ACTUATOR_TYPE_CONTINUOUS, "CONTINOUS"%string)].

(** The table ends at its NULL entry. *)
Fixpoint nrm_msg_type_t2s (type : Z) (table : list (Z * string)) : string :=
  if type <? 0 then "UNKNOWN"%string
  else match table with
       | [] => "UNKNOWN"%string
       | (t, s) :: table => if t =? type then s else nrm_msg_type_t2s type table
       end.

Definition nrm_msg_is_reply (msg : nrm_msg) : Z :=
  if (m_type msg =? NRM_MSG_TYPE_ACTUATE) || (m_type msg =? NRM_MSG_TYPE_TICK) then 0 else 1.

(** ** JSON *)

Section json.
Context `{Jansson}.

Definition nrm_msg_bitmap_to_json (items : list Z) : json_t :=
  json_array_of ((fun i => Some (json_integer i)) <$> items).
Definition nrm_msg_darray_to_json (items : list double) : json_t :=
  json_array_of (json_real <$> items).

Definition nrm_msg_actuator_discrete_to_json (choices : list double) : option json_t :=
  json_pack [("choices"%string, P_o (Some (nrm_msg_darray_to_json choices)))].
Definition nrm_msg_actuator_continuous_to_json (limits : double * double) : option json_t :=
  json_pack [("min"%string, P_f limits.1); ("max"%string, P_f limits.2)].

Definition nrm_msg_actuator_to_json (msg : nrm_msg_actuator) : outcome (option json_t) :=
  sub ← (if ma_type msg =? NRM_ACTUATOR_TYPE_DISCRETE then
           cs ← get_discrete msg; Ok (nrm_msg_actuator_discrete_to_json cs)
         else if ma_type msg =? NRM_ACTUATOR_TYPE_CONTINUOUS then
           l ← get_continuous msg; Ok (nrm_msg_actuator_continuous_to_json l)
         else Ok None);
  Ok (json_pack [("uuid"%string, P_s (ma_uuid msg));
                 ("clientid"%string, P_s_opt (ma_clientid msg));
                 ("value"%string, P_f (ma_value msg));
                 ("type"%string, P_s (Some (nrm_msg_type_t2s (ma_type msg) nrm_msg_actuator_table)));
                 ("data"%string, P_o sub)]).

Definition nrm_msg_actuatorlist_to_json (msg : list nrm_msg_actuator) : outcome json_t :=
  l ← map_outcome nrm_msg_actuator_to_json msg; Ok (json_array_of l).

Definition nrm_msg_scope_to_json (msg : nrm_msg_scope) : option json_t :=
  json_pack [("uuid"%string, P_s (ms_uuid msg));
             ("cpu"%string, P_o (Some (nrm_msg_bitmap_to_json (ms_cpus msg))));
             ("numa"%string, P_o (Some (nrm_msg_bitmap_to_json (ms_numas msg))));
             ("gpu"%string, P_o (Some (nrm_msg_bitmap_to_json (ms_gpus msg))))].
Definition nrm_msg_scopelist_to_json (msg : list nrm_msg_scope) : json_t :=
  json_array_of (nrm_msg_scope_to_json <$> msg).

Definition nrm_msg_sensor_to_json (msg : nrm_msg_sensor) : option json_t :=
  json_pack [("uuid"%string, P_s (mse_uuid msg))].
Definition nrm_msg_sensorlist_to_json (msg : list nrm_msg_sensor) : json_t :=
  json_array_of (nrm_msg_sensor_to_json <$> msg).

Definition nrm_msg_slice_to_json (msg : nrm_msg_slice) : option json_t :=
  json_pack [("uuid"%string, P_s (msl_uuid msg))].
Definition nrm_msg_slicelist_to_json (msg : list nrm_msg_slice) : json_t :=
  json_array_of (nrm_msg_slice_to_json <$> msg).

Definition nrm_msg_event_to_json (msg : nrm_msg_event) : option json_t :=
  json_pack [("time"%string, P_I (me_time msg)); ("value"%string, P_f (me_value msg))].

Definition nrm_msg_timeserie_to_json (msg : nrm_msg_timeserie) : outcome (option json_t) :=
  let events := json_array_of (nrm_msg_event_to_json <$> mt_events msg) in
  s ← deref (mt_scope msg);
  let scope := nrm_msg_scope_to_json s in
  Ok (json_pack [("sensor_uuid"%string, P_s (mt_sensor_uuid msg)); ("scope_uuid"%string, P_o scope);
                 ("start"%string, P_I (mt_start msg)); ("events"%string, P_o (Some events))]).
Definition nrm_msg_timeserielist_to_json (msg : list nrm_msg_timeserie) : outcome json_t :=
  l ← map_outcome nrm_msg_timeserie_to_json msg; Ok (json_array_of l).

Definition nrm_msg_add_to_json (msg : nrm_msg_add) : outcome (option json_t) :=
  let t := mad_type msg in
  sub ← (if t =? NRM_MSG_TARGET_TYPE_ACTUATOR then
           a ← get_add_actuator msg; a ← deref a; nrm_msg_actuator_to_json a
         else if t =? NRM_MSG_TARGET_TYPE_SLICE then
           a ← get_add_slice msg; a ← deref a; Ok (nrm_msg_slice_to_json a)
         else if t =? NRM_MSG_TARGET_TYPE_SENSOR then
           a ← get_add_sensor msg; a ← deref a; Ok (nrm_msg_sensor_to_json a)
         else if t =? NRM_MSG_TARGET_TYPE_SCOPE then
           a ← get_add_scope msg; a ← deref a; Ok (nrm_msg_scope_to_json a)
         else Ok None);
  Ok (json_pack [("type"%string, P_s (Some (nrm_msg_type_t2s t nrm_msg_target_table)));
                 ("data"%string, P_o_opt sub)]).

Definition nrm_msg_list_to_json (msg : nrm_msg_list) : outcome (option json_t) :=
  let t := ml_type msg in
  sub ← (if t =? NRM_MSG_TARGET_TYPE_ACTUATOR then
           l ← get_list_actuators msg; l ← deref l; j ← nrm_msg_actuatorlist_to_json l; Ok (Some j)
         else if t =? NRM_MSG_TARGET_TYPE_SLICE then
           l ← get_list_slices msg; l ← deref l; Ok (Some (nrm_msg_slicelist_to_json l))
         else if t =? NRM_MSG_TARGET_TYPE_SENSOR then
           l ← get_list_sensors msg; l ← deref l; Ok (Some (nrm_msg_sensorlist_to_json l))
         else if t =? NRM_MSG_TARGET_TYPE_SCOPE then
           l ← get_list_scopes msg; l ← deref l; Ok (Some (nrm_msg_scopelist_to_json l))
         else Ok None);
  Ok (json_pack [("type"%string, P_s (Some (nrm_msg_type_t2s t nrm_msg_target_table)));
                 ("data"%string, P_o_opt sub)]).

Definition nrm_msg_remove_to_json (msg : nrm_msg_remove) : option json_t :=
  json_pack [("type"%string, P_s (Some (nrm_msg_type_t2s (mr_type msg) nrm_msg_target_table)));
             ("uuid"%string, P_s_opt (mr_uuid msg))].

Definition nrm_msg_actuate_to_json (msg : nrm_msg_actuate) : option json_t :=
  json_pack [("uuid"%string, P_s (mac_uuid msg)); ("value"%string, P_f (mac_value msg))].

Definition nrm_msg_to_json (msg : nrm_msg) : outcome (option json_t) :=
  let t := m_type msg in
  sub ← (if t =? NRM_MSG_TYPE_ACTUATE then
           a ← get_actuate msg; a ← deref a; Ok (nrm_msg_actuate_to_json a)
         else if t =? NRM_MSG_TYPE_ADD then
           a ← get_add msg; a ← deref a; nrm_msg_add_to_json a
         else if t =? NRM_MSG_TYPE_LIST then
           l ← get_list msg; l ← deref l; nrm_msg_list_to_json l
         else if t =? NRM_MSG_TYPE_EVENTS then
           e ← get_events msg; e ← deref e; j ← nrm_msg_timeserielist_to_json e; Ok (Some j)
         else if t =? NRM_MSG_TYPE_REMOVE then
           r ← get_remove msg; r ← deref r; Ok (nrm_msg_remove_to_json r)
         else Ok None);
  Ok (json_pack [("type"%string, P_s (Some (nrm_msg_type_t2s t nrm_msg_type_table)));
                 ("data"%string, P_o_opt sub)]).

(** What is printed goes after what was; [dumps] is [json_dumps] of jansson, whose
    NULL for a NULL value [fprintf] must not get. *)
Definition nrm_msg_fprintf (dumps : json_t -> string) (f : list string) (msg : nrm_msg)
    : outcome (Z * list string) :=
  json ← nrm_msg_to_json msg;
  j ← deref json;
  Ok (0, f ++ [(dumps j ++ String "010" EmptyString)%string]).

(** A message in the log has no label. *)
Definition nrm_log_printmsg (dumps : json_t -> string) (st : log_state) (level : Z)
    (msg : option nrm_msg) : outcome log_state :=
  if level >? nrm_log_level st then Ok st
  else
    _ ← deref (nrm_log_fd st);
    text ← match msg with
           | None => Ok [("NULL" ++ String "010" EmptyString)%string]
           | Some m => snd <$> nrm_msg_fprintf dumps [] m
           end;
    Ok (Log (nrm_log_level st) (nrm_log_initialized st) (nrm_log_fd st) (nrm_log_namespace st)
            (log_out st ++ ((fun t => (EmptyString, t)) <$> text))).
End json.

(** ** Control messages *)

Definition NRM_CTRLMSG_TYPE_TERM : Z := 0.
Definition NRM_CTRLMSG_TYPE_SEND : Z := 1.
Definition NRM_CTRLMSG_TYPE_RECV : Z := 2.
Definition NRM_CTRLMSG_TYPE_PUB : Z := 3.
Definition NRM_CTRLMSG_TYPE_SUB : Z := 4.
Definition NRM_CTRLMSG_TYPE_MAX : Z := 5.

Definition nrm_ctrlmsg_table : list (Z * string) :=
  [(NRM_CTRLMSG_TYPE_TERM, "$TERM"%string); (NRM_CTRLMSG_TYPE_SEND, "SEND"%string);
   (NRM_CTRLMSG_TYPE_RECV, "RECV"%string); (NRM_CTRLMSG_TYPE_PUB, "PUB"%string);
   (NRM_CTRLMSG_TYPE_SUB, "SUB"%string)].

(** Reading the table past its end is undefined. *)
Definition nrm_ctrlmsg_t2s (type : Z) : outcome (option string) :=
  if (type <? 0) || (type >? NRM_CTRLMSG_TYPE_MAX) then Ok None
  else e ← deref (nrm_ctrlmsg_table !! Z.to_nat type); Ok (Some e.2).

Definition nrm_ctrlmsg_s2t (s : string) : Z :=
  match list_find (fun e => e.2 = s) nrm_ctrlmsg_table with
  | Some (i, _) => Z.of_nat i
  | None => -1
  end.

(** What a [void *] on the pipe points to: a message, a uuid, a string, or
    nothing. The receiver casts it back. *)
Inductive voidp :=
| V_null
| V_msg (m : nrm_msg)
| V_uuid (u : string)
| V_string (s : string).

Definition msg_ptr (m : option nrm_msg) : voidp := match m with Some m => V_msg m | None => V_null end.
Definition uuid_ptr (u : option string) : voidp :=
  match u with Some u => V_uuid u | None => V_null end.
Definition string_ptr (u : option string) : voidp :=
  match u with Some u => V_string u | None => V_null end.

(** Using a pointer at another type than its own is undefined. *)
Definition as_msg (p : voidp) : outcome (option nrm_msg) :=
  match p with V_msg m => Ok (Some m) | V_null => Ok None | _ => Undefined end.
Definition as_uuid (p : voidp) : outcome (option string) :=
  match p with V_uuid u => Ok (Some u) | V_null => Ok None | _ => Undefined end.
Definition as_string (p : voidp) : outcome (option string) :=
  match p with V_string u => Ok (Some u) | V_null => Ok None | _ => Undefined end.

(** A message on the pipe: the string and the two pointers. *)
Record ctrlmsg := Ctrlmsg { c_string : string; c_p1 : voidp; c_p2 : voidp }.

Definition nrm_ctrlmsg__send (type : Z) (p1 p2 : voidp) : outcome ctrlmsg :=
  typestring ← nrm_ctrlmsg_t2s type;
  _ ← c_assert (negb (is_null typestring));
  s ← deref typestring;
  Ok (Ctrlmsg s p1 p2).

Definition nrm_ctrlmsg__recv (c : ctrlmsg) : Z * voidp * voidp :=
  (nrm_ctrlmsg_s2t (c_string c), c_p1 c, c_p2 c).

Definition nrm_ctrlmsg_sendmsg (type : Z) (msg : option nrm_msg) (to : option string)
    : outcome ctrlmsg := nrm_ctrlmsg__send type (msg_ptr msg) (uuid_ptr to).
Definition nrm_ctrlmsg_pub (type : Z) (topic : option string) (msg : option nrm_msg)
    : outcome ctrlmsg :=
  _ ← c_assert (type =? NRM_CTRLMSG_TYPE_PUB); nrm_ctrlmsg__send type (string_ptr topic) (msg_ptr msg).
Definition nrm_ctrlmsg_sub (type : Z) (topic : option string) : outcome ctrlmsg :=
  _ ← c_assert (type =? NRM_CTRLMSG_TYPE_SUB); nrm_ctrlmsg__send type (string_ptr topic) V_null.
Definition nrm_ctrlmsg_recvmsg (c : ctrlmsg) : outcome (option nrm_msg * Z * option string) :=
  let '(type, p, q) := nrm_ctrlmsg__recv c in
  m ← as_msg p; u ← as_uuid q; Ok (m, type, u).

(** [NRM_CTRLMSG_2SEND], [_2SENDTO], [_2SUB] and [_2PUB]. *)
Definition NRM_CTRLMSG_2SEND (p q : voidp) : outcome (option nrm_msg) := as_msg p.
Definition NRM_CTRLMSG_2SENDTO (p q : voidp) : outcome (option nrm_msg * option string) :=
  m ← as_msg p; t ← as_uuid q; Ok (m, t).
Definition NRM_CTRLMSG_2SUB (p q : voidp) : outcome (option string) := as_string p.
Definition NRM_CTRLMSG_2PUB (p q : voidp) : outcome (option string * option nrm_msg) :=
  s ← as_string p; m ← as_msg q; Ok (s, m).

(** ** Properties *)

(** A control message of any of the five types is received with the type,
    the message and the identity it was sent with; one to publish with its topic
    and message, one to subscribe with its topic. *)
Theorem ctrlmsg_roundtrip type msg to topic :
  0 <= type < NRM_CTRLMSG_TYPE_MAX ->
  (exists c, nrm_ctrlmsg_sendmsg type msg to = Ok c /\ nrm_ctrlmsg_recvmsg c = Ok (msg, type, to)) /\
  (exists c p q, nrm_ctrlmsg_pub NRM_CTRLMSG_TYPE_PUB topic msg = Ok c /\
     nrm_ctrlmsg__recv c = (NRM_CTRLMSG_TYPE_PUB, p, q) /\ NRM_CTRLMSG_2PUB p q = Ok (topic, msg)) /\
  (exists c p q, nrm_ctrlmsg_sub NRM_CTRLMSG_TYPE_SUB topic = Ok c /\
     nrm_ctrlmsg__recv c = (NRM_CTRLMSG_TYPE_SUB, p, q) /\ NRM_CTRLMSG_2SUB p q = Ok topic).
Proof.
  unfold NRM_CTRLMSG_TYPE_MAX. intros Ht.
  assert (Hmsg : as_msg (msg_ptr msg) = Ok msg) by (by destruct msg).
  assert (Hto : as_uuid (uuid_ptr to) = Ok to) by (by destruct to).
  assert (Htopic : as_string (string_ptr topic) = Ok topic) by (by destruct topic).
  split; [|split; [exists (Ctrlmsg "PUB" (string_ptr topic) (msg_ptr msg)), (string_ptr topic), (msg_ptr msg)
                  |exists (Ctrlmsg "SUB" (string_ptr topic) V_null), (string_ptr topic), V_null];
           (split; [reflexivity|]); (split; [reflexivity|])].
  - unfold nrm_ctrlmsg_sendmsg, nrm_ctrlmsg_recvmsg, nrm_ctrlmsg__recv.
    assert (type = 0 \/ type = 1 \/ type = 2 \/ type = 3 \/ type = 4) as H by lia.
    destruct H as [->|[->|[->|[->| ->]]]]; eexists (Ctrlmsg _ (msg_ptr msg) (uuid_ptr to));
      (split; [reflexivity|]); cbn [c_string c_p1 c_p2]; rewrite Hmsg, Hto; reflexivity.
  - unfold NRM_CTRLMSG_2PUB. rewrite Htopic. cbn [mbind outcome_bind]. by rewrite Hmsg.
  - exact Htopic.
Qed.

Lemma ctrlmsg_roundtrip_witness :
  (exists c, nrm_ctrlmsg_sendmsg 3 (Some (Msg 0 D_none)) None = Ok c /\
             nrm_ctrlmsg_recvmsg c = Ok (Some (Msg 0 D_none), 3, None)) /\
  (exists c p q, nrm_ctrlmsg_pub NRM_CTRLMSG_TYPE_PUB (Some "t"%string) (Some (Msg 0 D_none)) = Ok c /\
     nrm_ctrlmsg__recv c = (NRM_CTRLMSG_TYPE_PUB, p, q) /\
     NRM_CTRLMSG_2PUB p q = Ok (Some "t"%string, Some (Msg 0 D_none))) /\
  (exists c p q, nrm_ctrlmsg_sub NRM_CTRLMSG_TYPE_SUB (Some "t"%string) = Ok c /\
     nrm_ctrlmsg__recv c = (NRM_CTRLMSG_TYPE_SUB, p, q) /\ NRM_CTRLMSG_2SUB p q = Ok (Some "t"%string)).
Proof.
  apply (ctrlmsg_roundtrip 3 (Some (Msg 0 D_none)) None (Some "t"%string)).
  unfold NRM_CTRLMSG_TYPE_MAX. lia.
Defined.

(** The bound of [nrm_ctrlmsg_t2s] lets the number of types through, which reads
    past the table. *)
Theorem ctrlmsg_t2s_out_of_bounds : nrm_ctrlmsg_t2s NRM_CTRLMSG_TYPE_MAX = Undefined.
Proof. reflexivity. Qed.

(** A message whose [oneof] member is the one its type names, as the functions
    of messages.c build it. *)
Definition actuator_msg_ok (m : nrm_msg_actuator) : Prop :=
  match ma_data m with
  | AD_discrete _ => ma_type m = NRM_ACTUATOR_TYPE_DISCRETE
  | AD_continuous _ _ => ma_type m = NRM_ACTUATOR_TYPE_CONTINUOUS
  | AD_none => ma_type m <> NRM_ACTUATOR_TYPE_DISCRETE /\ ma_type m <> NRM_ACTUATOR_TYPE_CONTINUOUS
  end.
Definition add_ok (m : nrm_msg_add) : Prop :=
  match mad_data m with
  | Add_slice _ => mad_type m = NRM_MSG_TARGET_TYPE_SLICE
  | Add_sensor _ => mad_type m = NRM_MSG_TARGET_TYPE_SENSOR
  | Add_scope _ => mad_type m = NRM_MSG_TARGET_TYPE_SCOPE
  | Add_actuator a => mad_type m = NRM_MSG_TARGET_TYPE_ACTUATOR /\ actuator_msg_ok a
  | Add_none => False
  end.
Definition list_ok (m : nrm_msg_list) : Prop :=
  match ml_data m with
  | List_slices _ => ml_type m = NRM_MSG_TARGET_TYPE_SLICE
  | List_sensors _ => ml_type m = NRM_MSG_TARGET_TYPE_SENSOR
  | List_scopes _ => ml_type m = NRM_MSG_TARGET_TYPE_SCOPE
  | List_actuators l => ml_type m = NRM_MSG_TARGET_TYPE_ACTUATOR /\ Forall actuator_msg_ok l
  | List_none => False
  end.
Definition msg_ok (m : nrm_msg) : Prop :=
  match m_data m with
  | D_list l => m_type m = NRM_MSG_TYPE_LIST /\ list_ok l
  | D_add a => m_type m = NRM_MSG_TYPE_ADD /\ add_ok a
  | D_remove _ => m_type m = NRM_MSG_TYPE_REMOVE
  | D_events l => m_type m = NRM_MSG_TYPE_EVENTS /\ Forall (fun ts => is_Some (mt_scope ts)) l
  | D_actuate _ => m_type m = NRM_MSG_TYPE_ACTUATE
  | D_none => m_type m = NRM_MSG_TYPE_ACK \/ m_type m = NRM_MSG_TYPE_EXIT
              \/ m_type m = NRM_MSG_TYPE_TICK
  end.

Lemma actuator_destroy_ok m : actuator_msg_ok m -> nrm_msg_actuator_destroy (Some m) = Ok tt.
Proof.
  unfold actuator_msg_ok, nrm_msg_actuator_destroy, get_discrete.
  destruct (ma_data m); intros H; [|by rewrite H|by rewrite H].
  by destruct (Z.eqb_spec (ma_type m) NRM_ACTUATOR_TYPE_DISCRETE) as [E|E]; [destruct H|].
Qed.

Lemma actuatorlist_destroy_ok l :
  Forall actuator_msg_ok l -> nrm_msg_actuatorlist_destroy (Some l) = Ok tt.
Proof.
  unfold nrm_msg_actuatorlist_destroy. induction 1 as [|x l Hx _ IH]; [done|].
  change (mfold (fun _ a => nrm_msg_actuator_destroy (Some a)) tt (x :: l)) with
    (s ← nrm_msg_actuator_destroy (Some x);
     mfold (fun _ a => nrm_msg_actuator_destroy (Some a)) s l).
  by rewrite actuator_destroy_ok.
Qed.

Lemma actuator_to_json_ok `{Jansson} m :
  actuator_msg_ok m -> exists j, nrm_msg_actuator_to_json m = Ok j.
Proof.
  unfold actuator_msg_ok, nrm_msg_actuator_to_json, get_discrete, get_continuous.
  destruct (ma_data m); intros Ht; [|rewrite Ht; by eexists|rewrite Ht; by eexists].
  destruct Ht as [H1 H2].
  destruct (Z.eqb_spec (ma_type m) NRM_ACTUATOR_TYPE_DISCRETE); [done|].
  destruct (Z.eqb_spec (ma_type m) NRM_ACTUATOR_TYPE_CONTINUOUS); [done|]. by eexists.
Qed.

Lemma map_outcome_total {A B} (f : A -> outcome B) l :
  Forall (fun x => exists y, f x = Ok y) l -> exists ys, map_outcome f l = Ok ys.
Proof.
  induction 1 as [|x l [y Hy] _ [ys IH]]; [by exists []|]. exists (y :: ys). cbn. by rewrite Hy; cbn; rewrite IH.
Qed.

Lemma msg_to_json_ok `{Jansson} m : msg_ok m -> exists j, nrm_msg_to_json m = Ok j.
Proof.
  unfold msg_ok, nrm_msg_to_json. destruct (m_data m) as [|l|a|r|e|a] eqn:Em.
  - intros [->|[->| ->]]; by eexists.
  - intros [-> Hl]. unfold get_list. rewrite Em. cbn -[nrm_msg_list_to_json].
    unfold list_ok, nrm_msg_list_to_json in *.
    unfold get_list_slices, get_list_sensors, get_list_scopes, get_list_actuators.
    destruct (ml_data l) as [|x|x|x|x]; [done| | | |destruct Hl as [Hl Hall]]; rewrite Hl;
      cbn -[json_pack nrm_msg_actuatorlist_to_json]; try by eexists.
    unfold nrm_msg_actuatorlist_to_json.
    destruct (map_outcome_total nrm_msg_actuator_to_json x) as [ys ->]; [|by eexists].
    eapply Forall_impl; [exact Hall|]. intros y Hy. by apply actuator_to_json_ok.
  - intros [-> Ha]. unfold get_add. rewrite Em. cbn -[nrm_msg_add_to_json].
    unfold add_ok, nrm_msg_add_to_json in *.
    unfold get_add_slice, get_add_sensor, get_add_scope, get_add_actuator.
    destruct (mad_data a) as [|x|x|x|x]; [done| | | |destruct Ha as [Ha Hx]]; rewrite Ha;
      cbn -[json_pack nrm_msg_actuator_to_json]; try by eexists.
    destruct (actuator_to_json_ok x Hx) as [j ->]. by eexists.
  - intros ->. unfold get_remove. rewrite Em. by eexists.
  - intros [-> Hall]. unfold get_events. rewrite Em. cbn -[json_pack nrm_msg_timeserielist_to_json].
    unfold nrm_msg_timeserielist_to_json.
    destruct (map_outcome_total nrm_msg_timeserie_to_json e) as [ys ->]; [|by eexists].
    eapply Forall_impl; [exact Hall|]. intros ts [s Hs]. unfold nrm_msg_timeserie_to_json. rewrite Hs.
    by eexists.
  - intros ->. unfold get_actuate. rewrite Em. by eexists.
Qed.

Lemma msg_destroy_ok m : msg_ok m -> nrm_msg_destroy_created (Some (Some m)) = Ok None.
Proof.
  unfold msg_ok, nrm_msg_destroy_created. destruct (m_data m) as [|l|a|r|e|a] eqn:Em.
  - by intros [->|[->| ->]].
  - intros [-> Hl]. unfold get_list. rewrite Em. cbn -[nrm_msg_list_destroy].
    unfold list_ok, nrm_msg_list_destroy in *.
    unfold get_list_slices, get_list_sensors, get_list_scopes, get_list_actuators.
    destruct (ml_data l) as [|x|x|x|x]; [done| | | |destruct Hl as [Hl Hall]]; rewrite Hl;
      cbn -[nrm_msg_actuatorlist_destroy]; try done. by rewrite actuatorlist_destroy_ok.
  - intros [-> Ha]. unfold get_add. rewrite Em. cbn -[nrm_msg_add_destroy].
    unfold add_ok, nrm_msg_add_destroy in *.
    unfold get_add_slice, get_add_sensor, get_add_scope, get_add_actuator.
    destruct (mad_data a) as [|x|x|x|x]; [done| | | |destruct Ha as [Ha Hx]]; rewrite Ha;
      cbn -[nrm_msg_actuator_destroy]; try done. by rewrite actuator_destroy_ok.
  - intros ->. unfold get_remove. by rewrite Em.
  - intros [-> _]. unfold get_events. by rewrite Em.
  - intros ->. unfold get_actuate. by rewrite Em.
Qed.

Lemma actuator_norm_ok m : actuator_msg_ok m -> actuator_msg_ok (norm_actuator m).
Proof. done. Qed.

(** What is received is as well-formed as what was sent. *)
Lemma msg_norm_ok m : msg_ok m -> msg_ok (norm_msg m).
Proof.
  unfold msg_ok, norm_msg. destruct (m_data m) as [|[lt l]|[at_ a]|r|e|a]; cbn; auto.
  - intros [-> Hl]. split; [done|]. unfold list_ok in *. cbn in *. destruct l; try done.
    destruct Hl as [Hl Hall]. split; [done|]. apply Forall_fmap. exact Hall.
  - intros [-> Ha]. split; [done|]. unfold add_ok in *. cbn in *. by destruct a.
  - intros [-> Hall]. split; [done|]. apply Forall_fmap. eapply Forall_impl; [exact Hall|].
    intros ts [s Hs]. cbn. rewrite Hs. by eexists.
Qed.

Lemma type_t2s_ascii t :
  Forall (fun c => (nat_of_ascii c < 128)%nat)
    (String.list_ascii_of_string (nrm_msg_type_t2s t nrm_msg_type_table)).
Proof. unfold nrm_msg_type_table. cbn [nrm_msg_type_t2s]. repeat case_match; cbn; repeat constructor; cbn; lia. Qed.

(** Whatever the values of its members, the message itself is never NULL. *)
Lemma msg_to_json_some `{Jansson} m j : nrm_msg_to_json m = Ok j -> is_Some j.
Proof.
  unfold nrm_msg_to_json. intros (sub & _ & [= <-])%bind_Ok_inv. unfold json_pack. cbn [pack_members pack_value].
  unfold json_string. rewrite utf8_check_ascii by apply type_t2s_ascii. destruct sub; cbn; by eexists.
Qed.

(** The log of a message that is well typed writes one line. *)
Lemma printmsg_ok `{Jansson} dumps st level m fd :
  nrm_log_fd st = Some fd -> level <= nrm_log_level st -> msg_ok m ->
  exists j st', nrm_msg_to_json m = Ok (Some j) /\ nrm_log_printmsg dumps st level (Some m) = Ok st' /\
    log_out st' = log_out st ++ [(EmptyString, (dumps j ++ String "010" EmptyString)%string)].
Proof.
  intros Hfd Hl Hok. destruct (msg_to_json_ok m Hok) as [j E]. destruct (msg_to_json_some m j E) as [x ->].
  unfold nrm_log_printmsg, nrm_msg_fprintf. rewrite Hfd, E, Z.gtb_ltb, (proj2 (Z.ltb_ge _ _)) by done.
  by eexists _, _.
Qed.

(** On a message whose member is the one its type names, neither the
    pretty-printer nor [nrm_msg_destroy_created] reads a wrong member or a NULL
    pointer. *)
Theorem msg_ok_safe `{Jansson} m :
  msg_ok m ->
  (exists j, nrm_msg_to_json m = Ok j) /\ nrm_msg_destroy_created (Some (Some m)) = Ok None.
Proof. split; [by apply msg_to_json_ok|by apply msg_destroy_ok]. Qed.

Lemma msg_ok_safe_witness :
  let m := Msg NRM_MSG_TYPE_REMOVE (D_remove (MRemove 2 (Some "x"%string))) in
  msg_ok m /\ (exists j, nrm_msg_to_json m = Ok j) /\ nrm_msg_destroy_created (Some (Some m)) = Ok None.
Proof. intros m. split; [reflexivity|]. apply (msg_ok_safe m). reflexivity. Defined.
