(* ===== verification/MsgMemory.v ===== *)
(** * The memory of messages (src/messages.c)

    The constructors and the destructors of messages, on a memory: Messages has
    what a message says, this file has the allocations it is made of. A pointer is
    an address with what was stored there; the memory is the set of the addresses
    that are allocated, so that reading or freeing one that is not is undefined. An
    object is written before its address is given away and not after, except for the
    member of a message, whose new value is returned. *)

From S2P Require Import Prelude Vectors Doubles Hashes Bitmaps Json Timers Scopes Actuators Events Messages MsgJson.

(** ** Memory *)

Abbreviation addr := positive (only parsing).

(** [malloc] of the C library: an address that is not in use. *)
Class Malloc := {
  malloc : gset addr -> addr;
  malloc_fresh : forall used, malloc used ∉ used
}.

#[export] Instance fresh_malloc : Malloc.
Proof. refine {| malloc := fun used => fresh used |}. intros used. apply is_fresh. Defined.

(** [failing] tells for each allocation to come whether it fails; beyond its end
    none does. *)
Record mem := Mem { live : gset addr; failing : list bool }.

Definition ptr (A : Type) : Type := option (addr * A).
Definition address {A} (p : ptr A) : option addr := fst <$> p.
Definition pointee {A} (p : ptr A) : option A := snd <$> p.

(** Computations on the memory. *)
Definition M (A : Type) : Type := mem -> outcome (A * mem).
#[export] Instance M_ret : MRet M := fun A x m => Ok (x, m).
#[export] Instance M_bind : MBind M := fun A B f c m => '(x, m) ← c m; f x m.
Definition lift {A} (o : outcome A) : M A := fun m => x ← o; Ok (x, m).

Section memory.
Context `{Malloc}.

(** NULL when the allocation fails; what is stored is written by the caller. *)
Definition alloc : M (option addr) := fun m =>
  match failing m with
  | true :: rest => Ok (None, Mem (live m) rest)
  | rest => let a := malloc (live m) in Ok (Some a, Mem ({[a]} ∪ live m) (drop 1 rest))
  end.

Definition free (a : option addr) : M unit := fun m =>
  match a with
  | None => Ok (tt, m)
  | Some a => if decide (a ∈ live m) then Ok (tt, Mem (live m ∖ {[a]}) (failing m)) else Undefined
  end.

Definition load {A} (p : ptr A) : M A := fun m =>
  match p with
  | None => Undefined
  | Some (a, x) => if decide (a ∈ live m) then Ok (x, m) else Undefined
  end.

(** The elements of an array, one call for each. *)
Fixpoint M_map {A B} (f : A -> M B) (l : list A) : M (list B) :=
  match l with
  | [] => mret []
  | x :: l => y ← f x; ys ← M_map f l; mret (y :: ys)
  end.
Fixpoint M_iter {A} (f : A -> M unit) (l : list A) : M unit :=
  match l with
  | [] => mret tt
  | x :: l => _ ← f x; M_iter f l
  end.

(** [calloc] and what is stored in it before the address is returned: NULL, and
    nothing stored, when it fails. *)
Definition new {A} (fill : M A) : M (ptr A) :=
  a ← alloc;
  match a with
  | None => mret None
  | Some a => x ← fill; mret (Some (a, x))
  end.

(** An array that is asserted not to be NULL. *)
Definition new_array {A} (fill : M A) : M (ptr A) :=
  a ← alloc;
  match a with
  | None => lift Assert_failed
  | Some a => x ← fill; mret (Some (a, x))
  end.

(** [strdup] dereferences its argument. *)
Definition strdup_mem (s : option string) : M (ptr string) :=
  s ← lift (deref s); new (mret s).
End memory.

(** ** The structures, with their pointers *)

Record h_actuate := HActuate { hac_uuid : ptr string; hac_value : double }.
Record h_sensor := HSensor { hse_uuid : ptr string }.
Record h_slice := HSlice { hsl_uuid : ptr string }.
Record h_discrete := HDiscrete { hd_n_choices : Z; hd_choices : ptr (list double) }.
Record h_continuous := HContinuous { hc_lmin : double; hc_lmax : double }.

Inductive h_actuator_data :=
| HA_none
| HA_discrete (d : ptr h_discrete)
| HA_continuous (c : ptr h_continuous).
Record h_actuator := HActuator {
  ha_uuid : ptr string; ha_clientid : ptr string; ha_value : double; ha_type : Z;
  ha_data : h_actuator_data }.

Record h_scope := HScope {
  hs_uuid : ptr string;
  hs_n_cpus : Z; hs_cpus : ptr (list Z);
  hs_n_numas : Z; hs_numas : ptr (list Z);
  hs_n_gpus : Z; hs_gpus : ptr (list Z) }.

Record h_event := HEvent { he_time : Z; he_value : double }.

(** [n_*] and the array of pointers of a list. *)
Record h_items (A : Type) := HItems { hi_n : Z; hi_items : ptr (list (ptr A)) }.
Arguments HItems {_} _ _. Arguments hi_n {_} _. Arguments hi_items {_} _.

Record h_timeserie := HTimeserie {
  ht_sensor_uuid : ptr string; ht_scope : ptr h_scope; ht_start : Z; ht_events : h_items h_event }.

Inductive h_add_data :=
| HAdd_none
| HAdd_slice (m : ptr h_slice)
| HAdd_sensor (m : ptr h_sensor)
| HAdd_scope (m : ptr h_scope)
| HAdd_actuator (m : ptr h_actuator).
Record h_add := HAdd { had_type : Z; had_data : h_add_data }.

Inductive h_list_data :=
| HList_none
| HList_slices (l : ptr (h_items h_slice))
| HList_sensors (l : ptr (h_items h_sensor))
| HList_scopes (l : ptr (h_items h_scope))
| HList_actuators (l : ptr (h_items h_actuator)).
Record h_list := HList { hl_type : Z; hl_data : h_list_data }.

Record h_remove := HRemove { hr_type : Z; hr_uuid : ptr string }.

Inductive h_data :=
| HD_none
| HD_list (m : ptr h_list)
| HD_add (m : ptr h_add)
| HD_remove (m : ptr h_remove)
| HD_events (m : ptr (h_items h_timeserie))
| HD_actuate (m : ptr h_actuate).
Record h_msg := HMsg { hm_type : Z; hm_data : h_data }.

Section messages.
Context `{Malloc}.

(** ** Creating *)

Definition nrm_msg_create_mem : M (ptr h_msg) := new (mret (HMsg NRM_MSG_TYPE_ACK HD_none)).

(** The same address with what it holds after an assignment through it. *)
Definition assign {A} (p : ptr A) (x : A) : ptr A := (fun r => (fst r, x)) <$> p.

Definition nrm_msg_fill_mem (msg : ptr h_msg) (type : Z) : M (Z * ptr h_msg) :=
  match msg with
  | None => mret (- NRM_EINVAL, msg)
  | Some _ =>
      if (type <? 0) || (type >=? NRM_MSG_TYPE_MAX) then mret (- NRM_EINVAL, msg)
      else m ← load msg; mret (0, assign msg (HMsg type (hm_data m)))
  end.

Definition nrm_msg_actuate_new_mem (uuid : option string) (value : double) : M (ptr h_actuate) :=
  new (u ← strdup_mem uuid; mret (HActuate u value)).
Definition nrm_msg_sensor_new_mem (uuid : option string) : M (ptr h_sensor) :=
  new (u ← strdup_mem uuid; mret (HSensor u)).
Definition nrm_msg_slice_new_mem (uuid : option string) : M (ptr h_slice) :=
  new (u ← strdup_mem uuid; mret (HSlice u)).
Definition nrm_msg_add_new_mem (type : Z) : M (ptr h_add) := new (mret (HAdd type HAdd_none)).

Definition nrm_msg_actuator_discrete_new_mem (actuator : nrm_actuator) : M (ptr h_discrete) :=
  new (choices ← lift (choices_of actuator);
       l ← new_array (mret choices);
       mret (HDiscrete (Z.of_nat (length choices)) l)).
Definition nrm_msg_actuator_continuous_new_mem (actuator : nrm_actuator) : M (ptr h_continuous) :=
  new ('(lmin, lmax) ← lift (limits_of actuator); mret (HContinuous lmin lmax)).

Definition nrm_msg_actuator_new_mem (actuator : nrm_actuator) : M (ptr h_actuator) :=
  let d := a_data actuator in
  new (u ← strdup_mem (a_uuid d);
       c ← match a_clientid d with Some c => strdup_mem (Some c) | None => mret None end;
       data ← (if a_type d =? NRM_ACTUATOR_TYPE_DISCRETE then
                 x ← nrm_msg_actuator_discrete_new_mem actuator; mret (HA_discrete x)
               else if a_type d =? NRM_ACTUATOR_TYPE_CONTINUOUS then
                 x ← nrm_msg_actuator_continuous_new_mem actuator; mret (HA_continuous x)
               else mret HA_none);
       mret (HActuator u c (a_value d) (i32 (a_type d)) data)).

(** [nrm_bitmap_to_array] stores the number of elements before it allocates. *)
Definition to_array_mem (map : nrm_bitmap) : M (Z * ptr (list Z)) :=
  let '(_, n, items) := nrm_bitmap_to_array false (Some map) in
  p ← new (mret (default [] items)); mret (n, p).

Definition nrm_msg_scope_new_mem (scope : nrm_scope) : M (ptr h_scope) :=
  new (u ← strdup_mem (scope_uuid scope);
       b ← lift (scope_map scope NRM_SCOPE_TYPE_CPU); '(n_cpus, cpus) ← to_array_mem b;
       b ← lift (scope_map scope NRM_SCOPE_TYPE_NUMA); '(n_numas, numas) ← to_array_mem b;
       b ← lift (scope_map scope NRM_SCOPE_TYPE_GPU); '(n_gpus, gpus) ← to_array_mem b;
       mret (HScope u n_cpus cpus n_numas numas n_gpus gpus)).

Definition nrm_msg_event_new_mem (event : nrm_event) : M (ptr h_event) :=
  new (mret (HEvent (nrm_time_tons (e_time event)) (e_value event))).

(** The part that the lists share: the number of elements, the array, and its
    elements one by one. *)
Definition items_new {A B} (f : A -> M (ptr B)) (l : list A) : M (h_items B) :=
  items ← new_array (M_map f l); mret (HItems (Z.of_nat (length l)) items).

Definition nrm_msg_timeserie_new_mem (timeserie : nrm_timeserie) : M (ptr h_timeserie) :=
  new (u ← strdup_mem (Some (t_sensor_uuid timeserie));
       s ← nrm_msg_scope_new_mem (t_scope timeserie);
       es ← items_new nrm_msg_event_new_mem (t_events timeserie);
       mret (HTimeserie u s (nrm_time_tons (t_start timeserie)) es)).

(** A NULL vector gives a list without an array. *)
Definition list_new {A B} (f : A -> M (ptr B)) (v : option (list A)) : M (ptr (h_items B)) :=
  new match v with None => mret (HItems 0 None) | Some l => items_new f l end.

Definition nrm_msg_timeserielist_new_mem (timeseries : option (list nrm_timeserie))
    : M (ptr (h_items h_timeserie)) := list_new nrm_msg_timeserie_new_mem timeseries.
Definition nrm_msg_actuatorlist_new_mem (actuators : option (list nrm_actuator))
    : M (ptr (h_items h_actuator)) := list_new nrm_msg_actuator_new_mem actuators.
Definition nrm_msg_scopelist_new_mem (scopes : option (list nrm_scope))
    : M (ptr (h_items h_scope)) := list_new nrm_msg_scope_new_mem scopes.
Definition nrm_msg_sensorlist_new_mem (sensors : option (list nrm_sensor))
    : M (ptr (h_items h_sensor)) :=
  list_new (fun s => nrm_msg_sensor_new_mem (sensor_uuid s)) sensors.
Definition nrm_msg_slicelist_new_mem (slices : option (list nrm_slice))
    : M (ptr (h_items h_slice)) :=
  list_new (fun s => nrm_msg_slice_new_mem (slice_uuid s)) slices.

Definition nrm_msg_list_new_mem (type : Z) : M (ptr h_list) := new (mret (HList type HList_none)).
Definition nrm_msg_remove_new_mem (type : Z) (uuid : option string) : M (ptr h_remove) :=
  new (u ← strdup_mem uuid; mret (HRemove type u)).

(** The [nrm_msg_set_*]: [data] is what the member becomes. *)
Definition set_member (msg : ptr h_msg) (data : M h_data) : M (Z * ptr h_msg) :=
  match msg with
  | None => mret (- NRM_EINVAL, msg)
  | Some _ => d ← data; m ← load msg; mret (0, assign msg (HMsg (hm_type m) d))
  end.

Definition nrm_msg_set_events_mem (msg : ptr h_msg) (timeseries : option (list nrm_timeserie))
    : M (Z * ptr h_msg) :=
  set_member msg (l ← nrm_msg_timeserielist_new_mem timeseries;
                  _ ← lift (c_assert (negb (is_null l))); mret (HD_events l)).
Definition nrm_msg_set_actuate_mem (msg : ptr h_msg) (uuid : option string) (value : double)
    : M (Z * ptr h_msg) :=
  set_member msg (a ← nrm_msg_actuate_new_mem uuid value; mret (HD_actuate a)).
Definition nrm_msg_set_remove_mem (msg : ptr h_msg) (type : Z) (uuid : option string)
    : M (Z * ptr h_msg) :=
  set_member msg (r ← nrm_msg_remove_new_mem type uuid;
                  _ ← lift (c_assert (negb (is_null r))); mret (HD_remove r)).

(** The part that the [set_add] share: the ADD, asserted, then its member. *)
Definition set_add (type : Z) (member : M h_add_data) : M h_data :=
  add ← nrm_msg_add_new_mem type;
  _ ← lift (c_assert (negb (is_null add)));
  d ← member; a ← load add; mret (HD_add (assign add (HAdd (had_type a) d))).

Definition nrm_msg_set_add_actuator_mem (msg : ptr h_msg) (actuator : nrm_actuator)
    : M (Z * ptr h_msg) :=
  set_member msg (set_add NRM_MSG_TARGET_TYPE_ACTUATOR
                    (a ← nrm_msg_actuator_new_mem actuator; mret (HAdd_actuator a))).
Definition nrm_msg_set_add_scope_mem (msg : ptr h_msg) (scope : nrm_scope) : M (Z * ptr h_msg) :=
  set_member msg (set_add NRM_MSG_TARGET_TYPE_SCOPE
                    (s ← nrm_msg_scope_new_mem scope; mret (HAdd_scope s))).
Definition nrm_msg_set_add_sensor_mem (msg : ptr h_msg) (sensor : nrm_sensor)
    : M (Z * ptr h_msg) :=
  set_member msg (set_add NRM_MSG_TARGET_TYPE_SENSOR
                    (s ← nrm_msg_sensor_new_mem (sensor_uuid sensor); mret (HAdd_sensor s))).
Definition nrm_msg_set_add_slice_mem (msg : ptr h_msg) (slice : nrm_slice) : M (Z * ptr h_msg) :=
  set_member msg (set_add NRM_MSG_TARGET_TYPE_SLICE
                    (s ← nrm_msg_slice_new_mem (slice_uuid slice); mret (HAdd_slice s))).

(** And of the [set_list]. *)
Definition set_list (type : Z) (member : M h_list_data) : M h_data :=
  list ← nrm_msg_list_new_mem type;
  _ ← lift (c_assert (negb (is_null list)));
  d ← member; l ← load list; mret (HD_list (assign list (HList (hl_type l) d))).

Definition nrm_msg_set_list_actuators_mem (msg : ptr h_msg) (actuators : option (list nrm_actuator))
    : M (Z * ptr h_msg) :=
  set_member msg (set_list NRM_MSG_TARGET_TYPE_ACTUATOR
                    (l ← nrm_msg_actuatorlist_new_mem actuators; mret (HList_actuators l))).
Definition nrm_msg_set_list_scopes_mem (msg : ptr h_msg) (scopes : option (list nrm_scope))
    : M (Z * ptr h_msg) :=
  set_member msg (set_list NRM_MSG_TARGET_TYPE_SCOPE
                    (l ← nrm_msg_scopelist_new_mem scopes; mret (HList_scopes l))).
Definition nrm_msg_set_list_sensors_mem (msg : ptr h_msg) (sensors : option (list nrm_sensor))
    : M (Z * ptr h_msg) :=
  set_member msg (set_list NRM_MSG_TARGET_TYPE_SENSOR
                    (l ← nrm_msg_sensorlist_new_mem sensors; mret (HList_sensors l))).
Definition nrm_msg_set_list_slices_mem (msg : ptr h_msg) (slices : option (list nrm_slice))
    : M (Z * ptr h_msg) :=
  set_member msg (set_list NRM_MSG_TARGET_TYPE_SLICE
                    (l ← nrm_msg_slicelist_new_mem slices; mret (HList_slices l))).

(** ** Destroying *)

(** [if (msg == NULL) return;], the members, and the structure itself. *)
Definition destroy {A} (members : A -> M unit) (msg : ptr A) : M unit :=
  match msg with
  | None => mret tt
  | Some _ => m ← load msg; _ ← members m; free (address msg)
  end.

Definition nrm_msg_actuate_destroy_mem : ptr h_actuate -> M unit :=
  destroy (fun m => free (address (hac_uuid m))).
Definition nrm_msg_sensor_destroy_mem : ptr h_sensor -> M unit :=
  destroy (fun m => free (address (hse_uuid m))).
Definition nrm_msg_slice_destroy_mem : ptr h_slice -> M unit :=
  destroy (fun m => free (address (hsl_uuid m))).

(** The members of a [oneof]: the one that is not set is NULL when none is, and is
    not read otherwise. *)
Definition get_discrete_mem (m : h_actuator) : outcome (ptr h_discrete) :=
  match ha_data m with HA_discrete x => Ok x | HA_none => Ok None | _ => Undefined end.
Definition get_continuous_mem (m : h_actuator) : outcome (ptr h_continuous) :=
  match ha_data m with HA_continuous x => Ok x | HA_none => Ok None | _ => Undefined end.

Definition nrm_msg_actuator_destroy_mem : ptr h_actuator -> M unit :=
  destroy (fun m =>
    _ ← free (address (ha_uuid m));
    _ ← free (address (ha_clientid m));
    if ha_type m =? NRM_ACTUATOR_TYPE_DISCRETE then
      p ← lift (get_discrete_mem m); d ← load p;
      _ ← free (address (hd_choices d)); free (address p)
    else if ha_type m =? NRM_ACTUATOR_TYPE_CONTINUOUS then
      p ← lift (get_continuous_mem m); free (address p)
    else mret tt).

Definition nrm_msg_scope_destroy_mem : ptr h_scope -> M unit :=
  destroy (fun m =>
    _ ← free (address (hs_uuid m)); _ ← free (address (hs_cpus m));
    _ ← free (address (hs_numas m)); free (address (hs_gpus m))).

Definition nrm_msg_event_destroy_mem : ptr h_event -> M unit := destroy (fun _ => mret tt).

(** The loop over the elements, which reads the array when there are some, and the
    array. *)
Definition items_destroy {A} (f : ptr A -> M unit) (i : h_items A) : M unit :=
  _ ← (if hi_n i =? 0 then mret tt
       else l ← load (hi_items i);
            if Z.of_nat (length l) =? hi_n i then M_iter f l else lift Undefined);
  free (address (hi_items i)).

Definition nrm_msg_timeserie_destroy_mem : ptr h_timeserie -> M unit :=
  destroy (fun m =>
    _ ← free (address (ht_sensor_uuid m));
    _ ← nrm_msg_scope_destroy_mem (ht_scope m);
    items_destroy nrm_msg_event_destroy_mem (ht_events m)).

(** Only the array is released. *)
Definition nrm_msg_timeserielist_destroy_mem : ptr (h_items h_timeserie) -> M unit :=
  destroy (fun m => free (address (hi_items m))).

Definition nrm_msg_actuatorlist_destroy_mem : ptr (h_items h_actuator) -> M unit :=
  destroy (items_destroy nrm_msg_actuator_destroy_mem).
Definition nrm_msg_scopelist_destroy_mem : ptr (h_items h_scope) -> M unit :=
  destroy (items_destroy nrm_msg_scope_destroy_mem).
Definition nrm_msg_sensorlist_destroy_mem : ptr (h_items h_sensor) -> M unit :=
  destroy (items_destroy nrm_msg_sensor_destroy_mem).
Definition nrm_msg_slicelist_destroy_mem : ptr (h_items h_slice) -> M unit :=
  destroy (items_destroy nrm_msg_slice_destroy_mem).

Definition nrm_msg_add_destroy_mem : ptr h_add -> M unit :=
  destroy (fun m =>
    if had_type m =? NRM_MSG_TARGET_TYPE_SLICE then
      match had_data m with HAdd_slice x => nrm_msg_slice_destroy_mem x
                          | HAdd_none => mret tt | _ => lift Undefined end
    else if had_type m =? NRM_MSG_TARGET_TYPE_SENSOR then
      match had_data m with HAdd_sensor x => nrm_msg_sensor_destroy_mem x
                          | HAdd_none => mret tt | _ => lift Undefined end
    else if had_type m =? NRM_MSG_TARGET_TYPE_SCOPE then
      match had_data m with HAdd_scope x => nrm_msg_scope_destroy_mem x
                          | HAdd_none => mret tt | _ => lift Undefined end
    else if had_type m =? NRM_MSG_TARGET_TYPE_ACTUATOR then
      match had_data m with HAdd_actuator x => nrm_msg_actuator_destroy_mem x
                          | HAdd_none => mret tt | _ => lift Undefined end
    else mret tt).

Definition nrm_msg_list_destroy_mem : ptr h_list -> M unit :=
  destroy (fun m =>
    if hl_type m =? NRM_MSG_TARGET_TYPE_SLICE then
      match hl_data m with HList_slices x => nrm_msg_slicelist_destroy_mem x
                         | HList_none => mret tt | _ => lift Undefined end
    else if hl_type m =? NRM_MSG_TARGET_TYPE_SENSOR then
      match hl_data m with HList_sensors x => nrm_msg_sensorlist_destroy_mem x
                         | HList_none => mret tt | _ => lift Undefined end
    else if hl_type m =? NRM_MSG_TARGET_TYPE_SCOPE then
      match hl_data m with HList_scopes x => nrm_msg_scopelist_destroy_mem x
                         | HList_none => mret tt | _ => lift Undefined end
    else if hl_type m =? NRM_MSG_TARGET_TYPE_ACTUATOR then
      match hl_data m with HList_actuators x => nrm_msg_actuatorlist_destroy_mem x
                         | HList_none => mret tt | _ => lift Undefined end
    else mret tt).

Definition nrm_msg_remove_destroy_mem : ptr h_remove -> M unit :=
  destroy (fun m => free (address (hr_uuid m))).

(** The [switch] of [nrm_msg_destroy_created]. *)
Definition destroy_member (sub : h_msg) : M unit :=
  if hm_type sub =? NRM_MSG_TYPE_ACTUATE then
    match hm_data sub with HD_actuate x => nrm_msg_actuate_destroy_mem x
                         | HD_none => mret tt | _ => lift Undefined end
  else if hm_type sub =? NRM_MSG_TYPE_ADD then
    match hm_data sub with HD_add x => nrm_msg_add_destroy_mem x
                         | HD_none => mret tt | _ => lift Undefined end
  else if hm_type sub =? NRM_MSG_TYPE_LIST then
    match hm_data sub with HD_list x => nrm_msg_list_destroy_mem x
                         | HD_none => mret tt | _ => lift Undefined end
  else if hm_type sub =? NRM_MSG_TYPE_EVENTS then
    match hm_data sub with HD_events x => nrm_msg_timeserielist_destroy_mem x
                         | HD_none => mret tt | _ => lift Undefined end
  else if hm_type sub =? NRM_MSG_TYPE_REMOVE then
    match hm_data sub with HD_remove x => nrm_msg_remove_destroy_mem x
                         | HD_none => mret tt | _ => lift Undefined end
  else mret tt.

(** The pointer after the call; [msg] is NULL or the address of a pointer. *)
Definition nrm_msg_destroy_created_mem (msg : option (ptr h_msg)) : M (option (ptr h_msg)) :=
  match msg with
  | None => mret None
  | Some None => mret (Some None)
  | Some (Some _ as p) =>
      sub ← load p; _ ← destroy_member sub; _ ← free (address p); mret (Some None)
  end.
End messages.

(** ** What is allocated

    [own_*] lists the addresses that a structure is made of, in the order in which
    they should be released. *)

Definition own_ptr {A} (own : A -> list addr) (p : ptr A) : list addr :=
  match p with None => [] | Some (a, x) => own x ++ [a] end.
Definition own_flat {A} (p : ptr A) : list addr := own_ptr (fun _ => []) p.
Definition own_items {A} (own : ptr A -> list addr) (i : h_items A) : list addr :=
  own_ptr (fun l => l ≫= own) (hi_items i).

Definition own_actuate : ptr h_actuate -> list addr := own_ptr (fun m => own_flat (hac_uuid m)).
Definition own_sensor : ptr h_sensor -> list addr := own_ptr (fun m => own_flat (hse_uuid m)).
Definition own_slice : ptr h_slice -> list addr := own_ptr (fun m => own_flat (hsl_uuid m)).
Definition own_remove : ptr h_remove -> list addr := own_ptr (fun m => own_flat (hr_uuid m)).
Definition own_event : ptr h_event -> list addr := own_flat.
Definition own_actuator_data (d : h_actuator_data) : list addr :=
  match d with
  | HA_none => []
  | HA_discrete x => own_ptr (fun d => own_flat (hd_choices d)) x
  | HA_continuous x => own_flat x
  end.
Definition own_actuator : ptr h_actuator -> list addr :=
  own_ptr (fun m => own_flat (ha_uuid m) ++ own_flat (ha_clientid m) ++ own_actuator_data (ha_data m)).
Definition own_scope : ptr h_scope -> list addr :=
  own_ptr (fun m => own_flat (hs_uuid m) ++ own_flat (hs_cpus m) ++ own_flat (hs_numas m) ++
                    own_flat (hs_gpus m)).
Definition own_timeserie : ptr h_timeserie -> list addr :=
  own_ptr (fun m => own_flat (ht_sensor_uuid m) ++ own_scope (ht_scope m) ++
                    own_items own_event (ht_events m)).
Definition own_add_data (d : h_add_data) : list addr :=
  match d with
  | HAdd_none => []
  | HAdd_slice x => own_slice x | HAdd_sensor x => own_sensor x
  | HAdd_scope x => own_scope x | HAdd_actuator x => own_actuator x
  end.
Definition own_add : ptr h_add -> list addr := own_ptr (fun m => own_add_data (had_data m)).
Definition own_list_data (d : h_list_data) : list addr :=
  match d with
  | HList_none => []
  | HList_slices x => own_ptr (own_items own_slice) x
  | HList_sensors x => own_ptr (own_items own_sensor) x
  | HList_scopes x => own_ptr (own_items own_scope) x
  | HList_actuators x => own_ptr (own_items own_actuator) x
  end.
Definition own_list : ptr h_list -> list addr := own_ptr (fun m => own_list_data (hl_data m)).

(** The addresses of the series of a message of events come apart: nothing
    releases them. *)
Definition own_series (d : h_data) : list addr :=
  match d with
  | HD_events (Some (_, i)) =>
      match hi_items i with Some (_, l) => l ≫= own_timeserie | None => [] end
  | _ => []
  end.
Definition own_data (d : h_data) : list addr :=
  match d with
  | HD_none => []
  | HD_list x => own_list x
  | HD_add x => own_add x
  | HD_remove x => own_remove x
  | HD_events x => own_ptr (fun i => own_flat (hi_items i)) x
  | HD_actuate x => own_actuate x
  end.
Definition own_msg : ptr h_msg -> list addr :=
  own_ptr (fun m => own_series (hm_data m) ++ own_data (hm_data m)).

Lemma M_bind_inv {A B} (c : M A) (f : A -> M B) m r m' :
  (c ≫= f) m = Ok (r, m') -> exists x m1, c m = Ok (x, m1) /\ f x m1 = Ok (r, m').
Proof.
  unfold mbind, M_bind. destruct (c m) as [[x m1]| | |] eqn:E; cbn; [|done..]. by exists x, m1.
Qed.

(** *** What a call returns *)

Definition returns {A} (c : M A) (P : A -> Prop) : Prop := forall m r m', c m = Ok (r, m') -> P r.

Lemma returns_ret {A} (x : A) (P : A -> Prop) : P x -> returns (mret x) P.
Proof. by intros Hx m r m' [= <- _]. Qed.
Lemma returns_bind {A B} (c : M A) (f : A -> M B) (P : A -> Prop) Q :
  returns c P -> (forall x, P x -> returns (f x) Q) -> returns (c ≫= f) Q.
Proof. intros Hc Hf m r m' (x & m1 & E1 & E2)%M_bind_inv. eapply Hf; [by eapply Hc|exact E2]. Qed.
Lemma returns_any {A} (c : M A) : returns c (fun _ => True).
Proof. done. Qed.
Lemma returns_skip {A B} (c : M A) (f : A -> M B) Q :
  (forall x, returns (f x) Q) -> returns (c ≫= f) Q.
Proof. intros Hf. eapply returns_bind; [apply returns_any|]. intros x _. apply Hf. Qed.
Lemma returns_load {A B} (p : ptr A) (f : A -> M B) Q :
  (forall a x, p = Some (a, x) -> returns (f x) Q) -> returns (load p ≫= f) Q.
Proof.
  intros Hf m r m' (x & m1 & E1 & E2)%M_bind_inv. unfold load in E1.
  destruct p as [[a y]|]; [|done]. case_decide; [|done]. injection E1 as -> ->. by eapply Hf.
Qed.

(** *** A call that allocates

    What it returns is made of what [acc] lists, which its arguments are made of,
    and of addresses that were not in use before. *)

Definition grows {A} (acc : list addr) (c : M A) (own : A -> list addr) : Prop :=
  forall m r m', c m = Ok (r, m') ->
    exists l, own r ≡ₚ acc ++ l /\ NoDup l /\ (forall a, a ∈ l -> a ∉ live m) /\
              live m' = live m ∪ list_to_set l.

Lemma M_bind_Ok {A B} (c : M A) (f : A -> M B) m x m1 : c m = Ok (x, m1) -> (c ≫= f) m = f x m1.
Proof. unfold mbind, M_bind. by intros ->. Qed.

Lemma grows_ret {A} acc (x : A) own : own x ≡ₚ acc -> grows acc (mret x) own.
Proof.
  intros Hx m r m' [= <- <-]. exists []. rewrite app_nil_r. split_and!; [done|constructor|set_solver|].
  cbn. set_solver.
Qed.

Lemma grows_bind_returns {A B} acc (c : M A) (f : A -> M B) own own' (P : A -> Prop) :
  grows acc c own -> returns c P -> (forall x, P x -> grows (own x) (f x) own') ->
  grows acc (c ≫= f) own'.
Proof.
  intros Hc HP Hf m r m' (x & m1 & E1 & E2)%M_bind_inv.
  destruct (Hc _ _ _ E1) as (l1 & Hp1 & Hn1 & Hd1 & Hl1).
  destruct (Hf _ (HP _ _ _ E1) _ _ _ E2) as (l2 & Hp2 & Hn2 & Hd2 & Hl2).
  exists (l1 ++ l2). split_and!.
  - by rewrite Hp2, Hp1, app_assoc.
  - apply NoDup_app. split_and!; [done| |done]. intros a Ha Ha2. apply (Hd2 a Ha2). rewrite Hl1. set_solver.
  - intros a [Ha|Ha]%elem_of_app; [by apply Hd1|]. specialize (Hd2 a Ha). rewrite Hl1 in Hd2. set_solver.
  - rewrite Hl2, Hl1, list_to_set_app_L. set_solver.
Qed.

Lemma grows_bind {A B} acc (c : M A) (f : A -> M B) own own' :
  grows acc c own -> (forall x, grows (own x) (f x) own') -> grows acc (c ≫= f) own'.
Proof. intros Hc Hf. by apply (grows_bind_returns _ _ _ own _ (fun _ => True)). Qed.

(** What a call does not touch is put in front. *)
Lemma grows_frame {A} acc (c : M A) own : grows [] c own -> grows acc c (fun x => acc ++ own x).
Proof.
  intros Hc m r m' E. destruct (Hc _ _ _ E) as (l & Hp & H). exists l. split; [|exact H]. by rewrite Hp.
Qed.

Lemma grows_bind_frame {A B} acc (c : M A) (f : A -> M B) own own' :
  grows [] c own -> (forall x, grows (acc ++ own x) (f x) own') -> grows acc (c ≫= f) own'.
Proof. intros Hc. apply grows_bind. by apply grows_frame. Qed.

Lemma grows_lift {A B} acc (o : outcome A) (f : A -> M B) own :
  (forall x, grows acc (f x) own) -> grows acc (lift o ≫= f) own.
Proof.
  intros Hf m r m' (x & m1 & E1 & E2)%M_bind_inv. unfold lift in E1.
  destruct o as [y| | |]; cbn in E1; [|done..]. injection E1 as -> ->. by apply (Hf x).
Qed.

Lemma grows_load {A B} acc (p : ptr A) (f : A -> M B) own :
  (forall a x, p = Some (a, x) -> grows acc (f x) own) -> grows acc (load p ≫= f) own.
Proof.
  intros Hf m r m' (x & m1 & E1 & E2)%M_bind_inv. unfold load in E1.
  destruct p as [[a y]|]; [|done]. case_decide; [|done]. injection E1 as -> ->.
  eapply Hf; [done|exact E2].
Qed.

Section growth.
Context `{Malloc}.

Lemma alloc_grows {B} acc (f : option addr -> M B) own :
  grows acc (f None) own -> (forall a, grows (acc ++ [a]) (f (Some a)) own) ->
  grows acc (alloc ≫= f) own.
Proof.
  intros Hnone Hsome m r m' (x & m1 & E1 & E2)%M_bind_inv. unfold alloc in E1.
  assert (Hyes : forall rest, grows acc (fun m0 => f (Some (malloc (live m0)))
            (Mem ({[malloc (live m0)]} ∪ live m0) rest)) own).
  { intros rest m0 r0 m0' E0. destruct (Hsome _ _ _ _ E0) as (l & Hp & Hn & Hd & Hl).
    pose proof (malloc_fresh (live m0)) as Hfresh. exists (malloc (live m0) :: l). split_and!.
    - by rewrite Hp, <- app_assoc.
    - constructor; [|done]. intros Ha. apply (Hd _ Ha). cbn. set_solver.
    - intros a [->|Ha]%elem_of_cons; [done|]. specialize (Hd a Ha). cbn in Hd. set_solver.
    - rewrite Hl. cbn. set_solver. }
  destruct (failing m) as [|[] rest] eqn:Ef; cbn in E1; injection E1 as <- <-; [eapply Hyes, E2| |eapply Hyes, E2].
  destruct (Hnone _ _ _ E2) as (l & Hp & Hn & Hd & Hl). exists l. split_and!; [done|done| |done]. intros a Ha. by apply Hd.
Qed.

Lemma new_grows {A} (fill : M A) own :
  grows [] fill own -> grows [] (new fill) (own_ptr own).
Proof.
  intros Hf. apply alloc_grows; [by apply grows_ret|]. intros a.
  eapply grows_bind_frame; [exact Hf|]. intros x. apply grows_ret. cbn. by rewrite Permutation_app_comm.
Qed.

Lemma new_array_grows {A} (fill : M A) own :
  grows [] fill own -> grows [] (new_array fill) (own_ptr own).
Proof.
  intros Hf. apply alloc_grows; [by intros m r m' E|]. intros a.
  eapply grows_bind_frame; [exact Hf|]. intros x. apply grows_ret. cbn. by rewrite Permutation_app_comm.
Qed.

(** An allocation that owns nothing else. *)
Lemma new_flat_grows {A} (x : A) : grows [] (new (mret x)) own_flat.
Proof. apply new_grows. by apply grows_ret. Qed.
Lemma new_array_flat_grows {A} (x : A) : grows [] (new_array (mret x)) own_flat.
Proof. apply new_array_grows. by apply grows_ret. Qed.

Lemma strdup_grows s : grows [] (strdup_mem s) own_flat.
Proof. apply grows_lift. intros x. apply new_flat_grows. Qed.

Lemma M_map_grows {A B} (f : A -> M B) own l :
  (forall x, grows [] (f x) own) -> grows [] (M_map f l) (fun ys => ys ≫= own).
Proof.
  intros Hf. induction l as [|x l IH]; cbn [M_map]; [by apply grows_ret|].
  eapply grows_bind; [apply Hf|]. intros y. eapply grows_bind_frame; [exact IH|]. intros ys.
  by apply grows_ret.
Qed.

Lemma items_new_grows {A B} (f : A -> M (ptr B)) own l :
  (forall x, grows [] (f x) own) -> grows [] (items_new f l) (own_items own).
Proof.
  intros Hf. eapply grows_bind; [by apply new_array_grows, M_map_grows|]. intros p. by apply grows_ret.
Qed.

Lemma list_new_grows {A B} (f : A -> M (ptr B)) own v :
  (forall x, grows [] (f x) own) -> grows [] (list_new f v) (own_ptr (own_items own)).
Proof.
  intros Hf. apply new_grows. destruct v; [by apply items_new_grows|by apply grows_ret].
Qed.

Lemma sensor_grows u : grows [] (nrm_msg_sensor_new_mem u) own_sensor.
Proof. apply new_grows. eapply grows_bind; [apply strdup_grows|]. intros x. by apply grows_ret. Qed.
Lemma slice_grows u : grows [] (nrm_msg_slice_new_mem u) own_slice.
Proof. apply new_grows. eapply grows_bind; [apply strdup_grows|]. intros x. by apply grows_ret. Qed.
Lemma actuate_grows u v : grows [] (nrm_msg_actuate_new_mem u v) own_actuate.
Proof. apply new_grows. eapply grows_bind; [apply strdup_grows|]. intros x. by apply grows_ret. Qed.
Lemma remove_grows t u : grows [] (nrm_msg_remove_new_mem t u) own_remove.
Proof. apply new_grows. eapply grows_bind; [apply strdup_grows|]. intros x. by apply grows_ret. Qed.
Lemma event_grows e : grows [] (nrm_msg_event_new_mem e) own_event.
Proof. apply new_flat_grows. Qed.

Lemma actuator_data_grows a :
  grows [] (if a_type (a_data a) =? NRM_ACTUATOR_TYPE_DISCRETE then
              x ← nrm_msg_actuator_discrete_new_mem a; mret (HA_discrete x)
            else if a_type (a_data a) =? NRM_ACTUATOR_TYPE_CONTINUOUS then
              x ← nrm_msg_actuator_continuous_new_mem a; mret (HA_continuous x)
            else mret HA_none) own_actuator_data.
Proof.
  repeat case_match; [| |by apply grows_ret].
  - apply (grows_bind _ _ _ (own_ptr (fun d => own_flat (hd_choices d)))); [|intros x; by apply grows_ret].
    apply new_grows, grows_lift. intros cs. eapply grows_bind; [apply new_array_flat_grows|]. intros x. by apply grows_ret.
  - apply (grows_bind _ _ _ own_flat); [|intros x; by apply grows_ret].
    apply new_grows, grows_lift. intros [lo hi]. by apply grows_ret.
Qed.

Lemma actuator_grows a : grows [] (nrm_msg_actuator_new_mem a) own_actuator.
Proof.
  apply new_grows. eapply grows_bind; [apply strdup_grows|]. intros u.
  apply (grows_bind_frame _ _ _ own_flat); [destruct (a_clientid _); [apply strdup_grows|by apply grows_ret]|].
  intros c. eapply grows_bind_frame; [apply actuator_data_grows|]. intros d. apply grows_ret. cbn.
  by rewrite app_assoc.
Qed.

Lemma to_array_grows b : grows [] (to_array_mem b) (fun r => own_flat (snd r)).
Proof.
  unfold to_array_mem. destruct (nrm_bitmap_to_array _ _) as [[e n] items].
  eapply grows_bind; [apply new_flat_grows|]. intros p. by apply grows_ret.
Qed.

Lemma scope_grows s : grows [] (nrm_msg_scope_new_mem s) own_scope.
Proof.
  apply new_grows. eapply grows_bind; [apply strdup_grows|]. intros u.
  apply grows_lift; intros b1. eapply grows_bind_frame; [apply to_array_grows|]. intros [n1 p1].
  apply grows_lift; intros b2. eapply grows_bind_frame; [apply to_array_grows|]. intros [n2 p2].
  apply grows_lift; intros b3. eapply grows_bind_frame; [apply to_array_grows|]. intros [n3 p3].
  apply grows_ret. cbn. by rewrite !app_assoc.
Qed.

Lemma timeserie_grows t : grows [] (nrm_msg_timeserie_new_mem t) own_timeserie.
Proof.
  apply new_grows. eapply grows_bind; [apply strdup_grows|]. intros u.
  eapply grows_bind_frame; [apply scope_grows|]. intros s.
  eapply grows_bind_frame; [apply items_new_grows, event_grows|]. intros es. apply grows_ret. cbn.
  by rewrite !app_assoc.
Qed.

(** What the ADD, the LIST and the message hold before the assignment is nothing. *)
Lemma set_add_grows type member :
  grows [] member own_add_data -> grows [] (set_add type member) own_data.
Proof.
  intros Hm. apply (grows_bind _ _ _ own_flat); [apply new_flat_grows|].
  intros add. apply grows_lift; intros _. eapply grows_bind_frame; [exact Hm|]. intros d.
  apply grows_load. intros a x ->. apply grows_ret. cbn. by rewrite Permutation_app_comm.
Qed.

Lemma set_list_grows type member :
  grows [] member own_list_data -> grows [] (set_list type member) own_data.
Proof.
  intros Hm. apply (grows_bind _ _ _ own_flat); [apply new_flat_grows|].
  intros add. apply grows_lift; intros _. eapply grows_bind_frame; [exact Hm|]. intros d.
  apply grows_load. intros a x ->. apply grows_ret. cbn. by rewrite Permutation_app_comm.
Qed.

Lemma set_member_grows msg data :
  grows [] data (fun d => own_series d ++ own_data d) ->
  grows (own_flat msg) (set_member msg data) (fun r => own_msg (snd r)).
Proof.
  intros Hd. unfold set_member. destruct msg as [[a x]|]; [|by apply grows_ret].
  eapply grows_bind_frame; [exact Hd|]. intros d. apply grows_load. intros a' x' [= <- <-].
  apply grows_ret. cbn. by rewrite Permutation_app_comm.
Qed.
End growth.

(** ** What is built is well typed

    The member of each [oneof] is the one that the type names, and an array has the
    number of elements that is stored with it. *)

Definition opt_ok {A} (P : A -> Prop) (p : ptr A) : Prop :=
  match p with Some (_, x) => P x | None => True end.
Definition items_ok {A} (P : A -> Prop) (i : h_items A) : Prop :=
  match hi_items i with
  | None => hi_n i = 0
  | Some (_, l) => hi_n i = Z.of_nat (length l) /\ Forall (opt_ok P) l
  end.
Definition actuator_ok (m : h_actuator) : Prop :=
  match ha_data m with
  | HA_discrete _ => ha_type m = NRM_ACTUATOR_TYPE_DISCRETE
  | HA_continuous _ => ha_type m = NRM_ACTUATOR_TYPE_CONTINUOUS
  | HA_none => ha_type m <> NRM_ACTUATOR_TYPE_DISCRETE /\ ha_type m <> NRM_ACTUATOR_TYPE_CONTINUOUS
  end.
Definition add_mem_ok (m : h_add) : Prop :=
  match had_data m with
  | HAdd_none => False
  | HAdd_slice _ => had_type m = NRM_MSG_TARGET_TYPE_SLICE
  | HAdd_sensor _ => had_type m = NRM_MSG_TARGET_TYPE_SENSOR
  | HAdd_scope _ => had_type m = NRM_MSG_TARGET_TYPE_SCOPE
  | HAdd_actuator a => had_type m = NRM_MSG_TARGET_TYPE_ACTUATOR /\ opt_ok actuator_ok a
  end.
Definition list_mem_ok (m : h_list) : Prop :=
  match hl_data m with
  | HList_none => False
  | HList_slices l => hl_type m = NRM_MSG_TARGET_TYPE_SLICE /\ opt_ok (items_ok (fun _ => True)) l
  | HList_sensors l => hl_type m = NRM_MSG_TARGET_TYPE_SENSOR /\ opt_ok (items_ok (fun _ => True)) l
  | HList_scopes l => hl_type m = NRM_MSG_TARGET_TYPE_SCOPE /\ opt_ok (items_ok (fun _ => True)) l
  | HList_actuators l => hl_type m = NRM_MSG_TARGET_TYPE_ACTUATOR /\ opt_ok (items_ok actuator_ok) l
  end.
Definition data_ok (type : Z) (d : h_data) : Prop :=
  match d with
  | HD_none => True
  | HD_list l => type = NRM_MSG_TYPE_LIST /\ opt_ok list_mem_ok l
  | HD_add a => type = NRM_MSG_TYPE_ADD /\ opt_ok add_mem_ok a
  | HD_remove _ => type = NRM_MSG_TYPE_REMOVE
  | HD_events _ => type = NRM_MSG_TYPE_EVENTS
  | HD_actuate _ => type = NRM_MSG_TYPE_ACTUATE
  end.
Definition msg_mem_ok (m : h_msg) : Prop := data_ok (hm_type m) (hm_data m).

(** What the library asks of a message: its type, and the member that it sets. *)
Inductive msg_request :=
| R_plain (type : Z)
| R_events (timeseries : option (list nrm_timeserie))
| R_actuate (uuid : option string) (value : double)
| R_remove (type : Z) (uuid : option string)
| R_add_actuator (actuator : nrm_actuator)
| R_add_scope (scope : nrm_scope)
| R_add_sensor (sensor : nrm_sensor)
| R_add_slice (slice : nrm_slice)
| R_list_actuators (actuators : option (list nrm_actuator))
| R_list_scopes (scopes : option (list nrm_scope))
| R_list_sensors (sensors : option (list nrm_sensor))
| R_list_slices (slices : option (list nrm_slice)).

Definition request_type (r : msg_request) : Z :=
  match r with
  | R_plain t => t
  | R_events _ => NRM_MSG_TYPE_EVENTS
  | R_actuate _ _ => NRM_MSG_TYPE_ACTUATE
  | R_remove _ _ => NRM_MSG_TYPE_REMOVE
  | R_add_actuator _ | R_add_scope _ | R_add_sensor _ | R_add_slice _ => NRM_MSG_TYPE_ADD
  | R_list_actuators _ | R_list_scopes _ | R_list_sensors _ | R_list_slices _ => NRM_MSG_TYPE_LIST
  end.

(** The type of an actuator is an [int]. *)
Definition request_ok (r : msg_request) : Prop :=
  match r with
  | R_plain t => 0 <= t < NRM_MSG_TYPE_MAX
  | R_add_actuator a => in_i32 (a_type (a_data a))
  | R_list_actuators (Some l) => Forall (fun a => in_i32 (a_type (a_data a))) l
  | _ => True
  end.

Definition request_set `{Malloc} (r : msg_request) (msg : ptr h_msg) : M (Z * ptr h_msg) :=
  match r with
  | R_plain _ => mret (0, msg)
  | R_events v => nrm_msg_set_events_mem msg v
  | R_actuate u v => nrm_msg_set_actuate_mem msg u v
  | R_remove t u => nrm_msg_set_remove_mem msg t u
  | R_add_actuator a => nrm_msg_set_add_actuator_mem msg a
  | R_add_scope s => nrm_msg_set_add_scope_mem msg s
  | R_add_sensor s => nrm_msg_set_add_sensor_mem msg s
  | R_add_slice s => nrm_msg_set_add_slice_mem msg s
  | R_list_actuators v => nrm_msg_set_list_actuators_mem msg v
  | R_list_scopes v => nrm_msg_set_list_scopes_mem msg v
  | R_list_sensors v => nrm_msg_set_list_sensors_mem msg v
  | R_list_slices v => nrm_msg_set_list_slices_mem msg v
  end.

(** Create, fill, set, as every function of client.c and server.c does. *)
Definition build `{Malloc} (r : msg_request) : M (ptr h_msg) :=
  msg ← nrm_msg_create_mem;
  '(_, msg) ← nrm_msg_fill_mem msg (request_type r);
  '(_, msg) ← request_set r msg;
  mret msg.

Section typing.
Context `{Malloc}.

Lemma new_returns {A} (fill : M A) P : returns fill P -> returns (new fill) (opt_ok P).
Proof.
  intros Hf. apply returns_skip. intros [a|]; [|by apply returns_ret].
  eapply returns_bind; [exact Hf|]. intros x Hx. by apply returns_ret.
Qed.

Lemma M_map_returns {A B} (f : A -> M B) P l :
  Forall (fun x => returns (f x) P) l ->
  returns (M_map f l) (fun ys => length ys = length l /\ Forall P ys).
Proof.
  induction 1 as [|x l Hx Hl IH]; cbn [M_map]; [by apply returns_ret|].
  eapply returns_bind; [exact Hx|]. intros y Hy. eapply returns_bind; [exact IH|]. intros ys [Hn Hys].
  apply returns_ret. cbn. auto.
Qed.

Lemma items_new_returns {A B} (f : A -> M (ptr B)) P l :
  Forall (fun x => returns (f x) (opt_ok P)) l -> returns (items_new f l) (items_ok P).
Proof.
  intros Hf. unfold items_new, new_array. apply (returns_bind _ _ (fun p =>
    match p with Some (_, ys) => length ys = length l /\ Forall (opt_ok P) ys | None => False end)).
  - apply returns_skip. intros [a|]; [|by intros m r m' E].
    eapply returns_bind; [by apply M_map_returns|]. intros ys Hys. by apply returns_ret.
  - intros [[a ys]|]; [|done]. intros [Hn Hys]. apply returns_ret. split; cbn; [by rewrite Hn|done].
Qed.

Lemma list_new_returns {A B} (f : A -> M (ptr B)) P v :
  Forall (fun x => returns (f x) (opt_ok P)) (default [] v) ->
  returns (list_new f v) (opt_ok (items_ok P)).
Proof.
  intros Hf. apply new_returns. destruct v; [by apply items_new_returns|by apply returns_ret].
Qed.

Lemma list_new_returns_any {A B} (f : A -> M (ptr B)) v :
  returns (list_new f v) (opt_ok (items_ok (fun _ => True))).
Proof.
  apply list_new_returns, Forall_forall. intros x _ m [[a y]|] m' _; done.
Qed.

Lemma actuator_returns a :
  in_i32 (a_type (a_data a)) -> returns (nrm_msg_actuator_new_mem a) (opt_ok actuator_ok).
Proof.
  intros Ht. apply new_returns. apply returns_skip; intros u. apply returns_skip; intros c.
  rewrite i32_small by done.
  apply (returns_bind _ _ (fun d => actuator_ok (HActuator u c (a_value (a_data a)) (a_type (a_data a)) d)));
    [|intros d Hd; by apply returns_ret].
  case_tests; [| |by apply returns_ret]; apply returns_skip; intros x; by apply returns_ret.
Qed.

Lemma actuators_returns v :
  Forall (fun a => in_i32 (a_type (a_data a))) (default [] v) ->
  returns (nrm_msg_actuatorlist_new_mem v) (opt_ok (items_ok actuator_ok)).
Proof.
  intros Hv. apply list_new_returns. eapply Forall_impl; [exact Hv|]. intros a. apply actuator_returns.
Qed.

Lemma set_add_returns type member :
  returns member (fun d => add_mem_ok (HAdd type d)) ->
  returns (set_add type member) (data_ok NRM_MSG_TYPE_ADD).
Proof.
  intros Hm. apply (returns_bind _ _ (opt_ok (fun a => had_type a = type))); [apply new_returns; by apply returns_ret|].
  intros add Hadd. apply returns_skip; intros _. eapply returns_bind; [exact Hm|]. intros d Hd.
  apply returns_load. intros a x ->. apply returns_ret. cbn in Hadd. rewrite Hadd. by split.
Qed.

Lemma set_list_returns type member :
  returns member (fun d => list_mem_ok (HList type d)) ->
  returns (set_list type member) (data_ok NRM_MSG_TYPE_LIST).
Proof.
  intros Hm. apply (returns_bind _ _ (opt_ok (fun a => hl_type a = type))); [apply new_returns; by apply returns_ret|].
  intros add Hadd. apply returns_skip; intros _. eapply returns_bind; [exact Hm|]. intros d Hd.
  apply returns_load. intros a x ->. apply returns_ret. cbn in Hadd. rewrite Hadd. by split.
Qed.

Lemma set_member_returns msg data type :
  opt_ok (fun m => hm_type m = type) msg -> returns data (data_ok type) ->
  returns (set_member msg data) (fun r => opt_ok msg_mem_ok (snd r)).
Proof.
  intros Hmsg Hd. unfold set_member. destruct msg as [[a x]|]; [|by apply returns_ret].
  eapply returns_bind; [exact Hd|]. intros d Hd'. apply returns_load. intros a' x' [= <- <-].
  apply returns_ret. cbn in *. unfold msg_mem_ok. cbn. by rewrite Hmsg.
Qed.

Lemma request_set_returns r msg :
  request_ok r -> opt_ok (fun m => hm_type m = request_type r /\ hm_data m = HD_none) msg ->
  returns (request_set r msg) (fun x => opt_ok msg_mem_ok (snd x)).
Proof.
  intros Hr Hmsg.
  assert (Hty : opt_ok (fun m => hm_type m = request_type r) msg) by (destruct msg as [[a x]|]; [apply Hmsg|done]).
  destruct r; cbn [request_set];
    [apply returns_ret; destruct msg as [[a x]|]; [|done]; cbn in *; unfold msg_mem_ok; by rewrite (proj2 Hmsg)
    |eapply set_member_returns; [exact Hty|]..]; cbn [request_type] in *.
  - apply returns_skip; intros p. apply returns_skip; intros _. by apply returns_ret.
  - apply returns_skip; intros p. by apply returns_ret.
  - apply returns_skip; intros p. apply returns_skip; intros _. by apply returns_ret.
  - apply set_add_returns. eapply returns_bind; [by apply actuator_returns|]. intros x Hx. by apply returns_ret.
  - apply set_add_returns, returns_skip. intros x. by apply returns_ret.
  - apply set_add_returns, returns_skip. intros x. by apply returns_ret.
  - apply set_add_returns, returns_skip. intros x. by apply returns_ret.
  - apply set_list_returns. eapply returns_bind; [apply actuators_returns; by destruct actuators|].
    intros x Hx. by apply returns_ret.
  - apply set_list_returns. eapply returns_bind; [apply list_new_returns_any|]. intros x Hx. by apply returns_ret.
  - apply set_list_returns. eapply returns_bind; [apply list_new_returns_any|]. intros x Hx. by apply returns_ret.
  - apply set_list_returns. eapply returns_bind; [apply list_new_returns_any|]. intros x Hx. by apply returns_ret.
Qed.

Lemma build_returns r : request_ok r -> returns (build r) (opt_ok msg_mem_ok).
Proof.
  intros Hr. apply (returns_bind _ _ (opt_ok (fun m => hm_data m = HD_none))); [apply new_returns; by apply returns_ret|].
  intros msg Hmsg. apply (returns_bind _ _ (fun r' => opt_ok (fun m => hm_type m = request_type r /\ hm_data m = HD_none) (snd r'))).
  - destruct msg as [[a x]|]; [|by apply returns_ret]. cbn [nrm_msg_fill_mem].
    assert (Ht : ((request_type r <? 0) || (request_type r >=? NRM_MSG_TYPE_MAX)) = false).
    { destruct r; cbn in *; try done. unfold NRM_MSG_TYPE_MAX in *. apply orb_false_intro; lia. }
    rewrite Ht. apply returns_load. intros a' x' [= <- <-]. by apply returns_ret.
  - intros [z msg'] Hm. eapply returns_bind; [by apply request_set_returns|]. intros [z' msg''] H'.
    by apply returns_ret.
Qed.
End typing.

(** ** Building allocates what the message is made of *)

Section building.
Context `{Malloc}.

(** The members that own nothing outside of [own_data]. *)
Lemma set_plain_grows msg (data : M h_data) :
  grows [] data own_data -> returns data (fun d => own_series d = []) ->
  grows (own_flat msg) (set_member msg data) (fun r => own_msg (snd r)).
Proof.
  intros Hd Hs. apply set_member_grows. intros m r m' E. rewrite (Hs _ _ _ E). by apply (Hd _ _ _ E).
Qed.

Lemma events_grows v :
  grows [] (l ← nrm_msg_timeserielist_new_mem v;
            _ ← lift (c_assert (negb (is_null l))); mret (HD_events l))
    (fun d => own_series d ++ own_data d).
Proof.
  eapply grows_bind; [apply (list_new_grows _ _ _ timeserie_grows)|]. intros p. apply grows_lift; intros _.
  apply grows_ret. destruct p as [[a [n [[b l]|]]]|]; [|done..]. cbn. by rewrite <- app_assoc.
Qed.

Lemma set_add_series type member : returns (set_add type member) (fun d => own_series d = []).
Proof. do 3 (apply returns_skip; intros ?). apply returns_load. intros a y ->. by apply returns_ret. Qed.
Lemma set_list_series type member : returns (set_list type member) (fun d => own_series d = []).
Proof. do 3 (apply returns_skip; intros ?). apply returns_load. intros a y ->. by apply returns_ret. Qed.

Lemma request_set_grows r msg :
  opt_ok (fun m => hm_data m = HD_none) msg ->
  grows (own_flat msg) (request_set r msg) (fun x => own_msg (snd x)).
Proof.
  intros Hmsg. destruct r; cbn [request_set].
  - apply grows_ret. destruct msg as [[a x]|]; [|done]. cbn in *. by rewrite Hmsg.
  - apply set_member_grows, events_grows.
  - apply set_plain_grows; [|apply returns_skip; intros x; by apply returns_ret].
    eapply grows_bind; [apply actuate_grows|]. intros p. by apply grows_ret.
  - apply set_plain_grows; [|apply returns_skip; intros x; apply returns_skip; intros _; by apply returns_ret].
    eapply grows_bind; [apply remove_grows|]. intros p. apply grows_lift; intros _. by apply grows_ret.
  - apply set_plain_grows; [apply set_add_grows|apply set_add_series].
    eapply grows_bind; [apply actuator_grows|]. intros p. by apply grows_ret.
  - apply set_plain_grows; [apply set_add_grows|apply set_add_series].
    eapply grows_bind; [apply scope_grows|]. intros p. by apply grows_ret.
  - apply set_plain_grows; [apply set_add_grows|apply set_add_series].
    eapply grows_bind; [apply sensor_grows|]. intros p. by apply grows_ret.
  - apply set_plain_grows; [apply set_add_grows|apply set_add_series].
    eapply grows_bind; [apply slice_grows|]. intros p. by apply grows_ret.
  - apply set_plain_grows; [apply set_list_grows|apply set_list_series].
    eapply grows_bind; [apply list_new_grows, actuator_grows|]. intros p. by apply grows_ret.
  - apply set_plain_grows; [apply set_list_grows|apply set_list_series].
    eapply grows_bind; [apply list_new_grows, scope_grows|]. intros p. by apply grows_ret.
  - apply set_plain_grows; [apply set_list_grows|apply set_list_series].
    eapply grows_bind; [apply list_new_grows; intros s; apply sensor_grows|]. intros p. by apply grows_ret.
  - apply set_plain_grows; [apply set_list_grows|apply set_list_series].
    eapply grows_bind; [apply list_new_grows; intros s; apply slice_grows|]. intros p. by apply grows_ret.
Qed.

Lemma build_grows r : grows [] (build r) own_msg.
Proof.
  apply (grows_bind_returns _ _ _ own_flat _ (opt_ok (fun m => hm_data m = HD_none)));
    [apply new_flat_grows|apply new_returns; by apply returns_ret|].
  intros msg Hmsg.
  apply (grows_bind_returns _ _ _ (fun x => own_flat (snd x)) _ (fun x => opt_ok (fun m => hm_data m = HD_none) (snd x))).
  - destruct msg as [[a x]|]; cbn [nrm_msg_fill_mem]; [|by apply grows_ret]. case_match; [by apply grows_ret|].
    apply grows_load. intros a' x' [= <- <-]. by apply grows_ret.
  - destruct msg as [[a x]|]; cbn [nrm_msg_fill_mem]; [|by apply returns_ret]. case_match; [by apply returns_ret|].
    apply returns_load. intros a' x' [= <- <-]. by apply returns_ret.
  - intros [z msg'] Hm. eapply grows_bind; [by apply request_set_grows|]. intros [z' p]. by apply grows_ret.
Qed.
End building.

(** ** Destroying releases it *)

(** [d] runs when the addresses of [l] are allocated, and releases just those. *)
Definition frees (d : M unit) (l : list addr) : Prop :=
  forall m, NoDup l -> (forall a, a ∈ l -> a ∈ live m) ->
    d m = Ok (tt, Mem (live m ∖ list_to_set l) (failing m)).

(** A discrete actuator whose allocation failed has no choices to read. *)
Definition actuator_allocated (m : h_actuator) : Prop := ha_data m <> HA_discrete None.
Definition allocated (d : h_data) : Prop :=
  match d with
  | HD_add (Some (_, HAdd _ (HAdd_actuator a))) => opt_ok actuator_allocated a
  | HD_list (Some (_, HList _ (HList_actuators (Some (_, i))))) =>
      match hi_items i with Some (_, l) => Forall (opt_ok actuator_allocated) l | None => True end
  | _ => True
  end.

Lemma mem_minus_nil m : Mem (live m ∖ list_to_set []) (failing m) = m.
Proof. destruct m as [s f]. cbn. f_equal. set_solver. Qed.

Lemma frees_nil : frees (mret tt) [].
Proof. intros m _ _. by rewrite mem_minus_nil. Qed.

Lemma frees_bind d1 d2 l1 l2 : frees d1 l1 -> frees d2 l2 -> frees (_ ← d1; d2) (l1 ++ l2).
Proof.
  intros H1 H2 m (Hn1 & Hd & Hn2)%NoDup_app Hl. unfold mbind, M_bind. rewrite H1; [|done|set_solver].
  cbn. rewrite H2; [|done|].
  - cbn. do 3 f_equal. rewrite list_to_set_app_L. set_solver.
  - intros a Ha. cbn. specialize (Hd a). set_solver.
Qed.

Lemma frees_flat {A} (p : ptr A) : frees (free (address p)) (own_flat p).
Proof.
  destruct p as [[a x]|]; intros m Hn Hl; cbn in *; [|by rewrite mem_minus_nil].
  rewrite decide_True by (apply Hl; set_solver). do 3 f_equal. set_solver.
Qed.

Lemma frees_load {A} (p : ptr A) (f : A -> M unit) a x l :
  p = Some (a, x) -> a ∈ l -> frees (f x) l -> frees (load p ≫= f) l.
Proof.
  intros -> Ha Hf m Hn Hl. unfold mbind, M_bind, load. rewrite decide_True by auto. cbn. by apply Hf.
Qed.

Lemma frees_iter {A} (f : A -> M unit) own l :
  (forall x, x ∈ l -> frees (f x) (own x)) -> frees (M_iter f l) (l ≫= own).
Proof.
  induction l as [|x l IH]; intros Hf; [apply frees_nil|]. cbn [M_iter].
  apply (frees_bind (f x)); [apply Hf; set_solver|]. apply IH. intros y Hy. apply Hf. set_solver.
Qed.

Lemma frees_destroy {A} (members : A -> M unit) own (p : ptr A) :
  opt_ok (fun x => frees (members x) (own x)) p -> frees (destroy members p) (own_ptr own p).
Proof.
  destruct p as [[a x]|]; intros Hx; [|apply frees_nil]. cbn [own_ptr destroy].
  eapply frees_load; [done|set_solver|]. apply frees_bind; [exact Hx|]. apply (frees_flat (Some (a, x))).
Qed.

(** Reading before the first of two calls. *)
Lemma frees_load_bind {A} (p : ptr A) (f : A -> M unit) d a x l :
  p = Some (a, x) -> a ∈ l -> frees (_ ← f x; d) l -> frees (_ ← (load p ≫= f); d) l.
Proof.
  intros -> Ha Hf m Hn Hl. specialize (Hf m Hn Hl). unfold mbind, M_bind, load in *.
  rewrite decide_True by auto. exact Hf.
Qed.

Lemma frees_items {A} (f : ptr A -> M unit) own P i :
  items_ok P i -> (forall p, opt_ok P p -> frees (f p) (own p)) -> frees (items_destroy f i) (own_items own i).
Proof.
  unfold items_ok, own_items, items_destroy. destruct i as [n [[a l]|]]; cbn; intros Hi Hf.
  - destruct Hi as [-> Hl]. pose proof (frees_flat (Some (a, l))) as Hfree. cbn in Hfree.
    destruct l as [|x l]; [by apply (frees_bind (mret tt) _ []); [apply frees_nil|]|].
    rewrite (proj2 (Z.eqb_neq _ _)) by (cbn; lia). eapply frees_load_bind; [done|set_solver|].
    rewrite Z.eqb_refl. apply frees_bind; [|exact Hfree].
    apply frees_iter. intros y Hy. apply Hf. by eapply Forall_forall in Hl.
  - rewrite Hi. apply (frees_bind (mret tt) _ []); [apply frees_nil|apply (@frees_flat A None)].
Qed.

Lemma frees_sensor p : frees (nrm_msg_sensor_destroy_mem p) (own_sensor p).
Proof. apply frees_destroy. destruct p as [[a x]|]; [apply frees_flat|done]. Qed.
Lemma frees_slice p : frees (nrm_msg_slice_destroy_mem p) (own_slice p).
Proof. apply frees_destroy. destruct p as [[a x]|]; [apply frees_flat|done]. Qed.
Lemma frees_actuate p : frees (nrm_msg_actuate_destroy_mem p) (own_actuate p).
Proof. apply frees_destroy. destruct p as [[a x]|]; [apply frees_flat|done]. Qed.
Lemma frees_remove p : frees (nrm_msg_remove_destroy_mem p) (own_remove p).
Proof. apply frees_destroy. destruct p as [[a x]|]; [apply frees_flat|done]. Qed.
Lemma frees_event p : frees (nrm_msg_event_destroy_mem p) (own_event p).
Proof. apply frees_destroy. destruct p as [[a x]|]; [apply frees_nil|done]. Qed.

Lemma frees_scope p : frees (nrm_msg_scope_destroy_mem p) (own_scope p).
Proof.
  apply frees_destroy. destruct p as [[a x]|]; [|done].
  repeat apply frees_bind; apply frees_flat.
Qed.

Lemma frees_actuator p :
  opt_ok actuator_ok p -> opt_ok actuator_allocated p ->
  frees (nrm_msg_actuator_destroy_mem p) (own_actuator p).
Proof.
  intros Hok Hal. apply frees_destroy. destruct p as [[a [u c v t d]]|]; [|done].
  cbn in *. do 2 (apply frees_bind; [apply frees_flat|]).
  unfold actuator_ok, actuator_allocated, get_discrete_mem, get_continuous_mem in *. cbn in *.
  destruct d as [|[[b y]|]|y]; [destruct Hok as [H1 H2]| |done|]; try rewrite Hok.
  - rewrite !(proj2 (Z.eqb_neq _ _)) by done. apply frees_nil.
  - rewrite Z.eqb_refl. intros m Hn Hl. refine (frees_load (Some (b, y)) _ b y _ eq_refl _ _ m Hn Hl).
    + cbn. set_solver.
    + apply frees_bind; [apply frees_flat|]. apply (frees_flat (Some (b, y))).
  - intros m Hn Hl. by apply (frees_flat y).
Qed.

Lemma frees_add p :
  opt_ok add_mem_ok p -> allocated (HD_add p) -> frees (nrm_msg_add_destroy_mem p) (own_add p).
Proof.
  intros Hok Hal. apply frees_destroy. destruct p as [[a [t d]]|]; [|done].
  unfold add_mem_ok in Hok. cbn in *. destruct d as [|x|x|x|x]; [done|..]; cbn in *.
  - subst t. apply frees_slice.
  - subst t. apply frees_sensor.
  - subst t. apply frees_scope.
  - destruct Hok as [-> Hx]. by apply frees_actuator.
Qed.

Lemma items_allocated i :
  items_ok actuator_ok i -> match hi_items i with Some (_, l) => Forall (opt_ok actuator_allocated) l | None => True end ->
  items_ok (fun m => actuator_ok m /\ actuator_allocated m) i.
Proof.
  unfold items_ok. destruct (hi_items i) as [[a l]|]; [|done]. intros [Hn H1] H2. split; [done|].
  apply Forall_forall. intros p Hp. eapply Forall_forall in H1; [|done]. eapply Forall_forall in H2; [|done].
  by destruct p as [[b x]|].
Qed.

Lemma frees_list p :
  opt_ok list_mem_ok p -> allocated (HD_list p) -> frees (nrm_msg_list_destroy_mem p) (own_list p).
Proof.
  intros Hok Hal. apply frees_destroy. destruct p as [[a [t d]]|]; [|done].
  unfold list_mem_ok in Hok. cbn in *. destruct d as [|x|x|x|x]; [done|..]; cbn in *; destruct Hok as [-> Hx];
    apply frees_destroy; destruct x as [[b i]|]; try done; cbn in *.
  - eapply frees_items; [exact Hx|]. intros p _. apply frees_slice.
  - eapply frees_items; [exact Hx|]. intros p _. apply frees_sensor.
  - eapply frees_items; [exact Hx|]. intros p _. apply frees_scope.
  - eapply frees_items; [by apply items_allocated|]. intros [[c y]|] Hy; [|apply frees_nil].
    by apply frees_actuator; apply Hy.
Qed.

Lemma frees_member x :
  msg_mem_ok x -> allocated (hm_data x) -> frees (destroy_member x) (own_data (hm_data x)).
Proof.
  unfold msg_mem_ok, destroy_member. destruct x as [t d]. cbn [hm_type hm_data]. intros Hok Hal.
  destruct d as [|p|p|p|p|p]; cbn [own_data data_ok] in *.
  - repeat case_match; apply frees_nil.
  - destruct Hok as [-> Hp]. by apply frees_list.
  - destruct Hok as [-> Hp]. by apply frees_add.
  - subst t. apply frees_remove.
  - subst t. apply frees_destroy. destruct p as [[b y]|]; [apply frees_flat|done].
  - subst t. apply frees_actuate.
Qed.

Lemma destroy_created_frees a x m :
  msg_mem_ok x -> allocated (hm_data x) -> NoDup (own_data (hm_data x) ++ [a]) ->
  (forall b, b ∈ own_data (hm_data x) ++ [a] -> b ∈ live m) ->
  nrm_msg_destroy_created_mem (Some (Some (a, x))) m =
  Ok (Some None, Mem (live m ∖ list_to_set (own_data (hm_data x) ++ [a])) (failing m)).
Proof.
  intros Hok Hal Hn Hl.
  pose proof (frees_bind _ _ _ _ (frees_member x Hok Hal) (frees_flat (Some (a, x))) m Hn Hl) as E.
  unfold nrm_msg_destroy_created_mem. unfold mbind, M_bind in *. cbn [load].
  rewrite decide_True by set_solver. cbn [mbind outcome_bind].
  destruct (destroy_member x m) as [[[] m1]| | |]; cbn [mbind outcome_bind] in *; [|done..]. rewrite E.
  done.
Qed.

(** *** Where the destructor dereferences NULL

    Without the structure of a discrete actuator it does, whatever it has released
    before. *)

Definition stuck {A} (c : M A) : Prop := forall m, c m = Undefined.
(** It fails no assertion, and ends. *)
Definition ok_or_stuck {A} (c : M A) : Prop := forall m, (exists r, c m = Ok r) \/ c m = Undefined.

Lemma stuck_first {A B} (c : M A) (f : A -> M B) : stuck c -> stuck (c ≫= f).
Proof. intros Hc m. unfold mbind, M_bind. by rewrite Hc. Qed.

Lemma stuck_then {A B} (c : M A) (f : A -> M B) : ok_or_stuck c -> (forall x, stuck (f x)) -> stuck (c ≫= f).
Proof.
  intros Hc Hf m. unfold mbind, M_bind. destruct (Hc m) as [[[x m1] ->]| ->]; [apply Hf|done].
Qed.

Lemma ok_or_stuck_bind {A B} (c : M A) (f : A -> M B) :
  ok_or_stuck c -> (forall x, ok_or_stuck (f x)) -> ok_or_stuck (c ≫= f).
Proof.
  intros Hc Hf m. unfold mbind, M_bind. destruct (Hc m) as [[[x m1] ->]| ->]; [apply Hf|by right].
Qed.

Lemma free_ok_or_stuck a : ok_or_stuck (free a).
Proof. intros m. destruct a; cbn; [case_decide|]; eauto. Qed.

Lemma load_ok_or_stuck {A} (p : ptr A) : ok_or_stuck (load p).
Proof. intros m. destruct p as [[a x]|]; cbn; [case_decide|]; eauto. Qed.

Lemma ret_ok_or_stuck {A} (x : A) : ok_or_stuck (mret x).
Proof. intros m. left. by eexists. Qed.

Lemma actuator_destroy_ok_or_stuck p : ok_or_stuck (nrm_msg_actuator_destroy_mem p).
Proof.
  unfold nrm_msg_actuator_destroy_mem, destroy.
  destruct p; [|apply ret_ok_or_stuck]. repeat first
    [ apply free_ok_or_stuck | apply load_ok_or_stuck | apply ret_ok_or_stuck
    | apply ok_or_stuck_bind; [|intros ?] | case_match
    | intros ?; unfold lift, get_discrete_mem, get_continuous_mem; case_match; cbn; by eauto ].
Qed.

Lemma load_stuck {A B} (p : ptr A) (f : A -> M B) :
  (forall a x, p = Some (a, x) -> stuck (f x)) -> stuck (load p ≫= f).
Proof.
  intros Hf m. unfold mbind, M_bind, load. destruct p as [[a x]|]; [|done]. case_decide; [|done]. by apply (Hf a).
Qed.

Lemma destroy_stuck {A} (members : A -> M unit) a x : stuck (members x) -> stuck (destroy members (Some (a, x))).
Proof. intros Hx. apply load_stuck. intros a' x' [= <- <-]. by apply stuck_first. Qed.

Lemma actuator_destroy_stuck a m :
  actuator_ok m -> ~ actuator_allocated m -> stuck (nrm_msg_actuator_destroy_mem (Some (a, m))).
Proof.
  unfold actuator_ok, actuator_allocated. intros Hok Hno. apply destroy_stuck.
  do 2 (apply stuck_then; [apply free_ok_or_stuck|intros _]).
  unfold get_discrete_mem. destruct (ha_data m) as [|[d|]|]; try by (destruct Hno). by rewrite Hok.
Qed.

Lemma iter_stuck {A} (f : A -> M unit) l :
  (forall x, ok_or_stuck (f x)) -> Exists (fun x => stuck (f x)) l -> stuck (M_iter f l).
Proof.
  intros Hf. induction 1 as [x l Hx|x l _ IH]; cbn [M_iter]; [by apply stuck_first|by apply stuck_then].
Qed.

#[global] Instance actuator_allocated_dec m : Decision (actuator_allocated m).
Proof. unfold actuator_allocated. destruct (ha_data m) as [|[d|]|]; (by left) || right; congruence. Defined.

Lemma opt_allocated_stuck p :
  opt_ok actuator_ok p -> ~ opt_ok actuator_allocated p -> stuck (nrm_msg_actuator_destroy_mem p).
Proof. destruct p as [[a m]|]; cbn; [apply actuator_destroy_stuck|tauto]. Qed.

Lemma items_stuck i :
  items_ok actuator_ok i ->
  ~ match hi_items i with Some (_, l) => Forall (opt_ok actuator_allocated) l | None => True end ->
  stuck (items_destroy nrm_msg_actuator_destroy_mem i).
Proof.
  unfold items_ok, items_destroy. destruct (hi_items i) as [[a l]|]; [|tauto]. intros [-> Hok] Hno.
  apply stuck_first. apply not_Forall_Exists in Hno; [|intros [[b m]|]; cbn; apply _].
  destruct l as [|x l]; [by apply Exists_nil in Hno|].
  rewrite (proj2 (Z.eqb_neq _ _)) by (cbn; lia). apply load_stuck. intros b y [= <- <-]. rewrite Z.eqb_refl.
  apply iter_stuck; [apply actuator_destroy_ok_or_stuck|]. rewrite Exists_exists in Hno |- *.
  destruct Hno as (p & Hp & Hno). exists p. split; [done|]. rewrite Forall_forall in Hok.
  by apply opt_allocated_stuck; [apply Hok|].
Qed.

Lemma member_stuck x : msg_mem_ok x -> ~ allocated (hm_data x) -> stuck (destroy_member x).
Proof.
  unfold msg_mem_ok, destroy_member. destruct x as [t d]. cbn [hm_type hm_data]. intros Hok Hno.
  destruct d as [|p|p|p|p|p]; cbn [allocated data_ok] in *; try by destruct Hno.
  - destruct Hok as [-> Hp]. destruct p as [[b [t' d]]|]; [|by destruct Hno]. cbn in Hp, Hno.
    unfold list_mem_ok in Hp. cbn in Hp. destruct d as [| | | |[[c i]|]]; try by destruct Hno.
    destruct Hp as [-> Hp]. apply destroy_stuck, destroy_stuck. by apply items_stuck.
  - destruct Hok as [-> Hp]. destruct p as [[b [t' d]]|]; [|by destruct Hno]. cbn in Hp, Hno.
    unfold add_mem_ok in Hp. cbn in Hp. destruct d as [| | | |q]; try by destruct Hno.
    destruct Hp as [-> Hp]. apply destroy_stuck. by apply opt_allocated_stuck.
Qed.

Lemma destroy_created_stuck a x :
  msg_mem_ok x -> ~ allocated (hm_data x) -> stuck (nrm_msg_destroy_created_mem (Some (Some (a, x)))).
Proof.
  intros Hok Hno. apply load_stuck. intros a' x' [= <- <-]. by apply stuck_first, member_stuck.
Qed.

(** ** What a message says

    Without its addresses a message is one of Messages. *)

Definition erase_ptr {A B} (f : A -> B) (p : ptr A) : option B := f <$> pointee p.
Definition erase_items {A B} (f : A -> B) (i : h_items A) : list B :=
  omap (erase_ptr f) (default [] (pointee (hi_items i))).
Definition erase_list {A B} (f : A -> B) (p : ptr (h_items A)) : list B :=
  default [] (erase_ptr (erase_items f) p).

Definition erase_sensor (m : h_sensor) : nrm_msg_sensor := MSensor (pointee (hse_uuid m)).
Definition erase_slice (m : h_slice) : nrm_msg_slice := MSlice (pointee (hsl_uuid m)).
Definition erase_actuate (m : h_actuate) : nrm_msg_actuate :=
  MActuate (pointee (hac_uuid m)) (hac_value m).
Definition erase_remove (m : h_remove) : nrm_msg_remove := MRemove (hr_type m) (pointee (hr_uuid m)).
Definition erase_actuator_data (d : h_actuator_data) : msg_actuator_data :=
  match d with
  | HA_none => AD_none
  | HA_discrete x => AD_discrete (default [] (pointee x ≫= fun d => pointee (hd_choices d)))
  | HA_continuous (Some (_, c)) => AD_continuous (hc_lmin c) (hc_lmax c)
  | HA_continuous None => AD_none
  end.
Definition erase_actuator (m : h_actuator) : nrm_msg_actuator :=
  MActuator (pointee (ha_uuid m)) (pointee (ha_clientid m)) (ha_value m) (ha_type m)
    (erase_actuator_data (ha_data m)).
Definition erase_scope (m : h_scope) : nrm_msg_scope :=
  MScope (pointee (hs_uuid m)) (default [] (pointee (hs_cpus m))) (default [] (pointee (hs_numas m)))
    (default [] (pointee (hs_gpus m))).
Definition erase_event (m : h_event) : nrm_msg_event := MEvent (he_time m) (he_value m).
Definition erase_timeserie (m : h_timeserie) : nrm_msg_timeserie :=
  MTimeserie (pointee (ht_sensor_uuid m)) (erase_ptr erase_scope (ht_scope m)) (ht_start m)
    (erase_items erase_event (ht_events m)).
Definition erase_add_data (d : h_add_data) : msg_add_data :=
  match d with
  | HAdd_slice (Some (_, x)) => Add_slice (erase_slice x)
  | HAdd_sensor (Some (_, x)) => Add_sensor (erase_sensor x)
  | HAdd_scope (Some (_, x)) => Add_scope (erase_scope x)
  | HAdd_actuator (Some (_, x)) => Add_actuator (erase_actuator x)
  | _ => Add_none
  end.
Definition erase_list_data (d : h_list_data) : msg_list_data :=
  match d with
  | HList_none => List_none
  | HList_slices x => List_slices (erase_list erase_slice x)
  | HList_sensors x => List_sensors (erase_list erase_sensor x)
  | HList_scopes x => List_scopes (erase_list erase_scope x)
  | HList_actuators x => List_actuators (erase_list erase_actuator x)
  end.
Definition erase_data (d : h_data) : msg_data :=
  match d with
  | HD_list (Some (_, x)) => D_list (MList (hl_type x) (erase_list_data (hl_data x)))
  | HD_add (Some (_, x)) => D_add (MAdd (had_type x) (erase_add_data (had_data x)))
  | HD_remove (Some (_, x)) => D_remove (erase_remove x)
  | HD_events x => D_events (erase_list erase_timeserie x)
  | HD_actuate (Some (_, x)) => D_actuate (erase_actuate x)
  | _ => D_none
  end.
Definition erase_msg (m : h_msg) : nrm_msg := Msg (hm_type m) (erase_data (hm_data m)).

(** The message of [r] in Messages. *)
Definition request_msg (r : msg_request) : outcome (option nrm_msg) :=
  let msg := snd (nrm_msg_fill (nrm_msg_create false) (request_type r)) in
  snd <$> match r with
  | R_plain _ => Ok (0, msg)
  | R_events v => nrm_msg_set_events msg v
  | R_actuate u v => nrm_msg_set_actuate msg u v
  | R_remove t u => nrm_msg_set_remove msg t u
  | R_add_actuator a => nrm_msg_set_add_actuator msg a
  | R_add_scope s => nrm_msg_set_add_scope msg s
  | R_add_sensor s => nrm_msg_set_add_sensor msg s
  | R_add_slice s => nrm_msg_set_add_slice msg s
  | R_list_actuators v => nrm_msg_set_list_actuators msg v
  | R_list_scopes v => nrm_msg_set_list_scopes msg v
  | R_list_sensors v => nrm_msg_set_list_sensors msg v
  | R_list_slices v => nrm_msg_set_list_slices msg v
  end.

(** [c] gives what [o] gives, and is stuck where [o] is, when no allocation fails. *)
Definition implements {A B} (c : M A) (erase : A -> B) (o : outcome B) : Prop :=
  forall m, failing m = [] ->
    match c m with
    | Ok (r, m') => o = Ok (erase r) /\ failing m' = [] /\ live m ⊆ live m'
    | Assert_failed => o = Assert_failed
    | Undefined => o = Undefined
    | Diverges => o = Diverges
    end.

Lemma implements_ret {A B} (x : A) (e : A -> B) y : y = e x -> implements (mret x) e (Ok y).
Proof. intros -> m Hm. by split. Qed.

Lemma implements_bind {A B A' B'} (c : M A) (e : A -> B) o (f : A -> M A') (e' : A' -> B') g :
  implements c e o -> (forall r, implements (f r) e' (g (e r))) -> implements (c ≫= f) e' (o ≫= g).
Proof.
  intros Hc Hf m Hm. specialize (Hc m Hm). unfold mbind at 1, M_bind.
  destruct (c m) as [[r m1]| | |]; cbn [mbind outcome_bind]; [|by rewrite Hc..].
  destruct Hc as (-> & Hm1 & Hl). cbn. specialize (Hf r m1 Hm1). destruct (f r m1) as [[r' m2]| | |]; [|done..].
  destruct Hf as (Ho & Hm2 & Hl2). split_and!; [done|done|set_solver].
Qed.

Lemma implements_lift {A A' B'} (o : outcome A) (f : A -> M A') (e' : A' -> B') g :
  (forall r, implements (f r) e' (g r)) -> implements (lift o ≫= f) e' (o ≫= g).
Proof.
  intros Hf. apply (implements_bind _ id); [|exact Hf]. intros m Hm. unfold lift. by destruct o.
Qed.

Lemma bind_Ok_id {A} (o : outcome A) : (o ≫= Ok) = o.
Proof. by destruct o. Qed.
Lemma fmap_bind_Ok {A B} (f : A -> B) (o : outcome A) : (o ≫= fun x => Ok (f x)) = f <$> o.
Proof. by destruct o. Qed.

Lemma implements_id {A B} (c : M A) (e : A -> B) o : implements c e (o ≫= Ok) -> implements c e o.
Proof. by rewrite bind_Ok_id. Qed.

Section saying.
Context `{Malloc}.

Lemma implements_alloc {A B} (f : option addr -> M A) (e : A -> B) o :
  (forall a, implements (f (Some a)) e o) -> implements (alloc ≫= f) e o.
Proof.
  intros Hf m Hm. unfold mbind, M_bind, alloc. rewrite Hm. cbn.
  specialize (Hf (malloc (live m)) (Mem ({[malloc (live m)]} ∪ live m) []) eq_refl). cbn in Hf.
  destruct (f _ _) as [[r m1]| | |]; [|done..]. destruct Hf as (Ho & Hm1 & Hl). split_and!; [done|done|set_solver].
Qed.

Lemma new_implements {A B} (fill : M A) (e : A -> B) o :
  implements fill e o -> implements (new fill) (erase_ptr e) (Some <$> o).
Proof.
  intros Hf. apply implements_alloc. intros a.
  change (implements (x ← fill; mret (Some (a, x))) (erase_ptr e) (Some <$> o)). rewrite <- fmap_bind_Ok.
  eapply implements_bind; [exact Hf|]. intros x. by apply implements_ret.
Qed.
Lemma new_array_implements {A B} (fill : M A) (e : A -> B) o :
  implements fill e o -> implements (new_array fill) (erase_ptr e) (Some <$> o).
Proof.
  intros Hf. apply implements_alloc. intros a.
  change (implements (x ← fill; mret (Some (a, x))) (erase_ptr e) (Some <$> o)). rewrite <- fmap_bind_Ok.
  eapply implements_bind; [exact Hf|]. intros x. by apply implements_ret.
Qed.

(** After a call whose result is not NULL. *)
Lemma implements_bind_some {A B A' B'} (c : M (ptr A)) (e : A -> B) o (f : ptr A -> M A') (e' : A' -> B') g :
  implements c (erase_ptr e) (Some <$> o) ->
  (forall a x, implements (f (Some (a, x))) e' (g (e x))) -> implements (c ≫= f) e' (o ≫= g).
Proof.
  intros Hc Hf.
  replace (o ≫= g) with ((Some <$> o) ≫= fun y => match y with Some y => g y | None => Undefined end)
    by (by destruct o).
  intros m Hm. specialize (Hc m Hm). unfold mbind at 1, M_bind.
  destruct (c m) as [[r m1]| | |]; cbn [mbind outcome_bind]; [|by rewrite Hc..].
  destruct Hc as (Ho & Hm1 & Hl). rewrite Ho. destruct o as [y| | |]; [|done..]. destruct r as [[a x]|]; [|done]. cbn.
  specialize (Hf a x m1 Hm1). destruct (f _ m1) as [[r' m2]| | |]; [|done..].
  destruct Hf as (Ho' & Hm2 & Hl2). split_and!; [done|done|set_solver].
Qed.

Lemma strdup_implements s : implements (strdup_mem s) pointee (strdup s).
Proof.
  apply implements_lift. intros x. apply implements_alloc. intros a. apply (implements_bind (mret x) id _ _ _ (fun y => Ok (Some y)) (implements_ret x id x eq_refl)).
  intros r. by apply implements_ret.
Qed.

Lemma M_map_implements {A B C} (f : A -> M (ptr B)) (e : B -> C) (g : A -> outcome C) l :
  (forall x, implements (f x) (erase_ptr e) (Some <$> g x)) ->
  implements (M_map f l) (omap (erase_ptr e)) (map_outcome g l).
Proof.
  intros Hf. induction l as [|x l IH]; cbn [M_map map_outcome]; [by apply implements_ret|].
  eapply implements_bind_some; [apply Hf|]. intros a y. eapply implements_bind; [exact IH|]. intros ys.
  by apply implements_ret.
Qed.

Lemma items_new_implements {A B C} (f : A -> M (ptr B)) (e : B -> C) (g : A -> outcome C) l :
  (forall x, implements (f x) (erase_ptr e) (Some <$> g x)) ->
  implements (items_new f l) (erase_items e) (map_outcome g l).
Proof.
  intros Hf. apply implements_id.
  eapply implements_bind_some; [by apply new_array_implements, M_map_implements|]. intros a ys.
  by apply implements_ret.
Qed.

Lemma list_new_implements {A B C} (f : A -> M (ptr B)) (e : B -> C) (g : A -> outcome C) v :
  (forall x, implements (f x) (erase_ptr e) (Some <$> g x)) ->
  implements (list_new f v) (erase_ptr (erase_items e))
    (Some <$> match v with None => Ok [] | Some l => map_outcome g l end).
Proof.
  intros Hf. apply new_implements. destruct v; [by apply items_new_implements|by apply implements_ret].
Qed.

(** A structure that has its name and nothing else to allocate. *)
Lemma named_implements {A B} (mk : ptr string -> A) (e : A -> B) (mk' : option string -> B) s :
  (forall u, e (mk u) = mk' (pointee u)) ->
  implements (new (u ← strdup_mem s; mret (mk u))) (erase_ptr e) (Some <$> (u ← strdup s; Ok (mk' u))).
Proof.
  intros He. apply new_implements. eapply implements_bind; [apply strdup_implements|]. intros u.
  by apply implements_ret.
Qed.

Lemma discrete_implements a :
  implements (nrm_msg_actuator_discrete_new_mem a) (erase_ptr (fun d => default [] (pointee (hd_choices d))))
    (Some <$> choices_of a).
Proof.
  apply new_implements. apply implements_id, implements_lift. intros cs.
  apply implements_id. eapply implements_bind_some.
  - apply (new_array_implements (mret cs) id). by apply implements_ret.
  - intros b x. by apply implements_ret.
Qed.

Lemma continuous_implements a :
  implements (nrm_msg_actuator_continuous_new_mem a) (erase_ptr (fun c => (hc_lmin c, hc_lmax c)))
    (Some <$> limits_of a).
Proof.
  apply new_implements. apply implements_id, implements_lift. intros [lo hi]. by apply implements_ret.
Qed.

Lemma clientid_implements c :
  implements match c with Some c => strdup_mem (Some c) | None => mret None end pointee (Ok c).
Proof. destruct c; [apply (strdup_implements (Some s))|by apply implements_ret]. Qed.

Lemma actuator_implements a :
  implements (nrm_msg_actuator_new_mem a) (erase_ptr erase_actuator) (Some <$> nrm_msg_actuator_new a).
Proof.
  apply new_implements. unfold nrm_msg_actuator_new. eapply implements_bind; [apply strdup_implements|]. intros u.
  match goal with |- implements _ ?e ?rhs =>
    match eval pattern (a_clientid (a_data a)) in rhs with
    ?g _ => apply (implements_bind _ pointee (Ok (a_clientid (a_data a))) _ e g)
    end
  end; [apply clientid_implements|]. intros c.
  apply (implements_bind _ erase_actuator_data); [|intros d; by apply implements_ret].
  case_tests; [| |by apply implements_ret].
  - eapply implements_bind_some; [apply discrete_implements|]. intros b x. by apply implements_ret.
  - eapply implements_bind_some; [apply continuous_implements|]. intros b x. by apply implements_ret.
Qed.

Lemma to_array_implements b :
  implements (to_array_mem b) (fun r => default [] (pointee (snd r)))
    (Ok (default [] (snd (nrm_bitmap_to_array false (Some b))))).
Proof.
  unfold to_array_mem. destruct (nrm_bitmap_to_array _ _) as [[e n] items].
  apply implements_id. eapply implements_bind_some; [apply (new_implements (mret _) id); by apply implements_ret|].
  intros a x. by apply implements_ret.
Qed.

(** After reading a map of the scope. *)
Lemma map_implements {A B} s i (f : Z * ptr (list Z) -> M A) (e : A -> B) g :
  (forall r, implements (f r) e (g (default [] (pointee (snd r))))) ->
  implements (b ← lift (scope_map s i); r ← to_array_mem b; f r) e
    (b ← scope_map s i; g (default [] (snd (nrm_bitmap_to_array false (Some b))))).
Proof.
  intros Hf. apply implements_lift. intros b.
  by apply (implements_bind _ _ _ _ e g (to_array_implements b)).
Qed.

Lemma scope_implements s :
  implements (nrm_msg_scope_new_mem s) (erase_ptr erase_scope) (Some <$> nrm_msg_scope_new s).
Proof.
  apply new_implements. unfold nrm_msg_scope_new. eapply implements_bind; [apply strdup_implements|]. intros u.
  set (items b := default [] (snd (nrm_bitmap_to_array false (Some b)))).
  apply (map_implements s NRM_SCOPE_TYPE_CPU _ _ (fun l1 =>
    numa ← scope_map s NRM_SCOPE_TYPE_NUMA; gpu ← scope_map s NRM_SCOPE_TYPE_GPU;
    Ok (MScope (pointee u) l1 (items numa) (items gpu)))). intros [n1 p1].
  apply (map_implements s NRM_SCOPE_TYPE_NUMA _ _ (fun l2 =>
    gpu ← scope_map s NRM_SCOPE_TYPE_GPU;
    Ok (MScope (pointee u) (default [] (pointee p1)) l2 (items gpu)))). intros [n2 p2].
  apply (map_implements s NRM_SCOPE_TYPE_GPU _ _ (fun l3 =>
    Ok (MScope (pointee u) (default [] (pointee p1)) (default [] (pointee p2)) l3))). intros [n3 p3].
  by apply implements_ret.
Qed.

Lemma event_implements e :
  implements (nrm_msg_event_new_mem e) (erase_ptr erase_event) (Some <$> Ok (nrm_msg_event_new e)).
Proof. apply new_implements. by apply implements_ret. Qed.

Lemma map_outcome_pure {A B} (f : A -> B) l : map_outcome (fun x => Ok (f x)) l = Ok (f <$> l).
Proof. induction l as [|x l IH]; cbn; [done|]. by rewrite IH. Qed.

Lemma timeserie_implements t :
  implements (nrm_msg_timeserie_new_mem t) (erase_ptr erase_timeserie) (Some <$> nrm_msg_timeserie_new t).
Proof.
  apply new_implements.
  change (nrm_msg_timeserie_new t) with (u ← strdup (Some (t_sensor_uuid t)); sc ← nrm_msg_scope_new (t_scope t);
    Ok (MTimeserie u (Some sc) (nrm_time_tons (t_start t)) (nrm_msg_event_new <$> t_events t))).
  eapply implements_bind; [apply strdup_implements|]. intros u.
  eapply implements_bind_some; [apply scope_implements|]. intros a x.
  apply (implements_bind _ (erase_items erase_event) (Ok (nrm_msg_event_new <$> t_events t)) _ _
    (fun es => Ok (MTimeserie (pointee u) (Some (erase_scope x)) (nrm_time_tons (t_start t)) es))).
  - rewrite <- map_outcome_pure. apply items_new_implements, event_implements.
  - intros es. by apply implements_ret.
Qed.

(** *** The members, then the message *)

(** Assigning to a structure that was just allocated. *)
Lemma set_add_implements type member o :
  implements member erase_add_data o ->
  implements (set_add type member) erase_data (d ← o; Ok (D_add (MAdd type d))).
Proof.
  intros Hm m Hf. unfold set_add, nrm_msg_add_new_mem, new, alloc, mbind, M_bind. rewrite Hf. cbn.
  set (a := malloc (live m)). specialize (Hm (Mem ({[a]} ∪ live m) []) eq_refl). cbn in Hm.
  destruct (member _) as [[d m1]| | |]; cbn; [|by rewrite Hm..]. destruct Hm as (-> & Hm1 & Hl).
  rewrite decide_True by set_solver. split_and!; [done|done|set_solver].
Qed.

Lemma set_list_implements type member o :
  implements member erase_list_data o ->
  implements (set_list type member) erase_data (d ← o; Ok (D_list (MList type d))).
Proof.
  intros Hm m Hf. unfold set_list, nrm_msg_list_new_mem, new, alloc, mbind, M_bind. rewrite Hf. cbn.
  set (a := malloc (live m)). specialize (Hm (Mem ({[a]} ∪ live m) []) eq_refl). cbn in Hm.
  destruct (member _) as [[d m1]| | |]; cbn; [|by rewrite Hm..]. destruct Hm as (-> & Hm1 & Hl).
  rewrite decide_True by set_solver. split_and!; [done|done|set_solver].
Qed.

(** A member that is a list. *)
Lemma list_member_implements {A B} (c : M (ptr (h_items A))) (e : A -> B) o mk mk' :
  (forall x, erase_list_data (mk x) = mk' (erase_list e x)) ->
  implements c (erase_ptr (erase_items e)) (Some <$> o) ->
  implements (l ← c; mret (mk l)) erase_list_data (l ← o; Ok (mk' l)).
Proof.
  intros Hmk Hc. eapply implements_bind_some; [exact Hc|]. intros a x. apply implements_ret. by rewrite Hmk.
Qed.

(** The message that [nrm_msg_create] and [nrm_msg_fill] have made. *)
Definition typed_msg (type : Z) (m : h_msg) : Prop := hm_type m = type /\ hm_data m = HD_none.

Lemma set_member_implements type a x data o m :
  typed_msg type x -> a ∈ live m -> failing m = [] -> implements data erase_data o ->
  match set_member (Some (a, x)) data m with
  | Ok (r, m') => (d ← o; Ok (0, Some (Msg type d))) = Ok (fst r, erase_ptr erase_msg (snd r)) /\
                  failing m' = [] /\ live m ⊆ live m'
  | Assert_failed => o = Assert_failed
  | Undefined => o = Undefined
  | Diverges => o = Diverges
  end.
Proof.
  intros [<- Hx] Ha Hm Hd. specialize (Hd m Hm). unfold set_member, mbind, M_bind.
  destruct (data m) as [[d m1]| | |]; cbn; [|done..]. destruct Hd as (-> & Hm1 & Hl).
  rewrite decide_True by set_solver. done.
Qed.

(** The member of the message of [r] in Messages. *)
Definition request_data (r : msg_request) : outcome msg_data :=
  match r with
  | R_plain _ => Ok D_none
  | R_events v => l ← nrm_msg_timeserielist_new v; Ok (D_events l)
  | R_actuate u v => a ← nrm_msg_actuate_new u v; Ok (D_actuate a)
  | R_remove t u => x ← nrm_msg_remove_new t u; Ok (D_remove x)
  | R_add_actuator a =>
      d ← (x ← nrm_msg_actuator_new a; Ok (Add_actuator x)); Ok (D_add (MAdd NRM_MSG_TARGET_TYPE_ACTUATOR d))
  | R_add_scope s =>
      d ← (x ← nrm_msg_scope_new s; Ok (Add_scope x)); Ok (D_add (MAdd NRM_MSG_TARGET_TYPE_SCOPE d))
  | R_add_sensor s =>
      d ← (x ← nrm_msg_sensor_new (sensor_uuid s); Ok (Add_sensor x));
      Ok (D_add (MAdd NRM_MSG_TARGET_TYPE_SENSOR d))
  | R_add_slice s =>
      d ← (x ← nrm_msg_slice_new (slice_uuid s); Ok (Add_slice x));
      Ok (D_add (MAdd NRM_MSG_TARGET_TYPE_SLICE d))
  | R_list_actuators v =>
      d ← (x ← nrm_msg_actuatorlist_new v; Ok (List_actuators x));
      Ok (D_list (MList NRM_MSG_TARGET_TYPE_ACTUATOR d))
  | R_list_scopes v =>
      d ← (x ← nrm_msg_scopelist_new v; Ok (List_scopes x)); Ok (D_list (MList NRM_MSG_TARGET_TYPE_SCOPE d))
  | R_list_sensors v =>
      d ← (x ← nrm_msg_sensorlist_new v; Ok (List_sensors x));
      Ok (D_list (MList NRM_MSG_TARGET_TYPE_SENSOR d))
  | R_list_slices v =>
      d ← (x ← nrm_msg_slicelist_new v; Ok (List_slices x)); Ok (D_list (MList NRM_MSG_TARGET_TYPE_SLICE d))
  end.

Lemma request_msg_data r :
  request_ok r -> request_msg r = (d ← request_data r; Ok (Some (Msg (request_type r) d))).
Proof.
  intros Hr. unfold request_msg.
  assert (Hf : nrm_msg_fill (nrm_msg_create false) (request_type r) = (0, Some (Msg (request_type r) D_none))).
  { cbn. destruct r; try done. cbn in *. unfold NRM_MSG_TYPE_MAX in *.
    by rewrite (proj2 (Z.ltb_ge _ _)), Z.geb_leb, (proj2 (Z.leb_gt _ _)) by lia. }
  rewrite Hf. cbn [snd].
  destruct r; cbn [request_data nrm_msg_set_events nrm_msg_set_actuate nrm_msg_set_remove nrm_msg_set_add_actuator
    nrm_msg_set_add_scope nrm_msg_set_add_sensor nrm_msg_set_add_slice nrm_msg_set_list_actuators
    nrm_msg_set_list_scopes nrm_msg_set_list_sensors nrm_msg_set_list_slices]; [done|..];
    match goal with |- snd <$> (?o ≫= _) = _ => by destruct o end.
Qed.

(** And in memory. *)
Definition request_data_mem (r : msg_request) : M h_data :=
  match r with
  | R_plain _ => mret HD_none
  | R_events v => l ← nrm_msg_timeserielist_new_mem v; _ ← lift (c_assert (negb (is_null l))); mret (HD_events l)
  | R_actuate u v => a ← nrm_msg_actuate_new_mem u v; mret (HD_actuate a)
  | R_remove t u => x ← nrm_msg_remove_new_mem t u; _ ← lift (c_assert (negb (is_null x))); mret (HD_remove x)
  | R_add_actuator a =>
      set_add NRM_MSG_TARGET_TYPE_ACTUATOR (x ← nrm_msg_actuator_new_mem a; mret (HAdd_actuator x))
  | R_add_scope s => set_add NRM_MSG_TARGET_TYPE_SCOPE (x ← nrm_msg_scope_new_mem s; mret (HAdd_scope x))
  | R_add_sensor s =>
      set_add NRM_MSG_TARGET_TYPE_SENSOR (x ← nrm_msg_sensor_new_mem (sensor_uuid s); mret (HAdd_sensor x))
  | R_add_slice s =>
      set_add NRM_MSG_TARGET_TYPE_SLICE (x ← nrm_msg_slice_new_mem (slice_uuid s); mret (HAdd_slice x))
  | R_list_actuators v =>
      set_list NRM_MSG_TARGET_TYPE_ACTUATOR (l ← nrm_msg_actuatorlist_new_mem v; mret (HList_actuators l))
  | R_list_scopes v =>
      set_list NRM_MSG_TARGET_TYPE_SCOPE (l ← nrm_msg_scopelist_new_mem v; mret (HList_scopes l))
  | R_list_sensors v =>
      set_list NRM_MSG_TARGET_TYPE_SENSOR (l ← nrm_msg_sensorlist_new_mem v; mret (HList_sensors l))
  | R_list_slices v =>
      set_list NRM_MSG_TARGET_TYPE_SLICE (l ← nrm_msg_slicelist_new_mem v; mret (HList_slices l))
  end.

Lemma request_data_implements r : implements (request_data_mem r) erase_data (request_data r).
Proof.
  destruct r; cbn [request_data_mem request_data]; [by apply implements_ret| | | |
    apply set_add_implements..|apply set_list_implements|apply set_list_implements|apply set_list_implements|
    apply set_list_implements].
  - eapply implements_bind_some; [apply list_new_implements, timeserie_implements|]. by intros a x m Hm.
  - eapply implements_bind_some; [by apply (named_implements _ erase_actuate (fun u => MActuate u value))|].
    intros a x. by apply implements_ret.
  - eapply implements_bind_some; [by apply (named_implements _ erase_remove (fun u => MRemove type u))|].
    by intros a x m Hm.
  - eapply implements_bind_some; [apply actuator_implements|]. intros a x. by apply implements_ret.
  - eapply implements_bind_some; [apply scope_implements|]. intros a x. by apply implements_ret.
  - eapply implements_bind_some; [by apply (named_implements HSensor erase_sensor MSensor)|].
    intros a x. by apply implements_ret.
  - eapply implements_bind_some; [by apply (named_implements HSlice erase_slice MSlice)|].
    intros a x. by apply implements_ret.
  - eapply list_member_implements; [done|]. apply list_new_implements, actuator_implements.
  - eapply list_member_implements; [done|]. apply list_new_implements, scope_implements.
  - eapply list_member_implements; [done|]. apply list_new_implements. intros s.
    by apply (named_implements HSensor erase_sensor MSensor).
  - eapply list_member_implements; [done|]. apply list_new_implements. intros s.
    by apply (named_implements HSlice erase_slice MSlice).
Qed.

Lemma request_set_data r a x :
  typed_msg (request_type r) x ->
  request_set r (Some (a, x)) =
  match r with R_plain _ => mret (0, Some (a, x)) | _ => set_member (Some (a, x)) (request_data_mem r) end.
Proof. by destruct r. Qed.

(** When no allocation fails the message in memory says what the message of
    Messages says, and is stuck where that is. *)
Lemma build_implements r : request_ok r -> implements (build r) (erase_ptr erase_msg) (request_msg r).
Proof.
  intros Hr m Hm. rewrite request_msg_data by done.
  set (a := malloc (live m)). set (m1 := Mem ({[a]} ∪ live m) []). set (x := HMsg (request_type r) HD_none).
  assert (Hcreate : nrm_msg_create_mem m = Ok (Some (a, HMsg NRM_MSG_TYPE_ACK HD_none), m1)).
  { unfold nrm_msg_create_mem, new, alloc, mbind, M_bind. by rewrite Hm. }
  assert (Hfill : nrm_msg_fill_mem (Some (a, HMsg NRM_MSG_TYPE_ACK HD_none)) (request_type r) m1
                  = Ok ((0, Some (a, x)), m1)).
  { cbn [nrm_msg_fill_mem].
    assert (Ht : ((request_type r <? 0) || (request_type r >=? NRM_MSG_TYPE_MAX)) = false).
    { destruct r; cbn in *; try done. unfold NRM_MSG_TYPE_MAX in *. apply orb_false_intro; lia. }
    rewrite Ht. unfold mbind, M_bind, load. by rewrite decide_True by (cbn; set_solver). }
  assert (Hx : typed_msg (request_type r) x) by done.
  unfold build. erewrite M_bind_Ok by exact Hcreate. erewrite M_bind_Ok by exact Hfill.
  cbv beta iota. rewrite (request_set_data r a x Hx).
  pose proof (set_member_implements _ a x _ _ m1 Hx ltac:(cbn; set_solver) eq_refl (request_data_implements r)) as E.
  assert (Hcase : (exists t, r = R_plain t) \/ (forall A (y z : A), match r with R_plain _ => y | _ => z end = z))
    by (destruct r; eauto).
  destruct Hcase as [[t ->]|Hcase].
  - cbn. split_and!; [done|done|set_solver].
  - rewrite Hcase. unfold mbind at 1, M_bind.
    destruct (set_member _ _ m1) as [[[z p] m2]| | |]; cbn [mbind outcome_bind]; [|by rewrite E..].
    destruct E as (E & E1 & E2). cbn in E2. destruct (request_data r); [|done..]. injection E as E3 E4.
    cbn in *. rewrite E4. split_and!; [done|done|set_solver].
Qed.
End saying.

(** ** The life of a message *)

(** C18: what becomes of every message that the library builds, whatever allocations
    fail on the way. When every discrete actuator in it has got its structure,
    [nrm_msg_destroy_created] releases the message: it frees what building has allocated
    and nothing else, each address once, except for the series of a message of events,
    which stay. When an actuator has not, the destructor dereferences NULL. *)
Theorem msg_lifetime `{Malloc} r m a x m' :
  request_ok r -> build r m = Ok (Some (a, x), m') ->
  msg_mem_ok x /\
  (allocated (hm_data x) ->
   exists m'', nrm_msg_destroy_created_mem (Some (Some (a, x))) m' = Ok (Some None, m'') /\
     live m'' = live m ∪ list_to_set (own_series (hm_data x)) /\
     (forall b, b ∈ own_series (hm_data x) -> b ∉ live m)) /\
  (~ allocated (hm_data x) -> nrm_msg_destroy_created_mem (Some (Some (a, x))) m' = Undefined).
Proof.
  intros Hr E. pose proof (build_returns r Hr _ _ _ E) as Hok. split; [exact Hok|].
  split; [intros Hal|intros Hno; by apply destroy_created_stuck].
  destruct (build_grows r _ _ _ E) as (l & Hp & Hn & Hd & Hl). cbn [app] in Hp.
  cbn [own_msg own_ptr] in Hp. rewrite <- Hp, <- app_assoc in Hn. apply NoDup_app in Hn as (Hn1 & Hn2 & Hn3).
  assert (Hin : forall b, b ∈ l <-> b ∈ own_series (hm_data x) \/ b ∈ own_data (hm_data x) ++ [a]).
  { intros b. rewrite <- Hp, <- app_assoc. apply elem_of_app. }
  eexists. split; [apply destroy_created_frees; [exact Hok|done|done|]|].
  { intros b Hb. rewrite Hl. apply elem_of_union_r, elem_of_list_to_set, Hin. by right. }
  cbn [live]. split.
  - rewrite Hl. apply set_eq. intros b. rewrite elem_of_difference, !elem_of_union, !elem_of_list_to_set, Hin.
    specialize (Hn2 b). specialize (Hd b). rewrite Hin in Hd. tauto.
  - intros b Hb. apply Hd, Hin. by left.
Qed.

Definition two_choices : nrm_actuator :=
  Actuator (Data 0 (Some "a"%string) None d0 (U_choices [d_of_Z 1; d_of_Z 2])) nrm_actuator_discrete_ops.

(** With all the memory it asks for, and without the one for the structure of the
    actuator, which is the seventh allocation. *)
Lemma msg_lifetime_witness :
  let r := R_list_actuators (Some [two_choices]) in
  let used := {[ 5%positive ]} in
  let no_discrete := [false; false; false; false; false; false; true] in
  match build r (Mem used []) with
  | Ok (Some (a, x), m') =>
      msg_mem_ok x /\
      exists m'', nrm_msg_destroy_created_mem (Some (Some (a, x))) m' = Ok (Some None, m'') /\
        live m'' = used ∪ list_to_set (own_series (hm_data x)) /\
        (forall b, b ∈ own_series (hm_data x) -> b ∉ used)
  | _ => False
  end /\
  match build r (Mem used no_discrete) with
  | Ok (Some (a, x), m') => nrm_msg_destroy_created_mem (Some (Some (a, x))) m' = Undefined
  | _ => False
  end.
Proof.
  intros r used no_discrete.
  assert (Hr : request_ok r) by (constructor; [by vm_compute|constructor]).
  split.
  - destruct (build r (Mem used [])) as [[[[a x]|] m']| | |] eqn:E; [|by vm_compute in E..].
    destruct (msg_lifetime r (Mem used []) a x m' Hr E) as (Hok & Hfrees & _). split; [exact Hok|]. apply Hfrees.
    vm_compute in E. injection E as _ <- _. constructor; [discriminate|constructor].
  - destruct (build r (Mem used no_discrete)) as [[[[a x]|] m']| | |] eqn:E; [|by vm_compute in E..].
    apply (msg_lifetime r (Mem used no_discrete) a x m' Hr E).
    vm_compute in E. injection E as _ <- _. intros Hal. cbn in Hal. apply Forall_cons in Hal as [Hal _]. by apply Hal.
Defined.

(** C19: when no allocation fails, the message in memory says what the message of
    Messages says; it is built whenever that is, and where the code is stuck so is
    Messages. *)
Theorem msg_memory_refines `{Malloc} r m :
  request_ok r -> failing m = [] ->
  match build r m with
  | Ok (p, m') => request_msg r = Ok (erase_ptr erase_msg p) /\ live m ⊆ live m'
  | Assert_failed => request_msg r = Assert_failed
  | Undefined => request_msg r = Undefined
  | Diverges => request_msg r = Diverges
  end.
Proof.
  intros Hr Hm. pose proof (build_implements r Hr m Hm) as E.
  destruct (build r m) as [[p m']| | |]; [|done..]. by destruct E as (E1 & _ & E2).
Qed.

Lemma msg_memory_refines_witness :
  let r := R_add_actuator two_choices in
  match build r (Mem ∅ []) with
  | Ok (p, m') => request_msg r = Ok (erase_ptr erase_msg p) /\ ∅ ⊆ live m'
  | Assert_failed => request_msg r = Assert_failed
  | Undefined => request_msg r = Undefined
  | Diverges => request_msg r = Diverges
  end.
Proof.
  intros r. apply (msg_memory_refines r (Mem ∅ [])); [|reflexivity]. by vm_compute.
Defined.

(** The fifth allocation of a message that adds a discrete actuator is its
    [nrm_msg_actuator_discrete_t]: without it the destructor reads through NULL. *)
Example discrete_enomem_destroy :
  match build (R_add_actuator two_choices) (Mem ∅ [false; false; false; false; true]) with
  | Ok (p, m') => nrm_msg_destroy_created_mem (Some p) m'
  | _ => Assert_failed
  end = Undefined.
Proof. vm_compute. reflexivity. Qed.

(** What building a message of events allocates for one series stays in memory. *)
Example events_leak :
  let t := Timeserie "s" (Scope (Some "c"%string) [bitmap_zero; bitmap_zero; bitmap_zero]) [] (Time 0 0) in
  match build (R_events (Some [t])) (Mem ∅ []) with
  | Ok (p, m') =>
      match nrm_msg_destroy_created_mem (Some p) m' with Ok (_, m'') => size (live m'') | _ => O end
  | _ => O
  end = 8%nat.
Proof. vm_compute. reflexivity. Qed.

(** ** Messages are well typed *)

(** The types of messages without a member that the library sends. *)
Definition plain_type (t : Z) : Prop :=
  t = NRM_MSG_TYPE_ACK \/ t = NRM_MSG_TYPE_EXIT \/ t = NRM_MSG_TYPE_TICK.
Definition request_sendable (r : msg_request) : Prop :=
  request_ok r /\ match r with R_plain t => plain_type t | _ => True end.

Lemma actuator_new_ok a m :
  in_i32 (a_type (a_data a)) -> nrm_msg_actuator_new a = Ok m -> actuator_msg_ok m.
Proof.
  intros Ht E. unfold nrm_msg_actuator_new in E. rewrite i32_small in E by done.
  apply bind_Ok_inv in E as (u & _ & (d & Ed & [= <-])%bind_Ok_inv).
  unfold actuator_msg_ok. cbn [ma_data ma_type].
  destruct (Z.eqb_spec (a_type (a_data a)) NRM_ACTUATOR_TYPE_DISCRETE) as [Hd|Hd].
  { by apply bind_Ok_inv in Ed as (cs & _ & [= <-]). }
  destruct (Z.eqb_spec (a_type (a_data a)) NRM_ACTUATOR_TYPE_CONTINUOUS) as [Hc|Hc].
  { by apply bind_Ok_inv in Ed as ([lo hi] & _ & [= <-]). }
  by injection Ed as <-.
Qed.

Lemma map_outcome_inv {A B} (f : A -> outcome B) (P : B -> Prop) l ys :
  (forall x y, x ∈ l -> f x = Ok y -> P y) -> map_outcome f l = Ok ys -> Forall P ys.
Proof.
  revert ys. induction l as [|x l IH]; intros ys Hf E; cbn in E; [by injection E as <-|].
  apply bind_Ok_inv in E as (y & Ey & (ys' & El & [= <-])%bind_Ok_inv). constructor.
  - eapply Hf; [|exact Ey]. set_solver.
  - apply IH; [|done]. intros z w Hz. apply Hf. set_solver.
Qed.

Lemma timeserie_new_scope t m : nrm_msg_timeserie_new t = Ok m -> is_Some (mt_scope m).
Proof. intros E. apply bind_Ok_inv in E as (s & _ & [= <-]). by eexists. Qed.

Lemma events_new_scope v l :
  nrm_msg_timeserielist_new v = Ok l -> Forall (fun ts => is_Some (mt_scope ts)) l.
Proof.
  destruct v as [v|]; cbn; [|by intros [= <-]]. apply map_outcome_inv. intros x y _. apply timeserie_new_scope.
Qed.

Lemma actuatorlist_new_ok v l :
  Forall (fun a => in_i32 (a_type (a_data a))) (default [] v) ->
  nrm_msg_actuatorlist_new v = Ok l -> Forall actuator_msg_ok l.
Proof.
  destruct v as [v|]; cbn; [|by intros _ [= <-]]. intros Hv. apply map_outcome_inv. intros x y Hx.
  apply actuator_new_ok. by eapply Forall_forall in Hv.
Qed.

Lemma request_data_ok r d :
  request_sendable r -> request_data r = Ok d -> msg_ok (Msg (request_type r) d).
Proof.
  intros [Hr Hplain] E. unfold msg_ok. cbn [m_data m_type].
  destruct r; cbn [request_data request_type] in *;
    [injection E as <-; exact Hplain|apply bind_Ok_inv in E as (x & E1 & [= <-])..].
  - split; [done|]. by eapply events_new_scope.
  - done.
  - done.
  - apply bind_Ok_inv in E1 as (y & E1 & [= <-]). split; [done|]. split; [done|]. by eapply actuator_new_ok.
  - by apply bind_Ok_inv in E1 as (y & _ & [= <-]).
  - by apply bind_Ok_inv in E1 as (y & _ & [= <-]).
  - by apply bind_Ok_inv in E1 as (y & _ & [= <-]).
  - apply bind_Ok_inv in E1 as (y & E1 & [= <-]). split; [done|]. split; [done|].
    eapply actuatorlist_new_ok; [|exact E1]. by destruct actuators.
  - by apply bind_Ok_inv in E1 as (y & _ & [= <-]).
  - by apply bind_Ok_inv in E1 as (y & _ & [= <-]).
  - by apply bind_Ok_inv in E1 as (y & _ & [= <-]).
Qed.

(** C38: every message that the library builds has the member that its type names,
    down to the actuators it holds, when it is sent and when it is received: the
    pretty-printer prints it and [nrm_msg_destroy_created] releases it. *)
Theorem built_msg_typed `{Jansson} r m :
  request_sendable r -> request_msg r = Ok (Some m) ->
  msg_ok m /\ msg_ok (norm_msg m) /\ (exists j, nrm_msg_to_json m = Ok j) /\
  nrm_msg_destroy_created (Some (Some m)) = Ok None.
Proof.
  intros Hr E. rewrite request_msg_data in E by apply Hr. apply bind_Ok_inv in E as (d & Ed & [= <-]).
  pose proof (request_data_ok r d Hr Ed) as Hok. split_and!; [exact Hok|by apply msg_norm_ok|..].
  - by apply msg_to_json_ok.
  - by apply msg_destroy_ok.
Qed.

Lemma built_msg_typed_witness :
  let r := R_add_actuator two_choices in
  let m := Msg NRM_MSG_TYPE_ADD (D_add (MAdd NRM_MSG_TARGET_TYPE_ACTUATOR (Add_actuator
             (MActuator (Some "a"%string) None d0 0 (AD_discrete [d_of_Z 1; d_of_Z 2]))))) in
  msg_ok m /\ msg_ok (norm_msg m) /\ (exists j, nrm_msg_to_json m = Ok j) /\
  nrm_msg_destroy_created (Some (Some m)) = Ok None.
Proof. intros r m. apply (built_msg_typed r m); [|reflexivity]. split; [by vm_compute|exact I]. Defined.
