(* ===== verification/States.v ===== *)
(** * The state of a server (src/state.c)

    Four hash tables: the actuators, scopes, sensors and slices that clients
    have registered, under their names. *)

From S2P Require Import Prelude Vectors Doubles Hashes Bitmaps Json Scopes Actuators.

(** [struct nrm_state_s]. *)
Record nrm_state := State {
  st_actuators : nrm_hash nrm_actuator;
  st_scopes : nrm_hash nrm_scope;
  st_sensors : nrm_hash nrm_sensor;
  st_slices : nrm_hash nrm_slice
}.

Definition nrm_state_create (oom : bool) : option nrm_state :=
  if oom then None else Some (State [] [] [] []).

(** ** Removing

    [at_uuid] is the memory that [nrm_hash_remove] searches for. The name is
    released afterwards, which dereferences it. What [nrm_hash_remove] hands over
    is NULL or a released hash element: destroying the latter is undefined. *)

Definition destroy_removed (r : removed) : outcome unit :=
  match r with Removed_null => Ok tt | Removed_dangling => Undefined end.

Definition nrm_state_remove_actuator (at_uuid : nat -> string) (state : nrm_state)
    (uuid : option string) : outcome (Z * nrm_state) :=
  let '(_, r, table) := nrm_hash_remove at_uuid (st_actuators state) uuid in
  _ ← destroy_removed r;
  _ ← deref uuid;
  Ok (0, State table (st_scopes state) (st_sensors state) (st_slices state)).

(** [nrm_scope_destroy] does not accept NULL. *)
Definition nrm_state_remove_scope (at_uuid : nat -> string) (state : nrm_state)
    (uuid : option string) : outcome (Z * nrm_state) :=
  let '(_, r, table) := nrm_hash_remove at_uuid (st_scopes state) uuid in
  _ ← (match r with Removed_null => nrm_scope_destroy None | Removed_dangling => Undefined end);
  _ ← deref uuid;
  Ok (0, State (st_actuators state) table (st_sensors state) (st_slices state)).

Definition nrm_state_remove_sensor (at_uuid : nat -> string) (state : nrm_state)
    (uuid : option string) : outcome (Z * nrm_state) :=
  let '(_, r, table) := nrm_hash_remove at_uuid (st_sensors state) uuid in
  _ ← destroy_removed r;
  _ ← deref uuid;
  Ok (0, State (st_actuators state) (st_scopes state) table (st_slices state)).

Definition nrm_state_remove_slice (at_uuid : nat -> string) (state : nrm_state)
    (uuid : option string) : outcome (Z * nrm_state) :=
  let '(_, r, table) := nrm_hash_remove at_uuid (st_slices state) uuid in
  _ ← destroy_removed r;
  _ ← deref uuid;
  Ok (0, State (st_actuators state) (st_scopes state) (st_sensors state) table).

(** ** Listing: the objects are copied into the vector in the order of the table *)

Definition list_table {A} (table : nrm_hash A) (vec : list A) : outcome (list A) :=
  nrm_hash_foreach table (fun vec p => Ok (vec ++ [p])) vec.

Definition nrm_state_list_actuators (state : nrm_state) (vec : list nrm_actuator)
    : outcome (Z * list nrm_actuator) := vec ← list_table (st_actuators state) vec; Ok (0, vec).
Definition nrm_state_list_scopes (state : nrm_state) (vec : list nrm_scope)
    : outcome (Z * list nrm_scope) := vec ← list_table (st_scopes state) vec; Ok (0, vec).
Definition nrm_state_list_sensors (state : nrm_state) (vec : list nrm_sensor)
    : outcome (Z * list nrm_sensor) := vec ← list_table (st_sensors state) vec; Ok (0, vec).
Definition nrm_state_list_slices (state : nrm_state) (vec : list nrm_slice)
    : outcome (Z * list nrm_slice) := vec ← list_table (st_slices state) vec; Ok (0, vec).

(** ** Adding: the result of [nrm_hash_add] is ignored *)

Definition nrm_state_add_actuator (state : nrm_state) (actuator : option nrm_actuator)
    : outcome (Z * nrm_state) :=
  u ← nrm_actuator_uuid actuator;
  a ← deref actuator;
  let '(_, table) := nrm_hash_add false (st_actuators state) u a in
  Ok (0, State table (st_scopes state) (st_sensors state) (st_slices state)).

Definition nrm_state_add_scope (state : nrm_state) (scope : option nrm_scope)
    : outcome (Z * nrm_state) :=
  s ← deref scope;
  let '(_, table) := nrm_hash_add false (st_scopes state) (scope_uuid s) s in
  Ok (0, State (st_actuators state) table (st_sensors state) (st_slices state)).

Definition nrm_state_add_sensor (state : nrm_state) (sensor : option nrm_sensor)
    : outcome (Z * nrm_state) :=
  s ← deref sensor;
  let '(_, table) := nrm_hash_add false (st_sensors state) (sensor_uuid s) s in
  Ok (0, State (st_actuators state) (st_scopes state) table (st_slices state)).

Definition nrm_state_add_slice (state : nrm_state) (slice : option nrm_slice)
    : outcome (Z * nrm_state) :=
  s ← deref slice;
  let '(_, table) := nrm_hash_add false (st_slices state) (slice_uuid s) s in
  Ok (0, State (st_actuators state) (st_scopes state) (st_sensors state) table).

(** ** Destruction *)

(** The parameter and what it points to; every object is destroyed. *)
Definition nrm_state_destroy (state : option (option nrm_state)) : outcome (option nrm_state) :=
  match state with
  | Some (Some s) =>
      _ ← nrm_hash_foreach (st_actuators s) (fun _ a => _ ← nrm_actuator_destroy (Some (Some a)); Ok tt) tt;
      _ ← nrm_hash_foreach (st_sensors s) (fun _ a => _ ← nrm_sensor_destroy (Some (Some a)); Ok tt) tt;
      _ ← nrm_hash_foreach (st_slices s) (fun _ a => _ ← nrm_slice_destroy (Some (Some a)); Ok tt) tt;
      _ ← nrm_hash_foreach (st_scopes s) (fun _ a => _ ← nrm_scope_destroy (Some a); Ok tt) tt;
      Ok None
  | _ => Ok None
  end.

(** ** The invariant of a state *)

Definition discrete_or_continuous (a : nrm_actuator) : Prop :=
  match a_u (a_data a) with
  | U_choices _ => a_type (a_data a) = NRM_ACTUATOR_TYPE_DISCRETE /\
                   a_ops a = nrm_actuator_discrete_ops
  | U_limits _ _ => a_type (a_data a) = NRM_ACTUATOR_TYPE_CONTINUOUS /\
                    a_ops a = nrm_actuator_continuous_ops
  end.

(** Every object is under its own name, and every actuator has a client and the
    functions of its type. *)
Definition state_ok (st : nrm_state) : Prop :=
  (hash_wf (st_actuators st) /\ hash_wf (st_scopes st) /\ hash_wf (st_sensors st) /\
   hash_wf (st_slices st)) /\
  Forall (fun e => a_uuid (a_data (ptr e)) = Some (uuid e) /\ is_Some (a_clientid (a_data (ptr e)))
                   /\ discrete_or_continuous (ptr e)) (st_actuators st) /\
  Forall (fun e => scope_uuid (ptr e) = Some (uuid e) /\ scope_wf (ptr e)) (st_scopes st) /\
  Forall (fun e => sensor_uuid (ptr e) = Some (uuid e)) (st_sensors st) /\
  Forall (fun e => slice_uuid (ptr e) = Some (uuid e)) (st_slices st).

Lemma state_ok_empty : state_ok (State [] [] [] []).
Proof. repeat split; constructor. Qed.

(** Adding to a table of the state keeps its part of the invariant. *)
Lemma hash_add_ok {A} (P : nrm_hash_s A -> Prop) table u p :
  hash_wf table -> Forall P table -> P (Elem u p) ->
  hash_wf (nrm_hash_add false table (Some u) p).2 /\
  Forall P (nrm_hash_add false table (Some u) p).2.
Proof.
  intros Hwf Hf Hp. unfold nrm_hash_add. change (key_of (Some u)) with u.
  destruct (HASH_FIND table u) eqn:E; [done|]. cbn [nrm_hash_create_element snd].
  unfold HASH_ADD. apply HASH_FIND_None in E. split.
  - unfold hash_wf. rewrite fmap_app. apply NoDup_app. split; [done|]. split; [|apply NoDup_singleton].
    intros x Hx Hx'. apply list_elem_of_singleton in Hx'. cbn in Hx'. by subst x.
  - apply Forall_app. split; [done|]. by constructor.
Qed.

Lemma list_table_values {A} (table : nrm_hash A) vec : list_table table vec = Ok (vec ++ (ptr <$> table)).
Proof.
  unfold list_table. rewrite foreach_hash_mfold. revert vec.
  induction table as [|e table IH]; intros vec; cbn; [by rewrite app_nil_r|].
  rewrite IH. by rewrite <- app_assoc.
Qed.

(** Destroying a state that satisfies the invariant is defined. *)
Lemma mfold_unit {A} (f : A -> outcome unit) (l : list A) :
  Forall (fun x => f x = Ok tt) l -> mfold (fun _ x => f x) tt l = Ok tt.
Proof. induction 1 as [|x l Hx _ IH]; [done|]. cbn. by rewrite Hx. Qed.

Lemma state_destroy_ok st : state_ok st -> nrm_state_destroy (Some (Some st)) = Ok None.
Proof.
  intros (_ & Ha & Hc & Hs & Hl). unfold nrm_state_destroy. rewrite !foreach_hash_mfold.
  rewrite !mfold_unit; [done|..]; apply Forall_fmap.
  - eapply Forall_impl; [exact Ha|]. intros e (Hu & _ & Hd). unfold discrete_or_continuous in Hd. cbn.
    destruct (a_u (a_data (ptr e))) eqn:E; destruct Hd as [_ ->];
      [unfold nrm_actuator_discrete_destroy, choices_of|unfold nrm_actuator_continuous_destroy];
      rewrite Hu; cbn; by rewrite ?E.
  - eapply Forall_impl; [exact Hs|]. intros e Hu. cbn. by rewrite Hu.
  - eapply Forall_impl; [exact Hl|]. intros e Hu. cbn. by rewrite Hu.
  - eapply Forall_impl; [exact Hc|]. intros e [Hu _]. cbn. unfold nrm_scope_destroy. cbn. by rewrite Hu.
Qed.
