(* ===== verification/Roles.v ===== *)
(** * Roles (src/roles/role.c, src/roles/controller.c, src/roles/client.c)

    A role is the side of the network a process is on. Its owner talks over a
    pipe to a broker, a thread of its own that owns the sockets. A pipe is the
    list of the control messages it holds, a socket the list of the frames sent
    through it; each handler of a broker is one step of its loop. *)

From S2P Require Import Prelude Vectors Doubles Hashes Bitmaps Json Timers Scopes Actuators.
From S2P Require Import Events Messages MsgJson.

(** ** role.c *)

(** [struct nrm_role_ops] over the data [D] of a role, less [destroy]; [F] is a
    callback with its argument. A missing function is NULL. *)
Record nrm_role_ops (D F : Type) := RoleOps {
  op_send : option (D -> option nrm_msg -> option string -> outcome (Z * D));
  op_recv : option (D -> outcome (option nrm_msg * option string * D));
  op_pub : option (D -> option string -> option nrm_msg -> outcome (Z * D));
  op_register_sub_cb : option (D -> option F -> outcome (Z * D));
  op_sub : option (D -> option string -> outcome (Z * D));
  op_register_cmd_cb : option (D -> option F -> outcome (Z * D));
  op_destroy : D -> outcome D
}.
Arguments RoleOps {_ _} _ _ _ _ _ _ _.
Arguments op_send {_ _} _.
Arguments op_recv {_ _} _.
Arguments op_pub {_ _} _.
Arguments op_register_sub_cb {_ _} _.
Arguments op_sub {_ _} _.
Arguments op_register_cmd_cb {_ _} _.
Arguments op_destroy {_ _} _.

(** [struct nrm_role_s]. *)
Record nrm_role (D F : Type) := Role { r_ops : option (nrm_role_ops D F); r_data : D }.
Arguments Role {_ _} _ _.
Arguments r_ops {_ _} _.
Arguments r_data {_ _} _.

Section role.
Context {D F : Type}.
Implicit Types role : option (nrm_role D F).

(** The function a role has for an operation, unless something is NULL. *)
Definition role_op {X} role (get : nrm_role_ops D F -> option X) : option (X * D) :=
  r ← role; ops ← r_ops r; f ← get ops; Some (f, r_data r).

(** The role with its data replaced. *)
Definition with_data role (d : D) : option (nrm_role D F) := (fun r => Role (r_ops r) d) <$> role.

Definition nrm_role_send role (msg : option nrm_msg) (to : option string)
    : outcome (Z * option (nrm_role D F)) :=
  match role_op role op_send with
  | None => Ok (-1, role)
  | Some (f, d) => '(rc, d) ← f d msg to; Ok (rc, with_data role d)
  end.

Definition nrm_role_recv role
    : outcome (option nrm_msg * option string * option (nrm_role D F)) :=
  match role_op role op_recv with
  | None => Ok (None, None, role)
  | Some (f, d) => '(m, from, d) ← f d; Ok (m, from, with_data role d)
  end.

Definition nrm_role_pub role (topic : option string) (msg : option nrm_msg)
    : outcome (Z * option (nrm_role D F)) :=
  match role_op role op_pub with
  | None => Ok (-1, role)
  | Some (f, d) => '(rc, d) ← f d topic msg; Ok (rc, with_data role d)
  end.

Definition nrm_role_register_sub_cb role (fn : option F) : outcome (Z * option (nrm_role D F)) :=
  match role_op role op_register_sub_cb with
  | None => Ok (- NRM_ENOTSUP, role)
  | Some (f, d) => '(rc, d) ← f d fn; Ok (rc, with_data role d)
  end.

Definition nrm_role_register_cmd_cb role (fn : option F) : outcome (Z * option (nrm_role D F)) :=
  match role_op role op_register_cmd_cb with
  | None => Ok (- NRM_ENOTSUP, role)
  | Some (f, d) => '(rc, d) ← f d fn; Ok (rc, with_data role d)
  end.

Definition nrm_role_sub role (topic : option string) : outcome (Z * option (nrm_role D F)) :=
  match role_op role op_sub with
  | None => Ok (- NRM_ENOTSUP, role)
  | Some (f, d) => '(rc, d) ← f d topic; Ok (rc, with_data role d)
  end.

(** The data after [destroy], which releases the role; NULL is left alone. *)
Definition nrm_role_destroy role : outcome (option D) :=
  match role with
  | None => Ok None
  | Some r => ops ← deref (r_ops r); d ← op_destroy ops (r_data r); Ok (Some d)
  end.
End role.

(** ** The pipe *)

(** One side of a pair of pipes: what it wrote and what it has to read. *)
Record pipe := Pipe { p_out : list ctrlmsg; p_in : list ctrlmsg }.

Definition pipe_send (p : pipe) (c : ctrlmsg) : pipe := Pipe (p_out p ++ [c]) (p_in p).

(** [zsock_recv] waits until there is a message. *)
Definition pipe_recv (p : pipe) : outcome (ctrlmsg * pipe) :=
  match p_in p with
  | [] => Diverges
  | c :: rest => Ok (c, Pipe (p_out p) rest)
  end.

(** [zactor_destroy] asks the actor to terminate and waits for it. *)
Definition zactor_destroy (p : pipe) : pipe := pipe_send p (Ctrlmsg "$TERM" V_null V_null).

(** Both [recv] operations: the assertion on the type comes after the message
    has been taken from the pipe. *)
Definition pipe_recvmsg (p : pipe) : outcome (option nrm_msg * option string * pipe) :=
  '(c, p) ← pipe_recv p;
  '(msg, msgtype, from) ← nrm_ctrlmsg_recvmsg c;
  _ ← c_assert (msgtype =? NRM_CTRLMSG_TYPE_RECV);
  Ok (msg, from, p).

(** ** controller.c *)

(** The data of a controller role is its end of the pipe. *)
Definition nrm_role_controller_send (data : pipe) (msg : option nrm_msg) (to : option string)
    : outcome (Z * pipe) :=
  c ← nrm_ctrlmsg_sendmsg NRM_CTRLMSG_TYPE_SEND msg to; Ok (0, pipe_send data c).
Definition nrm_role_controller_recv (data : pipe)
    : outcome (option nrm_msg * option string * pipe) := pipe_recvmsg data.
Definition nrm_role_controller_pub (data : pipe) (topic : option string) (msg : option nrm_msg)
    : outcome (Z * pipe) :=
  _ ← deref topic;
  c ← nrm_ctrlmsg_pub NRM_CTRLMSG_TYPE_PUB topic msg; Ok (0, pipe_send data c).
Definition nrm_role_controller_destroy (data : pipe) : outcome pipe := Ok (zactor_destroy data).

(** [zloop_reader] adds a handler for the pipe of the broker to those of the loop. *)
Definition nrm_role_controller_register_recvcallback {D F H} (role : option (nrm_role D F))
    (readers : list (D * H)) (fn : H) : outcome (Z * list (D * H)) :=
  r ← deref role; Ok (0, readers ++ [(r_data r, fn)]).

Definition nrm_role_controller_ops (F : Type) : nrm_role_ops pipe F :=
  RoleOps (Some nrm_role_controller_send) (Some nrm_role_controller_recv)
    (Some nrm_role_controller_pub) None None None nrm_role_controller_destroy.

(** [struct nrm_role_controller_broker_s]: what it wrote to the pipe and sent
    through its two sockets. *)
Record nrm_role_controller_broker := ControllerBroker {
  cb_pipe : list ctrlmsg; cb_rpc : list (list string); cb_pub : list (list string) }.

(** Setting the broker up: [None] when its allocation failed and it signalled 1.
    The results of the network calls are asserted. *)
Definition nrm_controller_broker_fn (oom : bool) (rpc_init rpc_bind pub_init pub_bind : Z)
    (loop_null : bool) : outcome (option nrm_role_controller_broker) :=
  if oom then Ok None
  else
    _ ← c_assert (rpc_init =? 0);
    _ ← c_assert (rpc_bind =? 0);
    _ ← c_assert (pub_init =? 0);
    _ ← c_assert (pub_bind =? 0);
    _ ← c_assert (negb loop_null);
    Ok (Some (ControllerBroker [] [] [])).

(** NULL when an allocation fails, that of the role or of the actor. *)
Definition nrm_role_controller_create_fromparams {F} (oom actor_null : bool)
    : option (nrm_role pipe F) :=
  if oom then None
  else if actor_null then None
  else Some (Role (Some (nrm_role_controller_ops F)) (Pipe [] [])).

Section controller_broker.
Context `{Protobuf}.

Definition nrm_controller_broker_rpc_handler (self : nrm_role_controller_broker)
    (frames : list string) : outcome (Z * nrm_role_controller_broker) :=
  '(msg, uuid) ← nrm_msg_recvfrom frames;
  c ← nrm_ctrlmsg_sendmsg NRM_CTRLMSG_TYPE_RECV msg (Some uuid);
  Ok (0, ControllerBroker (cb_pipe self ++ [c]) (cb_rpc self) (cb_pub self)).

Definition nrm_controller_broker_pipe_handler (self : nrm_role_controller_broker) (c : ctrlmsg)
    : outcome (Z * nrm_role_controller_broker) :=
  let '(msg_type, p, q) := nrm_ctrlmsg__recv c in
  if msg_type =? NRM_CTRLMSG_TYPE_TERM then Ok (-1, self)
  else if msg_type =? NRM_CTRLMSG_TYPE_SEND then
    '(msg, uuid) ← NRM_CTRLMSG_2SENDTO p q;
    u ← deref uuid;
    m ← deref msg;
    let self := ControllerBroker (cb_pipe self) (cb_rpc self ++ [nrm_msg_sendto m u]) (cb_pub self) in
    _ ← nrm_msg_destroy_created (Some msg);
    Ok (0, self)
  else if msg_type =? NRM_CTRLMSG_TYPE_PUB then
    '(s, msg) ← NRM_CTRLMSG_2PUB p q;
    t ← deref s;
    m ← deref msg;
    let self := ControllerBroker (cb_pipe self) (cb_rpc self) (cb_pub self ++ [nrm_msg_pub t m]) in
    _ ← nrm_msg_destroy_created (Some msg);
    Ok (0, self)
  else Ok (0, self).
End controller_broker.

(** ** client.c *)

(** [struct nrm_role_client_s]; the broker has pointers to the two callbacks. *)
Record nrm_role_client (F : Type) := RoleClient {
  cl_pipe : pipe; cl_sub_cb : option F; cl_cmd_cb : option F }.
Arguments RoleClient {_} _ _ _.
Arguments cl_pipe {_} _.
Arguments cl_sub_cb {_} _.
Arguments cl_cmd_cb {_} _.

Section client_role.
Context {F : Type}.
Implicit Types data : nrm_role_client F.

Definition with_pipe data (p : pipe) : nrm_role_client F :=
  RoleClient p (cl_sub_cb data) (cl_cmd_cb data).

Definition nrm_role_client_send data (msg : option nrm_msg) (to : option string)
    : outcome (Z * nrm_role_client F) :=
  c ← nrm_ctrlmsg_sendmsg NRM_CTRLMSG_TYPE_SEND msg to;
  Ok (0, with_pipe data (pipe_send (cl_pipe data) c)).
Definition nrm_role_client_recv data
    : outcome (option nrm_msg * option string * nrm_role_client F) :=
  '(m, from, p) ← pipe_recvmsg (cl_pipe data); Ok (m, from, with_pipe data p).
Definition nrm_role_client_register_sub_cb data (fn : option F) : outcome (Z * nrm_role_client F) :=
  Ok (0, RoleClient (cl_pipe data) fn (cl_cmd_cb data)).
Definition nrm_role_client_register_cmd_cb data (fn : option F) : outcome (Z * nrm_role_client F) :=
  Ok (0, RoleClient (cl_pipe data) (cl_sub_cb data) fn).
Definition nrm_role_client_sub data (topic : option string) : outcome (Z * nrm_role_client F) :=
  c ← nrm_ctrlmsg_sub NRM_CTRLMSG_TYPE_SUB topic;
  Ok (0, with_pipe data (pipe_send (cl_pipe data) c)).
Definition nrm_role_client_destroy data : outcome (nrm_role_client F) :=
  Ok (with_pipe data (zactor_destroy (cl_pipe data))).

Definition nrm_role_client_ops : nrm_role_ops (nrm_role_client F) F :=
  RoleOps (Some nrm_role_client_send) (Some nrm_role_client_recv) None
    (Some nrm_role_client_register_sub_cb) (Some nrm_role_client_sub)
    (Some nrm_role_client_register_cmd_cb) nrm_role_client_destroy.
End client_role.

(** [struct nrm_client_broker_s]: the pipe, the frames sent and the topics it has
    subscribed to. *)
Record nrm_client_broker := ClientBroker {
  kb_pipe : list ctrlmsg; kb_rpc : list (list string); kb_topics : list string }.

(** Setting the broker up. The list is what it signals to its creator: 0 when the
    thread runs, then the result, in a byte. The socket of an init that failed is
    not created. *)
Definition signal (err : Z) : Z := err mod 256.
Definition nrm_client_broker_fn (oom : bool) (rpc_init rpc_connect sub_init sub_connect : Z)
    (loop_null : bool) : list Z * option nrm_client_broker :=
  if oom then ([0; signal NRM_ENOMEM], None)
  else if negb (rpc_init =? 0) then ([0; signal (- rpc_init)], None)
  else if negb (rpc_connect =? 0) then ([0; signal (- rpc_connect)], None)
  else if negb (sub_init =? 0) then ([0; signal (- sub_init)], None)
  else if negb (sub_connect =? 0) then ([0; signal (- sub_connect)], None)
  else if loop_null then ([0; signal NRM_FAILURE], None)
  else ([0; signal 0], Some (ClientBroker [] [] [])).

(** [zactor_new] takes the first signal, [zsock_wait] the second one. *)
Definition nrm_role_client_create_fromparams {F} (oom actor_null : bool) (signals : list Z)
    : outcome (option (nrm_role (nrm_role_client F) F)) :=
  if oom then Ok None
  else if actor_null then Ok None
  else match signals with
       | _ :: err :: _ =>
           if negb (err =? 0) then Ok None
           else Ok (Some (Role (Some nrm_role_client_ops) (RoleClient (Pipe [] []) None None)))
       | _ => Diverges
       end.

Section client_broker.
Context `{Protobuf} {W : Type}.

(** A callback with its argument changes the world [W]; its result is ignored. *)
Abbreviation callback := (option nrm_msg -> W -> outcome W) (only parsing).

Definition nrm_client_broker_pipe_handler (self : nrm_client_broker) (c : ctrlmsg)
    : outcome (Z * nrm_client_broker) :=
  let '(msg_type, p, q) := nrm_ctrlmsg__recv c in
  if msg_type =? NRM_CTRLMSG_TYPE_SEND then
    msg ← NRM_CTRLMSG_2SEND p q;
    m ← deref msg;
    let self := ClientBroker (kb_pipe self) (kb_rpc self ++ [nrm_msg_send m]) (kb_topics self) in
    _ ← nrm_msg_destroy_created (Some msg);
    Ok (0, self)
  else if msg_type =? NRM_CTRLMSG_TYPE_SUB then
    s ← NRM_CTRLMSG_2SUB p q;
    s ← deref s;
    Ok (0, ClientBroker (kb_pipe self) (kb_rpc self) (kb_topics self ++ [s]))
  else if msg_type =? NRM_CTRLMSG_TYPE_TERM then Ok (-1, self)
  else Ok (0, self).

Definition nrm_client_broker_rpc_handler (cmd_cb : option callback) (self : nrm_client_broker)
    (w : W) (frames : list string) : outcome (Z * nrm_client_broker * W) :=
  msg ← nrm_msg_recv frames;
  m ← deref msg;
  if negb (nrm_msg_is_reply m =? 0) then
    c ← nrm_ctrlmsg_sendmsg NRM_CTRLMSG_TYPE_RECV msg None;
    Ok (0, ClientBroker (kb_pipe self ++ [c]) (kb_rpc self) (kb_topics self), w)
  else
    w ← match cmd_cb with Some fn => fn msg w | None => Ok w end;
    Ok (0, self, w).

Definition nrm_client_broker_sub_handler (sub_cb : option callback) (self : nrm_client_broker)
    (w : W) (frames : list string) : outcome (Z * nrm_client_broker * W) :=
  '(msg, topic) ← nrm_msg_sub frames;
  w ← match sub_cb with Some fn => fn msg w | None => Ok w end;
  Ok (0, self, w).
End client_broker.

(** ** Properties *)

Lemma recvmsg_sendmsg type msg to c :
  nrm_ctrlmsg_sendmsg type msg to = Ok c -> type = NRM_CTRLMSG_TYPE_RECV ->
  nrm_ctrlmsg_recvmsg c = Ok (msg, NRM_CTRLMSG_TYPE_RECV, to).
Proof. intros Hc ->. injection Hc as <-. by destruct msg, to. Qed.

Lemma pipe_recvmsg_spec out msg to c rest :
  nrm_ctrlmsg_sendmsg NRM_CTRLMSG_TYPE_RECV msg to = Ok c ->
  pipe_recvmsg (Pipe out (c :: rest)) = Ok (msg, to, Pipe out rest).
Proof.
  intros Hc. unfold pipe_recvmsg, pipe_recv. cbn [p_in p_out mbind outcome_bind].
  by rewrite (recvmsg_sendmsg _ _ _ _ Hc).
Qed.

Section properties.
Context `{Protobuf}.

(** The broker of a client sends what its owner sends, with no identity. *)
Lemma client_broker_send kb m to c :
  msg_ok m -> nrm_ctrlmsg_sendmsg NRM_CTRLMSG_TYPE_SEND (Some m) to = Ok c ->
  nrm_client_broker_pipe_handler kb c =
  Ok (0, ClientBroker (kb_pipe kb) (kb_rpc kb ++ [nrm_msg_send m]) (kb_topics kb)).
Proof.
  intros Hm [= <-]. unfold nrm_client_broker_pipe_handler.
  cbn -[nrm_msg_send nrm_msg_destroy_created]. by rewrite msg_destroy_ok.
Qed.

(** The broker of a controller sends a message to the identity it is for. *)
Lemma controller_broker_send cb m id c :
  msg_ok m -> nrm_ctrlmsg_sendmsg NRM_CTRLMSG_TYPE_SEND (Some m) (Some id) = Ok c ->
  nrm_controller_broker_pipe_handler cb c =
  Ok (0, ControllerBroker (cb_pipe cb) (cb_rpc cb ++ [id :: nrm_msg_send m]) (cb_pub cb)).
Proof.
  intros Hm [= <-]. unfold nrm_controller_broker_pipe_handler.
  cbn -[nrm_msg_destroy_created]. by rewrite msg_destroy_ok.
Qed.

(** A request goes from a client to the controller. What [nrm_role_send]
    writes to the pipe of a client, its broker sends as frames; with the client's
    identity in front, as a router socket receives them, the broker of the
    controller hands them to [nrm_role_recv] of the controller, which returns
    the message and the identity. *)
Theorem request_reaches_controller {F} (data : nrm_role_client F) kb cb out rest m id :
  msg_ok m ->
  exists c kb' frames c' cb',
    nrm_role_send (Some (Role (Some nrm_role_client_ops) data)) (Some m) None
    = Ok (0, Some (Role (Some nrm_role_client_ops) (with_pipe data (pipe_send (cl_pipe data) c)))) /\
    nrm_client_broker_pipe_handler kb c = Ok (0, kb') /\ kb_rpc kb' = kb_rpc kb ++ [frames] /\
    nrm_controller_broker_rpc_handler cb (id :: frames) = Ok (0, cb') /\
    cb_pipe cb' = cb_pipe cb ++ [c'] /\
    nrm_role_recv (Some (Role (Some (nrm_role_controller_ops F)) (Pipe out (c' :: rest))))
    = Ok (Some (norm_msg m), Some id,
          Some (Role (Some (nrm_role_controller_ops F)) (Pipe out rest))).
Proof.
  intros Hm. set (c' := Ctrlmsg "RECV" (V_msg (norm_msg m)) (V_uuid id)).
  exists (Ctrlmsg "SEND" (V_msg m) V_null),
    (ClientBroker (kb_pipe kb) (kb_rpc kb ++ [nrm_msg_send m]) (kb_topics kb)), (nrm_msg_send m), c',
    (ControllerBroker (cb_pipe cb ++ [c']) (cb_rpc cb) (cb_pub cb)).
  split; [reflexivity|]. split; [by apply (client_broker_send kb m None)|]. split; [reflexivity|].
  split; [|split; [reflexivity|]].
  - unfold nrm_controller_broker_rpc_handler, nrm_msg_recvfrom, nrm_msg_pop_packed_frames. cbn.
    rewrite unpack_pack. cbn. reflexivity.
  - unfold nrm_role_recv. cbn [role_op r_ops mbind option_bind nrm_role_controller_ops op_recv r_data].
    unfold nrm_role_controller_recv. by rewrite (pipe_recvmsg_spec _ (Some (norm_msg m)) (Some id)).
Qed.

(** A message goes from the controller to the client it is for. The frames
    that the controller's broker sends start with the identity, by which a router
    socket chooses the peer and which it removes; the client's broker hands a
    reply to [nrm_role_recv] and a command to the registered callback. *)
Theorem reply_reaches_client {F W} (data : pipe) kb cb out rest m id
    (fn : option nrm_msg -> W -> outcome W) (w : W) :
  msg_ok m ->
  exists c cb' frames,
    nrm_role_send (Some (Role (Some (nrm_role_controller_ops F)) data)) (Some m) (Some id)
    = Ok (0, Some (Role (Some (nrm_role_controller_ops F)) (pipe_send data c))) /\
    nrm_controller_broker_pipe_handler cb c = Ok (0, cb') /\
    cb_rpc cb' = cb_rpc cb ++ [id :: frames] /\
    (if nrm_msg_is_reply m =? 0
     then nrm_client_broker_rpc_handler (Some fn) kb w frames
          = w' ← fn (Some (norm_msg m)) w; Ok (0, kb, w')
     else exists c' kb',
       nrm_client_broker_rpc_handler (Some fn) kb w frames = Ok (0, kb', w) /\
       kb_pipe kb' = kb_pipe kb ++ [c'] /\
       forall sub cmd,
         nrm_role_recv (Some (Role (Some (@nrm_role_client_ops F))
                               (RoleClient (Pipe out (c' :: rest)) sub cmd)))
         = Ok (Some (norm_msg m), None,
               Some (Role (Some nrm_role_client_ops) (RoleClient (Pipe out rest) sub cmd)))).
Proof.
  intros Hm. exists (Ctrlmsg "SEND" (V_msg m) (V_uuid id)),
    (ControllerBroker (cb_pipe cb) (cb_rpc cb ++ [id :: nrm_msg_send m]) (cb_pub cb)), (nrm_msg_send m).
  split; [reflexivity|]. split; [by apply controller_broker_send|]. split; [reflexivity|].
  assert (Hrecv : nrm_msg_recv (nrm_msg_send m) = Ok (Some (norm_msg m))).
  { unfold nrm_msg_recv, nrm_msg_pop_packed_frames. cbn. by rewrite unpack_pack. }
  assert (Hreply : nrm_msg_is_reply (norm_msg m) = nrm_msg_is_reply m) by done.
  unfold nrm_client_broker_rpc_handler. rewrite Hrecv. cbn [mbind outcome_bind deref]. rewrite Hreply.
  destruct (nrm_msg_is_reply m =? 0); cbn [negb]; [by destruct (fn _ w)|].
  set (c' := Ctrlmsg "RECV" (V_msg (norm_msg m)) V_null).
  exists c', (ClientBroker (kb_pipe kb ++ [c']) (kb_rpc kb) (kb_topics kb)).
  split; [reflexivity|]. split; [reflexivity|]. intros sub cmd.
  unfold nrm_role_recv. cbn [role_op r_ops mbind option_bind nrm_role_client_ops op_recv r_data].
  unfold nrm_role_client_recv. cbn [cl_pipe].
  by rewrite (pipe_recvmsg_spec _ (Some (norm_msg m)) None).
Qed.

(** What the controller publishes, a subscribed client's callback gets: the
    frames of its broker start with the topic, and the message is the one that
    was published. *)
Lemma published_reaches_subscriber {F W} (data : pipe) kb cb m topic
    (fn : option nrm_msg -> W -> outcome W) (w : W) :
  msg_ok m ->
  exists c cb' frames,
    nrm_role_pub (Some (Role (Some (nrm_role_controller_ops F)) data)) (Some topic) (Some m)
    = Ok (0, Some (Role (Some (nrm_role_controller_ops F)) (pipe_send data c))) /\
    nrm_controller_broker_pipe_handler cb c = Ok (0, cb') /\
    cb_pub cb' = cb_pub cb ++ [topic :: frames] /\ cb_rpc cb' = cb_rpc cb /\
    nrm_client_broker_sub_handler (Some fn) kb w (topic :: frames)
    = w' ← fn (Some (norm_msg m)) w; Ok (0, kb, w').
Proof.
  intros Hm. exists (Ctrlmsg "PUB" (V_string topic) (V_msg m)),
    (ControllerBroker (cb_pipe cb) (cb_rpc cb) (cb_pub cb ++ [topic :: nrm_msg_send m])),
    (nrm_msg_send m). split; [reflexivity|].
  split; [|split; [reflexivity|split; [reflexivity|]]].
  - unfold nrm_controller_broker_pipe_handler. cbn -[nrm_msg_destroy_created].
    rewrite msg_destroy_ok by done. reflexivity.
  - unfold nrm_client_broker_sub_handler, nrm_msg_sub, nrm_msg_pop_packed_frames. cbn.
    rewrite unpack_pack. cbn. by destruct (fn _ w).
Qed.
End properties.

(** [nrm_role_client_create_fromparams] gives a role exactly when the
    allocation, both sockets, both connections and the loop succeeded. The codes
    of the network calls are not zero in their low byte. *)
Theorem client_role_created_iff {F} oom broker_oom rpc_init rpc_connect sub_init sub_connect
    loop_null :
  Forall (fun e => e = 0 \/ signal (- e) <> 0) [rpc_init; rpc_connect; sub_init; sub_connect] ->
  exists r, @nrm_role_client_create_fromparams F oom false
              (fst (nrm_client_broker_fn broker_oom rpc_init rpc_connect sub_init sub_connect
                      loop_null)) = Ok r /\
    (is_Some r <-> oom = false /\ broker_oom = false /\ loop_null = false /\
       rpc_init = 0 /\ rpc_connect = 0 /\ sub_init = 0 /\ sub_connect = 0).
Proof.
  intros Hf. rewrite !Forall_cons in Hf. destruct Hf as (H1 & H2 & H3 & H4 & _).
  unfold nrm_role_client_create_fromparams, nrm_client_broker_fn.
  destruct oom; [eexists; split; [reflexivity|]; split; [by intros [? [=]]|naive_solver]|].
  assert (Hno : forall e, e <> 0 -> e = 0 \/ signal (- e) <> 0 -> (signal (- e) =? 0) = false).
  { intros e He [?|Hs]; [done|]. by apply Z.eqb_neq. }
  destruct broker_oom; [eexists; split; [reflexivity|]; split; [by intros [? [=]]|naive_solver]|].
  destruct (Z.eqb_spec rpc_init 0) as [E1|E1]; cbn [negb fst];
    [|rewrite Hno by done; eexists; split; [reflexivity|]; split; [by intros [? [=]]|naive_solver]].
  destruct (Z.eqb_spec rpc_connect 0) as [E2|E2]; cbn [negb fst];
    [|rewrite Hno by done; eexists; split; [reflexivity|]; split; [by intros [? [=]]|naive_solver]].
  destruct (Z.eqb_spec sub_init 0) as [E3|E3]; cbn [negb fst];
    [|rewrite Hno by done; eexists; split; [reflexivity|]; split; [by intros [? [=]]|naive_solver]].
  destruct (Z.eqb_spec sub_connect 0) as [E4|E4]; cbn [negb fst];
    [|rewrite Hno by done; eexists; split; [reflexivity|]; split; [by intros [? [=]]|naive_solver]].
  destruct loop_null; (eexists; split; [reflexivity|]); [split; [by intros [? [=]]|naive_solver]|].
  split; [done|]. intros _. eexists; reflexivity.
Qed.

(** ** Witnesses *)

Lemma request_reaches_controller_witness :
  let m := Msg NRM_MSG_TYPE_TICK D_none in
  let data := RoleClient (Pipe [] []) (@None unit) None in
  exists c kb' frames c' cb',
    nrm_role_send (Some (Role (Some nrm_role_client_ops) data)) (Some m) None
    = Ok (0, Some (Role (Some nrm_role_client_ops) (with_pipe data (pipe_send (cl_pipe data) c)))) /\
    nrm_client_broker_pipe_handler (ClientBroker [] [] []) c = Ok (0, kb') /\ kb_rpc kb' = [frames] /\
    nrm_controller_broker_rpc_handler (ControllerBroker [] [] []) ("id"%string :: frames) = Ok (0, cb') /\
    cb_pipe cb' = [c'] /\
    nrm_role_recv (Some (Role (Some (nrm_role_controller_ops unit)) (Pipe [] [c'])))
    = Ok (Some (norm_msg m), Some "id"%string,
          Some (Role (Some (nrm_role_controller_ops unit)) (Pipe [] []))).
Proof.
  intros m data. apply (request_reaches_controller data (ClientBroker [] [] [])
    (ControllerBroker [] [] []) [] [] m "id"). right. right. reflexivity.
Defined.

Lemma reply_reaches_client_witness :
  let m := Msg NRM_MSG_TYPE_ACK D_none in
  exists c cb' frames,
    nrm_role_send (Some (Role (Some (nrm_role_controller_ops unit)) (Pipe [] []))) (Some m)
      (Some "id"%string)
    = Ok (0, Some (Role (Some (nrm_role_controller_ops unit)) (Pipe [c] []))) /\
    nrm_controller_broker_pipe_handler (ControllerBroker [] [] []) c = Ok (0, cb') /\
    cb_rpc cb' = ["id"%string :: frames] /\
    exists c' kb',
      nrm_client_broker_rpc_handler (Some (fun _ (w : nat) => Ok (S w))) (ClientBroker [] [] []) 0%nat frames
      = Ok (0, kb', 0%nat) /\
      kb_pipe kb' = [c'] /\
      forall sub cmd,
        nrm_role_recv (Some (Role (Some (@nrm_role_client_ops unit))
                              (RoleClient (Pipe [] [c']) sub cmd)))
        = Ok (Some (norm_msg m), None,
              Some (Role (Some nrm_role_client_ops) (RoleClient (Pipe [] []) sub cmd))).
Proof.
  intros m. apply (@reply_reaches_client _ unit nat (Pipe [] []) (ClientBroker [] [] [])
    (ControllerBroker [] [] []) [] [] m "id" (fun _ w => Ok (S w)) 0%nat). left. reflexivity.
Defined.

Lemma published_reaches_subscriber_witness :
  let m := Msg NRM_MSG_TYPE_EVENTS (D_events []) in
  exists c cb' frames,
    nrm_role_pub (Some (Role (Some (nrm_role_controller_ops unit)) (Pipe [] []))) (Some "t"%string)
      (Some m)
    = Ok (0, Some (Role (Some (nrm_role_controller_ops unit)) (Pipe [c] []))) /\
    nrm_controller_broker_pipe_handler (ControllerBroker [] [] []) c = Ok (0, cb') /\
    cb_pub cb' = ["t"%string :: frames] /\ cb_rpc cb' = [] /\
    nrm_client_broker_sub_handler (Some (fun _ w => Ok (S w))) (ClientBroker [] [] []) 0%nat
      ("t"%string :: frames) = Ok (0, ClientBroker [] [] [], 1%nat).
Proof.
  intros m. apply (@published_reaches_subscriber _ unit nat (Pipe [] []) (ClientBroker [] [] [])
    (ControllerBroker [] [] []) m "t" (fun _ w => Ok (S w)) 0%nat). split; [reflexivity|constructor].
Defined.

Lemma client_role_created_iff_witness :
  exists r, @nrm_role_client_create_fromparams unit false false
              (fst (nrm_client_broker_fn false 0 (-1) 0 0 false)) = Ok r /\
    (is_Some r <-> false = false /\ false = false /\ false = false /\
       0 = 0 /\ -1 = 0 /\ 0 = 0 /\ 0 = 0).
Proof.
  apply (client_role_created_iff false false 0 (-1) 0 0 false).
  repeat apply Forall_cons_2; [by left|right; vm_compute; discriminate|by left|by left|apply Forall_nil_2].
Defined.
