(* ===== verification/Server.v ===== *)
(** * The server (src/server.c)

    A server answers the requests of its clients on a state, and hands events,
    actuations, ticks, signals and timers to the callbacks of its user. Every
    handler is a function from the server to the server; what it sends is on the
    pipe of its role. Log calls are left out. *)

From Stdlib Require Import Ascii.
From S2P Require Import Prelude Vectors Doubles Hashes Bitmaps Json Timers Scopes Actuators.
From S2P Require Import Events Messages MsgJson States Roles Loops.

(** ** Data *)

(** [struct nrm_server_s] less the callbacks; [s_timers] are the delays of the
    timers of its loop in milliseconds, and [s_user] what the callbacks work on. *)
Record nrm_server (U : Type) := Server {
  s_role : option (nrm_role pipe unit);
  s_state : nrm_state;
  s_timers : list Z;
  s_user : U
}.
Arguments Server {_} _ _ _ _.
Arguments s_role {_} _.
Arguments s_state {_} _.
Arguments s_timers {_} _.
Arguments s_user {_} _.

(** [nrm_server_user_callbacks_t]; NULL is [None]. The actuator that [cb_actuate]
    gets is the one in the state. *)
Record nrm_server_user_callbacks (U : Type) := Callbacks {
  cb_event : option (nrm_server U -> string -> option nrm_scope -> nrm_time -> double ->
                     outcome (Z * nrm_server U));
  cb_actuate : option (nrm_server U -> nrm_actuator -> double -> outcome (Z * nrm_server U));
  cb_signal : option (nrm_server U -> Z -> outcome (Z * nrm_server U));
  cb_timer : option (nrm_server U -> outcome (Z * nrm_server U));
  cb_tick : option (nrm_server U -> outcome (Z * nrm_server U))
}.
Arguments Callbacks {_} _ _ _ _ _.
Arguments cb_event {_} _.
Arguments cb_actuate {_} _.
Arguments cb_signal {_} _.
Arguments cb_timer {_} _.
Arguments cb_tick {_} _.

Section server.
Context `{Qsort, Zloop} {U : Type}.
Implicit Types self : nrm_server U.

(** [at_uuid] is the memory that [nrm_hash_remove] reads (Hashes). *)
Variable callbacks : nrm_server_user_callbacks U.
Variable at_uuid : nat -> string.

Definition with_role self (r : option (nrm_role pipe unit)) : nrm_server U :=
  Server r (s_state self) (s_timers self) (s_user self).
Definition with_state self (st : nrm_state) : nrm_server U :=
  Server (s_role self) st (s_timers self) (s_user self).
Definition with_user self (u : U) : nrm_server U :=
  Server (s_role self) (s_state self) (s_timers self) u.

(** [nrm_role_send(self->role, msg, to)], whose result is ignored. *)
Definition send self (msg : option nrm_msg) (to : option string) : outcome (nrm_server U) :=
  '(_, r) ← nrm_role_send (s_role self) msg to; Ok (with_role self r).

(** [nrm_msg_create] and [nrm_msg_fill] with a valid type. *)
Definition msg_of_type (type : Z) : option nrm_msg := snd (nrm_msg_fill (nrm_msg_create false) type).

(** The actuators of the state with those of [key] replaced. *)
Definition update_actuator self (key : string) (f : nrm_actuator -> nrm_actuator) : nrm_server U :=
  let st := s_state self in
  with_state self (State (hash_update (st_actuators st) key f) (st_scopes st) (st_sensors st)
                         (st_slices st)).

(** ** Actuation *)

(** The value is corrected and stored, and the client of the actuator is told to
    actuate. The actuator is in the state. *)
Definition actuate self (uuid : string) (value : double) : outcome (nrm_server U) :=
  a ← deref (snd (nrm_hash_find (st_actuators (s_state self)) (Some uuid) false));
  '(_, v) ← nrm_actuator_corrected_value (Some a) (Some value);
  value ← deref v;
  '(_, a) ← nrm_actuator_set_value (Some a) value;
  let self := update_actuator self uuid (fun _ => a) in
  '(_, action) ← nrm_msg_set_actuate (msg_of_type NRM_MSG_TYPE_ACTUATE) (Some uuid) value;
  clientid ← nrm_actuator_clientid (Some a);
  tmp ← deref clientid;
  send self action (Some tmp).

(** This function bypasses the user's validation. *)
Definition nrm_server_actuate self (uuid : option string) (value : double)
    : outcome (Z * nrm_server U) :=
  match snd (nrm_hash_find (st_actuators (s_state self)) uuid false) with
  | Some _ => u ← deref uuid; self ← actuate self u value; Ok (0, self)
  | None => Ok (0, self)
  end.

Definition nrm_server_actuate_callback self (clientid : option string)
    (msg : option nrm_msg_actuate) : outcome (Z * nrm_server U) :=
  msg ← deref msg;
  uuid ← deref (mac_uuid msg);
  self ← match snd (nrm_hash_find (st_actuators (s_state self)) (Some uuid) false) with
         | Some a =>
             cb ← deref (cb_actuate callbacks);
             '(ret, self) ← cb self a (mac_value msg);
             if ret =? 0 then actuate self uuid (mac_value msg) else Ok self
         | None => Ok self
         end;
  self ← send self (msg_of_type NRM_MSG_TYPE_ACK) clientid;
  Ok (0, self).

(** ** Events *)

Definition nrm_server_events_callback self (clientid : option string)
    (msg : option (list nrm_msg_timeserie)) : outcome (Z * nrm_server U) :=
  series ← deref msg;
  self ← mfold (fun self ts =>
           uuid ← deref (mt_sensor_uuid ts);
           scope ← nrm_scope_create_frommsg (mt_scope ts);
           mfold (fun self e =>
             let time := nrm_time_fromns (me_time e) in
             cb ← deref (cb_event callbacks);
             '(_, self) ← cb self uuid scope time (me_value e);
             Ok self) self (mt_events ts)) self series;
  Ok (0, self).

(** ** Adding

    The object is created before the reply, which describes it whether it has
    been added or not. *)

Definition nrm_server_add_actuator self (clientid : option string) (msg : option nrm_msg_actuator)
    : outcome (option nrm_msg * nrm_server U) :=
  let ret := nrm_msg_create false in
  actuator ← nrm_actuator_create_frommsg msg;
  '(_, actuator) ← nrm_actuator_set_clientid actuator clientid;
  '(err, st) ← nrm_state_add_actuator (s_state self) (Some actuator);
  let self := with_state self st in
  if negb (err =? 0) then Ok (snd (nrm_msg_fill ret NRM_MSG_TYPE_ACK), self)
  else '(_, ret) ← nrm_msg_set_add_actuator (snd (nrm_msg_fill ret NRM_MSG_TYPE_ADD)) actuator;
       Ok (ret, self).

Definition nrm_server_add_scope self (msg : option nrm_msg_scope)
    : outcome (option nrm_msg * nrm_server U) :=
  let ret := nrm_msg_create false in
  r ← nrm_scope_create_frommsg msg;
  '(err, st) ← nrm_state_add_scope (s_state self) r;
  let self := with_state self st in
  if negb (err =? 0) then Ok (snd (nrm_msg_fill ret NRM_MSG_TYPE_ACK), self)
  else r ← deref r;
       '(_, ret) ← nrm_msg_set_add_scope (snd (nrm_msg_fill ret NRM_MSG_TYPE_ADD)) r;
       Ok (ret, self).

Definition nrm_server_add_sensor self (msg : option nrm_msg_sensor)
    : outcome (option nrm_msg * nrm_server U) :=
  let ret := nrm_msg_create false in
  r ← nrm_sensor_create_frommsg msg;
  '(err, st) ← nrm_state_add_sensor (s_state self) r;
  let self := with_state self st in
  if negb (err =? 0) then Ok (snd (nrm_msg_fill ret NRM_MSG_TYPE_ACK), self)
  else r ← deref r;
       '(_, ret) ← nrm_msg_set_add_sensor (snd (nrm_msg_fill ret NRM_MSG_TYPE_ADD)) r;
       Ok (ret, self).

Definition nrm_server_add_slice self (msg : option nrm_msg_slice)
    : outcome (option nrm_msg * nrm_server U) :=
  let ret := nrm_msg_create false in
  r ← nrm_slice_create_frommsg msg;
  '(err, st) ← nrm_state_add_slice (s_state self) r;
  let self := with_state self st in
  if negb (err =? 0) then Ok (snd (nrm_msg_fill ret NRM_MSG_TYPE_ACK), self)
  else r ← deref r;
       '(_, ret) ← nrm_msg_set_add_slice (snd (nrm_msg_fill ret NRM_MSG_TYPE_ADD)) r;
       Ok (ret, self).

(** The end of the three dispatching handlers: nothing is sent without a reply. *)
Definition reply self (ret : option nrm_msg) (clientid : option string)
    : outcome (Z * nrm_server U) :=
  match ret with
  | None => Ok (-1, self)
  | Some _ => self ← send self ret clientid; Ok (0, self)
  end.

Definition nrm_server_add_callback self (clientid : option string) (msg : option nrm_msg_add)
    : outcome (Z * nrm_server U) :=
  msg ← deref msg;
  '(ret, self) ←
    (if mad_type msg =? NRM_MSG_TARGET_TYPE_ACTUATOR then
       a ← get_add_actuator msg; nrm_server_add_actuator self clientid a
     else if mad_type msg =? NRM_MSG_TARGET_TYPE_SLICE then
       a ← get_add_slice msg; nrm_server_add_slice self a
     else if mad_type msg =? NRM_MSG_TARGET_TYPE_SENSOR then
       a ← get_add_sensor msg; nrm_server_add_sensor self a
     else if mad_type msg =? NRM_MSG_TARGET_TYPE_SCOPE then
       a ← get_add_scope msg; nrm_server_add_scope self a
     else Ok (None, self));
  reply self ret clientid.

(** ** Listing *)

Definition nrm_server_list_actuators self : outcome (option nrm_msg) :=
  let ret := nrm_msg_create false in
  '(err, vec) ← nrm_state_list_actuators (s_state self) [];
  if negb (err =? 0) then Ok (snd (nrm_msg_fill ret NRM_MSG_TYPE_ACK))
  else '(_, ret) ← nrm_msg_set_list_actuators (snd (nrm_msg_fill ret NRM_MSG_TYPE_LIST)) (Some vec);
       Ok ret.
Definition nrm_server_list_scopes self : outcome (option nrm_msg) :=
  let ret := nrm_msg_create false in
  '(err, vec) ← nrm_state_list_scopes (s_state self) [];
  if negb (err =? 0) then Ok (snd (nrm_msg_fill ret NRM_MSG_TYPE_ACK))
  else '(_, ret) ← nrm_msg_set_list_scopes (snd (nrm_msg_fill ret NRM_MSG_TYPE_LIST)) (Some vec);
       Ok ret.
Definition nrm_server_list_slices self : outcome (option nrm_msg) :=
  let ret := nrm_msg_create false in
  '(err, vec) ← nrm_state_list_slices (s_state self) [];
  if negb (err =? 0) then Ok (snd (nrm_msg_fill ret NRM_MSG_TYPE_ACK))
  else '(_, ret) ← nrm_msg_set_list_slices (snd (nrm_msg_fill ret NRM_MSG_TYPE_LIST)) (Some vec);
       Ok ret.
Definition nrm_server_list_sensors self : outcome (option nrm_msg) :=
  let ret := nrm_msg_create false in
  '(err, vec) ← nrm_state_list_sensors (s_state self) [];
  if negb (err =? 0) then Ok (snd (nrm_msg_fill ret NRM_MSG_TYPE_ACK))
  else '(_, ret) ← nrm_msg_set_list_sensors (snd (nrm_msg_fill ret NRM_MSG_TYPE_LIST)) (Some vec);
       Ok ret.

Definition nrm_server_list_callback self (clientid : option string) (msg : option nrm_msg_list)
    : outcome (Z * nrm_server U) :=
  msg ← deref msg;
  ret ← (if ml_type msg =? NRM_MSG_TARGET_TYPE_ACTUATOR then nrm_server_list_actuators self
         else if ml_type msg =? NRM_MSG_TARGET_TYPE_SLICE then nrm_server_list_slices self
         else if ml_type msg =? NRM_MSG_TARGET_TYPE_SENSOR then nrm_server_list_sensors self
         else if ml_type msg =? NRM_MSG_TARGET_TYPE_SCOPE then nrm_server_list_scopes self
         else Ok None);
  reply self ret clientid.

(** ** Removing *)

Definition nrm_server_remove_actuator self (uuid : option string)
    : outcome (option nrm_msg * nrm_server U) :=
  '(_, st) ← nrm_state_remove_actuator at_uuid (s_state self) uuid;
  Ok (msg_of_type NRM_MSG_TYPE_ACK, with_state self st).
Definition nrm_server_remove_scope self (uuid : option string)
    : outcome (option nrm_msg * nrm_server U) :=
  '(_, st) ← nrm_state_remove_scope at_uuid (s_state self) uuid;
  Ok (msg_of_type NRM_MSG_TYPE_ACK, with_state self st).
Definition nrm_server_remove_sensor self (uuid : option string)
    : outcome (option nrm_msg * nrm_server U) :=
  '(_, st) ← nrm_state_remove_sensor at_uuid (s_state self) uuid;
  Ok (msg_of_type NRM_MSG_TYPE_ACK, with_state self st).
Definition nrm_server_remove_slice self (uuid : option string)
    : outcome (option nrm_msg * nrm_server U) :=
  '(_, st) ← nrm_state_remove_slice at_uuid (s_state self) uuid;
  Ok (msg_of_type NRM_MSG_TYPE_ACK, with_state self st).

Definition nrm_server_remove_callback self (clientid : option string) (msg : option nrm_msg_remove)
    : outcome (Z * nrm_server U) :=
  msg ← deref msg;
  '(ret, self) ←
    (if mr_type msg =? NRM_MSG_TARGET_TYPE_ACTUATOR then nrm_server_remove_actuator self (mr_uuid msg)
     else if mr_type msg =? NRM_MSG_TARGET_TYPE_SLICE then nrm_server_remove_slice self (mr_uuid msg)
     else if mr_type msg =? NRM_MSG_TARGET_TYPE_SENSOR then nrm_server_remove_sensor self (mr_uuid msg)
     else if mr_type msg =? NRM_MSG_TARGET_TYPE_SCOPE then nrm_server_remove_scope self (mr_uuid msg)
     else Ok (None, self));
  reply self ret clientid.

(** ** The loop *)

Definition nrm_server_exit_callback self (uuid : option string) : outcome (Z * nrm_server U) :=
  self ← send self (msg_of_type NRM_MSG_TYPE_ACK) uuid; Ok (-1, self).

Definition nrm_server_tick_callback self (uuid : option string) : outcome (Z * nrm_server U) :=
  '(err, self) ← match cb_tick callbacks with Some cb => cb self | None => Ok (0, self) end;
  self ← send self (msg_of_type NRM_MSG_TYPE_ACK) uuid;
  Ok (err, self).

(** The dispatch of [nrm_server_role_callback] on a message that was received. *)
Definition dispatch self (msg : nrm_msg) (uuid : option string) : outcome (Z * nrm_server U) :=
  let t := m_type msg in
  if t =? NRM_MSG_TYPE_ACTUATE then m ← get_actuate msg; nrm_server_actuate_callback self uuid m
  else if t =? NRM_MSG_TYPE_LIST then m ← get_list msg; nrm_server_list_callback self uuid m
  else if t =? NRM_MSG_TYPE_ADD then m ← get_add msg; nrm_server_add_callback self uuid m
  else if t =? NRM_MSG_TYPE_EVENTS then m ← get_events msg; nrm_server_events_callback self uuid m
  else if t =? NRM_MSG_TYPE_REMOVE then m ← get_remove msg; nrm_server_remove_callback self uuid m
  else if t =? NRM_MSG_TYPE_EXIT then nrm_server_exit_callback self uuid
  else if t =? NRM_MSG_TYPE_TICK then nrm_server_tick_callback self uuid
  else Ok (- NRM_EINVAL, self).

Definition nrm_server_role_callback self : outcome (Z * nrm_server U) :=
  '(msg, uuid, r) ← nrm_role_recv (s_role self);
  let self := with_role self r in
  m ← deref msg;
  dispatch self m uuid.

(** [siginfo] is what [read] gives: the signal number, or a short read. *)
Definition nrm_server_signal_callback self (siginfo : option Z) : outcome (Z * nrm_server U) :=
  _ ← c_assert (negb (is_null siginfo));
  signalid ← deref siginfo;
  match cb_signal callbacks with
  | Some cb => cb self signalid
  | None => Ok (-1, self)
  end.

Definition nrm_server_timer_callback self : outcome (Z * nrm_server U) :=
  match cb_timer callbacks with
  | Some cb => cb self
  | None => Ok (0, self)
  end.

(** What wakes the loop up: the pipe of the role, with what the broker has put
    there, a signal or a timer. *)
Inductive loop_event :=
| Ev_message (c : ctrlmsg)
| Ev_signal (siginfo : option Z)
| Ev_timer.

Definition deliver self (c : ctrlmsg) : nrm_server U :=
  with_role self ((fun r => Role (r_ops r) (Pipe (p_out (r_data r)) (p_in (r_data r) ++ [c])))
                  <$> s_role self).

Definition server_step self (e : loop_event) : outcome (Z * nrm_server U) :=
  match e with
  | Ev_message c => nrm_server_role_callback (deliver self c)
  | Ev_signal i => nrm_server_signal_callback self i
  | Ev_timer => nrm_server_timer_callback self
  end.

Definition nrm_server_start (server : option (nrm_server U)) (events : list loop_event)
    : outcome (option Z * option (nrm_server U)) :=
  match server with
  | None => Ok (Some (- NRM_EINVAL), None)
  | Some s => '(rc, s) ← zloop_start server_step s events; Ok (rc, Some s)
  end.

(** ** Creation and settings *)

(** [role] is the result of [nrm_role_controller_create_fromparams]. *)
Definition nrm_server_create (server_null oom : bool) (state : option nrm_state)
    (uri : option string) (role : option (nrm_role pipe unit)) (loop_null : bool) (sfd : Z)
    (user : U) : outcome (Z * option (nrm_server U)) :=
  match uri, state with
  | Some _, Some st =>
      if server_null then Ok (- NRM_EINVAL, None)
      else if oom then Ok (- NRM_ENOMEM, None)
      else match role with
           | None => Ok (- NRM_EINVAL, None)
           | Some _ =>
               _ ← c_assert (negb loop_null);
               _ ← c_assert (negb (sfd =? -1));
               Ok (0, Some (Server role st [] user))
           end
  | _, _ => Ok (- NRM_EINVAL, None)
  end.

Definition nrm_server_setcallbacks (server : option (nrm_server U))
    (callbacks new : nrm_server_user_callbacks U) : Z * nrm_server_user_callbacks U :=
  match server with None => (- NRM_EINVAL, callbacks) | Some _ => (0, new) end.

Definition nrm_server_settimer (server : option (nrm_server U)) (sleeptime : nrm_time)
    : Z * option (nrm_server U) :=
  match server with
  | None => (- NRM_EINVAL, None)
  | Some s =>
      let millisecs := i32 (i64 (i64 (tv_sec sleeptime * 1000) + Z.quot (tv_nsec sleeptime) 1000000)) in
      (0, Some (Server (s_role s) (s_state s) (s_timers s ++ [millisecs]) (s_user s)))
  end.

Definition nrm_server_publish (server : option (nrm_server U)) (topic : option string)
    (now : nrm_time) (sensor_uuid : option string) (scope : option nrm_scope) (value : double)
    : outcome (Z * option (nrm_server U)) :=
  match server, topic, sensor_uuid, scope with
  | Some s, Some _, Some _, Some _ =>
      let '(_, timeserie) := nrm_timeserie_create false false 0 sensor_uuid scope in
      _ ← c_assert (negb (is_null timeserie));
      let '(_, timeserie) := nrm_timeserie_add_event timeserie now value in
      t ← deref timeserie;
      '(_, msg) ← nrm_msg_set_events (msg_of_type NRM_MSG_TYPE_EVENTS) (Some [t]);
      _ ← nrm_timeserie_destroy (Some timeserie);
      '(rc, r) ← nrm_role_pub (s_role s) topic msg;
      Ok (rc, Some (with_role s r))
  | _, _, _, _ => Ok (- NRM_EINVAL, server)
  end.

(** The pointer after the call. *)
Definition nrm_server_destroy (server : option (option (nrm_server U)))
    : outcome (option (nrm_server U)) :=
  match server with
  | Some (Some s) => _ ← nrm_role_destroy (s_role s); Ok None
  | _ => Ok None
  end.
End server.

(** ** Lemmas on the handlers *)

Section lemmas.
Context `{Qsort} {U : Type}.

(** A server with the role of a controller. *)
Definition srv (p : pipe) (st : nrm_state) (tm : list Z) (u : U) : nrm_server U :=
  Server (Some (Role (Some (nrm_role_controller_ops unit)) p)) st tm u.

(** What the broker is asked to send. *)
Definition to_send (m : nrm_msg) (to : option string) : ctrlmsg := Ctrlmsg "SEND" (V_msg m) (uuid_ptr to).
Definition ack : nrm_msg := Msg NRM_MSG_TYPE_ACK D_none.

Lemma send_srv p st tm u m to :
  send (srv p st tm u) (Some m) to = Ok (srv (pipe_send p (to_send m to)) st tm u).
Proof. reflexivity. Qed.

Lemma hash_find_Some {A} (table : nrm_hash A) k e :
  HASH_FIND table k = Some e -> nrm_hash_find table (Some k) false = (NRM_SUCCESS, Some (ptr e)).
Proof. intros Hf. unfold nrm_hash_find. destruct table; [done|]. by rewrite Hf. Qed.

Lemma hash_find_None {A} (table : nrm_hash A) k :
  HASH_FIND table k = None -> snd (nrm_hash_find table (Some k) false) = None.
Proof. intros Hf. unfold nrm_hash_find. destruct table; [done|]. by rewrite Hf. Qed.

Lemma corrected_value_total a v :
  discrete_or_continuous a ->
  exists rc v', nrm_actuator_corrected_value (Some a) (Some v) = Ok (rc, Some v').
Proof.
  unfold discrete_or_continuous, nrm_actuator_corrected_value. cbn [is_null negb c_assert deref mbind outcome_bind].
  destruct (a_u (a_data a)) as [cs|x y] eqn:E; intros [_ ->].
  - unfold nrm_actuator_discrete_corrected_value, choices_of. rewrite E. cbn [mbind outcome_bind].
    destruct (Nat.eqb_spec (length cs) 0) as [|Hl]; [eauto|].
    destruct (lookup_lt_is_Some_2 cs 0) as [x ->]; [lia|].
    destruct (lookup_lt_is_Some_2 cs (length cs - 1)) as [y ->]; [lia|]. cbn.
    destruct (dlt v x); [eauto|]. destruct (dlt y v); eauto.
  - unfold nrm_actuator_continuous_corrected_value, limits_of. rewrite E. cbn.
    destruct (dlt v x); [eauto|]. destruct (dlt y v); eauto.
Qed.

(** The state with the value of an actuator changed. *)
Definition state_set_value (st : nrm_state) (name : string) (a : nrm_actuator) : nrm_state :=
  State (hash_update (st_actuators st) name (fun _ => a)) (st_scopes st) (st_sensors st) (st_slices st).

Lemma state_set_value_ok st name e v :
  state_ok st -> HASH_FIND (st_actuators st) name = Some e ->
  state_ok (state_set_value st name (with_value (ptr e) v)).
Proof.
  intros ((Ha & Hc & Hs & Hl) & Pa & Pc & Ps & Pl) Hf. unfold state_ok, state_set_value. cbn.
  apply HASH_FIND_key in Hf as [Hk Hin]. rewrite Forall_forall in Pa. pose proof (Pa _ Hin) as He.
  split; [split_and!; [|done..]; unfold hash_wf in *; by rewrite hash_update_keys|].
  split_and!; [|done..]. apply Forall_forall. intros x Hx. unfold hash_update in Hx.
  apply list_elem_of_fmap in Hx as (y & -> & Hy). case_decide as Hd; [|by apply Pa].
  cbn. rewrite Hd, <- Hk. exact He.
Qed.

(** The actuation of an actuator of the state. *)
Lemma actuate_srv p st tm u name e v :
  state_ok st -> HASH_FIND (st_actuators st) name = Some e ->
  exists rc v' owner,
    nrm_actuator_corrected_value (Some (ptr e)) (Some v) = Ok (rc, Some v') /\
    a_clientid (a_data (ptr e)) = Some owner /\
    actuate (srv p st tm u) name v =
    Ok (srv (pipe_send p (to_send (Msg NRM_MSG_TYPE_ACTUATE (D_actuate (MActuate (Some name) v')))
                            (Some owner)))
            (state_set_value st name (with_value (ptr e) v')) tm u).
Proof.
  intros Hst Hf. destruct Hst as (_ & Pa & _). pose proof (HASH_FIND_key _ _ _ Hf) as [Hk Hin].
  rewrite Forall_forall in Pa. destruct (Pa _ Hin) as (_ & [owner Hown] & Hdc).
  destruct (corrected_value_total (ptr e) v Hdc) as (rc & v' & Hv). exists rc, v', owner.
  split; [done|]. split; [done|]. unfold actuate. cbn [s_state srv].
  rewrite (hash_find_Some _ _ _ Hf). cbn [snd deref mbind outcome_bind]. rewrite Hv.
  cbn [deref mbind outcome_bind nrm_actuator_set_value is_null negb c_assert].
  unfold nrm_actuator_clientid.
  cbn -[hash_update]. rewrite Hown. reflexivity.
Qed.
End lemmas.

(** ** The invariant of a server and the requests it is safe to send *)

Section safety.
Context `{Qsort, Zloop} {U : Type}.
Variable callbacks : nrm_server_user_callbacks U.
Variable at_uuid : nat -> string.
(** What the callbacks need of what they work on. *)
Variable user_ok : U -> Prop.
Implicit Types self : nrm_server U.

(** [nrm_hash_remove] does not hit the name by chance. *)
Definition safe_name (k : string) : Prop := forall n, at_uuid n <> k.

(** The keys of the four tables. *)
Definition keys (st : nrm_state) : list string :=
  (uuid <$> st_actuators st) ++ (uuid <$> st_scopes st) ++
  (uuid <$> st_sensors st) ++ (uuid <$> st_slices st).

(** The role is a controller's with nothing left to receive. *)
Definition server_ok self : Prop :=
  ((exists out, s_role self = Some (Role (Some (nrm_role_controller_ops unit)) (Pipe out []))) /\
   user_ok (s_user self)) /\
  state_ok (s_state self) /\ Forall safe_name (keys (s_state self)).

(** A scope as the server makes it from a message. *)
Definition scope_arg_ok (s : option nrm_scope) : Prop :=
  match s with None => True | Some s => scope_wf s /\ is_Some (scope_uuid s) end.

(** A callback returns and keeps the invariant; those for events and actuations
    are set. *)
Definition keeps (f : nrm_server U -> outcome (Z * nrm_server U)) : Prop :=
  forall self, server_ok self -> exists rc self', f self = Ok (rc, self') /\ server_ok self'.

Record callbacks_ok : Prop := {
  event_ok : exists cb, cb_event callbacks = Some cb /\
    forall u s t v, scope_arg_ok s -> keeps (fun self => cb self u s t v);
  actuate_ok : exists cb, cb_actuate callbacks = Some cb /\
    (forall a v, keeps (fun self => cb self a v)) /\
    (forall self a v rc self', cb self a v = Ok (rc, self') ->
       uuid <$> st_actuators (s_state self') = uuid <$> st_actuators (s_state self));
  signal_ok : forall cb, cb_signal callbacks = Some cb -> forall i, keeps (fun self => cb self i);
  timer_ok : forall cb, cb_timer callbacks = Some cb -> keeps cb;
  tick_ok : forall cb, cb_tick callbacks = Some cb -> keeps cb
}.

(** A well-formed request: its member is the one its type names, and an object to add
    has no name that [nrm_hash_remove] could hit. *)
Definition add_safe (a : nrm_msg_add) : Prop :=
  match mad_data a with
  | Add_none => False
  | Add_slice x => safe_name (default "" (msl_uuid x))
  | Add_sensor x => safe_name (default "" (mse_uuid x))
  | Add_scope x => safe_name (default "" (ms_uuid x))
  | Add_actuator x => safe_name (default "" (ma_uuid x))
  end.
Definition request_ok (m : nrm_msg) : Prop :=
  msg_ok m /\ match m_data m with D_add a => add_safe a | _ => True end.

Definition wakeup_ok (e : loop_event) : Prop :=
  match e with
  | Ev_message c => exists m id, c = Ctrlmsg "RECV" (V_msg (norm_msg m)) (V_uuid id) /\ request_ok m
  | Ev_signal i => is_Some i
  | Ev_timer => True
  end.

(** The well-formed requests that stop the server: to remove a scope, which
    dereferences NULL, and to add an actuator that is neither discrete nor continuous,
    which fails an assertion. *)
Inductive crash := Null_dereferenced | Assertion_failed.
Definition crashed {A} (c : crash) : outcome A :=
  match c with Null_dereferenced => Undefined | Assertion_failed => Assert_failed end.
Definition crash_of (m : nrm_msg) : option crash :=
  match m_data m with
  | D_remove r => if mr_type r =? NRM_MSG_TARGET_TYPE_SCOPE then Some Null_dereferenced else None
  | D_add a =>
      match mad_data a with
      | Add_actuator x => match ma_data x with AD_none => Some Assertion_failed | _ => None end
      | _ => None
      end
  | _ => None
  end.
Definition wakeup_crash (e : loop_event) : option crash :=
  match e with Ev_message (Ctrlmsg _ (V_msg m) _) => crash_of m | _ => None end.
Definition harmless (e : loop_event) : Prop := wakeup_crash e = None.

Lemma crash_norm m : crash_of (norm_msg m) = crash_of m.
Proof. by destruct m as [t [|l|[? []]|r|l|a]]; try done; cbn; destruct (ma_data _). Qed.

(** What becomes of the loop: it handles everything and waits, it handles what comes
    until one handler returns -1 and ends, or it handles what comes until the first
    request that stops the server, and crashes there. In all three the invariant holds
    as long as the server lives. *)
Inductive loop_fate (self : nrm_server U) (events : list loop_event)
    : outcome (option Z * option (nrm_server U)) -> Prop :=
| loop_waits self' :
    Forall harmless events -> goes_on (server_step callbacks at_uuid) self events self' -> server_ok self' ->
    loop_fate self events (Ok (None, Some self'))
| loop_ends before e after self1 self' :
    events = before ++ e :: after -> Forall harmless before -> harmless e ->
    goes_on (server_step callbacks at_uuid) self before self1 ->
    server_step callbacks at_uuid self1 e = Ok (-1, self') -> server_ok self' ->
    loop_fate self events (Ok (Some (-1), Some self'))
| loop_crashes before e after self' c :
    events = before ++ e :: after -> Forall harmless before -> wakeup_crash e = Some c ->
    goes_on (server_step callbacks at_uuid) self before self' -> server_ok self' ->
    loop_fate self events (crashed c).

(** *** Sending *)

Lemma server_ok_send self m to :
  server_ok self -> exists self', send self (Some m) to = Ok self' /\ server_ok self' /\
                                  s_state self' = s_state self.
Proof.
  intros [[[out Hr] Hu] Hs]. unfold send, nrm_role_send. rewrite Hr. cbn.
  eexists. split; [reflexivity|]. split; [|done]. split; [|exact Hs]. split; [|exact Hu].
  eexists. reflexivity.
Qed.

Lemma reply_ok self m to :
  server_ok self -> exists rc self', reply self (Some m) to = Ok (rc, self') /\ server_ok self'.
Proof.
  intros Hok. unfold reply. destruct (server_ok_send self m to Hok) as (s & -> & Hs & _).
  eexists _, _. split; [reflexivity|done].
Qed.

(** *** The objects of messages *)

Lemma from_array_wf b l : bitmap_wf b -> exists b', nrm_bitmap_from_array b l = (0, Some b') /\ bitmap_wf b'.
Proof.
  intros _. unfold nrm_bitmap_from_array. cbn [nrm_bitmap_reset].
  destruct (set_items_bits bitmap_zero l bitmap_zero_wf) as (b' & -> & Hwf & _). by exists b'.
Qed.

Lemma scope_frommsg_ok ms :
  exists s, nrm_scope_create_frommsg (Some (norm_scope ms)) = Ok (Some s) /\
            scope_uuid s = Some (default "" (ms_uuid ms)) /\ scope_wf s.
Proof.
  unfold nrm_scope_create_frommsg, nrm_scope_create. cbn [mbind outcome_bind].
  change (Z.to_nat NRM_SCOPE_TYPE_MAX) with 3%nat. cbn [replicate]. rewrite scope_from_arrays_3.
  destruct (from_array_wf bitmap_zero (ms_cpus (norm_scope ms)) bitmap_zero_wf) as (a & -> & Ha).
  destruct (from_array_wf bitmap_zero (ms_numas (norm_scope ms)) bitmap_zero_wf) as (b & -> & Hb).
  destruct (from_array_wf bitmap_zero (ms_gpus (norm_scope ms)) bitmap_zero_wf) as (c & -> & Hc).
  eexists. split; [reflexivity|]. split; [done|]. by apply scope_wf_3.
Qed.

Lemma scope_new_total s name :
  scope_wf s -> scope_uuid s = Some name -> exists ms, nrm_msg_scope_new s = Ok ms.
Proof. intros Hwf Hu. destruct (scope_new_frommsg s name Hwf Hu) as (ms & E & _). by exists ms. Qed.

Lemma actuator_frommsg_ok ma :
  actuator_msg_ok ma -> ma_data ma <> AD_none ->
  exists a, nrm_actuator_create_frommsg (Some (norm_actuator ma)) = Ok (Some a) /\
            a_uuid (a_data a) = Some (default "" (ma_uuid ma)) /\ discrete_or_continuous a.
Proof.
  unfold actuator_msg_ok, nrm_actuator_create_frommsg. cbn [norm_actuator ma_type].
  destruct (ma_data ma) as [|cs|x y] eqn:E; intros Ht Hn; [done| |]; rewrite Ht.
  - change (NRM_ACTUATOR_TYPE_DISCRETE =? NRM_ACTUATOR_TYPE_DISCRETE) with true.
    unfold nrm_actuator_discrete_create_frommsg, get_discrete.
    cbn [nrm_actuator_discrete_create norm_actuator ma_data ma_uuid ma_clientid norm_string mbind
         outcome_bind ma_value]. rewrite E. cbn [mbind outcome_bind].
    unfold nrm_actuator_discrete_set_choices.
    destruct (Z.eqb_spec (Z.of_nat (length cs)) 0) as [Hz|Hz].
    + cbn. eexists. split; [reflexivity|]. by split.
    + cbn [choices_of with_value with_clientid a_data a_u mbind outcome_bind].
      rewrite Z.leb_refl. cbn. eexists. split; [reflexivity|]. by split.
  - change (NRM_ACTUATOR_TYPE_CONTINUOUS =? NRM_ACTUATOR_TYPE_DISCRETE) with false.
    change (NRM_ACTUATOR_TYPE_CONTINUOUS =? NRM_ACTUATOR_TYPE_CONTINUOUS) with true.
    unfold nrm_actuator_continuous_create_frommsg, get_continuous. cbn. rewrite E. cbn.
    eexists. split; [reflexivity|]. split; [done|]. by cbn.
Qed.

Lemma actuator_new_total a name :
  discrete_or_continuous a -> a_uuid (a_data a) = Some name ->
  exists ma, nrm_msg_actuator_new a = Ok ma.
Proof.
  unfold discrete_or_continuous, nrm_msg_actuator_new, nrm_msg_actuator_discrete_new,
    nrm_msg_actuator_continuous_new, choices_of, limits_of. intros Hd ->. cbn [strdup deref mbind outcome_bind].
  destruct (a_u (a_data a)); destruct Hd as [-> _]; cbn; by eexists.
Qed.

(** *** Adding *)

Lemma hash_add_keys {A} (table : nrm_hash A) u p P :
  Forall P (uuid <$> table) -> P u -> Forall P (uuid <$> (nrm_hash_add false table (Some u) p).2).
Proof.
  intros Hf Hu. unfold nrm_hash_add. change (key_of (Some u)) with u.
  destruct (HASH_FIND table u); [done|]. cbn. unfold HASH_ADD. rewrite fmap_app, Forall_app.
  split; [done|]. by constructor.
Qed.

Lemma add_scope_ok self ms :
  server_ok self -> safe_name (default "" (ms_uuid ms)) ->
  exists ret self', nrm_server_add_scope self (Some (norm_scope ms)) = Ok (Some ret, self') /\
                    server_ok self'.
Proof.
  intros [Hr [((Ha & Hc & Hs & Hl) & Pa & Pc & Ps & Pl) Hk]] Hn. unfold nrm_server_add_scope.
  destruct (scope_frommsg_ok ms) as (s & -> & Hu & Hwf). cbn [mbind outcome_bind].
  unfold nrm_state_add_scope. cbn [deref mbind outcome_bind]. rewrite Hu.
  destruct (hash_add_ok _ _ (default "" (ms_uuid ms)) s Hc Pc (conj Hu Hwf)) as [Hc' Pc'].
  unfold keys in Hk. rewrite !Forall_app in Hk. destruct Hk as (K1 & K2 & K3 & K4).
  pose proof (hash_add_keys _ _ s _ K2 Hn) as K2'.
  destruct (nrm_hash_add false _ _ s) as [rc table]. cbn [snd] in *. cbn [mbind outcome_bind].
  change (negb (0 =? 0)) with false. cbn [deref mbind outcome_bind].
  destruct (scope_new_total s _ Hwf Hu) as [ms' Ems]. unfold nrm_msg_set_add_scope. cbn. rewrite Ems.
  cbn. eexists _, _. split; [reflexivity|]. split; [exact Hr|]. split; [by split|].
  unfold keys. cbn. rewrite !Forall_app. done.
Qed.

Lemma add_sensor_ok self m :
  server_ok self -> safe_name (default "" (mse_uuid m)) ->
  exists ret self', nrm_server_add_sensor self (Some (norm_sensor m)) = Ok (Some ret, self') /\
                    server_ok self'.
Proof.
  intros [Hr [((Ha & Hc & Hs & Hl) & Pa & Pc & Ps & Pl) Hk]] Hn. unfold nrm_server_add_sensor.
  cbn [nrm_sensor_create_frommsg nrm_sensor_create mbind outcome_bind norm_sensor mse_uuid].
  unfold nrm_state_add_sensor. cbn [deref mbind outcome_bind sensor_uuid norm_string].
  destruct (hash_add_ok _ _ (default "" (mse_uuid m)) (Sensor (Some (default "" (mse_uuid m)))) Hs Ps
              eq_refl) as [Hs' Ps'].
  unfold keys in Hk. rewrite !Forall_app in Hk. destruct Hk as (K1 & K2 & K3 & K4).
  pose proof (hash_add_keys _ _ (Sensor (Some (default "" (mse_uuid m)))) _ K3 Hn) as K3'.
  unfold norm_string. destruct (nrm_hash_add false _ _ _) as [rc table]. cbn [snd] in *. cbn.
  eexists _, _. split; [reflexivity|]. split; [exact Hr|]. split; [by split|].
  unfold keys. cbn. rewrite !Forall_app. done.
Qed.

Lemma add_slice_ok self m :
  server_ok self -> safe_name (default "" (msl_uuid m)) ->
  exists ret self', nrm_server_add_slice self (Some (norm_slice m)) = Ok (Some ret, self') /\
                    server_ok self'.
Proof.
  intros [Hr [((Ha & Hc & Hs & Hl) & Pa & Pc & Ps & Pl) Hk]] Hn. unfold nrm_server_add_slice.
  cbn [nrm_slice_create_frommsg nrm_slice_create mbind outcome_bind norm_slice msl_uuid].
  unfold nrm_state_add_slice. cbn [deref mbind outcome_bind slice_uuid norm_string].
  destruct (hash_add_ok _ _ (default "" (msl_uuid m)) (Slice (Some (default "" (msl_uuid m)))) Hl Pl
              eq_refl) as [Hl' Pl'].
  unfold keys in Hk. rewrite !Forall_app in Hk. destruct Hk as (K1 & K2 & K3 & K4).
  pose proof (hash_add_keys _ _ (Slice (Some (default "" (msl_uuid m)))) _ K4 Hn) as K4'.
  unfold norm_string. destruct (nrm_hash_add false _ _ _) as [rc table]. cbn [snd] in *. cbn.
  eexists _, _. split; [reflexivity|]. split; [exact Hr|]. split; [by split|].
  unfold keys. cbn. rewrite !Forall_app. done.
Qed.

Lemma add_actuator_ok self id m :
  server_ok self -> actuator_msg_ok m -> ma_data m <> AD_none -> safe_name (default "" (ma_uuid m)) ->
  exists ret self', nrm_server_add_actuator self (Some id) (Some (norm_actuator m)) = Ok (Some ret, self')
                    /\ server_ok self'.
Proof.
  intros [Hr [((Ha & Hc & Hs & Hl) & Pa & Pc & Ps & Pl) Hk]] Hm Hd Hn.
  unfold nrm_server_add_actuator.
  destruct (actuator_frommsg_ok m Hm Hd) as (a & -> & Hu & Hdc). cbn.
  set (b := with_clientid a (Some id)).
  assert (Hdc' : discrete_or_continuous b) by exact Hdc.
  assert (Hu' : a_uuid (a_data b) = Some (default "" (ma_uuid m))) by exact Hu. rewrite Hu.
  destruct (hash_add_ok (fun e => a_uuid (a_data (ptr e)) = Some (uuid e) /\
      is_Some (a_clientid (a_data (ptr e))) /\ discrete_or_continuous (ptr e))
      (st_actuators (s_state self)) (default "" (ma_uuid m)) b Ha Pa) as [Ha' Pa'].
  { split; [exact Hu'|]. split; [by exists id|exact Hdc']. }
  unfold keys in Hk. rewrite !Forall_app in Hk. destruct Hk as (K1 & K2 & K3 & K4).
  pose proof (hash_add_keys _ _ b _ K1 Hn) as K1'.
  destruct (nrm_hash_add false _ _ b) as [rc table]. cbn [snd] in *. cbn.
  destruct (actuator_new_total b _ Hdc' Hu') as [ma' ->]. cbn.
  eexists _, _. split; [reflexivity|]. split; [exact Hr|]. split; [by split|].
  unfold keys. cbn. rewrite !Forall_app. done.
Qed.

(** *** Listing *)

Lemma map_outcome_Ok {A B} (P : A -> Prop) (f : A -> outcome B) l :
  Forall P l -> (forall x, P x -> exists y, f x = Ok y) -> exists ys, map_outcome f l = Ok ys.
Proof.
  intros Hl Hf. apply map_outcome_total. eapply Forall_impl; [exact Hl|]. exact Hf.
Qed.

Lemma list_ok_total self t :
  server_ok self ->
  exists ret, (if t =? NRM_MSG_TARGET_TYPE_ACTUATOR then nrm_server_list_actuators self
               else if t =? NRM_MSG_TARGET_TYPE_SLICE then nrm_server_list_slices self
               else if t =? NRM_MSG_TARGET_TYPE_SENSOR then nrm_server_list_sensors self
               else if t =? NRM_MSG_TARGET_TYPE_SCOPE then nrm_server_list_scopes self
               else Ok None) = Ok ret.
Proof.
  intros [_ [(_ & Pa & Pc & Ps & Pl) _]].
  unfold nrm_server_list_actuators, nrm_server_list_slices, nrm_server_list_sensors,
    nrm_server_list_scopes, nrm_state_list_actuators, nrm_state_list_slices,
    nrm_state_list_sensors, nrm_state_list_scopes. rewrite !list_table_values. cbn.
  destruct (t =? _); [|destruct (t =? _); [|destruct (t =? _); [|destruct (t =? _); [|by eexists]]]].
  - destruct (map_outcome_Ok (fun a => discrete_or_continuous a /\ is_Some (a_uuid (a_data a)))
      nrm_msg_actuator_new (ptr <$> st_actuators (s_state self))) as [ys ->]; [| |by eexists].
    + apply Forall_fmap. eapply Forall_impl; [exact Pa|]. intros e (Hu & _ & Hd). split; [done|].
      by eexists.
    + intros a [Hd [n Hn]]. by eapply actuator_new_total.
  - destruct (map_outcome_Ok (fun a => is_Some (slice_uuid a)) (fun a => nrm_msg_slice_new (slice_uuid a))
      (ptr <$> st_slices (s_state self))) as [ys ->]; [| |by eexists].
    + apply Forall_fmap. eapply Forall_impl; [exact Pl|]. intros e Hu. cbn. rewrite Hu. by eexists.
    + intros a [n Hn]. rewrite Hn. by eexists.
  - destruct (map_outcome_Ok (fun a => is_Some (sensor_uuid a)) (fun a => nrm_msg_sensor_new (sensor_uuid a))
      (ptr <$> st_sensors (s_state self))) as [ys ->]; [| |by eexists].
    + apply Forall_fmap. eapply Forall_impl; [exact Ps|]. intros e Hu. cbn. rewrite Hu. by eexists.
    + intros a [n Hn]. rewrite Hn. by eexists.
  - destruct (map_outcome_Ok (fun a => scope_wf a /\ is_Some (scope_uuid a)) nrm_msg_scope_new
      (ptr <$> st_scopes (s_state self))) as [ys ->]; [| |by eexists].
    + apply Forall_fmap. eapply Forall_impl; [exact Pc|]. intros e [Hu Hwf]. split; [done|]. by eexists.
    + intros a [Hd [n Hn]]. by eapply scope_new_total.
Qed.

Lemma list_callback_ok self id l :
  server_ok self ->
  exists rc self', nrm_server_list_callback self id (Some l) = Ok (rc, self') /\ server_ok self'.
Proof.
  intros Hok. unfold nrm_server_list_callback. cbn [deref mbind outcome_bind].
  destruct (list_ok_total self (ml_type l) Hok) as [ret ->]. cbn [mbind outcome_bind].
  destruct ret as [m|]; [by apply reply_ok|]. cbn. by eexists _, _.
Qed.

(** *** Removing *)

(** The table is as it was, and what is stored is NULL. *)
Lemma hash_remove_safe {A} (table : nrm_hash A) u :
  Forall safe_name (uuid <$> table) ->
  exists rc, nrm_hash_remove at_uuid table (Some u) = (rc, Removed_null, table).
Proof.
  intros Hs. unfold nrm_hash_remove. destruct table as [|e t]; [by eexists|].
  destruct (HASH_FIND (e :: t) (at_uuid (String.length u))) as [x|] eqn:E; [|by eexists].
  apply HASH_FIND_key in E as [Hk Hin]. rewrite Forall_forall in Hs.
  destruct (Hs (uuid x)) with (String.length u); [by apply list_elem_of_fmap_2|done].
Qed.

Lemma remove_callback_ok self id t u :
  server_ok self -> t <> NRM_MSG_TARGET_TYPE_SCOPE ->
  exists rc self', nrm_server_remove_callback at_uuid self id (Some (MRemove t (Some u))) = Ok (rc, self')
                   /\ server_ok self'.
Proof.
  intros Hok Ht. pose proof Hok as [_ [_ Hk]]. unfold keys in Hk. rewrite !Forall_app in Hk.
  destruct Hk as (K1 & K2 & K3 & K4).
  unfold nrm_server_remove_callback, nrm_server_remove_actuator, nrm_server_remove_slice,
    nrm_server_remove_sensor, nrm_state_remove_actuator, nrm_state_remove_slice,
    nrm_state_remove_sensor. cbn [deref mbind outcome_bind mr_type mr_uuid].
  destruct (hash_remove_safe _ u K1) as [? ->], (hash_remove_safe _ u K3) as [? ->],
    (hash_remove_safe _ u K4) as [? ->]. cbn [destroy_removed deref mbind outcome_bind].
  assert (Hsame : forall st', st' = s_state self -> with_state self st' = self)
    by (intros ? ->; by destruct self).
  destruct (Z.eqb_spec t NRM_MSG_TARGET_TYPE_SCOPE) as [|_]; [done|].
  destruct (t =? _); [|destruct (t =? _); [|destruct (t =? _)]]; cbn [mbind outcome_bind];
    [..|by eexists _, _]; rewrite Hsame by (by destruct (s_state self));
    exact (reply_ok self ack id Hok).
Qed.

(** *** Actuations and events *)

Lemma actuate_callback_ok self id name v :
  callbacks_ok -> server_ok self ->
  exists rc self',
    nrm_server_actuate_callback callbacks self id (Some (MActuate (Some name) v)) = Ok (rc, self') /\
    server_ok self'.
Proof.
  intros Hcb Hok. destruct (actuate_ok Hcb) as (cb & Ecb & Hkeep & Hkeys).
  unfold nrm_server_actuate_callback. cbn [deref mbind outcome_bind mac_uuid mac_value].
  assert (Hend : forall s, server_ok s -> exists rc self',
            (s' ← send s (msg_of_type NRM_MSG_TYPE_ACK) id; Ok (0, s')) = Ok (rc, self') /\
            server_ok self').
  { intros s Hs. destruct (server_ok_send s ack id Hs) as (s' & E & Hs' & _).
    change (msg_of_type NRM_MSG_TYPE_ACK) with (Some ack). rewrite E. by eexists _, _. }
  destruct (HASH_FIND (st_actuators (s_state self)) name) as [e|] eqn:E.
  2:{ rewrite (hash_find_None _ _ E). by apply Hend. }
  rewrite (hash_find_Some _ _ _ E), Ecb. cbn [snd deref mbind outcome_bind].
  destruct (Hkeep (ptr e) v self Hok) as (rc & s1 & E1 & Hok1). rewrite E1. cbn [mbind outcome_bind].
  destruct (rc =? 0); [|by apply Hend].
  apply Hkeys in E1. pose proof Hok1 as [[[out Hr] Hu] [Hst Hsafe]].
  destruct s1 as [r st tm u]. cbn [s_role s_state] in *. subst r.
  destruct (HASH_FIND (st_actuators st) name) as [e'|] eqn:E'.
  2:{ apply HASH_FIND_None in E'. rewrite E1 in E'. apply HASH_FIND_key in E as [<- Hin].
      destruct E'. by apply list_elem_of_fmap_2. }
  destruct (actuate_srv (Pipe out []) st tm u name e' v Hst E') as (rc2 & v' & owner & _ & _ & Ea).
  unfold srv in Ea. rewrite Ea. cbn [mbind outcome_bind]. apply Hend. split; [split; [by eexists|exact Hu]|].
  split; [by apply state_set_value_ok|]. cbn [s_state]. unfold keys, state_set_value in *. cbn.
  by rewrite hash_update_keys.
Qed.

Lemma events_callback_ok self id l :
  callbacks_ok -> server_ok self ->
  exists rc self',
    nrm_server_events_callback callbacks self id (Some (norm_timeserie <$> l)) = Ok (rc, self') /\
    server_ok self'.
Proof.
  intros Hcb Hok. destruct (event_ok Hcb) as (cb & Ecb & Hkeep).
  unfold nrm_server_events_callback. cbn [deref mbind outcome_bind]. rewrite Ecb.
  assert (Hin : forall u sc evs s, scope_arg_ok sc -> server_ok s -> exists s',
    mfold (fun self e => cb0 ← deref (Some cb);
             '(_, self) ← cb0 self u sc (nrm_time_fromns (me_time e)) (me_value e); Ok self) s evs
    = Ok s' /\ server_ok s').
  { intros u sc evs s Hsc. revert s. induction evs as [|e evs IH]; intros s Hs; [by exists s|]. cbn.
    destruct (Hkeep u sc (nrm_time_fromns (me_time e)) (me_value e) Hsc s Hs) as (rc & s1 & -> & Hs1).
    cbn. by apply IH. }
  assert (Hout : forall s, server_ok s -> exists s',
    mfold (fun self ts => u ← deref (mt_sensor_uuid ts); sc ← nrm_scope_create_frommsg (mt_scope ts);
      mfold (fun self e => cb0 ← deref (Some cb);
             '(_, self) ← cb0 self u sc (nrm_time_fromns (me_time e)) (me_value e); Ok self)
        self (mt_events ts)) s (norm_timeserie <$> l) = Ok s' /\ server_ok s').
  { induction l as [|ts l IH]; intros s Hs; [by exists s|]. cbn [fmap list_fmap mfold].
    cbn [norm_timeserie mt_sensor_uuid norm_string deref mbind outcome_bind mt_events mt_scope].
    assert (Hsc : exists sc, nrm_scope_create_frommsg (norm_scope <$> mt_scope ts) = Ok sc /\
                             scope_arg_ok sc).
    { destruct (mt_scope ts) as [ms|]; [|by eexists].
      destruct (scope_frommsg_ok ms) as (sc & E & Hu & Hwf). exists (Some sc). split; [done|].
      split; [done|]. by eexists. }
    destruct Hsc as (sc & -> & Hsc). cbn [mbind outcome_bind].
    destruct (Hin (default ""%string (mt_sensor_uuid ts)) sc (mt_events ts) s Hsc Hs) as (s1 & E1 & Hs1).
    cbn [deref mbind outcome_bind] in E1 |- *. rewrite E1. by apply IH. }
  destruct (Hout self Hok) as (s' & E & Hs'). cbn [deref mbind outcome_bind] in E |- *.
  rewrite E. by eexists _, _.
Qed.

(** *** Every request *)

Lemma add_callback_ok self id a :
  server_ok self -> add_ok a -> add_safe a -> crash_of (Msg NRM_MSG_TYPE_ADD (D_add a)) = None ->
  exists rc self', nrm_server_add_callback self (Some id) (Some (norm_add a)) = Ok (rc, self') /\
                   server_ok self'.
Proof.
  intros Hok Ha Hs Hc. unfold nrm_server_add_callback, get_add_actuator, get_add_slice, get_add_sensor,
    get_add_scope, add_ok, add_safe in *. cbn [crash_of m_data] in Hc.
  cbn [deref mbind outcome_bind norm_add mad_type mad_data].
  assert (Hend : forall r s, server_ok s -> exists rc self',
            reply s (Some r) (Some id) = Ok (rc, self') /\ server_ok self')
    by (intros; by apply reply_ok).
  destruct (mad_data a) as [|x|x|x|x]; [done|..]; [| | |destruct Ha as [Ha Hx]]; rewrite Ha.
  - destruct (add_slice_ok self x Hok Hs) as (r & s & E & Hs'). cbn -[nrm_server_add_slice].
    rewrite E. by apply Hend.
  - destruct (add_sensor_ok self x Hok Hs) as (r & s & E & Hs'). cbn -[nrm_server_add_sensor].
    rewrite E. by apply Hend.
  - destruct (add_scope_ok self x Hok Hs) as (r & s & E & Hs'). cbn -[nrm_server_add_scope].
    rewrite E. by apply Hend.
  - destruct (add_actuator_ok self id x Hok Hx) as (r & s & E & Hs'); [by intros E; rewrite E in Hc|exact Hs|].
    cbn -[nrm_server_add_actuator]. rewrite E. by apply Hend.
Qed.

Lemma exit_callback_ok self id :
  server_ok self -> exists rc self', nrm_server_exit_callback self id = Ok (rc, self') /\ server_ok self'.
Proof.
  intros Hok. unfold nrm_server_exit_callback. destruct (server_ok_send self ack id Hok) as (s & E & Hs & _).
  change (msg_of_type NRM_MSG_TYPE_ACK) with (Some ack). rewrite E. by eexists _, _.
Qed.

Lemma tick_callback_ok self id :
  callbacks_ok -> server_ok self ->
  exists rc self', nrm_server_tick_callback callbacks self id = Ok (rc, self') /\ server_ok self'.
Proof.
  intros Hcb Hok. unfold nrm_server_tick_callback. change (msg_of_type NRM_MSG_TYPE_ACK) with (Some ack).
  destruct (cb_tick callbacks) as [cb|] eqn:E.
  - destruct (tick_ok Hcb cb E self Hok) as (rc & s1 & -> & Hs1). cbn [mbind outcome_bind].
    destruct (server_ok_send s1 ack id Hs1) as (s & -> & Hs & _). by eexists _, _.
  - cbn [mbind outcome_bind]. destruct (server_ok_send self ack id Hok) as (s & -> & Hs & _).
    by eexists _, _.
Qed.

Lemma dispatch_ok self m id :
  callbacks_ok -> server_ok self -> request_ok m -> crash_of m = None ->
  exists rc self', dispatch callbacks at_uuid self (norm_msg m) (Some id) = Ok (rc, self') /\
                   server_ok self'.
Proof.
  intros Hcb Hok [Hm Hr] Hc. unfold dispatch, get_actuate, get_list, get_add, get_events, get_remove, msg_ok in *.
  cbn [norm_msg m_type m_data]. destruct (m_data m) as [|l|a|r|l|a] eqn:E.
  - destruct Hm as [->|[->| ->]].
    + by eexists _, _.
    + by apply exit_callback_ok.
    + by apply tick_callback_ok.
  - destruct Hm as [-> _]. by apply list_callback_ok.
  - destruct Hm as [-> Ha]. apply add_callback_ok; [done..|]. unfold crash_of in *. by rewrite E in Hc.
  - rewrite Hm. destruct r as [t u]. apply remove_callback_ok; [done|].
    unfold crash_of in Hc. rewrite E in Hc. cbn in Hc. by destruct (Z.eqb_spec t NRM_MSG_TARGET_TYPE_SCOPE).
  - destruct Hm as [-> _]. by apply events_callback_ok.
  - rewrite Hm. by apply actuate_callback_ok.
Qed.

(** A message that comes is dispatched. *)
Lemma server_step_message self m id :
  server_ok self ->
  server_step callbacks at_uuid self (Ev_message (Ctrlmsg "RECV" (V_msg m) (V_uuid id))) =
  dispatch callbacks at_uuid self m (Some id).
Proof.
  intros [[[out Hr] _] _]. destruct self as [r st tm u]. cbn [s_role] in Hr. subst r. reflexivity.
Qed.

Lemma server_step_ok self e :
  callbacks_ok -> server_ok self -> wakeup_ok e -> harmless e ->
  exists rc self', server_step callbacks at_uuid self e = Ok (rc, self') /\ server_ok self'.
Proof.
  intros Hcb Hok He Hh. destruct e as [c|i|].
  - destruct He as (m & id & -> & Hm). rewrite server_step_message by done.
    apply dispatch_ok; [done..|]. by rewrite <- crash_norm.
  - destruct He as [i' ->]. cbn [server_step]. unfold nrm_server_signal_callback. cbn.
    destruct (cb_signal callbacks) as [cb|] eqn:E; [by apply (signal_ok Hcb cb E)|]. by eexists _, _.
  - cbn [server_step]. unfold nrm_server_timer_callback.
    destruct (cb_timer callbacks) as [cb|] eqn:E; [by apply (timer_ok Hcb cb E)|]. by eexists _, _.
Qed.

Lemma remove_scope_crashes self id u :
  server_ok self ->
  nrm_server_remove_callback at_uuid self id (Some (MRemove NRM_MSG_TARGET_TYPE_SCOPE (Some u))) = Undefined.
Proof.
  intros [_ [_ Hk]]. unfold keys in Hk. rewrite !Forall_app in Hk. destruct Hk as (_ & K & _).
  unfold nrm_server_remove_callback, nrm_server_remove_scope, nrm_state_remove_scope.
  cbn [deref mbind outcome_bind mr_type mr_uuid]. by destruct (hash_remove_safe _ u K) as [? ->].
Qed.

Lemma unknown_actuator_crashes self id ma :
  ma_type ma <> NRM_ACTUATOR_TYPE_DISCRETE -> ma_type ma <> NRM_ACTUATOR_TYPE_CONTINUOUS ->
  nrm_server_add_actuator self id (Some ma) = Assert_failed.
Proof.
  intros H1 H2. apply Z.eqb_neq in H1, H2. unfold nrm_server_add_actuator, nrm_actuator_create_frommsg.
  by rewrite H1, H2.
Qed.

Lemma server_step_crash self e c :
  server_ok self -> wakeup_ok e -> wakeup_crash e = Some c ->
  server_step callbacks at_uuid self e = crashed c.
Proof.
  intros Hok He Hc. destruct e as [k|i|]; [|done..]. destruct He as (m & id & -> & [Hm _]).
  rewrite server_step_message by done. cbn [wakeup_crash] in Hc. rewrite crash_norm in Hc.
  unfold dispatch, get_add, get_remove, crash_of, msg_ok in *. cbn [norm_msg m_type m_data].
  destruct (m_data m) as [|l|a|[t u]|l|a]; try done; cbn [mr_type] in *.
  - destruct Hm as [-> Ha]. unfold add_ok in Ha. destruct a as [t d]. cbn [mad_data mad_type norm_add] in *.
    destruct d as [|x|x|x|x]; try done. destruct Ha as [-> Ha].
    unfold actuator_msg_ok in Ha. destruct (ma_data x); try done. injection Hc as <-.
    transitivity
      ('(ret, self) ← nrm_server_add_actuator self (Some id) (Some (norm_actuator x)); reply self ret (Some id));
      [reflexivity|]. destruct Ha. by rewrite unknown_actuator_crashes.
  - rewrite Hm. destruct (Z.eqb_spec t NRM_MSG_TARGET_TYPE_SCOPE) as [->|]; [|done]. injection Hc as <-.
    by apply remove_scope_crashes.
Qed.

Lemma loop_fate_cons self e rc self1 events r :
  harmless e -> server_step callbacks at_uuid self e = Ok (rc, self1) -> rc <> -1 ->
  loop_fate self1 events r -> loop_fate self (e :: events) r.
Proof.
  intros Hh He Hrc Hf. destruct Hf as [s' ?? ?|before x after s1 s' -> ?????|before x after s' c -> ????].
  - apply loop_waits; [by constructor|by econstructor|done].
  - eapply (loop_ends _ _ (e :: before)); [done|by constructor|done|by econstructor|done..].
  - eapply (loop_crashes _ _ (e :: before)); [done|by constructor|done|by econstructor|done].
Qed.

Lemma zloop_safe self events :
  callbacks_ok -> server_ok self -> Forall wakeup_ok events ->
  loop_fate self events (nrm_server_start callbacks at_uuid (Some self) events).
Proof.
  intros Hcb Hok Hev. unfold nrm_server_start. revert self Hok.
  induction Hev as [|e events He _ IH]; intros self Hok; [rewrite zloop_waits|rewrite zloop_handles].
  { apply loop_waits; [constructor|constructor|done]. }
  destruct (wakeup_crash e) as [c|] eqn:Hc.
  { rewrite (server_step_crash self e c) by done.
    assert (Hf : loop_fate self (e :: events) (crashed c)).
    { eapply (loop_crashes _ _ []); [done|constructor|done|constructor|done]. }
    by destruct c. }
  destruct (server_step_ok self e Hcb Hok He Hc) as (rc & s & E & Hs). rewrite E. cbn [mbind outcome_bind].
  destruct (Z.eqb_spec rc (-1)) as [->|Hrc].
  - eapply (loop_ends _ _ []); [done|constructor|done|constructor|done..].
  - eapply loop_fate_cons; [done..|by apply IH].
Qed.

(** When the loop returns, the invariant holds. *)
Lemma fate_ok self events r rc self' :
  loop_fate self events r -> r = Ok (rc, Some self') -> server_ok self'.
Proof. destruct 1 as [| |? ? ? ? [] ]; by intros [= <- <-]. Qed.

(** C5: a server that starts from a well-formed state, with callbacks that keep the
    invariant, on any well-formed requests, signals and timers in any order. It
    handles them and waits for more, or until a handler returns -1, which ends its
    loop, or until the first request to remove a scope or to add an actuator of an
    unknown type, and crashes exactly there: on the NULL that [nrm_hash_remove] stores
    for the one, on a failed assertion for the other. Nothing else aborts or is
    undefined, and the invariant holds all the way: objects are under their own names,
    in tables without duplicates, every actuator has a client and the functions and
    the union of its type, every scope three well-formed maps. *)
Theorem server_loop_safe self events :
  callbacks_ok -> server_ok self -> Forall wakeup_ok events ->
  loop_fate self events (nrm_server_start callbacks at_uuid (Some self) events).
Proof. apply zloop_safe. Qed.
End safety.

(** ** Properties of the requests *)

Section requests.
Context `{Qsort, Zloop} {U : Type}.
Variable callbacks : nrm_server_user_callbacks U.
Variable at_uuid : nat -> string.

(** C12: a request to actuate. The user decides: when its callback, which
    leaves the state alone, returns 0, the corrected value is stored in the
    actuator, and nowhere else, and its client is told to actuate it; the
    requester gets its acknowledgement last in any case. An unknown actuator is
    acknowledged only. *)
Theorem actuate_request p st tm u id name v :
  state_ok st ->
  (HASH_FIND (st_actuators st) name = None ->
   nrm_server_actuate_callback callbacks (srv p st tm u) (Some id) (Some (MActuate (Some name) v)) =
   Ok (0, srv (pipe_send p (to_send ack (Some id))) st tm u)) /\
  (forall e cb ret u', HASH_FIND (st_actuators st) name = Some e -> cb_actuate callbacks = Some cb ->
   cb (srv p st tm u) (ptr e) v = Ok (ret, srv p st tm u') ->
   (ret <> 0 ->
    nrm_server_actuate_callback callbacks (srv p st tm u) (Some id) (Some (MActuate (Some name) v)) =
    Ok (0, srv (pipe_send p (to_send ack (Some id))) st tm u')) /\
   (ret = 0 ->
    exists rc v' owner st',
      nrm_actuator_corrected_value (Some (ptr e)) (Some v) = Ok (rc, Some v') /\
      a_clientid (a_data (ptr e)) = Some owner /\
      nrm_server_actuate_callback callbacks (srv p st tm u) (Some id) (Some (MActuate (Some name) v)) =
      Ok (0, srv (pipe_send
                   (pipe_send p (to_send (Msg NRM_MSG_TYPE_ACTUATE (D_actuate (MActuate (Some name) v')))
                                   (Some owner)))
                   (to_send ack (Some id))) st' tm u') /\
      state_ok st' /\ st_scopes st' = st_scopes st /\ st_sensors st' = st_sensors st /\
      st_slices st' = st_slices st /\
      (forall k, HASH_FIND (st_actuators st') k =
         if decide (k = name) then Some (Elem name (with_value (ptr e) v'))
         else HASH_FIND (st_actuators st) k))).
Proof.
  intros Hst. unfold nrm_server_actuate_callback.
  cbn [deref mbind outcome_bind mac_uuid mac_value s_state srv]. split.
  { intros Hf. rewrite (hash_find_None _ _ Hf). reflexivity. }
  intros e cb ret u' Hf Hcb Ecb. rewrite (hash_find_Some _ _ _ Hf), Hcb.
  cbn [snd deref mbind outcome_bind]. rewrite Ecb. cbn [mbind outcome_bind]. split; intros Hret.
  { apply Z.eqb_neq in Hret. rewrite Hret. reflexivity. }
  subst ret. cbn [Z.eqb].
  destruct (actuate_srv p st tm u' name e v Hst Hf) as (rc & v' & owner & Hv & Hown & ->).
  exists rc, v', owner, (state_set_value st name (with_value (ptr e) v')).
  split; [done|]. split; [done|]. split; [reflexivity|].
  split; [by apply state_set_value_ok|]. split_and!; [done..|]. intros k. unfold state_set_value.
  cbn [st_actuators]. rewrite hash_update_find. destruct (decide (k = name)) as [->|Hne].
  - rewrite Hf. cbn. rewrite decide_True by done. by destruct (HASH_FIND_key _ _ _ Hf) as [-> _].
  - destruct (HASH_FIND (st_actuators st) k) as [x|]; [|done]. cbn. by rewrite decide_False by congruence.
Qed.

(** A client that adds an actuator becomes its client. The actuator of the
    message is added last in the table, under its name, unless the name is
    taken: then the state does not change. The reply is an ADD in both cases and
    describes the actuator of the message. *)
Theorem add_actuator_request p st tm (u : U) id a ma name :
  state_ok st -> actuator_wf a -> a_uuid (a_data a) = Some name ->
  nrm_msg_actuator_new a = Ok ma ->
  exists b mb,
    same_actuator (with_clientid a (Some id)) b /\ nrm_msg_actuator_new b = Ok mb /\
    nrm_server_add_callback (srv p st tm u) (Some id)
      (Some (MAdd NRM_MSG_TARGET_TYPE_ACTUATOR (Add_actuator (norm_actuator ma)))) =
    Ok (0, srv (pipe_send p (to_send (Msg NRM_MSG_TYPE_ADD
             (D_add (MAdd NRM_MSG_TARGET_TYPE_ACTUATOR (Add_actuator mb)))) (Some id)))
             (State (match HASH_FIND (st_actuators st) name with
                     | Some _ => st_actuators st
                     | None => HASH_ADD (st_actuators st) (Elem name b)
                     end) (st_scopes st) (st_sensors st) (st_slices st)) tm u).
Proof.
  intros Hst Hwf Hname Hma.
  destruct (actuator_new_frommsg a Hwf) as (ma' & b0 & Ema & Efrom & Hsame & Hwf').
  assert (ma' = ma) as -> by congruence.
  set (b := with_clientid b0 (Some id)).
  assert (Hb : same_actuator (with_clientid a (Some id)) b).
  { destruct Hsame as (H1 & H2 & H3 & H4 & H5 & H6). repeat split; try done. }
  assert (Hbn : a_uuid (a_data b) = Some name) by (destruct Hb as (H1 & _); by rewrite H1).
  destruct (actuator_new_frommsg b) as (mb & _ & Emb & _).
  { destruct Hwf' as [Hx Hy]. split; [exact Hx|exact Hy]. }
  exists b, mb. split; [done|]. split; [done|].
  unfold nrm_server_add_callback. cbn -[nrm_server_add_actuator reply]. unfold nrm_server_add_actuator.
  rewrite Efrom. cbn -[nrm_hash_add reply]. fold b.
  change (a_uuid (a_data b0)) with (a_uuid (a_data b)). rewrite Hbn.
  unfold nrm_hash_add. change (key_of (Some name)) with name.
  destruct (HASH_FIND (st_actuators st) name); cbn -[reply nrm_msg_actuator_new]; fold b;
    rewrite Emb; reflexivity.
Qed.

(** The objects a client rebuilds from the items of a LIST reply. *)
Definition rebuild {M A} (f : option M -> outcome (option A)) (items : list M)
    : outcome (list (option A)) := map_outcome (fun m => f (Some m)) items.

Lemma map_outcome_rebuild {A B C} (f : A -> outcome B) (norm : B -> B) (g : B -> outcome C) (l : list A)
    (R : A -> C -> Prop) :
  Forall (fun x => exists y z, f x = Ok y /\ g (norm y) = Ok z /\ R x z) l ->
  exists ys zs, map_outcome f l = Ok ys /\ map_outcome g (norm <$> ys) = Ok zs /\ Forall2 R l zs.
Proof.
  induction 1 as [|x l (y & z & Hf & Hg & HR) _ (ys & zs & E1 & E2 & HF)].
  { exists [], []. split_and!; [done..|constructor]. }
  exists (y :: ys), (z :: zs). cbn. rewrite Hf, E1. cbn. rewrite Hg. cbn. rewrite E2. cbn.
  split_and!; [done..|by constructor].
Qed.

Lemma Forall2_Some {A} (l : list A) zs : Forall2 (fun x z => z = Some x) l zs -> zs = Some <$> l.
Proof. induction 1; [done|]. cbn. by subst; f_equal. Qed.

(** C15: the reply to a LIST request is, for each of the four kinds of object,
    a message from which a client rebuilds exactly the objects of the state, in
    the order in which they were added; listing does not change the state. *)
Theorem list_requests p st tm (u : U) id d :
  state_ok st -> Forall (fun e => actuator_wf (ptr e)) (st_actuators st) ->
  (exists items msg, norm_msg msg = Msg NRM_MSG_TYPE_LIST (D_list (MList NRM_MSG_TARGET_TYPE_SCOPE (List_scopes items))) /\
     nrm_server_list_callback (srv p st tm u) (Some id) (Some (MList NRM_MSG_TARGET_TYPE_SCOPE d)) =
     Ok (0, srv (pipe_send p (to_send msg (Some id))) st tm u) /\
     rebuild nrm_scope_create_frommsg items = Ok (Some <$> (ptr <$> st_scopes st))) /\
  (exists items msg, norm_msg msg = Msg NRM_MSG_TYPE_LIST (D_list (MList NRM_MSG_TARGET_TYPE_SENSOR (List_sensors items))) /\
     nrm_server_list_callback (srv p st tm u) (Some id) (Some (MList NRM_MSG_TARGET_TYPE_SENSOR d)) =
     Ok (0, srv (pipe_send p (to_send msg (Some id))) st tm u) /\
     rebuild nrm_sensor_create_frommsg items = Ok (Some <$> (ptr <$> st_sensors st))) /\
  (exists items msg, norm_msg msg = Msg NRM_MSG_TYPE_LIST (D_list (MList NRM_MSG_TARGET_TYPE_SLICE (List_slices items))) /\
     nrm_server_list_callback (srv p st tm u) (Some id) (Some (MList NRM_MSG_TARGET_TYPE_SLICE d)) =
     Ok (0, srv (pipe_send p (to_send msg (Some id))) st tm u) /\
     rebuild nrm_slice_create_frommsg items = Ok (Some <$> (ptr <$> st_slices st))) /\
  (exists items msg objects, norm_msg msg = Msg NRM_MSG_TYPE_LIST (D_list (MList NRM_MSG_TARGET_TYPE_ACTUATOR (List_actuators items))) /\
     nrm_server_list_callback (srv p st tm u) (Some id) (Some (MList NRM_MSG_TARGET_TYPE_ACTUATOR d)) =
     Ok (0, srv (pipe_send p (to_send msg (Some id))) st tm u) /\
     rebuild nrm_actuator_create_frommsg items = Ok objects /\
     Forall2 (fun a b => exists b', b = Some b' /\ same_actuator a b') (ptr <$> st_actuators st) objects).
Proof.
  intros (_ & _ & Pc & Ps & Pl) Pa.
  unfold nrm_server_list_callback, nrm_server_list_scopes, nrm_server_list_sensors,
    nrm_server_list_slices, nrm_server_list_actuators, nrm_state_list_scopes, nrm_state_list_sensors,
    nrm_state_list_slices, nrm_state_list_actuators, rebuild. cbn [s_state srv]. rewrite !list_table_values.
  cbn -[map_outcome nrm_msg_scope_new nrm_msg_actuator_new srv reply].
  split_and!.
  - destruct (map_outcome_rebuild nrm_msg_scope_new norm_scope (fun m => nrm_scope_create_frommsg (Some m))
      (ptr <$> st_scopes st) (fun x z => z = Some x)) as (ys & zs & E1 & E2 & HF).
    { apply Forall_fmap. eapply Forall_impl; [exact Pc|]. intros e [Hu Hwf].
      destruct (scope_new_frommsg (ptr e) (uuid e) Hwf Hu) as (ms & H1 & H2). by eexists ms, _. }
    rewrite E1. apply Forall2_Some in HF as ->. eexists _, _. split; [|split; [reflexivity|exact E2]].
    reflexivity.
  - destruct (map_outcome_rebuild (fun s => nrm_msg_sensor_new (sensor_uuid s)) norm_sensor
      (fun m => nrm_sensor_create_frommsg (Some m)) (ptr <$> st_sensors st) (fun x z => z = Some x))
      as (ys & zs & E1 & E2 & HF).
    { apply Forall_fmap. eapply Forall_impl; [exact Ps|]. intros e Hu. cbn. rewrite Hu.
      eexists _, _. split; [reflexivity|]. split; [reflexivity|]. cbn in Hu. destruct (ptr e). unfold norm_string. cbn in *. by rewrite Hu. }
    rewrite E1. apply Forall2_Some in HF as ->. eexists _, _. split; [|split; [reflexivity|exact E2]].
    reflexivity.
  - destruct (map_outcome_rebuild (fun s => nrm_msg_slice_new (slice_uuid s)) norm_slice
      (fun m => nrm_slice_create_frommsg (Some m)) (ptr <$> st_slices st) (fun x z => z = Some x))
      as (ys & zs & E1 & E2 & HF).
    { apply Forall_fmap. eapply Forall_impl; [exact Pl|]. intros e Hu. cbn. rewrite Hu.
      eexists _, _. split; [reflexivity|]. split; [reflexivity|]. cbn in Hu. destruct (ptr e). unfold norm_string. cbn in *. by rewrite Hu. }
    rewrite E1. apply Forall2_Some in HF as ->. eexists _, _. split; [|split; [reflexivity|exact E2]].
    reflexivity.
  - destruct (map_outcome_rebuild nrm_msg_actuator_new norm_actuator
      (fun m => nrm_actuator_create_frommsg (Some m)) (ptr <$> st_actuators st)
      (fun a b => exists b', b = Some b' /\ same_actuator a b')) as (ys & zs & E1 & E2 & HF).
    { apply Forall_fmap. eapply Forall_impl; [exact Pa|]. intros e Hwf.
      destruct (actuator_new_frommsg (ptr e) Hwf) as (ms & b & H1 & H2 & H3 & _). by eexists ms, _; eauto. }
    rewrite E1. eexists _, _, _. split; [|split; [reflexivity|split; [exact E2|exact HF]]].
    reflexivity.
Qed.

(** *** Events *)

(** A series that can be sent: a scope with a name, normalised times. *)
Definition series_ok (t : nrm_timeserie) : Prop :=
  scope_wf (t_scope t) /\ is_Some (scope_uuid (t_scope t)) /\
  Forall (fun e => time_ok (e_time e)) (t_events t).

(** The events of a list of series, each with its sensor and scope. *)
Definition events_of (l : list nrm_timeserie) : list (string * nrm_scope * nrm_time * double) :=
  l ≫= fun t => (fun e => (t_sensor_uuid t, t_scope t, e_time e, e_value e)) <$> t_events t.

Lemma mfold_bind {A B S} (f : S -> B -> outcome S) (g : A -> list B) (h : S -> A -> outcome S) l s :
  (forall s x, x ∈ l -> h s x = mfold f s (g x)) -> mfold h s l = mfold f s (l ≫= g).
Proof.
  revert s; induction l as [|x l IH]; intros s Hh; [done|]. cbn.
  rewrite Hh by left. rewrite mfold_app. destruct (mfold f s (g x)); cbn; try done.
  apply IH. intros. apply Hh. by right.
Qed.

Lemma mfold_fmap {A B S} (f : S -> B -> outcome S) (g : A -> B) l s :
  mfold f s (g <$> l) = mfold (fun s x => f s (g x)) s l.
Proof. revert s; induction l as [|x l IH]; intros s; [done|]. cbn. destruct (f s (g x)); cbn; auto. Qed.

Lemma mfold_ext {A S} (f g : S -> A -> outcome S) l s :
  (forall s x, x ∈ l -> f s x = g s x) -> mfold f s l = mfold g s l.
Proof.
  revert s; induction l as [|x l IH]; intros s Hfg; [done|]. cbn. rewrite Hfg by left.
  destruct (g s x); cbn; try done. apply IH. intros. apply Hfg. by right.
Qed.

Lemma timeserie_new_ok t :
  series_ok t -> exists ms, nrm_msg_scope_new (t_scope t) = Ok ms /\
    nrm_scope_create_frommsg (Some (norm_scope ms)) = Ok (Some (t_scope t)) /\
    nrm_msg_timeserie_new t =
    Ok (MTimeserie (Some (t_sensor_uuid t)) (Some ms) (nrm_time_tons (t_start t))
          (nrm_msg_event_new <$> t_events t)).
Proof.
  intros (Hwf & [n Hn] & _). destruct (scope_new_frommsg (t_scope t) n Hwf Hn) as (ms & E1 & E2).
  exists ms. split_and!; [done..|]. unfold nrm_msg_timeserie_new. by rewrite E1.
Qed.

(** The server hands every event of the series that a client sends to its
    user's callback, once and in order, with the sensor, the scope, the time and
    the value the client gave. *)
Theorem events_request self id l cb :
  cb_event callbacks = Some cb -> Forall series_ok l ->
  exists ml, nrm_msg_timeserielist_new (Some l) = Ok ml /\
    nrm_server_events_callback callbacks self id (Some (norm_timeserie <$> ml)) =
    (self ← mfold (fun self '(sensor, scope, time, value) =>
              '(_, self) ← cb self sensor (Some scope) time value; Ok self) self (events_of l);
     Ok (0, self)).
Proof.
  intros Hcb Hl. unfold nrm_server_events_callback, events_of. cbn [deref mbind outcome_bind].
  rewrite Hcb. cbn [nrm_msg_timeserielist_new].
  assert (Hgoal : forall self, exists ml, map_outcome nrm_msg_timeserie_new l = Ok ml /\
    mfold (fun self ts => uuid ← deref (mt_sensor_uuid ts); scope ← nrm_scope_create_frommsg (mt_scope ts);
      mfold (fun self e => cb ← deref (Some cb);
        '(_, self) ← cb self uuid scope (nrm_time_fromns (me_time e)) (me_value e); Ok self)
        self (mt_events ts)) self (norm_timeserie <$> ml) =
    mfold (fun self '(sensor, scope, time, value) =>
      '(_, self) ← cb self sensor (Some scope) time value; Ok self) self
      (l ≫= fun t => (fun e => (t_sensor_uuid t, t_scope t, e_time e, e_value e)) <$> t_events t)).
  { induction Hl as [|t l Ht _ IH]; intros s; [by exists []|].
    destruct (timeserie_new_ok t Ht) as (ms & _ & Esc & Enew).
    destruct Ht as (_ & _ & Htime).
    destruct (IH s) as (ml & Eml & _). eexists (_ :: ml). split; [cbn; rewrite Enew; cbn; by rewrite Eml|].
    cbn [fmap list_fmap mfold mbind list_bind]. rewrite mfold_app.
    cbn [norm_timeserie mt_sensor_uuid mt_scope norm_string deref mbind outcome_bind mt_events
         fmap option_fmap option_map default]. rewrite Esc. cbn [mbind outcome_bind].
    change (list_fmap nrm_msg_event nrm_msg_event) with (@fmap list _ nrm_msg_event nrm_msg_event).
    rewrite !mfold_fmap.
    rewrite (mfold_ext _ (fun self e =>
      '(_, self) ← cb self (t_sensor_uuid t) (Some (t_scope t)) (e_time e) (e_value e); Ok self)).
    2:{ intros s' e He. cbn. rewrite Forall_forall in Htime. by rewrite fromns_tons by auto. }
    destruct (mfold _ s (t_events t)) as [s'| | |]; cbn [mbind outcome_bind]; try done.
    destruct (IH s') as (ml' & Eml' & Em). rewrite Eml in Eml'. injection Eml' as <-. exact Em. }
  destruct (Hgoal self) as (ml & E1 & E2). exists ml. split; [done|].
  cbn [deref mbind outcome_bind] in E2 |- *. by rewrite E2.
Qed.

(** *** Removing, leaving, and what stops the server *)

(** No request removes anything. Unless the bytes of [nrm_hash_remove]'s own
    variable happen to be a name of the state, a request to remove an actuator,
    a sensor or a slice is acknowledged and leaves the state as it was; one to
    remove a scope dereferences a NULL pointer. *)
Theorem remove_request p st tm (u : U) id name :
  Forall (safe_name at_uuid) (keys st) ->
  (forall t, t = NRM_MSG_TARGET_TYPE_ACTUATOR \/ t = NRM_MSG_TARGET_TYPE_SENSOR \/
             t = NRM_MSG_TARGET_TYPE_SLICE ->
     nrm_server_remove_callback at_uuid (srv p st tm u) (Some id) (Some (MRemove t (Some name))) =
     Ok (0, srv (pipe_send p (to_send ack (Some id))) st tm u)) /\
  nrm_server_remove_callback at_uuid (srv p st tm u) (Some id)
    (Some (MRemove NRM_MSG_TARGET_TYPE_SCOPE (Some name))) = Undefined.
Proof.
  unfold keys. rewrite !Forall_app. intros (K1 & K2 & K3 & K4).
  unfold nrm_server_remove_callback, nrm_server_remove_actuator, nrm_server_remove_slice,
    nrm_server_remove_sensor, nrm_server_remove_scope, nrm_state_remove_actuator,
    nrm_state_remove_slice, nrm_state_remove_sensor, nrm_state_remove_scope.
  cbn [deref mbind outcome_bind mr_type mr_uuid s_state srv].
  destruct (hash_remove_safe _ _ name K1) as [? ->], (hash_remove_safe _ _ name K2) as [? ->],
    (hash_remove_safe _ _ name K3) as [? ->], (hash_remove_safe _ _ name K4) as [? ->].
  split; [|reflexivity]. destruct st. by intros t [->|[->| ->]].
Qed.

(** A request to exit is acknowledged and ends the loop: [nrm_server_start]
    returns -1 and nothing that comes later is handled. *)
Lemma exit_request out st tm (u : U) id later :
  nrm_server_start callbacks at_uuid (Some (srv (Pipe out []) st tm u))
    (Ev_message (Ctrlmsg "RECV" (V_msg (Msg NRM_MSG_TYPE_EXIT D_none)) (V_uuid id)) :: later) =
  Ok (Some (-1), Some (srv (Pipe (out ++ [to_send ack (Some id)]) []) st tm u)).
Proof. unfold nrm_server_start. by rewrite zloop_handles. Qed.

(** A request to add an actuator of a type that the library does not know
    stops the server: an assertion fails. *)
Theorem unknown_actuator_aborts self id ma :
  ma_type ma <> NRM_ACTUATOR_TYPE_DISCRETE -> ma_type ma <> NRM_ACTUATOR_TYPE_CONTINUOUS ->
  dispatch callbacks at_uuid self
    (Msg NRM_MSG_TYPE_ADD (D_add (MAdd NRM_MSG_TARGET_TYPE_ACTUATOR (Add_actuator ma)))) id
  = Assert_failed.
Proof.
  intros H1 H2. change (dispatch _ _ _ _ _) with
    ('(ret, self) ← nrm_server_add_actuator self id (Some ma); reply self ret id).
  by rewrite unknown_actuator_crashes.
Qed.
End requests.

(** ** Witnesses *)

(** Callbacks that count what they are called for. *)
Definition counting : nrm_server_user_callbacks nat :=
  Callbacks (Some (fun s _ _ _ _ => Ok (0, with_user s (S (s_user s)))))
    (Some (fun s _ _ => Ok (0, with_user s (S (s_user s))))) None None None.

Definition zeros (n : nat) : string := Nat.iter n (String "000"%char) EmptyString.

Definition limited : nrm_actuator :=
  Actuator (Data NRM_ACTUATOR_TYPE_CONTINUOUS (Some "a"%string) (Some "c"%string) d0
              (U_limits d0 (d_of_Z 4))) nrm_actuator_continuous_ops.
Definition one_actuator : nrm_state := State [Elem "a" limited] [] [] [].

Lemma one_actuator_ok : state_ok one_actuator.
Proof.
  split; [split_and!; (apply NoDup_singleton || constructor)|].
  split_and!; try constructor; [|constructor]. cbn. split_and!; [done|by eexists|done|done].
Qed.

Lemma zeros_safe c s : Ascii.eqb c "000"%char = false -> safe_name zeros (String c s).
Proof. intros Hc n. destruct n; [done|]. intros [= <- _]. done. Qed.

Lemma one_actuator_server_ok : server_ok zeros (fun _ => True) (srv (Pipe [] []) one_actuator [] 0%nat).
Proof.
  split; [split; [by eexists|done]|]. split; [apply one_actuator_ok|]. repeat constructor. by apply zeros_safe.
Qed.

Lemma counting_ok : callbacks_ok counting zeros (fun _ => True).
Proof.
  split; cbn; [..|done|done|done]; eexists; (split; [reflexivity|]).
  - intros u s t v _ self Hok. by eexists _, _.
  - split; [intros a v self Hok; by eexists _, _|]. by intros self a v rc self' [= <- <-].
Qed.

(** An actuation and a timer are handled; the request to remove a scope that comes
    next crashes the server, and the tick after it is not handled. *)
Definition from_me (m : nrm_msg) : loop_event := Ev_message (Ctrlmsg "RECV" (V_msg (norm_msg m)) (V_uuid "me")).
Definition actuate_a : nrm_msg := Msg NRM_MSG_TYPE_ACTUATE (D_actuate (MActuate (Some "a"%string) (d_of_Z 9))).
Definition remove_s : nrm_msg :=
  Msg NRM_MSG_TYPE_REMOVE (D_remove (MRemove NRM_MSG_TARGET_TYPE_SCOPE (Some "s"%string))).

Lemma server_loop_safe_witness :
  let start := nrm_server_start counting zeros (Some (srv (Pipe [] []) one_actuator [] 0%nat)) in
  let fate := loop_fate counting zeros (fun _ => True) (srv (Pipe [] []) one_actuator [] 0%nat) in
  (exists self', start [from_me actuate_a; Ev_timer] = Ok (None, Some self')) /\
  fate [from_me actuate_a; Ev_timer] (start [from_me actuate_a; Ev_timer]) /\
  start [from_me actuate_a; Ev_timer; from_me remove_s; Ev_timer] = Undefined /\
  fate [from_me actuate_a; Ev_timer; from_me remove_s; Ev_timer]
    (start [from_me actuate_a; Ev_timer; from_me remove_s; Ev_timer]).
Proof.
  assert (Hev : forall m, request_ok zeros m -> wakeup_ok zeros (from_me m)) by (intros m Hm; by exists m, "me"%string).
  split_and!; [eexists; vm_compute; reflexivity| |vm_compute; reflexivity|];
    (apply (server_loop_safe counting zeros (fun _ => True)); [exact counting_ok|exact one_actuator_server_ok|]);
    repeat (constructor; [first [by apply Hev|exact I]|]); constructor.
Defined.

Lemma actuate_request_witness :
  exists rc v' owner st',
    nrm_actuator_corrected_value (Some limited) (Some (d_of_Z 9)) = Ok (rc, Some v') /\
    a_clientid (a_data limited) = Some owner /\
    nrm_server_actuate_callback counting (srv (Pipe [] []) one_actuator [] 0%nat) (Some "me"%string)
      (Some (MActuate (Some "a"%string) (d_of_Z 9))) =
    Ok (0, srv (pipe_send
                 (pipe_send (Pipe [] []) (to_send (Msg NRM_MSG_TYPE_ACTUATE (D_actuate (MActuate (Some "a"%string) v')))
                                 (Some owner)))
                 (to_send ack (Some "me"%string))) st' [] 1%nat) /\
    state_ok st' /\ st_scopes st' = [] /\ st_sensors st' = [] /\ st_slices st' = [] /\
    (forall k, HASH_FIND (st_actuators st') k =
       if decide (k = "a"%string) then Some (Elem "a" (with_value limited v'))
       else HASH_FIND (st_actuators one_actuator) k).
Proof.
  apply (proj2 (actuate_request counting (Pipe [] []) one_actuator [] 0%nat "me" "a" (d_of_Z 9)
    one_actuator_ok) (Elem "a" limited) (fun s _ _ => Ok (0, with_user s (S (s_user s)))) 0 1%nat);
    reflexivity.
Defined.

Lemma add_actuator_request_witness :
  let ma := MActuator (Some "a"%string) (Some "c"%string) d0 1 (AD_continuous d0 (d_of_Z 4)) in
  exists b mb,
    same_actuator (with_clientid limited (Some "me"%string)) b /\ nrm_msg_actuator_new b = Ok mb /\
    nrm_server_add_callback (srv (Pipe [] []) (State [] [] [] []) [] tt) (Some "me"%string)
      (Some (MAdd NRM_MSG_TARGET_TYPE_ACTUATOR (Add_actuator (norm_actuator ma)))) =
    Ok (0, srv (pipe_send (Pipe [] []) (to_send (Msg NRM_MSG_TYPE_ADD
             (D_add (MAdd NRM_MSG_TARGET_TYPE_ACTUATOR (Add_actuator mb)))) (Some "me"%string)))
             (State [Elem "a" b] [] [] []) [] tt).
Proof.
  intros ma. apply (add_actuator_request (Pipe [] []) (State [] [] [] []) [] tt "me" limited ma "a");
    [apply state_ok_empty|by split; [|eexists]|reflexivity|vm_compute; reflexivity].
Defined.

Lemma list_requests_witness :
  exists items msg objects, norm_msg msg = Msg NRM_MSG_TYPE_LIST (D_list (MList NRM_MSG_TARGET_TYPE_ACTUATOR (List_actuators items))) /\
     nrm_server_list_callback (srv (Pipe [] []) one_actuator [] tt) (Some "me"%string)
       (Some (MList NRM_MSG_TARGET_TYPE_ACTUATOR List_none)) =
     Ok (0, srv (pipe_send (Pipe [] []) (to_send msg (Some "me"%string))) one_actuator [] tt) /\
     rebuild nrm_actuator_create_frommsg items = Ok objects /\
     Forall2 (fun a b => exists b', b = Some b' /\ same_actuator a b') [limited] objects.
Proof.
  apply (proj2 (proj2 (proj2 (list_requests (Pipe [] []) one_actuator [] tt "me" List_none
    one_actuator_ok ltac:(repeat constructor; by eexists))))).
Defined.

Lemma events_request_witness :
  let sc := Scope (Some "s"%string) [bitmap_zero; bitmap_zero; bitmap_zero] in
  let t := Timeserie "e" sc [Event (Time 1 2) (d_of_Z 3)] (Time 0 0) in
  exists ml, nrm_msg_timeserielist_new (Some [t]) = Ok ml /\
    nrm_server_events_callback counting (srv (Pipe [] []) one_actuator [] 0%nat) None
      (Some (norm_timeserie <$> ml)) = Ok (0, srv (Pipe [] []) one_actuator [] 1%nat).
Proof.
  intros sc t. apply (events_request counting (srv (Pipe [] []) one_actuator [] 0%nat) None [t]
    (fun s _ _ _ _ => Ok (0, with_user s (S (s_user s))))); [reflexivity|].
  repeat constructor; cbn; try lia; try apply bitmap_zero_wf. by eexists.
Defined.

Lemma remove_request_witness :
  nrm_server_remove_callback zeros (srv (Pipe [] []) one_actuator [] tt) (Some "me"%string)
    (Some (MRemove NRM_MSG_TARGET_TYPE_SCOPE (Some "a"%string))) = Undefined.
Proof.
  apply (remove_request zeros (Pipe [] []) one_actuator [] tt "me" "a").
  repeat constructor. by apply zeros_safe.
Defined.

Lemma unknown_actuator_aborts_witness :
  dispatch counting zeros (srv (Pipe [] []) one_actuator [] 0%nat)
    (Msg NRM_MSG_TYPE_ADD (D_add (MAdd NRM_MSG_TARGET_TYPE_ACTUATOR
       (Add_actuator (MActuator (Some "a"%string) None d0 2 AD_none))))) (Some "me"%string)
  = Assert_failed.
Proof. apply unknown_actuator_aborts; discriminate. Defined.

Lemma exit_request_witness :
  nrm_server_start counting zeros (Some (srv (Pipe [] []) one_actuator [] 0%nat))
    [Ev_message (Ctrlmsg "RECV" (V_msg (Msg NRM_MSG_TYPE_EXIT D_none)) (V_uuid "me")); Ev_timer] =
  Ok (Some (-1), Some (srv (Pipe [to_send ack (Some "me"%string)] []) one_actuator [] 0%nat)).
Proof. apply (exit_request counting zeros [] one_actuator [] 0%nat "me" [Ev_timer]). Defined.
