(* ===== verification/Client.v ===== *)
(** * The client API (src/client.c)

    Every request is a message sent through the role of the client and a reply
    received through it. The file is written against the operations of a role
    (Roles), whatever its data is; vectors are lists; mutexes, which only order
    the threads of one client, and logs are left out. *)

From S2P Require Import Prelude Vectors Doubles Hashes Bitmaps Json Timers Scopes Actuators.
From S2P Require Import Events Messages MsgJson Roles.

(** The functions that the client registers with its role; their argument is the
    client. *)
Inductive client_callback := nrm_client__sub_callback_fn | nrm_client__actuate_callback_fn.

Section client.
Context `{Qsort} {D W : Type}.

(** ** Data *)

(** [struct nrm_client_s]; a listener of the user changes the world [W]. *)
Record nrm_client := Client {
  k_role : option (nrm_role D client_callback);
  user_fn : option (string -> nrm_time -> option nrm_scope -> double -> W -> outcome W);
  actuate_fn : option (option string -> double -> W -> outcome W)
}.

Definition client_with_role (c : nrm_client) (r : option (nrm_role D client_callback)) : nrm_client :=
  Client r (user_fn c) (actuate_fn c).

(** [role] is the result of [nrm_role_client_create_fromparams]. *)
Definition nrm_client_create (client_null oom : bool) (uri : option string)
    (role : option (nrm_role D client_callback)) : Z * option nrm_client :=
  match uri with
  | None => (- NRM_EINVAL, None)
  | Some _ =>
      if client_null then (- NRM_EINVAL, None)
      else if oom then (- NRM_ENOMEM, None)
      else match role with
           | None => (- NRM_EINVAL, None)
           | Some _ => (0, Some (Client role None None))
           end
  end.

(** ** Requests *)

(** [nrm_msg_create] and [nrm_msg_fill] with a valid type. *)
Definition request (type : Z) : option nrm_msg := snd (nrm_msg_fill (nrm_msg_create false) type).

(** [nrm_role_send] and [nrm_role_recv]; the reply is dereferenced for its type. *)
Definition rpc (c : nrm_client) (msg : option nrm_msg) : outcome (nrm_msg * nrm_client) :=
  '(_, r) ← nrm_role_send (k_role c) msg None;
  '(reply, _, r) ← nrm_role_recv r;
  reply ← deref reply;
  Ok (reply, client_with_role c r).

(** The assertions on the type of a reply and of its object. *)
Definition reply_add (msg : nrm_msg) (target : Z) : outcome nrm_msg_add :=
  _ ← c_assert (m_type msg =? NRM_MSG_TYPE_ADD);
  add ← get_add msg; add ← deref add;
  _ ← c_assert (mad_type add =? target);
  Ok add.
Definition reply_list (msg : nrm_msg) (target : Z) : outcome nrm_msg_list :=
  _ ← c_assert (m_type msg =? NRM_MSG_TYPE_LIST);
  l ← get_list msg; l ← deref l;
  _ ← c_assert (ml_type l =? target);
  Ok l.
Definition reply_ack (msg : nrm_msg) : outcome unit := c_assert (m_type msg =? NRM_MSG_TYPE_ACK).

Definition nrm_client_actuate (client : option nrm_client) (actuator : option nrm_actuator)
    (value : double) : outcome (Z * option nrm_client) :=
  match client, actuator with
  | Some c, Some _ =>
      err ← nrm_actuator_validate_value actuator value;
      if negb (err =? 0) then Ok (err, client)
      else
        uuid ← nrm_actuator_uuid actuator;
        '(_, msg) ← nrm_msg_set_actuate (request NRM_MSG_TYPE_ACTUATE) uuid value;
        '(reply, c) ← rpc c msg;
        _ ← reply_ack reply;
        Ok (0, Some c)
  | _, _ => Ok (- NRM_EINVAL, client)
  end.

(** The object that is added is updated from the reply. *)
Definition nrm_client_add_actuator (client : option nrm_client) (actuator : option nrm_actuator)
    : outcome (Z * option nrm_client * option nrm_actuator) :=
  match client, actuator with
  | Some c, Some a =>
      '(_, msg) ← nrm_msg_set_add_actuator (request NRM_MSG_TYPE_ADD) a;
      '(reply, c) ← rpc c msg;
      add ← reply_add reply NRM_MSG_TARGET_TYPE_ACTUATOR;
      m ← get_add_actuator add;
      '(_, a) ← nrm_actuator_update_frommsg actuator m;
      Ok (0, Some c, a)
  | _, _ => Ok (- NRM_EINVAL, client, actuator)
  end.

Definition nrm_client_add_scope (client : option nrm_client) (scope : option nrm_scope)
    : outcome (Z * option nrm_client * option nrm_scope) :=
  match client, scope with
  | Some c, Some s =>
      '(_, msg) ← nrm_msg_set_add_scope (request NRM_MSG_TYPE_ADD) s;
      '(reply, c) ← rpc c msg;
      add ← reply_add reply NRM_MSG_TARGET_TYPE_SCOPE;
      m ← get_add_scope add;
      '(_, s) ← nrm_scope_update_frommsg scope m;
      Ok (0, Some c, s)
  | _, _ => Ok (- NRM_EINVAL, client, scope)
  end.

Definition nrm_client_add_slice (client : option nrm_client) (slice : option nrm_slice)
    : outcome (Z * option nrm_client * option nrm_slice) :=
  match client, slice with
  | Some c, Some s =>
      '(_, msg) ← nrm_msg_set_add_slice (request NRM_MSG_TYPE_ADD) s;
      '(reply, c) ← rpc c msg;
      add ← reply_add reply NRM_MSG_TARGET_TYPE_SLICE;
      m ← get_add_slice add;
      let _ := nrm_slice_update_frommsg slice m in
      Ok (0, Some c, slice)
  | _, _ => Ok (- NRM_EINVAL, client, slice)
  end.

Definition nrm_client_add_sensor (client : option nrm_client) (sensor : option nrm_sensor)
    : outcome (Z * option nrm_client * option nrm_sensor) :=
  match client, sensor with
  | Some c, Some s =>
      '(_, msg) ← nrm_msg_set_add_sensor (request NRM_MSG_TYPE_ADD) s;
      '(reply, c) ← rpc c msg;
      add ← reply_add reply NRM_MSG_TARGET_TYPE_SENSOR;
      m ← get_add_sensor add;
      let _ := nrm_sensor_update_frommsg sensor m in
      Ok (0, Some c, sensor)
  | _, _ => Ok (- NRM_EINVAL, client, sensor)
  end.

(** ** Listing and finding

    The vectors hold pointers to new objects. *)

(** The objects made from the items of a list; [List_none] is a NULL pointer. *)
Definition items_of {M} (get : nrm_msg_list -> outcome (option (list M))) (l : nrm_msg_list)
    : outcome (list M) := items ← get l; deref items.

Definition nrm_client_list_actuators (client : option nrm_client) (out_null : bool)
    : outcome (Z * option nrm_client * list (option nrm_actuator)) :=
  match client with
  | Some c =>
      if out_null then Ok (- NRM_EINVAL, client, [])
      else
        '(_, msg) ← nrm_msg_set_list_actuators (request NRM_MSG_TYPE_LIST) None;
        '(reply, c) ← rpc c msg;
        l ← reply_list reply NRM_MSG_TARGET_TYPE_ACTUATOR;
        items ← items_of get_list_actuators l;
        ret ← map_outcome (fun m => nrm_actuator_create_frommsg (Some m)) items;
        Ok (0, Some c, ret)
  | None => Ok (- NRM_EINVAL, client, [])
  end.

Definition nrm_client_list_scopes (client : option nrm_client) (out_null : bool)
    : outcome (Z * option nrm_client * list (option nrm_scope)) :=
  match client with
  | Some c =>
      if out_null then Ok (- NRM_EINVAL, client, [])
      else
        '(_, msg) ← nrm_msg_set_list_scopes (request NRM_MSG_TYPE_LIST) None;
        '(reply, c) ← rpc c msg;
        l ← reply_list reply NRM_MSG_TARGET_TYPE_SCOPE;
        items ← items_of get_list_scopes l;
        ret ← map_outcome (fun m => nrm_scope_create_frommsg (Some m)) items;
        Ok (0, Some c, ret)
  | None => Ok (- NRM_EINVAL, client, [])
  end.

Definition nrm_client_list_sensors (client : option nrm_client) (out_null : bool)
    : outcome (Z * option nrm_client * list (option nrm_sensor)) :=
  match client with
  | Some c =>
      if out_null then Ok (- NRM_EINVAL, client, [])
      else
        '(_, msg) ← nrm_msg_set_list_sensors (request NRM_MSG_TYPE_LIST) None;
        '(reply, c) ← rpc c msg;
        l ← reply_list reply NRM_MSG_TARGET_TYPE_SENSOR;
        items ← items_of get_list_sensors l;
        ret ← map_outcome (fun m => nrm_sensor_create_frommsg (Some m)) items;
        Ok (0, Some c, ret)
  | None => Ok (- NRM_EINVAL, client, [])
  end.

Definition nrm_client_list_slices (client : option nrm_client) (out_null : bool)
    : outcome (Z * option nrm_client * list (option nrm_slice)) :=
  match client with
  | Some c =>
      if out_null then Ok (- NRM_EINVAL, client, [])
      else
        '(_, msg) ← nrm_msg_set_list_slices (request NRM_MSG_TYPE_LIST) None;
        '(reply, c) ← rpc c msg;
        l ← reply_list reply NRM_MSG_TARGET_TYPE_SLICE;
        items ← items_of get_list_slices l;
        ret ← map_outcome (fun m => nrm_slice_create_frommsg (Some m)) items;
        Ok (0, Some c, ret)
  | None => Ok (- NRM_EINVAL, client, [])
  end.

(** What [nrm_client_find] puts in its vector depends on the type. *)
Inductive found :=
| Found_actuators (l : list (option nrm_actuator))
| Found_scopes (l : list (option nrm_scope))
| Found_sensors (l : list (option nrm_sensor))
| Found_slices (l : list (option nrm_slice)).

(** The loop that makes the objects whose name is [uuid]; [strcmp] dereferences
    the name of every item. *)
Fixpoint find_items {M A} (name : M -> option string) (create : M -> outcome (option A))
    (uuid : string) (items : list M) : outcome (list (option A)) :=
  match items with
  | [] => Ok []
  | m :: items =>
      n ← deref (name m);
      if bool_decide (uuid = n) then x ← create m; xs ← find_items name create uuid items; Ok (x :: xs)
      else find_items name create uuid items
  end.

Definition nrm_client_find (client : option nrm_client) (type : Z) (uuid : option string)
    : outcome (Z * option nrm_client * option found) :=
  match client, uuid with
  | Some c, Some u =>
      if (type <? 0) || (type >=? NRM_MSG_TARGET_TYPE_MAX) then Ok (- NRM_EINVAL, client, None)
      else
        let msg := request NRM_MSG_TYPE_LIST in
        '(_, msg) ← (if type =? NRM_MSG_TARGET_TYPE_ACTUATOR then nrm_msg_set_list_actuators msg None
                     else if type =? NRM_MSG_TARGET_TYPE_SCOPE then nrm_msg_set_list_scopes msg None
                     else if type =? NRM_MSG_TARGET_TYPE_SENSOR then nrm_msg_set_list_sensors msg None
                     else if type =? NRM_MSG_TARGET_TYPE_SLICE then nrm_msg_set_list_slices msg None
                     else Assert_failed);
        m ← deref msg;
        _ ← reply_list m type;
        '(reply, c) ← rpc c msg;
        l ← reply_list reply type;
        ret ← (if type =? NRM_MSG_TARGET_TYPE_ACTUATOR then
                 items ← items_of get_list_actuators l;
                 r ← find_items ma_uuid (fun m => nrm_actuator_create_frommsg (Some m)) u items;
                 Ok (Some (Found_actuators r))
               else if type =? NRM_MSG_TARGET_TYPE_SCOPE then
                 items ← items_of get_list_scopes l;
                 r ← find_items ms_uuid (fun m => nrm_scope_create_frommsg (Some m)) u items;
                 Ok (Some (Found_scopes r))
               else if type =? NRM_MSG_TARGET_TYPE_SENSOR then
                 items ← items_of get_list_sensors l;
                 r ← find_items mse_uuid (fun m => nrm_sensor_create_frommsg (Some m)) u items;
                 Ok (Some (Found_sensors r))
               else if type =? NRM_MSG_TARGET_TYPE_SLICE then
                 items ← items_of get_list_slices l;
                 r ← find_items msl_uuid (fun m => nrm_slice_create_frommsg (Some m)) u items;
                 Ok (Some (Found_slices r))
               else Undefined);
        Ok (0, Some c, ret)
  | _, _ => Ok (- NRM_EINVAL, client, None)
  end.

(** ** Removing *)

Definition nrm_client_remove_actuator (client : option nrm_client) (actuator : option nrm_actuator)
    : outcome (Z * option nrm_client) :=
  match client, actuator with
  | Some c, Some _ =>
      uuid ← nrm_actuator_uuid actuator;
      '(_, msg) ← nrm_msg_set_remove (request NRM_MSG_TYPE_REMOVE) NRM_MSG_TARGET_TYPE_ACTUATOR uuid;
      '(reply, c) ← rpc c msg;
      _ ← reply_ack reply;
      Ok (0, Some c)
  | _, _ => Ok (- NRM_EINVAL, client)
  end.

Definition nrm_client_remove_scope (client : option nrm_client) (scope : option nrm_scope)
    : outcome (Z * option nrm_client) :=
  match client, scope with
  | Some c, Some s =>
      '(_, msg) ← nrm_msg_set_remove (request NRM_MSG_TYPE_REMOVE) NRM_MSG_TARGET_TYPE_SCOPE (scope_uuid s);
      '(reply, c) ← rpc c msg;
      _ ← reply_ack reply;
      Ok (0, Some c)
  | _, _ => Ok (- NRM_EINVAL, client)
  end.

Definition nrm_client_remove_sensor (client : option nrm_client) (sensor : option nrm_sensor)
    : outcome (Z * option nrm_client) :=
  match client, sensor with
  | Some c, Some s =>
      '(_, msg) ← nrm_msg_set_remove (request NRM_MSG_TYPE_REMOVE) NRM_MSG_TARGET_TYPE_SENSOR (sensor_uuid s);
      '(reply, c) ← rpc c msg;
      _ ← reply_ack reply;
      Ok (0, Some c)
  | _, _ => Ok (- NRM_EINVAL, client)
  end.

Definition nrm_client_remove_slice (client : option nrm_client) (slice : option nrm_slice)
    : outcome (Z * option nrm_client) :=
  match client, slice with
  | Some c, Some s =>
      '(_, msg) ← nrm_msg_set_remove (request NRM_MSG_TYPE_REMOVE) NRM_MSG_TARGET_TYPE_SLICE (slice_uuid s);
      '(reply, c) ← rpc c msg;
      _ ← reply_ack reply;
      Ok (0, Some c)
  | _, _ => Ok (- NRM_EINVAL, client)
  end.

(** ** Events, exit and ticks *)

(** Nothing is received. Where no series was created the pointer that is asserted
    not to be NULL is not initialised. *)
Definition nrm_client_send_event (client : option nrm_client) (time : nrm_time)
    (sensor : option nrm_sensor) (scope : option nrm_scope) (value : double)
    : outcome (Z * option nrm_client) :=
  match client, sensor, scope with
  | Some c, Some s, Some _ =>
      let '(_, timeserie) := nrm_timeserie_create false false 0 (sensor_uuid s) scope in
      _ ← deref timeserie;
      let '(_, timeserie) := nrm_timeserie_add_event timeserie time value in
      t ← deref timeserie;
      '(_, msg) ← nrm_msg_set_events (request NRM_MSG_TYPE_EVENTS) (Some [t]);
      '(_, r) ← nrm_role_send (k_role c) msg None;
      _ ← nrm_timeserie_destroy (Some timeserie);
      Ok (0, Some (client_with_role c r))
  | _, _, _ => Ok (- NRM_EINVAL, client)
  end.

(** The acknowledgement of the server is not received. *)
Definition nrm_client_send_exit (client : option nrm_client) : outcome (Z * option nrm_client) :=
  match client with
  | Some c =>
      '(_, r) ← nrm_role_send (k_role c) (request NRM_MSG_TYPE_EXIT) None;
      Ok (0, Some (client_with_role c r))
  | None => Ok (- NRM_EINVAL, client)
  end.

Definition nrm_client_send_tick (client : option nrm_client) : outcome (Z * option nrm_client) :=
  match client with
  | Some c =>
      '(reply, c) ← rpc c (request NRM_MSG_TYPE_TICK);
      _ ← reply_ack reply;
      Ok (0, Some c)
  | None => Ok (- NRM_EINVAL, client)
  end.

(** ** Listeners *)

Definition nrm_client__sub_callback (c : nrm_client) (msg : option nrm_msg) (w : W) : outcome W :=
  match user_fn c with
  | None => Ok w
  | Some fn =>
      m ← deref msg;
      series ← get_events m; series ← deref series;
      mfold (fun w ts =>
        uuid ← deref (mt_sensor_uuid ts);
        scope ← nrm_scope_create_frommsg (mt_scope ts);
        mfold (fun w e => fn uuid (nrm_time_fromns (me_time e)) scope (me_value e) w) w (mt_events ts))
        w series
  end.

Definition nrm_client__actuate_callback (c : nrm_client) (msg : option nrm_msg) (w : W) : outcome W :=
  match actuate_fn c with
  | None => Ok w
  | Some fn =>
      m ← deref msg;
      a ← get_actuate m; a ← deref a;
      fn (mac_uuid a) (mac_value a) w
  end.

(** The function that a registered callback is, on its client. *)
Definition run_callback (c : nrm_client) (f : client_callback) : option nrm_msg -> W -> outcome W :=
  match f with
  | nrm_client__sub_callback_fn => nrm_client__sub_callback c
  | nrm_client__actuate_callback_fn => nrm_client__actuate_callback c
  end.

Definition nrm_client_set_event_listener (client : option nrm_client)
    (fn : option (string -> nrm_time -> option nrm_scope -> double -> W -> outcome W))
    : Z * option nrm_client :=
  match client, fn with
  | Some c, Some _ => (0, Some (Client (k_role c) fn (actuate_fn c)))
  | _, _ => (- NRM_EINVAL, client)
  end.

Definition nrm_client_start_event_listener (client : option nrm_client) (topic : option string)
    : outcome (Z * option nrm_client) :=
  match client with
  | Some c =>
      '(_, r) ← nrm_role_register_sub_cb (k_role c) (Some nrm_client__sub_callback_fn);
      '(_, r) ← nrm_role_sub r topic;
      Ok (0, Some (client_with_role c r))
  | None => Ok (- NRM_EINVAL, client)
  end.

Definition nrm_client_set_actuate_listener (client : option nrm_client)
    (fn : option (option string -> double -> W -> outcome W)) : Z * option nrm_client :=
  match client, fn with
  | Some c, Some _ => (0, Some (Client (k_role c) (user_fn c) fn))
  | _, _ => (- NRM_EINVAL, client)
  end.

Definition nrm_client_start_actuate_listener (client : option nrm_client)
    : outcome (Z * option nrm_client) :=
  match client with
  | Some c =>
      '(_, r) ← nrm_role_register_cmd_cb (k_role c) (Some nrm_client__actuate_callback_fn);
      Ok (0, Some (client_with_role c r))
  | None => Ok (- NRM_EINVAL, client)
  end.

(** The pointer after the call. *)
Definition nrm_client_destroy (client : option (option nrm_client)) : outcome (option nrm_client) :=
  match client with
  | Some (Some c) => _ ← nrm_role_destroy (k_role c); Ok None
  | _ => Ok None
  end.
End client.
Arguments nrm_client _ _ : clear implicits.

(** ** One event *)

(** The series that is made of one event, and its message. *)
Definition one_event (sensor : string) (scope : nrm_scope) (time : nrm_time) (value : double)
    : nrm_timeserie :=
  Timeserie sensor scope [Event time value]
    (if nrm_time_tons (nrm_time_fromns 0) <? nrm_time_tons time then time else nrm_time_fromns 0).

Definition event_msg (sensor : string) (ms : nrm_msg_scope) (scope : nrm_scope) (time : nrm_time)
    (value : double) : nrm_msg :=
  Msg NRM_MSG_TYPE_EVENTS (D_events [MTimeserie (Some sensor) (Some ms)
    (nrm_time_tons (t_start (one_event sensor scope time value))) [MEvent (nrm_time_tons time) value]]).

(** Sending an event puts its message on the pipe of a client's role. *)
Section one_event.
Context {W : Type}.

Definition on_pipe (out : list ctrlmsg) (inp : list ctrlmsg)
    (sub cmd : option client_callback)
    (fn : option (string -> nrm_time -> option nrm_scope -> double -> W -> outcome W))
    (act : option (option string -> double -> W -> outcome W)) : nrm_client (nrm_role_client client_callback) W :=
  Client (Some (Role (Some nrm_role_client_ops) (RoleClient (Pipe out inp) sub cmd))) fn act.

(** The control message of an event from a named sensor and scope. *)
Definition event_ctrl (sensor : string) (ms : nrm_msg_scope) (scope : nrm_scope)
    (e : nrm_time * double) : ctrlmsg :=
  Ctrlmsg "SEND" (V_msg (event_msg sensor ms scope e.1 e.2)) V_null.

Lemma send_event_out out inp sub cmd fn act time sensor scope c ms value :
  scope_wf scope -> scope_uuid scope = Some c -> nrm_msg_scope_new scope = Ok ms ->
  nrm_client_send_event (Some (on_pipe out inp sub cmd fn act)) time (Some (Sensor (Some sensor)))
    (Some scope) value =
  Ok (0, Some (on_pipe (out ++ [event_ctrl sensor ms scope (time, value)]) inp sub cmd fn act)).
Proof.
  intros Hwf Hu Hms. unfold nrm_client_send_event. cbn -[nrm_msg_scope_new nrm_time_tons nrm_time_fromns].
  unfold nrm_msg_timeserie_new. cbn -[nrm_msg_scope_new nrm_time_tons nrm_time_fromns].
  rewrite Hms. reflexivity.
Qed.
End one_event.
