(* ===== verification/Objects.v ===== *)
(** * What the objects of a state have in common

    Actuators, scopes, sensors and slices are each put into a message, sent, and made
    again by the one that receives it, one by one or as a list. [wire_object] is what
    the four kinds promise of that; what is proved from it holds for all of them. *)

From S2P Require Import Prelude Vectors Doubles Hashes Bitmaps Json Scopes Actuators.
From S2P Require Import Messages MsgJson States Roles Server Client.

(** ** The interface *)

Class wire_object (A M : Type) := WireObject {
  obj_new : A -> outcome M;                     (* nrm_msg_..._new *)
  obj_norm : M -> M;                            (* through packing and parsing *)
  obj_name : M -> option string;
  obj_create : option M -> outcome (option A);  (* nrm_..._create_frommsg *)
  obj_msg_ok : M -> Prop;                       (* what protobuf-c can pack *)
  obj_ok : string -> A -> Prop;                 (* well formed, of this name *)
  obj_same : A -> A -> Prop;                    (* what arrives of what was sent *)
  obj_arrives k x : obj_ok k x ->
    exists m y, obj_new x = Ok m /\ obj_msg_ok m /\ obj_name (obj_norm m) = Some k /\
      obj_create (Some (obj_norm m)) = Ok (Some y) /\ obj_same x y;
  obj_same_ok k x y : obj_ok k x -> obj_same x y -> obj_ok k y
}.

(** ** The four kinds *)

Section instances.
Context `{Qsort}.

Lemma scope_new_name s name ms :
  scope_uuid s = Some name -> nrm_msg_scope_new s = Ok ms -> ms_uuid ms = Some name.
Proof.
  unfold nrm_msg_scope_new. intros -> Hms. cbn [strdup deref mbind outcome_bind] in Hms.
  repeat (apply bind_Ok_inv in Hms as (? & ? & Hms)).
  by apply (f_equal (fun o => match o with Ok m => ms_uuid m | _ => None end)) in Hms.
Qed.

Lemma actuator_new_name a name ma :
  a_uuid (a_data a) = Some name -> nrm_msg_actuator_new a = Ok ma -> ma_uuid ma = Some name.
Proof.
  unfold nrm_msg_actuator_new. intros -> Hma. cbn [strdup deref mbind outcome_bind] in Hma.
  repeat (apply bind_Ok_inv in Hma as (? & ? & Hma)).
  by apply (f_equal (fun o => match o with Ok m => ma_uuid m | _ => None end)) in Hma.
Qed.

Lemma same_actuator_wf a b : actuator_wf a -> same_actuator a b -> actuator_wf b.
Proof.
  intros [Hwf Hu] (E1 & _ & _ & E2 & E3 & Hun). unfold actuator_wf. rewrite E1, E2, E3.
  split; [|done]. revert Hwf Hun. destruct (a_u (a_data a)), (a_u (a_data b)); try done.
  intros (? & ? & Hnan) [Hp _]. split_and!; [done..|]. by rewrite Hp.
Qed.

Lemma actuator_new_msg_ok a ma : actuator_wf a -> nrm_msg_actuator_new a = Ok ma -> actuator_msg_ok ma.
Proof.
  intros [Hwf [u Hu]]. destruct a as [[t u' c v un] ops]. cbn in *. subst u'.
  destruct un; [destruct Hwf as (-> & _ & _)|destruct Hwf as (-> & _)]; cbn; by intros [= <-].
Qed.

#[export, refine] Instance scope_object : wire_object nrm_scope nrm_msg_scope :=
  WireObject _ _ nrm_msg_scope_new norm_scope ms_uuid nrm_scope_create_frommsg (fun _ => True)
    (fun k s => scope_uuid s = Some k /\ scope_wf s) eq _ _.
Proof.
  - intros k s [Hu Hwf]. destruct (scope_new_frommsg s k Hwf Hu) as (ms & E & Efrom).
    exists ms, s. split_and!; [done..| |done|done]. cbn. by rewrite (scope_new_name s k ms).
  - by intros k x y Hx <-.
Defined.

#[export, refine] Instance sensor_object : wire_object nrm_sensor nrm_msg_sensor :=
  WireObject _ _ (fun s => nrm_msg_sensor_new (sensor_uuid s)) norm_sensor mse_uuid nrm_sensor_create_frommsg
    (fun _ => True) (fun k s => sensor_uuid s = Some k) eq _ _.
Proof.
  - intros k [u] Hu. cbn in Hu. subst u. by eexists (MSensor (Some k)), _.
  - by intros k x y Hx <-.
Defined.

#[export, refine] Instance slice_object : wire_object nrm_slice nrm_msg_slice :=
  WireObject _ _ (fun s => nrm_msg_slice_new (slice_uuid s)) norm_slice msl_uuid nrm_slice_create_frommsg
    (fun _ => True) (fun k s => slice_uuid s = Some k) eq _ _.
Proof.
  - intros k [u] Hu. cbn in Hu. subst u. by eexists (MSlice (Some k)), _.
  - by intros k x y Hx <-.
Defined.

#[export, refine] Instance actuator_object : wire_object nrm_actuator nrm_msg_actuator :=
  WireObject _ _ nrm_msg_actuator_new norm_actuator ma_uuid nrm_actuator_create_frommsg actuator_msg_ok
    (fun k a => a_uuid (a_data a) = Some k /\ actuator_wf a) same_actuator _ _.
Proof.
  - intros k a [Hu Hwf]. destruct (actuator_new_frommsg a Hwf) as (ma & b & E & Efrom & Hsame & _).
    exists ma, b. split_and!; [done|by eapply actuator_new_msg_ok| |done|done].
    cbn. by rewrite (actuator_new_name a k ma).
  - intros k a b [Hu Hwf] Hsame. split; [|by eapply same_actuator_wf].
    destruct Hsame as (E & _). congruence.
Defined.
End instances.

(** ** Tables of objects *)

Section tables.
Context `{wire_object A M}.
Implicit Types table : nrm_hash A.

(** Every object is under its own name. *)
Definition table_ok table : Prop := Forall (fun e => obj_ok (uuid e) (ptr e)) table.

(** The objects [ys] that a client makes are those of [xs], in their order. *)
Definition arrived (xs : list A) (ys : list (option A)) : Prop :=
  exists objects, ys = Some <$> objects /\ Forall2 obj_same xs objects.

(** In a table without duplicates a name has at most one element. *)
Lemma filter_key {B} (t : nrm_hash B) k :
  hash_wf t ->
  filter (fun e => uuid e = k) t = match HASH_FIND t k with Some e => [e] | None => [] end.
Proof.
  unfold hash_wf. induction t as [|e t IH]; intros Hwf; [done|].
  rewrite fmap_cons in Hwf. apply NoDup_cons in Hwf as [Hn Hwf].
  rewrite filter_cons, HASH_FIND_cons, IH by done. destruct (decide (uuid e = k)) as [<-|]; [|done].
  by rewrite (proj2 (HASH_FIND_None _ _) Hn).
Qed.

(** The server makes its list; from what arrives a client makes all the objects,
    or those of one name. *)
Lemma table_arrives table :
  table_ok table ->
  exists ms, map_outcome obj_new (ptr <$> table) = Ok ms /\ Forall obj_msg_ok ms /\
    (exists ys, map_outcome (fun m => obj_create (Some m)) (obj_norm <$> ms) = Ok ys /\
                arrived (ptr <$> table) ys) /\
    (forall k, exists ys, find_items obj_name (fun m => obj_create (Some m)) k (obj_norm <$> ms) = Ok ys /\
                arrived (ptr <$> filter (fun e => uuid e = k) table) ys).
Proof.
  induction 1 as [|e table He _ (ms & E1 & Hok & (ys & E2 & os & -> & Hos) & E3)].
  { exists []. split_and!; [done|constructor| |intros k]; exists []; (split; [done|]); by exists []. }
  destruct (obj_arrives _ _ He) as (m & y & Enew & Hm & Hname & Efrom & Hsame).
  exists (m :: ms). rewrite !fmap_cons. cbn [map_outcome find_items].
  rewrite Enew, E1, Efrom, E2. cbn [mbind outcome_bind]. split; [done|]. split; [by constructor|]. split.
  - exists (Some <$> y :: os). split; [done|]. exists (y :: os). split; [done|by constructor].
  - intros k. destruct (E3 k) as (ys & E & objects & -> & Hobjects). rewrite Hname.
    cbn [deref mbind outcome_bind]. rewrite filter_cons, E. destruct (decide (uuid e = k)) as [->|Hne].
    + rewrite bool_decide_eq_true_2 by done. cbn [mbind outcome_bind]. eexists. split; [reflexivity|].
      exists (y :: objects). split; [done|]. by constructor.
    + rewrite bool_decide_eq_false_2 by congruence. eexists. split; [reflexivity|]. by exists objects.
Qed.

(** Where what arrives is what was sent. *)
Lemma arrived_eq (Hsame : obj_same = eq) xs ys : arrived xs ys -> ys = Some <$> xs.
Proof.
  intros (objects & -> & Ho). rewrite Hsame in Ho. f_equal.
  induction Ho as [|x y xs objects -> _ IH]; [done|]. by f_equal.
Qed.

(** What is found under a name: at most one object. *)
Lemma arrived_key table k ys :
  hash_wf table -> arrived (ptr <$> filter (fun e => uuid e = k) table) ys ->
  match to_map table !! k with
  | Some x => exists y, ys = [Some y] /\ obj_same x y
  | None => ys = []
  end.
Proof.
  intros Hwf (objects & -> & Ho). rewrite filter_key in Ho by done. rewrite <- HASH_FIND_map.
  destruct (HASH_FIND table k) as [e|]; cbn in *.
  - inversion Ho as [|? y ? l Hy Hl]; subst. inversion Hl. by exists y.
  - by inversion Ho.
Qed.

(** A table as a map has the objects of its list. *)
Lemma table_values {B} (t : nrm_hash B) : hash_wf t -> (map_to_list (to_map t)).*2 ≡ₚ ptr <$> t.
Proof.
  unfold hash_wf. induction t as [|e t IH]; intros Hwf; [done|].
  rewrite fmap_cons in Hwf. apply NoDup_cons in Hwf as [Hn Hwf].
  rewrite to_map_cons, map_to_list_insert, !fmap_cons, IH; [done|done|].
  rewrite <- HASH_FIND_map. by rewrite (proj2 (HASH_FIND_None _ _) Hn).
Qed.

(** Adding under a name that is not taken. *)
Definition add_new {B} (m : gmap string B) (k : string) (x : B) : gmap string B :=
  match m !! k with Some _ => m | None => <[k := x]> m end.

Lemma hash_add_map {B} (t : nrm_hash B) k x :
  to_map (nrm_hash_add false t (Some k) x).2 = add_new (to_map t) k x.
Proof.
  unfold nrm_hash_add, add_new. change (key_of (Some k)) with k. rewrite <- HASH_FIND_map.
  destruct (HASH_FIND t k) eqn:E; [done|]. apply HASH_FIND_None in E.
  cbn [nrm_hash_create_element snd]. unfold HASH_ADD. by rewrite to_map_app.
Qed.

(** Writing through the pointer that is found. *)
Lemma hash_update_map {B} (t : nrm_hash B) k f : to_map (hash_update t k f) = alter f k (to_map t).
Proof.
  apply map_eq. intros i. rewrite <- HASH_FIND_map, hash_update_find. destruct (decide (k = i)) as [<-|Hne].
  - rewrite lookup_alter_eq, <- HASH_FIND_map. by destruct (HASH_FIND t k).
  - rewrite lookup_alter_ne, <- HASH_FIND_map by done. by destruct (HASH_FIND t i).
Qed.

Lemma hash_update_insert {B} (t : nrm_hash B) k x :
  is_Some (to_map t !! k) -> to_map (hash_update t k (fun _ => x)) = <[k := x]> (to_map t).
Proof.
  intros [y Hy]. rewrite hash_update_map. apply map_eq. intros i. destruct (decide (k = i)) as [<-|Hne].
  - by rewrite lookup_alter_eq, lookup_insert_eq, Hy.
  - by rewrite lookup_alter_ne, lookup_insert_ne.
Qed.
End tables.

(** ** Lists in messages

    The request and the reply of a LIST, the handler of the server, and the two
    functions of the client that send it. *)

Section listed.
Context `{Qsort}.

Class listed_ops (A M : Type) := ListedOps {
  list_target : Z;
  list_items : list M -> msg_list_data;
  list_table_of : nrm_state -> nrm_hash A;
  list_found : list (option A) -> found;
  client_list {D W} : option (nrm_client D W) -> bool -> outcome (Z * option (nrm_client D W) * list (option A))
}.

Definition list_msg `{listed_ops A M} (ms : list M) : nrm_msg :=
  Msg NRM_MSG_TYPE_LIST (D_list (MList list_target (list_items ms))).

Class listed_object (A M : Type) `{wire_object A M, listed_ops A M} := ListedObject {
  list_msg_norm ms : norm_msg (list_msg ms) = list_msg (obj_norm <$> ms);
  list_msg_ok ms : Forall obj_msg_ok ms -> msg_ok (list_msg ms);
  list_served {U} (callbacks : nrm_server_user_callbacks U) at_uuid p st tm u id ms :
    map_outcome obj_new (ptr <$> list_table_of st) = Ok ms ->
    dispatch callbacks at_uuid (srv p st tm u) (list_msg []) (Some id) =
    Ok (0, srv (pipe_send p (to_send (list_msg ms) (Some id))) st tm u);
  list_received {D W} (c c' : nrm_client D W) ms ys :
    rpc c (Some (list_msg [])) = Ok (list_msg ms, c') ->
    map_outcome (fun m => obj_create (Some m)) ms = Ok ys ->
    client_list (Some c) false = Ok (0, Some c', ys);
  list_searched {D W} (c c' : nrm_client D W) name ms ys :
    rpc c (Some (list_msg [])) = Ok (list_msg ms, c') ->
    find_items obj_name (fun m => obj_create (Some m)) name ms = Ok ys ->
    nrm_client_find (Some c) list_target (Some name) = Ok (0, Some c', Some (list_found ys))
}.

(** Each law is the evaluation of its functions, those on one object apart. *)
Ltac eval_list := cbn -[rpc list_table reply map_outcome find_items nrm_msg_actuator_new nrm_msg_scope_new
  nrm_msg_sensor_new nrm_msg_slice_new nrm_actuator_create_frommsg nrm_scope_create_frommsg
  nrm_sensor_create_frommsg nrm_slice_create_frommsg].
Ltac listed_laws :=
  first
    [ intros ms; reflexivity
    | intros ms Hms; by repeat split
    | intros U callbacks at_uuid p st tm u id ms Hms;
      unfold dispatch, nrm_server_list_callback, nrm_server_list_actuators, nrm_server_list_scopes,
        nrm_server_list_sensors, nrm_server_list_slices, nrm_state_list_actuators, nrm_state_list_scopes,
        nrm_state_list_sensors, nrm_state_list_slices;
      revert Hms; eval_list; intros Hms; rewrite list_table_values; eval_list; rewrite Hms; reflexivity
    | intros D W c c' ms ys Hrpc Hys;
      unfold list_msg in Hrpc; revert Hrpc Hys; eval_list; intros Hrpc Hys; rewrite Hrpc; eval_list; by rewrite Hys
    | intros D W c c' name ms ys Hrpc Hys;
      unfold nrm_client_find, list_msg in *; revert Hrpc Hys; eval_list; intros Hrpc Hys; rewrite Hrpc; eval_list; by rewrite Hys ].

#[export] Instance scope_ops : listed_ops nrm_scope nrm_msg_scope :=
  ListedOps _ _ NRM_MSG_TARGET_TYPE_SCOPE List_scopes st_scopes Found_scopes (fun _ _ => nrm_client_list_scopes).
#[export] Instance sensor_ops : listed_ops nrm_sensor nrm_msg_sensor :=
  ListedOps _ _ NRM_MSG_TARGET_TYPE_SENSOR List_sensors st_sensors Found_sensors (fun _ _ => nrm_client_list_sensors).
#[export] Instance slice_ops : listed_ops nrm_slice nrm_msg_slice :=
  ListedOps _ _ NRM_MSG_TARGET_TYPE_SLICE List_slices st_slices Found_slices (fun _ _ => nrm_client_list_slices).
#[export] Instance actuator_ops : listed_ops nrm_actuator nrm_msg_actuator :=
  ListedOps _ _ NRM_MSG_TARGET_TYPE_ACTUATOR List_actuators st_actuators Found_actuators (fun _ _ => nrm_client_list_actuators).

#[export] Instance listed_actuator : listed_object nrm_actuator nrm_msg_actuator.
Proof. split; listed_laws. Qed.
#[export] Instance listed_scope : listed_object nrm_scope nrm_msg_scope.
Proof. split; listed_laws. Qed.
#[export] Instance listed_sensor : listed_object nrm_sensor nrm_msg_sensor.
Proof. split; listed_laws. Qed.
#[export] Instance listed_slice : listed_object nrm_slice nrm_msg_slice.
Proof. split; listed_laws. Qed.

(** What the invariant of a state says of its tables; the choices of its actuators
    are numbers besides. *)
Definition tables_ok (A M : Type) `{wire_object A M, !listed_ops A M} (st : nrm_state) : Prop :=
  table_ok (list_table_of st) /\ hash_wf (list_table_of st).

Lemma state_ok_scopes st : state_ok st -> tables_ok nrm_scope nrm_msg_scope st.
Proof. by intros ((_ & Hwf & _) & _ & Pc & _). Qed.
Lemma state_ok_sensors st : state_ok st -> tables_ok nrm_sensor nrm_msg_sensor st.
Proof. by intros ((_ & _ & Hwf & _) & _ & _ & Ps & _). Qed.
Lemma state_ok_slices st : state_ok st -> tables_ok nrm_slice nrm_msg_slice st.
Proof. by intros ((_ & _ & _ & Hwf) & _ & _ & _ & Pl). Qed.
Lemma state_ok_actuators st :
  state_ok st -> Forall (fun e => actuator_wf (ptr e)) (st_actuators st) ->
  tables_ok nrm_actuator nrm_msg_actuator st.
Proof.
  intros ((Hwf & _) & Pa & _) Hall. split; [|done]. unfold table_ok. cbn. rewrite Forall_forall in Pa, Hall |- *.
  intros e He. destruct (Pa e He) as [Hu _]. auto.
Qed.
End listed.

(** ** Adding objects

    The server keeps what it makes of the message, of which it becomes the client of
    the sender for an actuator, and replies with it; the object that the client added
    is updated from the reply. *)
Section added.
Context `{Qsort}.

Lemma scope_update_same s name ms :
  scope_wf s -> scope_uuid s = Some name -> nrm_msg_scope_new s = Ok ms ->
  nrm_scope_update_frommsg (Some s) (Some (norm_scope ms)) = Ok (0, Some s).
Proof.
  intros Hwf Hu Hms. destruct (scope_new_frommsg s name Hwf Hu) as (ms' & E & Hc).
  assert (ms' = ms) as -> by congruence. revert Hc.
  unfold nrm_scope_create_frommsg, nrm_scope_create. cbn [mbind outcome_bind].
  change (Z.to_nat NRM_SCOPE_TYPE_MAX) with 3%nat. cbn [replicate]. rewrite scope_from_arrays_3.
  destruct (from_array_wf bitmap_zero (ms_cpus (norm_scope ms)) bitmap_zero_wf) as (a & Ea & _).
  destruct (from_array_wf bitmap_zero (ms_numas (norm_scope ms)) bitmap_zero_wf) as (b & Eb & _).
  destruct (from_array_wf bitmap_zero (ms_gpus (norm_scope ms)) bitmap_zero_wf) as (c & Ec & _).
  rewrite Ea, Eb, Ec. cbn [snd from_option id mbind outcome_bind]. intros [= <-].
  unfold nrm_scope_update_frommsg. rewrite scope_from_arrays_3.
  change (nrm_bitmap_from_array ?x) with (nrm_bitmap_from_array bitmap_zero).
  rewrite Ea, Eb, Ec. reflexivity.
Qed.

(** From the reply on an actuator. *)
Lemma actuator_update_same a b mb :
  actuator_wf a -> is_Some (a_clientid (a_data b)) ->
  same_actuator (with_clientid a (a_clientid (a_data b))) b -> nrm_msg_actuator_new b = Ok mb ->
  exists a', nrm_actuator_update_frommsg (Some a) (Some (norm_actuator mb)) = Ok (0, Some a') /\
    same_actuator (with_clientid a (a_clientid (a_data b))) a'.
Proof.
  intros [Hwf [u Hu]] [id Hid] (E1 & _ & E2 & E3 & E4 & E5).
  destruct a as [[t u' c v un] ops], b as [[t2 u2 c2 v2 un2] ops2]. cbn in *. subst.
  destruct un as [cs|lo hi], un2 as [cs2|lo2 hi2]; try done;
    [destruct Hwf as (-> & -> & Hnan), E5 as [Hp Hs]|destruct Hwf as (-> & ->), E5 as [-> ->]];
    cbn; intros [= <-]; cbn.
  - assert (Hnan2 : Forall (fun d => is_nan d = false) cs2) by by rewrite Hp.
    pose proof (double_cmp_ok cs2 Hnan2) as Hok.
    destruct (Z.eqb_spec (Z.of_nat (length cs2)) 0) as [E|E]; cbn.
    + destruct cs2; [|done]. apply Permutation_nil in Hp. subst cs. eexists. split; [reflexivity|].
      repeat split; constructor.
    + rewrite Z.leb_refl, Nat2Z.id, take_ge by done. eexists. split; [reflexivity|].
      repeat split; cbn; [by rewrite qsort_perm|by apply qsort_sorted].
  - eexists. split; [reflexivity|]. done.
Qed.

Class added_ops (A M : Type) := AddedOps {
  add_target : Z;
  add_item : M -> msg_add_data;
  set_table : nrm_state -> nrm_hash A -> nrm_state;
  owned : string -> A -> A;
  client_add {D W} : option (nrm_client D W) -> option A -> outcome (Z * option (nrm_client D W) * option A)
}.

Definition add_msg `{added_ops A M} (m : M) : nrm_msg :=
  Msg NRM_MSG_TYPE_ADD (D_add (MAdd add_target (add_item m))).

Class added_object (A M : Type) `{wire_object A M, listed_ops A M, added_ops A M} := AddedObject {
  add_msg_norm m : norm_msg (add_msg m) = add_msg (obj_norm m);
  add_msg_ok m : obj_msg_ok m -> msg_ok (add_msg m);
  table_set st t : list_table_of (set_table st t) = t;
  owned_ok k id x : obj_ok k x -> obj_ok k (owned id x);
  owned_same id x y : obj_same x y -> obj_same (owned id x) (owned id y);
  add_served {U} (callbacks : nrm_server_user_callbacks U) at_uuid p st tm u id k m y m' :
    obj_create (Some m) = Ok (Some y) -> obj_ok k (owned id y) -> obj_new (owned id y) = Ok m' ->
    dispatch callbacks at_uuid (srv p st tm u) (add_msg m) (Some id) =
    Ok (0, srv (pipe_send p (to_send (add_msg m') (Some id)))
             (set_table st (nrm_hash_add false (list_table_of st) (Some k) (owned id y)).2) tm u);
  add_received {D W} (c c' : nrm_client D W) k id x y m m' :
    obj_ok k x -> obj_new x = Ok m -> obj_same (owned id x) y -> obj_new y = Ok m' ->
    rpc c (Some (add_msg m)) = Ok (add_msg (obj_norm m'), c') ->
    exists x', client_add (Some c) (Some x) = Ok (0, Some c', Some x') /\ obj_same (owned id x) x'
}.

#[export] Instance scope_add_ops : added_ops nrm_scope nrm_msg_scope :=
  AddedOps _ _ NRM_MSG_TARGET_TYPE_SCOPE Add_scope
    (fun st t => State (st_actuators st) t (st_sensors st) (st_slices st)) (fun _ s => s)
    (fun _ _ => nrm_client_add_scope).
#[export] Instance sensor_add_ops : added_ops nrm_sensor nrm_msg_sensor :=
  AddedOps _ _ NRM_MSG_TARGET_TYPE_SENSOR Add_sensor
    (fun st t => State (st_actuators st) (st_scopes st) t (st_slices st)) (fun _ s => s)
    (fun _ _ => nrm_client_add_sensor).
#[export] Instance slice_add_ops : added_ops nrm_slice nrm_msg_slice :=
  AddedOps _ _ NRM_MSG_TARGET_TYPE_SLICE Add_slice
    (fun st t => State (st_actuators st) (st_scopes st) (st_sensors st) t) (fun _ s => s)
    (fun _ _ => nrm_client_add_slice).
#[export] Instance actuator_add_ops : added_ops nrm_actuator nrm_msg_actuator :=
  AddedOps _ _ NRM_MSG_TARGET_TYPE_ACTUATOR Add_actuator
    (fun st t => State t (st_scopes st) (st_sensors st) (st_slices st)) (fun id a => with_clientid a (Some id))
    (fun _ _ => nrm_client_add_actuator).

(** The handler of the server and the function of the client, evaluated. *)
Ltac eval_add := cbn -[rpc reply nrm_hash_add nrm_msg_actuator_new nrm_msg_scope_new nrm_msg_sensor_new
  nrm_msg_slice_new nrm_actuator_create_frommsg nrm_scope_create_frommsg nrm_sensor_create_frommsg
  nrm_slice_create_frommsg nrm_actuator_update_frommsg nrm_scope_update_frommsg norm_scope norm_actuator].
Ltac served_law :=
  intros U callbacks at_uuid p st tm u id k m y m';
  unfold dispatch, nrm_server_add_callback, nrm_server_add_actuator, nrm_server_add_scope, nrm_server_add_sensor,
    nrm_server_add_slice, nrm_state_add_actuator, nrm_state_add_scope, nrm_state_add_sensor, nrm_state_add_slice;
  eval_add; intros Hy Hok Hm'; rewrite Hy; eval_add.

#[export] Instance added_scope : added_object nrm_scope nrm_msg_scope.
Proof.
  split; try done.
  - served_law. destruct Hok as [-> _]. destruct (nrm_hash_add _ _ _ _) as [rc t]. eval_add. rewrite Hm'. reflexivity.
  - intros D W c c' k id x y m m' [Hu Hwf] Hm <- Hm' Hrpc. exists x. split; [|done]. revert Hm Hrpc.
    cbn [obj_new scope_object] in Hm'. unfold nrm_client_add_scope, add_msg. eval_add. intros Hm Hrpc.
    rewrite Hm. eval_add. rewrite Hrpc. eval_add. by rewrite (scope_update_same x k m').
Qed.

#[export] Instance added_sensor : added_object nrm_sensor nrm_msg_sensor.
Proof.
  split; try done.
  - served_law. destruct y as [u']. cbn in Hok, Hm'. subst u'. injection Hm' as <-.
    by destruct (nrm_hash_add _ _ _ _) as [rc t].
  - intros D W c c' k id x y m m' Hu Hm <- Hm' Hrpc. exists x. split; [|done]. revert Hm Hrpc.
    unfold nrm_client_add_sensor, add_msg. eval_add. intros Hm Hrpc. rewrite Hm. eval_add. by rewrite Hrpc.
Qed.

#[export] Instance added_slice : added_object nrm_slice nrm_msg_slice.
Proof.
  split; try done.
  - served_law. destruct y as [u']. cbn in Hok, Hm'. subst u'. injection Hm' as <-.
    by destruct (nrm_hash_add _ _ _ _) as [rc t].
  - intros D W c c' k id x y m m' Hu Hm <- Hm' Hrpc. exists x. split; [|done]. revert Hm Hrpc.
    unfold nrm_client_add_slice, add_msg. eval_add. intros Hm Hrpc. rewrite Hm. eval_add. by rewrite Hrpc.
Qed.

#[export] Instance added_actuator : added_object nrm_actuator nrm_msg_actuator.
Proof.
  split; try done.
  - intros id x y (E1 & _ & E2 & E3 & E4 & E5). by repeat split.
  - served_law. destruct Hok as [Hu _]. cbn in Hu. rewrite Hu. destruct (nrm_hash_add _ _ _ _) as [rc t].
    eval_add. rewrite Hm'. reflexivity.
  - intros D W c c' k id x y m m' [Hu Hwf] Hm Hsame Hm' Hrpc.
    assert (Hid : a_clientid (a_data y) = Some id) by (by destruct Hsame as (_ & E & _)).
    destruct (actuator_update_same x y m') as (x' & E & Hx'); [done|by rewrite Hid|by rewrite Hid|done|].
    rewrite Hid in Hx'. exists x'. split; [|done]. revert Hm Hrpc. unfold nrm_client_add_actuator, add_msg.
    eval_add. intros Hm Hrpc. rewrite Hm. eval_add. rewrite Hrpc. eval_add. by rewrite E.
Qed.
End added.
