(* ===== verification/System.v ===== *)
(** * A client and a server

    The composition of a client (Client), its role and broker, the broker and the
    role of a controller (Roles), and a server (Server). Sockets deliver frames
    in order; a router socket puts the identity of the peer in front of what it
    receives, and sends what it is given to the peer that the first frame names,
    without that frame. Receiving in the client runs everything that its request
    has set in motion, at the other clients too: their brokers run their callbacks
    on the commands that are for them, and hand them what they have to receive. *)

From S2P Require Import Prelude Vectors Doubles Hashes Bitmaps Json Timers Scopes Actuators.
From S2P Require Import Events Messages MsgJson States Roles Server Client Objects.

Section system.
Context `{Qsort, Protobuf} {U W : Type}.
Variable callbacks : nrm_server_user_callbacks U.
Variable at_uuid : nat -> string.
(** The callback that the broker of each client runs on a command, by the identity of
    the client. *)
Variable on_command : string -> option (option nrm_msg -> W -> outcome W).

(** Both sides, the client's identity, what the callbacks of all clients change, and
    what waits on the pipes of the other clients, with their identities. *)
Record system := Sys {
  y_client : nrm_role_client client_callback;
  y_kb : nrm_client_broker;
  y_cb : nrm_role_controller_broker;
  y_server : nrm_server U;
  y_id : string;
  y_world : W;
  y_others : list (string * ctrlmsg)
}.

(** Handling a list of messages in order; results other than the state matter to
    the loop only. *)
Definition run_all {S E} (h : S -> E -> outcome (Z * S)) (s : S) (es : list E) : outcome S :=
  mfold (fun s e => '(_, s) ← h s e; Ok s) s es.

(** The client's broker empties its pipe into frames. *)
Definition client_out (y : system) : outcome system :=
  kb ← run_all nrm_client_broker_pipe_handler (y_kb y) (p_out (cl_pipe (y_client y)));
  Ok (Sys (with_pipe (y_client y) (Pipe [] (p_in (cl_pipe (y_client y))))) kb (y_cb y) (y_server y)
        (y_id y) (y_world y) (y_others y)).

(** The frames reach the controller's broker. *)
Definition net_to_controller (y : system) : outcome system :=
  cb ← run_all nrm_controller_broker_rpc_handler (y_cb y) ((fun f => y_id y :: f) <$> kb_rpc (y_kb y));
  Ok (Sys (y_client y) (ClientBroker (kb_pipe (y_kb y)) [] (kb_topics (y_kb y))) cb (y_server y)
        (y_id y) (y_world y) (y_others y)).

(** The server handles what is on its pipe. *)
Definition serve (y : system) : outcome system :=
  s ← run_all (fun s c => server_step callbacks at_uuid s (Ev_message c)) (y_server y) (cb_pipe (y_cb y));
  Ok (Sys (y_client y) (y_kb y) (ControllerBroker [] (cb_rpc (y_cb y)) (cb_pub (y_cb y))) s
        (y_id y) (y_world y) (y_others y)).

(** What the server has to send. *)
Definition server_out (s : nrm_server U) : list ctrlmsg :=
  match s_role s with Some r => p_out (r_data r) | None => [] end.
Definition server_flush (s : nrm_server U) : nrm_server U :=
  with_role s ((fun r => Role (r_ops r) (Pipe [] (p_in (r_data r)))) <$> s_role s).

(** Its broker empties the pipe into frames. *)
Definition controller_out (y : system) : outcome system :=
  cb ← run_all nrm_controller_broker_pipe_handler (y_cb y) (server_out (y_server y));
  Ok (Sys (y_client y) (y_kb y) cb (server_flush (y_server y)) (y_id y) (y_world y) (y_others y)).

(** A frame reaches the broker of the client that it names, with the rest. What a
    broker does with it does not depend on what its pipe already has. *)
Definition route (id : string) (net : nrm_client_broker * W * list (string * ctrlmsg)) (frame : list string)
    : outcome (nrm_client_broker * W * list (string * ctrlmsg)) :=
  let '(kb, w, others) := net in
  match frame with
  | [] => Ok (kb, w, others)
  | i :: rest =>
      if decide (i = id)
      then '(_, kb, w) ← nrm_client_broker_rpc_handler (on_command i) kb w rest; Ok (kb, w, others)
      else '(_, kb', w) ← nrm_client_broker_rpc_handler (on_command i) (ClientBroker [] [] []) w rest;
           Ok (kb, w, others ++ (pair i <$> kb_pipe kb'))
  end.
Definition net_to_client (y : system) : outcome system :=
  '(kb, w, others) ← mfold (route (y_id y)) (y_kb y, y_world y, y_others y) (cb_rpc (y_cb y));
  Ok (Sys (with_pipe (y_client y) (Pipe (p_out (cl_pipe (y_client y)))
                                     (p_in (cl_pipe (y_client y)) ++ kb_pipe kb)))
        (ClientBroker [] (kb_rpc kb) (kb_topics kb))
        (ControllerBroker (cb_pipe (y_cb y)) [] (cb_pub (y_cb y))) (y_server y) (y_id y) w others).

Definition exchange (y : system) : outcome system :=
  y ← client_out y; y ← net_to_controller y; y ← serve y; y ← controller_out y; net_to_client y.

(** The system as the data of the client's role. *)
Definition with_client (y : system) (c : nrm_role_client client_callback) : system :=
  Sys c (y_kb y) (y_cb y) (y_server y) (y_id y) (y_world y) (y_others y).

Definition system_ops : nrm_role_ops system client_callback :=
  RoleOps
    (Some (fun y m to => '(rc, c) ← nrm_role_client_send (y_client y) m to; Ok (rc, with_client y c)))
    (Some (fun y => y ← exchange y;
                    '(m, from, c) ← nrm_role_client_recv (y_client y); Ok (m, from, with_client y c)))
    None
    (Some (fun y f => '(rc, c) ← nrm_role_client_register_sub_cb (y_client y) f; Ok (rc, with_client y c)))
    (Some (fun y t => '(rc, c) ← nrm_role_client_sub (y_client y) t; Ok (rc, with_client y c)))
    (Some (fun y f => '(rc, c) ← nrm_role_client_register_cmd_cb (y_client y) f; Ok (rc, with_client y c)))
    (fun y => c ← nrm_role_client_destroy (y_client y); Ok (with_client y c)).

(** A client on the system. *)
Definition client_on (y : system) (fn : option (string -> nrm_time -> option nrm_scope -> double -> W -> outcome W))
    (act : option (option string -> double -> W -> outcome W)) : nrm_client system W :=
  Client (Some (Role (Some system_ops) y)) fn act.

(** Nothing is on its way. *)
Definition quiet (st : nrm_state) (u : U) (tm : list Z) (topics : list string) (pub : list (list string))
    sub cmd (id : string) (w : W) : system :=
  Sys (RoleClient (Pipe [] []) sub cmd) (ClientBroker [] [] topics) (ControllerBroker [] [] pub)
    (srv (Pipe [] []) st tm u) id w [].

(** ** A request and its reply *)

Lemma recv_send m : nrm_msg_recv (nrm_msg_send m) = Ok (Some (norm_msg m)).
Proof. unfold nrm_msg_recv, nrm_msg_pop_packed_frames. cbn. by rewrite unpack_pack. Qed.

Lemma controller_receives cb id m :
  nrm_controller_broker_rpc_handler cb (id :: nrm_msg_send m) =
  Ok (0, ControllerBroker (cb_pipe cb ++ [Ctrlmsg "RECV" (V_msg (norm_msg m)) (V_uuid id)]) (cb_rpc cb)
           (cb_pub cb)).
Proof.
  unfold nrm_controller_broker_rpc_handler, nrm_msg_recvfrom, nrm_msg_pop_packed_frames. cbn.
  by rewrite unpack_pack.
Qed.

Lemma client_handles (cb : option (option nrm_msg -> W -> outcome W)) kb w m :
  nrm_client_broker_rpc_handler cb kb w (nrm_msg_send m) =
  if nrm_msg_is_reply m =? 0
  then w ← match cb with Some fn => fn (Some (norm_msg m)) w | None => Ok w end; Ok (0, kb, w)
  else Ok (0, ClientBroker (kb_pipe kb ++ [Ctrlmsg "RECV" (V_msg (norm_msg m)) V_null]) (kb_rpc kb)
                (kb_topics kb), w).
Proof.
  unfold nrm_client_broker_rpc_handler. rewrite recv_send. cbn [mbind outcome_bind deref].
  change (nrm_msg_is_reply (norm_msg m)) with (nrm_msg_is_reply m).
  by destruct (nrm_msg_is_reply m =? 0).
Qed.

(** What the broker of the controller makes of the messages it is asked to send. *)
Definition frames_of (outs : list (nrm_msg * string)) : list (list string) :=
  (fun o => o.2 :: nrm_msg_send o.1) <$> outs.
Definition to_sends (outs : list (nrm_msg * string)) : list ctrlmsg :=
  (fun o => to_send o.1 (Some o.2)) <$> outs.

Lemma controller_out_all cb outs :
  Forall (fun o => msg_ok o.1) outs ->
  run_all nrm_controller_broker_pipe_handler cb (to_sends outs) =
  Ok (ControllerBroker (cb_pipe cb) (cb_rpc cb ++ frames_of outs) (cb_pub cb)).
Proof.
  intros Hf. revert cb. induction Hf as [|[m id] outs Hm _ IH]; intros cb.
  { cbn. rewrite app_nil_r. by destruct cb. }
  unfold run_all, to_sends in *. cbn [fmap list_fmap mfold fst snd].
  rewrite (controller_broker_send _ m id) by done. cbn [mbind outcome_bind].
  rewrite IH. cbn. by rewrite <- app_assoc.
Qed.

(** A command reaches its client, whichever it is. *)
Definition run_command (w : W) (o : nrm_msg * string) : outcome W :=
  match on_command o.2 with Some fn => fn (Some (norm_msg o.1)) w | None => Ok w end.

Lemma clients_run_commands id outs kb w w' others :
  Forall (fun o => nrm_msg_is_reply o.1 = 0) outs -> mfold run_command w outs = Ok w' ->
  mfold (route id) (kb, w, others) (frames_of outs) = Ok (kb, w', others).
Proof.
  intros Hf. revert w. induction Hf as [|[m i] outs Hm _ IH]; intros w Hw.
  { by injection Hw as <-. }
  cbn [mfold] in Hw. apply bind_Ok_inv in Hw as (w1 & Hw1 & Hw). unfold run_command in Hw1.
  unfold frames_of in *. cbn [fst snd fmap list_fmap mfold route] in *. rewrite !client_handles, Hm. cbn [Z.eqb].
  rewrite Hw1. cbn [mbind outcome_bind kb_pipe fmap list_fmap].
  case_decide; cbn [mbind outcome_bind]; rewrite ?app_nil_r; by apply IH.
Qed.

(** *** Several messages at once

    A client may have sent messages without receiving; they go before the request
    that makes it receive. *)

Definition sends (ms : list nrm_msg) : list ctrlmsg := (fun m => Ctrlmsg "SEND" (V_msg m) V_null) <$> ms.
Definition recvs (id : string) (ms : list nrm_msg) : list ctrlmsg :=
  (fun m => Ctrlmsg "RECV" (V_msg (norm_msg m)) (V_uuid id)) <$> ms.

Lemma client_out_all kb ms :
  Forall msg_ok ms ->
  run_all nrm_client_broker_pipe_handler kb (sends ms) =
  Ok (ClientBroker (kb_pipe kb) (kb_rpc kb ++ (nrm_msg_send <$> ms)) (kb_topics kb)).
Proof.
  intros Hf. revert kb. induction Hf as [|m ms Hm _ IH]; intros kb.
  { cbn. rewrite app_nil_r. by destruct kb. }
  unfold run_all, sends in *. cbn [fmap list_fmap mfold].
  rewrite (client_broker_send _ m None) by done. cbn [mbind outcome_bind].
  rewrite IH. cbn. by rewrite <- app_assoc.
Qed.

Lemma controller_in_all cb id ms :
  run_all nrm_controller_broker_rpc_handler cb ((fun f => id :: f) <$> (nrm_msg_send <$> ms)) =
  Ok (ControllerBroker (cb_pipe cb ++ recvs id ms) (cb_rpc cb) (cb_pub cb)).
Proof.
  revert cb. induction ms as [|m ms IH]; intros cb.
  { cbn. rewrite app_nil_r. by destruct cb. }
  unfold run_all, recvs in *. cbn [fmap list_fmap mfold]. rewrite controller_receives.
  cbn [mbind outcome_bind]. rewrite IH. cbn. by rewrite <- app_assoc.
Qed.

(** What is published goes to the socket for it. *)
Definition to_pubs (pubs : list (string * nrm_msg)) : list ctrlmsg :=
  (fun o => Ctrlmsg "PUB" (V_string o.1) (V_msg o.2)) <$> pubs.
Definition pub_frames (pubs : list (string * nrm_msg)) : list (list string) :=
  (fun o => nrm_msg_pub o.1 o.2) <$> pubs.

Lemma controller_pub_all cb pubs :
  Forall (fun o => msg_ok o.2) pubs ->
  run_all nrm_controller_broker_pipe_handler cb (to_pubs pubs) =
  Ok (ControllerBroker (cb_pipe cb) (cb_rpc cb) (cb_pub cb ++ pub_frames pubs)).
Proof.
  intros Hf. revert cb. induction Hf as [|[t m] pubs Hm _ IH]; intros cb.
  { cbn. rewrite app_nil_r. by destruct cb. }
  unfold run_all, to_pubs in *. cbn [fmap list_fmap mfold fst snd].
  assert (E : nrm_controller_broker_pipe_handler cb (Ctrlmsg "PUB" (V_string t) (V_msg m)) =
    Ok (0, ControllerBroker (cb_pipe cb) (cb_rpc cb) (cb_pub cb ++ [nrm_msg_pub t m]))).
  { unfold nrm_controller_broker_pipe_handler. cbn -[nrm_msg_destroy_created nrm_msg_pub]. by rewrite msg_destroy_ok. }
  rewrite E. cbn [mbind outcome_bind]. rewrite IH. cbn. by rewrite <- app_assoc.
Qed.

Lemma run_all_app {S E} (h : S -> E -> outcome (Z * S)) s l1 l2 :
  run_all h s (l1 ++ l2) = (s ← run_all h s l1; run_all h s l2).
Proof. apply mfold_app. Qed.

(** Every message has been dispatched on a server whose role has nothing to
    receive. *)
Inductive dispatches (id : string) : nrm_server U -> list nrm_msg -> nrm_server U -> Prop :=
| dispatches_nil s : dispatches id s [] s
| dispatches_cons out st tm u m rc s ms s' :
    dispatch callbacks at_uuid (srv (Pipe out []) st tm u) (norm_msg m) (Some id) = Ok (rc, s) ->
    dispatches id s ms s' -> dispatches id (srv (Pipe out []) st tm u) (m :: ms) s'.

Lemma dispatches_app id s1 ms1 s2 ms2 s3 :
  dispatches id s1 ms1 s2 -> dispatches id s2 ms2 s3 -> dispatches id s1 (ms1 ++ ms2) s3.
Proof.
  induction 1 as [|out st tm u m rc s ms s' Hd _ IH]; cbn; [done|]. intros H'.
  econstructor; [exact Hd|by apply IH].
Qed.

Lemma serve_all id s ms s' :
  dispatches id s ms s' ->
  run_all (fun s c => server_step callbacks at_uuid s (Ev_message c)) s (recvs id ms) = Ok s'.
Proof.
  unfold run_all, recvs. induction 1 as [s|out st tm u m rc s ms s' Hd _ IH]; [done|].
  cbn [fmap list_fmap mfold].
  assert (Hstep : server_step callbacks at_uuid (srv (Pipe out []) st tm u)
    (Ev_message (Ctrlmsg "RECV" (V_msg (norm_msg m)) (V_uuid id))) = Ok (rc, s)) by exact Hd.
  rewrite Hstep. cbn [mbind outcome_bind]. exact IH.
Qed.

(** The messages [ms] go through; the server publishes, sends commands to some
    clients, and replies once to the sender of the last. *)
Lemma exchange_all st u tm topics pub sub cmd id w w' ms st' u' tm' pubs outs reply :
  Forall msg_ok ms -> Forall (fun o => msg_ok o.2) pubs -> msg_ok reply -> nrm_msg_is_reply reply <> 0 ->
  Forall (fun o => msg_ok o.1 /\ nrm_msg_is_reply o.1 = 0) outs ->
  mfold run_command w outs = Ok w' ->
  dispatches id (srv (Pipe [] []) st tm u) ms
    (srv (Pipe (to_pubs pubs ++ to_sends (outs ++ [(reply, id)])) []) st' tm' u') ->
  exchange (with_client (quiet st u tm topics pub sub cmd id w) (RoleClient (Pipe (sends ms) []) sub cmd)) =
  Ok (with_client (quiet st' u' tm' topics (pub ++ pub_frames pubs) sub cmd id w')
     (RoleClient (Pipe [] [Ctrlmsg "RECV" (V_msg (norm_msg reply)) V_null]) sub cmd)).
Proof.
  intros Hms Hpubs Hreply Hisr Houts Hw Hd. apply Forall_and in Houts as [Hok Hcmd].
  unfold exchange, client_out, quiet. cbn [y_client y_kb y_cb y_server y_id y_world y_others with_client cl_pipe p_out p_in].
  rewrite client_out_all by done. cbn [mbind outcome_bind kb_pipe kb_rpc kb_topics app].
  unfold net_to_controller. cbn [y_client y_kb y_cb y_server y_id y_world y_others kb_pipe kb_rpc kb_topics].
  rewrite controller_in_all. cbn [mbind outcome_bind cb_pipe cb_rpc cb_pub app].
  unfold serve. cbn [y_client y_kb y_cb y_server y_id y_world y_others cb_pipe cb_rpc cb_pub].
  rewrite (serve_all _ _ _ _ Hd). cbn [mbind outcome_bind].
  unfold controller_out, server_out. cbn [y_client y_kb y_cb y_server y_id y_world y_others srv s_role r_data p_out].
  rewrite run_all_app, controller_pub_all by done. cbn [mbind outcome_bind].
  rewrite controller_out_all by (apply Forall_app; split; [done|by constructor]).
  cbn -[net_to_client nrm_msg_send frames_of pub_frames]. unfold net_to_client.
  cbn -[route nrm_msg_send frames_of pub_frames]. unfold frames_of at 1. rewrite fmap_app, mfold_app.
  fold (frames_of outs). rewrite (clients_run_commands id outs _ w w' [] Hcmd Hw).
  cbn [mbind outcome_bind fmap list_fmap mfold route fst snd].
  rewrite decide_True by done. apply Z.eqb_neq in Hisr. rewrite client_handles, Hisr. reflexivity.
Qed.

(** A client that has sent [ms] and received nothing since. *)
Definition client_sent (ms : list nrm_msg) st u tm topics pub sub cmd id w fn act : nrm_client system W :=
  client_on (with_client (quiet st u tm topics pub sub cmd id w) (RoleClient (Pipe (sends ms) []) sub cmd)) fn act.

Lemma sends_app ms1 ms2 : sends (ms1 ++ ms2) = sends ms1 ++ sends ms2.
Proof. apply fmap_app. Qed.

(** Its next request. *)
Lemma rpc_sent ms st u tm topics pub sub cmd id w w' fn act m st' u' tm' pubs outs reply :
  Forall msg_ok ms -> msg_ok m -> Forall (fun o => msg_ok o.2) pubs ->
  msg_ok reply -> nrm_msg_is_reply reply <> 0 ->
  Forall (fun o => msg_ok o.1 /\ nrm_msg_is_reply o.1 = 0) outs ->
  mfold run_command w outs = Ok w' ->
  dispatches id (srv (Pipe [] []) st tm u) (ms ++ [m])
    (srv (Pipe (to_pubs pubs ++ to_sends (outs ++ [(reply, id)])) []) st' tm' u') ->
  rpc (client_sent ms st u tm topics pub sub cmd id w fn act) (Some m) =
  Ok (norm_msg reply, client_on (quiet st' u' tm' topics (pub ++ pub_frames pubs) sub cmd id w') fn act).
Proof.
  intros Hms Hm Hpubs Hreply Hisr Houts Hw Hd. unfold rpc, client_sent, client_on, nrm_role_send.
  cbn [k_role role_op r_ops mbind option_bind system_ops op_send r_data y_client with_client].
  change (nrm_role_client_send (RoleClient (Pipe (sends ms) []) sub cmd) (Some m) None) with
    (Ok (0, RoleClient (Pipe (sends ms ++ sends [m]) []) sub cmd)).
  rewrite <- sends_app.
  cbn [mbind outcome_bind with_data fmap option_fmap option_map r_ops].
  unfold nrm_role_recv. cbn [role_op r_ops mbind option_bind system_ops op_recv r_data outcome_bind].
  change (with_client (with_client ?y _) ?c) with (with_client y c).
  rewrite (exchange_all st u tm topics pub sub cmd id w w' (ms ++ [m]) st' u' tm' pubs outs reply);
    [reflexivity|apply Forall_app; split; [done|by constructor]|done..].
Qed.

(** The same for a client that has received all its replies. *)
Lemma rpc_reply st u tm topics pub sub cmd id w w' fn act m rc st' u' tm' outs reply :
  msg_ok m -> msg_ok reply -> nrm_msg_is_reply reply <> 0 ->
  Forall (fun o => msg_ok o.1 /\ nrm_msg_is_reply o.1 = 0) outs ->
  mfold run_command w outs = Ok w' ->
  dispatch callbacks at_uuid (srv (Pipe [] []) st tm u) (norm_msg m) (Some id) =
  Ok (rc, srv (Pipe (to_sends (outs ++ [(reply, id)])) []) st' tm' u') ->
  rpc (client_on (quiet st u tm topics pub sub cmd id w) fn act) (Some m) =
  Ok (norm_msg reply, client_on (quiet st' u' tm' topics pub sub cmd id w') fn act).
Proof.
  intros Hm Hreply Hisr Houts Hw Hd.
  pose proof (rpc_sent [] st u tm topics pub sub cmd id w w' fn act m st' u' tm' [] outs reply) as E.
  cbn [pub_frames fmap list_fmap app] in E. rewrite app_nil_r in E. apply E; [constructor|done|constructor|done..|].
  eapply dispatches_cons; [exact Hd|constructor].
Qed.

(** A request that the server does not survive. *)
Lemma rpc_crashes st u tm topics pub sub cmd id w fn act m :
  msg_ok m -> dispatch callbacks at_uuid (srv (Pipe [] []) st tm u) (norm_msg m) (Some id) = Undefined ->
  rpc (client_on (quiet st u tm topics pub sub cmd id w) fn act) (Some m) = Undefined.
Proof.
  intros Hm Hd. unfold rpc, client_on, nrm_role_send, quiet.
  cbn [k_role role_op r_ops mbind option_bind system_ops op_send r_data y_client].
  change (nrm_role_client_send (RoleClient (Pipe [] []) sub cmd) (Some m) None) with
    (Ok (0, RoleClient (Pipe (sends [m]) []) sub cmd)).
  cbn [mbind outcome_bind with_data fmap option_fmap option_map r_ops].
  unfold nrm_role_recv. cbn [role_op r_ops mbind option_bind system_ops op_recv r_data outcome_bind].
  unfold exchange, client_out. cbn [y_client y_kb y_cb y_server y_id y_world y_others with_client cl_pipe p_out p_in].
  rewrite client_out_all by (by repeat constructor). cbn [mbind outcome_bind kb_pipe kb_rpc kb_topics app].
  unfold net_to_controller. cbn [y_client y_kb y_cb y_server y_id y_world y_others kb_pipe kb_rpc kb_topics].
  rewrite controller_in_all. cbn [mbind outcome_bind cb_pipe cb_rpc cb_pub app].
  unfold serve. cbn [y_client y_kb y_cb y_server y_id y_world y_others cb_pipe cb_rpc cb_pub].
  unfold run_all, recvs. cbn [fmap list_fmap mfold].
  change (server_step _ _ _ _) with (dispatch callbacks at_uuid (srv (Pipe [] []) st tm u) (norm_msg m) (Some id)).
  by rewrite Hd.
Qed.

(** ** Listing and finding

    For any of the four kinds of objects, at a client that has sent [ms] before. *)
Section lists.
Context {A M} `{!wire_object A M, !listed_ops A M, !listed_object A M}.

Lemma rpc_list_sent ms st u tm topics pub sub cmd id w fn act st' u' tm' pubs :
  tables_ok A M st' -> Forall msg_ok ms -> Forall (fun o => msg_ok o.2) pubs ->
  dispatches id (srv (Pipe [] []) st tm u) ms (srv (Pipe (to_pubs pubs) []) st' tm' u') ->
  exists items,
    rpc (client_sent ms st u tm topics pub sub cmd id w fn act) (Some (list_msg [])) =
      Ok (list_msg items, client_on (quiet st' u' tm' topics (pub ++ pub_frames pubs) sub cmd id w) fn act) /\
    (exists ys, map_outcome (fun m => obj_create (Some m)) items = Ok ys /\
                arrived (ptr <$> list_table_of st') ys) /\
    forall k, exists ys, find_items obj_name (fun m => obj_create (Some m)) k items = Ok ys /\
                arrived (ptr <$> filter (fun e => uuid e = k) (list_table_of st')) ys.
Proof.
  intros [Htable Hwf] Hms Hpubs Hd. destruct (table_arrives _ Htable) as (items & Enew & Hitems & Hmap & Hfind).
  exists (obj_norm <$> items). split; [|done]. rewrite <- list_msg_norm.
  apply (rpc_sent ms st u tm topics pub sub cmd id w w fn act (list_msg []) st' u' tm' pubs [] (list_msg items));
    [done|by apply list_msg_ok|done|by apply list_msg_ok|done|constructor|done|].
  eapply dispatches_app; [exact Hd|]. eapply dispatches_cons; [|constructor].
  rewrite list_msg_norm. by rewrite (list_served _ _ _ _ _ _ _ items Enew).
Qed.

(** Listing takes what has been sent along. *)
Lemma list_sent ms st u tm topics pub sub cmd id w fn act st' u' tm' pubs :
  tables_ok A M st' -> Forall msg_ok ms -> Forall (fun o => msg_ok o.2) pubs ->
  dispatches id (srv (Pipe [] []) st tm u) ms (srv (Pipe (to_pubs pubs) []) st' tm' u') ->
  exists ys,
    client_list (Some (client_sent ms st u tm topics pub sub cmd id w fn act)) false =
    Ok (0, Some (client_on (quiet st' u' tm' topics (pub ++ pub_frames pubs) sub cmd id w) fn act), ys) /\
    arrived (ptr <$> list_table_of st') ys.
Proof.
  intros Htable Hms Hpubs Hd.
  destruct (rpc_list_sent ms st u tm topics pub sub cmd id w fn act st' u' tm' pubs Htable Hms Hpubs Hd)
    as (items & Hrpc & (ys & Hys & Harr) & _).
  exists ys. split; [|done]. by eapply list_received.
Qed.

Lemma list_state st u tm topics pub sub cmd id w fn act :
  tables_ok A M st ->
  let c := client_on (quiet st u tm topics pub sub cmd id w) fn act in
  exists ys, client_list (Some c) false = Ok (0, Some c, ys) /\ arrived (ptr <$> list_table_of st) ys.
Proof.
  intros Htable c. pose proof (list_sent [] st u tm topics pub sub cmd id w fn act st u tm [] Htable) as E.
  cbn [pub_frames fmap list_fmap] in E. rewrite app_nil_r in E. apply E; constructor.
Qed.

(** Finding an object by its name: the one under it, or none. *)
Lemma find_state st u tm topics pub sub cmd id w fn act name :
  tables_ok A M st ->
  let c := client_on (quiet st u tm topics pub sub cmd id w) fn act in
  exists ys, nrm_client_find (Some c) list_target (Some name) = Ok (0, Some c, Some (list_found ys)) /\
    match to_map (list_table_of st) !! name with
    | Some x => exists y, ys = [Some y] /\ obj_same x y
    | None => ys = []
    end.
Proof.
  intros [Htable Hwf] c.
  destruct (rpc_list_sent [] st u tm topics pub sub cmd id w fn act st u tm [] (conj Htable Hwf)) as (items & Hrpc & _ & Hfind);
    [constructor..|].
  cbn [pub_frames fmap list_fmap] in Hrpc. rewrite app_nil_r in Hrpc.
  destruct (Hfind name) as (ys & Hys & Harr). exists ys.
  split; [by eapply list_searched|by apply arrived_key].
Qed.

(** Adding one: what the server keeps and what the client has afterwards. *)
Context `{!added_ops A M, !added_object A M}.

Lemma add_state st u tm topics pub sub cmd id w fn act k x :
  obj_ok k x ->
  exists y x', obj_same (owned id x) y /\ obj_ok k y /\ obj_same (owned id x) x' /\
    client_add (Some (client_on (quiet st u tm topics pub sub cmd id w) fn act)) (Some x) =
    Ok (0, Some (client_on (quiet (set_table st (nrm_hash_add false (list_table_of st) (Some k) y).2) u tm topics
                              pub sub cmd id w) fn act), Some x').
Proof.
  intros Hx. destruct (obj_arrives k x Hx) as (m & y0 & Enew & Hm & _ & Efrom & Hsame).
  pose proof (owned_ok k id y0 (obj_same_ok k x y0 Hx Hsame)) as Hy.
  destruct (obj_arrives k _ Hy) as (m' & _ & Enew' & Hm' & _).
  pose proof (owned_same id x y0 Hsame) as Hsame'.
  destruct (add_received (client_on (quiet st u tm topics pub sub cmd id w) fn act)
    (client_on (quiet (set_table st (nrm_hash_add false (list_table_of st) (Some k) (owned id y0)).2) u tm topics
                  pub sub cmd id w) fn act) k id x (owned id y0) m m' Hx Enew Hsame' Enew') as (x' & E & Hx').
  - rewrite <- add_msg_norm.
    apply (rpc_reply st u tm topics pub sub cmd id w w fn act (add_msg m) 0 _ u tm [] (add_msg m'));
      [by apply add_msg_ok|by apply add_msg_ok|done|constructor|done|].
    rewrite add_msg_norm. by rewrite (add_served _ _ _ _ _ _ _ k (obj_norm m) y0 m' Efrom Hy Enew').
  - by exists (owned id y0), x'.
Qed.
End lists.

(** ** Scopes, end to end *)

(** The state after a scope has been added. *)
Definition state_add_scope (st : nrm_state) (name : string) (s : nrm_scope) : nrm_state :=
  State (st_actuators st)
    (match HASH_FIND (st_scopes st) name with
     | Some _ => st_scopes st
     | None => HASH_ADD (st_scopes st) (Elem name s)
     end) (st_sensors st) (st_slices st).

(** The scopes arrive as they are. *)
Lemma list_scopes_sent ms st u tm topics pub sub cmd id w fn act st' u' tm' pubs :
  state_ok st' -> Forall msg_ok ms -> Forall (fun o => msg_ok o.2) pubs ->
  dispatches id (srv (Pipe [] []) st tm u) ms (srv (Pipe (to_pubs pubs) []) st' tm' u') ->
  nrm_client_list_scopes (Some (client_sent ms st u tm topics pub sub cmd id w fn act)) false =
  Ok (0, Some (client_on (quiet st' u' tm' topics (pub ++ pub_frames pubs) sub cmd id w) fn act),
      Some <$> (ptr <$> st_scopes st')).
Proof.
  intros Pc%state_ok_scopes Hms Hpubs Hd.
  destruct (list_sent ms st u tm topics pub sub cmd id w fn act st' u' tm' pubs Pc Hms Hpubs Hd) as (ys & E & Harr).
  apply arrived_eq in Harr as ->; [exact E|done].
Qed.

Lemma list_scopes_state st u tm topics pub sub cmd id w fn act :
  state_ok st ->
  let c := client_on (quiet st u tm topics pub sub cmd id w) fn act in
  nrm_client_list_scopes (Some c) false = Ok (0, Some c, Some <$> (ptr <$> st_scopes st)).
Proof.
  intros Pc%state_ok_scopes c. destruct (list_state st u tm topics pub sub cmd id w fn act Pc) as (ys & E & Harr).
  apply arrived_eq in Harr as ->; [exact E|done].
Qed.

Lemma find_scope_state st u tm topics pub sub cmd id w fn act name :
  state_ok st ->
  let c := client_on (quiet st u tm topics pub sub cmd id w) fn act in
  nrm_client_find (Some c) NRM_MSG_TARGET_TYPE_SCOPE (Some name) =
  Ok (0, Some c, Some (Found_scopes (match HASH_FIND (st_scopes st) name with
                                     | Some e => [Some (ptr e)]
                                     | None => []
                                     end))).
Proof.
  intros Pc%state_ok_scopes c.
  destruct (find_state st u tm topics pub sub cmd id w fn act name Pc) as (ys & E & Hys).
  cbn [list_table_of scope_ops] in Hys. rewrite <- HASH_FIND_map in Hys.
  destruct (HASH_FIND (st_scopes st) name); cbn in Hys; [destruct Hys as (y & -> & <-)|subst ys]; exact E.
Qed.

(** C14: a client that adds a scope finds it there. Through the message, both
    roles and their brokers, the wire and the server: adding returns 0, leaves
    the scope of the caller as it was and the scope last in the table of the
    server, unless its name is taken; listing gives the scopes of the server in
    order; and finding the name gives the one scope that is under it. *)
Theorem client_registers_scope st u tm topics pub sub cmd id w fn act s name :
  state_ok st -> scope_wf s -> scope_uuid s = Some name ->
  let st' := state_add_scope st name s in
  let c := client_on (quiet st u tm topics pub sub cmd id w) fn act in
  let c' := client_on (quiet st' u tm topics pub sub cmd id w) fn act in
  nrm_client_add_scope (Some c) (Some s) = Ok (0, Some c', Some s) /\
  nrm_client_list_scopes (Some c') false = Ok (0, Some c', Some <$> (ptr <$> st_scopes st')) /\
  exists e, HASH_FIND (st_scopes st') name = Some e /\
    nrm_client_find (Some c') NRM_MSG_TARGET_TYPE_SCOPE (Some name) =
    Ok (0, Some c', Some (Found_scopes [Some (ptr e)])).
Proof.
  intros Hst Hwf Hu st' c c'.
  assert (Est : set_table st (nrm_hash_add false (st_scopes st) (Some name) s).2 = st').
  { unfold st', state_add_scope, nrm_hash_add. change (key_of (Some name)) with name.
    by destruct (HASH_FIND (st_scopes st) name). }
  assert (Hst' : state_ok st').
  { rewrite <- Est. destruct Hst as ((Ha & Hc & Hs & Hl) & Pa & Pc & Ps & Pl).
    by destruct (hash_add_ok _ _ name s Hc Pc (conj Hu Hwf)) as [Hc' Pc']. }
  split; [|split].
  - assert (Hs : obj_ok (M := nrm_msg_scope) name s) by done.
    destruct (add_state st u tm topics pub sub cmd id w fn act name s Hs) as (y & x' & <- & _ & <- & E).
    unfold c, c'. rewrite <- Est. exact E.
  - by apply list_scopes_state.
  - unfold c'. rewrite find_scope_state by done. destruct (HASH_FIND (st_scopes st') name) as [e|] eqn:Ee.
    { by exists e. }
    exfalso. revert Ee. unfold st', state_add_scope. cbn [st_scopes].
    destruct (HASH_FIND (st_scopes st) name) eqn:E; [congruence|].
    rewrite HASH_FIND_add, E, decide_True by done. done.
Qed.
(** ** Actuation, end to end *)

(** The command that the owner of an actuator gets. *)
Definition command (name : string) (v : double) : nrm_msg :=
  Msg NRM_MSG_TYPE_ACTUATE (D_actuate (MActuate (Some name) v)).

Lemma dispatch_actuate st u tm id name v e cb u' :
  state_ok st -> HASH_FIND (st_actuators st) name = Some e -> cb_actuate callbacks = Some cb ->
  cb (srv (Pipe [] []) st tm u) (ptr e) v = Ok (0, srv (Pipe [] []) st tm u') ->
  exists rc v' owner, nrm_actuator_corrected_value (Some (ptr e)) (Some v) = Ok (rc, Some v') /\
    a_clientid (a_data (ptr e)) = Some owner /\
    dispatch callbacks at_uuid (srv (Pipe [] []) st tm u) (command name v) (Some id) =
    Ok (0, srv (Pipe (to_sends ([(command name v', owner)] ++ [(ack, id)])) [])
             (state_set_value st name (with_value (ptr e) v')) tm u').
Proof.
  intros Hst Hf Hcb Ecb. destruct (actuate_srv (Pipe [] []) st tm u' name e v Hst Hf)
    as (rc & v' & owner & Hv & Hown & Ea). exists rc, v', owner. split; [done|]. split; [done|].
  unfold dispatch, command. cbn -[nrm_server_actuate_callback].
  unfold nrm_server_actuate_callback. cbn [deref mbind outcome_bind mac_uuid mac_value s_state srv].
  rewrite (hash_find_Some _ _ _ Hf), Hcb. cbn [snd deref mbind outcome_bind]. rewrite Ecb.
  cbn [mbind outcome_bind Z.eqb]. rewrite Ea. reflexivity.
Qed.

(** A value that the client's own actuator refuses is not sent. *)
Lemma client_actuate_refused {D} (c : nrm_client D W) a v err :
  nrm_actuator_validate_value (Some a) v = Ok err -> err <> 0 ->
  nrm_client_actuate (Some c) (Some a) v = Ok (err, Some c).
Proof.
  intros Hval Herr. unfold nrm_client_actuate. rewrite Hval. cbn [mbind outcome_bind].
  apply Z.eqb_neq in Herr. by rewrite Herr.
Qed.

(** What the server makes of a value that is sent is what happens. *)
Lemma client_actuate_sent st u tm topics pub sub cmd id w fn act a name v st' u' outs w' :
  nrm_actuator_validate_value (Some a) v = Ok 0 -> a_uuid (a_data a) = Some name ->
  dispatch callbacks at_uuid (srv (Pipe [] []) st tm u) (command name v) (Some id) =
  Ok (0, srv (Pipe (to_sends (outs ++ [(ack, id)])) []) st' tm u') ->
  Forall (fun o => msg_ok o.1 /\ nrm_msg_is_reply o.1 = 0) outs -> mfold run_command w outs = Ok w' ->
  nrm_client_actuate (Some (client_on (quiet st u tm topics pub sub cmd id w) fn act)) (Some a) v =
  Ok (0, Some (client_on (quiet st' u' tm topics pub sub cmd id w') fn act)).
Proof.
  intros Hval Hname Hd Houts Hw. unfold nrm_client_actuate. rewrite Hval. cbn [mbind outcome_bind Z.eqb negb].
  unfold nrm_actuator_uuid. cbn [is_null negb c_assert deref mbind outcome_bind]. rewrite Hname.
  unfold nrm_msg_set_actuate, request. cbn [nrm_msg_create nrm_msg_fill snd].
  change (snd _) with (Some (Msg NRM_MSG_TYPE_ACTUATE D_none)).
  cbn [nrm_msg_actuate_new strdup deref mbind outcome_bind m_type].
  change (Msg NRM_MSG_TYPE_ACTUATE (D_actuate (MActuate (Some name) v))) with (command name v).
  rewrite (rpc_reply st u tm topics pub sub cmd id w w' fn act (command name v) 0 st' u' tm outs ack);
    [reflexivity|done|by left|done|done|done|exact Hd].
Qed.

Lemma client_actuate_valid st u tm topics pub sub cmd id w fn act a name v e cb u' w' owner rc v' :
  let c := client_on (quiet st u tm topics pub sub cmd id w) fn act in
  nrm_actuator_validate_value (Some a) v = Ok 0 -> a_uuid (a_data a) = Some name ->
  state_ok st -> HASH_FIND (st_actuators st) name = Some e ->
  cb_actuate callbacks = Some cb ->
  cb (srv (Pipe [] []) st tm u) (ptr e) v = Ok (0, srv (Pipe [] []) st tm u') ->
  a_clientid (a_data (ptr e)) = Some owner ->
  nrm_actuator_corrected_value (Some (ptr e)) (Some v) = Ok (rc, Some v') ->
  run_command w (command name v', owner) = Ok w' ->
  nrm_client_actuate (Some c) (Some a) v =
  Ok (0, Some (client_on (quiet (state_set_value st name (with_value (ptr e) v')) u' tm topics pub
                           sub cmd id w') fn act)).
Proof.
  intros c Hval Hname Hst Hf Hcb Ecb Hown Hv Hw.
  destruct (dispatch_actuate st u tm id name v e cb u' Hst Hf Hcb Ecb)
    as (rc2 & v2 & owner2 & Hv2 & Hown2 & Hd).
  assert (v2 = v') as -> by congruence. assert (owner2 = owner) as -> by congruence.
  eapply client_actuate_sent; [done|done|exact Hd|by repeat constructor|].
  cbn [mfold]. by rewrite Hw.
Qed.

(** C2: a client actuates. A value that its own actuator refuses is not sent.
    Otherwise, when the server knows the actuator and its user agrees, the call
    returns 0, the server has stored the value its own actuator corrects it to,
    and the owner of the actuator, whichever client it is, has got that value as a
    command: the callback that the owner's broker runs on commands has run on it,
    once. *)
Theorem client_actuates st u tm topics pub sub cmd id w fn act a name v :
  let c := client_on (quiet st u tm topics pub sub cmd id w) fn act in
  (forall err, nrm_actuator_validate_value (Some a) v = Ok err -> err <> 0 ->
     nrm_client_actuate (Some c) (Some a) v = Ok (err, Some c)) /\
  (forall e cb u' w' owner rc v',
     nrm_actuator_validate_value (Some a) v = Ok 0 -> a_uuid (a_data a) = Some name ->
     state_ok st -> HASH_FIND (st_actuators st) name = Some e ->
     cb_actuate callbacks = Some cb ->
     cb (srv (Pipe [] []) st tm u) (ptr e) v = Ok (0, srv (Pipe [] []) st tm u') ->
     a_clientid (a_data (ptr e)) = Some owner ->
     nrm_actuator_corrected_value (Some (ptr e)) (Some v) = Ok (rc, Some v') ->
     (match on_command owner with Some f => f (Some (command name v')) w | None => Ok w end) = Ok w' ->
     nrm_client_actuate (Some c) (Some a) v =
     Ok (0, Some (client_on (quiet (state_set_value st name (with_value (ptr e) v')) u' tm topics pub
                              sub cmd id w') fn act))).
Proof.
  intros c. split; [intros err; apply client_actuate_refused|].
  intros e cb u' w' owner rc v'. apply client_actuate_valid.
Qed.
End system.

(** ** Witnesses *)

Definition some_scope : nrm_scope := Scope (Some "s"%string) [or_bit bitmap_zero 3; bitmap_zero; bitmap_zero].

Lemma client_registers_scope_witness :
  let st := State [] [] [] [] in
  let c := client_on counting zeros (fun _ => None) (quiet st 0%nat [] [] [] None None "me" tt) None None in
  let c' := client_on counting zeros (fun _ => None)
              (quiet (state_add_scope st "s" some_scope) 0%nat [] [] [] None None "me" tt) None None in
  nrm_client_add_scope (Some c) (Some some_scope) = Ok (0, Some c', Some some_scope) /\
  nrm_client_list_scopes (Some c') false = Ok (0, Some c', [Some some_scope]) /\
  exists e, HASH_FIND (st_scopes (state_add_scope st "s" some_scope)) "s" = Some e /\
    nrm_client_find (Some c') NRM_MSG_TARGET_TYPE_SCOPE (Some "s"%string) =
    Ok (0, Some c', Some (Found_scopes [Some (ptr e)])).
Proof.
  apply (client_registers_scope counting zeros (fun _ => None) (State [] [] [] []) 0%nat [] [] [] None None "me" tt
    None None some_scope "s" state_ok_empty); [|reflexivity].
  apply scope_wf_3; auto with nrm.
Defined.

(** What each client gets, with its identity. *)
Definition received (id : string) : option (option nrm_msg -> list (string * option nrm_msg) ->
    outcome (list (string * option nrm_msg))) := Some (fun m w => Ok ((id, m) :: w)).

(** The owner of the actuator, ["c"], is another client than the one that actuates. *)
Lemma client_actuates_witness :
  let c u w st := client_on counting zeros received (quiet st u [] [] [] None None "me" w) None None in
  nrm_client_actuate (Some (c 0%nat [] one_actuator)) (Some limited) (d_of_Z 3) =
  Ok (0, Some (c 1%nat [("c"%string, Some (command "a" (d_of_Z 3)))]
                (state_set_value one_actuator "a" (with_value limited (d_of_Z 3))))).
Proof.
  intros c.
  apply (proj2 (client_actuates counting zeros received one_actuator 0%nat [] [] [] None None "me" [] None None
    limited "a" (d_of_Z 3)) (Elem "a" limited) (fun s _ _ => Ok (0, with_user s (S (s_user s)))) 1%nat
    [("c"%string, Some (command "a" (d_of_Z 3)))] "c"%string 0 (d_of_Z 3)); try reflexivity. exact one_actuator_ok.
Defined.
