(* ===== verification/Shared.v ===== *)
(** * One client, several threads (src/client.c)

    Each function of client.c that makes a request takes the lock of the client to send
    and once more to receive; [nrm_client_send_event] and [nrm_client_send_exit] only
    send. Here the calls of several threads on one client are interleaved at those
    critical sections, over the data of the client's role (Roles). The brokers, the
    wire and the server take the messages in order and give the replies of each; what
    they answer is a parameter, and the server of Server is an instance. *)

From stdpp Require Import relations.
From S2P Require Import Prelude Vectors Doubles Hashes Bitmaps Json Timers Scopes Actuators.
From S2P Require Import Events Messages MsgJson States Roles Server Client Objects System.

(** ** The state *)

(** A call: a request, that waits for an answer, or a message that is only sent. *)
Inductive call := Request (m : nrm_msg) | Post (m : nrm_msg).
Definition call_msg (c : call) : nrm_msg := match c with Request m | Post m => m end.

(** Where a thread is in its call: before [pthread_mutex_lock], between it and
    [nrm_role_send], before [pthread_mutex_unlock]; the same three for
    [nrm_role_recv]; after the call. *)
Inductive point :=
| At_lock | At_send | At_unlock
| At_relock | At_recv | At_release (reply : nrm_msg)
| Returned (reply : option nrm_msg).

Record thread := Thread { t_call : call; t_at : point }.

Section shared.
Context {F S : Type}.
(** What the other side does with a message. *)
Variable answer : S -> nrm_msg -> list nrm_msg * S.

(** The lock, the data of the role, the threads and the other side; and the calls
    that have sent and received, in order. *)
Record shared := Shared {
  sh_lock : option nat;
  sh_role : nrm_role_client F;
  sh_threads : list thread;
  sh_server : S;
  sh_sent : list (nat * call);
  sh_got : list (nat * nrm_msg)
}.

Definition at_point (ts : list thread) (i : nat) (c : call) (p : point) : list thread :=
  <[i := Thread c p]> ts.

Definition reply_ctrl (m : nrm_msg) : ctrlmsg := Ctrlmsg "RECV" (V_msg (norm_msg m)) V_null.

(** ** The steps *)

Inductive step : shared -> shared -> Prop :=
| step_lock r ts s sent got i c :
    ts !! i = Some (Thread c At_lock) ->
    step (Shared None r ts s sent got) (Shared (Some i) r (at_point ts i c At_send) s sent got)
| step_send r r' ts s sent got i c l rc :
    ts !! i = Some (Thread c At_send) ->
    nrm_role_client_send r (Some (call_msg c)) None = Ok (rc, r') ->
    step (Shared l r ts s sent got)
         (Shared l r' (at_point ts i c At_unlock) s (sent ++ [(i, c)]) got)
| step_unlock r ts s sent got i c l :
    ts !! i = Some (Thread c At_unlock) ->
    step (Shared l r ts s sent got)
         (Shared None r (at_point ts i c (match c with Request _ => At_relock | Post _ => Returned None end))
            s sent got)
| step_relock r ts s sent got i c :
    ts !! i = Some (Thread c At_relock) ->
    step (Shared None r ts s sent got) (Shared (Some i) r (at_point ts i c At_recv) s sent got)
| step_recv r r' ts s sent got i c l m from :
    ts !! i = Some (Thread c At_recv) ->
    nrm_role_client_recv r = Ok (Some m, from, r') ->
    step (Shared l r ts s sent got)
         (Shared l r' (at_point ts i c (At_release m)) s sent (got ++ [(i, m)]))
| step_release r ts s sent got i c l m :
    ts !! i = Some (Thread c (At_release m)) ->
    step (Shared l r ts s sent got) (Shared None r (at_point ts i c (Returned (Some m))) s sent got)
| step_serve r ts s sent got l c out inp m from rs s' :
    cl_pipe r = Pipe (c :: out) inp -> nrm_ctrlmsg_recvmsg c = Ok (Some m, NRM_CTRLMSG_TYPE_SEND, from) ->
    answer s m = (rs, s') ->
    step (Shared l r ts s sent got)
         (Shared l (with_pipe r (Pipe out (inp ++ (reply_ctrl <$> rs)))) ts s' sent got).

Definition start (sub cmd : option F) (calls : list call) (s : S) : shared :=
  Shared None (RoleClient (Pipe [] []) sub cmd) ((fun c => Thread c At_lock) <$> calls) s [] [].

Definition reachable (x y : shared) : Prop := rtc step x y.

(** ** The invariant *)

(** The replies to messages one after the other. *)
Fixpoint answers (s : S) (ms : list nrm_msg) : list nrm_msg * S :=
  match ms with
  | [] => ([], s)
  | m :: ms => let '(rs, s) := answer s m in let '(rs', s) := answers s ms in (rs ++ rs', s)
  end.

Lemma answers_app s ms1 ms2 :
  answers s (ms1 ++ ms2) =
  let '(rs1, s) := answers s ms1 in let '(rs2, s) := answers s ms2 in (rs1 ++ rs2, s).
Proof.
  revert s. induction ms1 as [|m ms1 IH]; intros s; cbn [app answers]; [by destruct (answers s ms2)|].
  destruct (answer s m) as [rs s1]. rewrite IH. destruct (answers s1 ms1) as [rs1 s2].
  destruct (answers s2 ms2). by rewrite app_assoc.
Qed.

(** A critical section. *)
Definition holds_lock (p : point) : bool :=
  match p with At_send | At_unlock | At_recv | At_release _ => true | _ => false end.

Definition sent_ctrl (m : nrm_msg) : ctrlmsg := Ctrlmsg "SEND" (V_msg m) V_null.

(** The thread that has the lock is the one that is in a critical section. *)
Definition lock_ok (x : shared) : Prop :=
  forall i t, sh_threads x !! i = Some t -> holds_lock (t_at t) = true <-> sh_lock x = Some i.

(** The messages of the calls that have sent. *)
Definition sent_msgs (x : shared) : list nrm_msg := call_msg <$> (sh_sent x).*2.

(** The first [k] messages that were sent have been served: their replies are what
    has been received and what is in the pipe; the others are in the pipe. *)
Definition fifo_ok (s0 : S) (x : shared) : Prop :=
  exists k rs todo, (k <= length (sh_sent x))%nat /\
    answers s0 (take k (sent_msgs x)) = (rs, sh_server x) /\
    p_out (cl_pipe (sh_role x)) = sent_ctrl <$> drop k (sent_msgs x) /\
    norm_msg <$> rs = (sh_got x).*2 ++ (norm_msg <$> todo) /\
    p_in (cl_pipe (sh_role x)) = reply_ctrl <$> todo.

(** What each thread has done. *)
Definition has_sent (p : point) : bool :=
  match p with At_lock | At_send | Returned None => false | _ => true end.
Definition reply_at (p : point) : option nrm_msg :=
  match p with At_release m => Some m | Returned r => r | _ => None end.

Definition waits (t : thread) : nat :=
  match t with
  | Thread (Request _) (At_unlock | At_relock | At_recv) => 1
  | _ => 0
  end.
Definition is_request (c : call) : nat := match c with Request _ => 1 | Post _ => 0 end.

Definition point_ok (t : thread) : Prop :=
  match t with
  | Thread (Post _) (At_relock | At_recv | At_release _ | Returned (Some _)) => False
  | Thread (Request _) (Returned None) => False
  | _ => True
  end.

(** The requests that have been sent are those that wait and those that have their
    reply; what a thread has as its reply it has received. *)
Definition threads_ok (calls : list call) (x : shared) : Prop :=
  t_call <$> sh_threads x = calls /\
  Forall point_ok (sh_threads x) /\
  sum_list (is_request <$> (sh_sent x).*2) = (sum_list (waits <$> sh_threads x) + length (sh_got x))%nat /\
  (forall i c, (i, c) ∈ sh_sent x -> c ∈ calls) /\
  (forall i t m, sh_threads x !! i = Some t -> reply_at (t_at t) = Some m -> (i, m) ∈ sh_got x).

Definition shared_ok (s0 : S) (calls : list call) (x : shared) : Prop :=
  lock_ok x /\ (forall i, sh_lock x = Some i -> (i < length (sh_threads x))%nat) /\
  fifo_ok s0 x /\ threads_ok calls x.

Lemma sum_list_insert {A} (f : A -> nat) (l : list A) i x y :
  l !! i = Some x -> (sum_list (f <$> <[i := y]> l) + f x = sum_list (f <$> l) + f y)%nat.
Proof.
  intros Hi. rewrite insert_take_drop by (by eapply lookup_lt_Some).
  rewrite <- (take_drop_middle l i x Hi) at 3. rewrite !fmap_app, !fmap_cons.
  rewrite !sum_list_with_app. cbn. lia.
Qed.

Lemma start_ok s0 sub cmd calls : shared_ok s0 calls (start sub cmd calls s0).
Proof.
  split; [|split; [|split]].
  - intros i t. cbn. intros Hi. apply list_lookup_fmap_Some in Hi as (c & -> & _). by cbn.
  - done.
  - exists 0%nat, [], []. by cbn.
  - split_and!; cbn.
    + rewrite <- list_fmap_compose. apply list_fmap_id.
    + apply Forall_fmap, Forall_forall. by intros [m|m] _.
    + induction calls as [|[m|m] calls IH]; [done|exact IH|exact IH].
    + by intros i c Hi%elem_of_nil.
    + intros i t m Hi. apply list_lookup_fmap_Some in Hi as (c & -> & _). by cbn.
Qed.

(** A step of a thread in its list: the lock and the thread change together. *)
Lemma lock_step ts i c p q l l' :
  ts !! i = Some (Thread c p) ->
  (forall j t, ts !! j = Some t -> holds_lock (t_at t) = true <-> l = Some j) ->
  (holds_lock p = false -> l = None) -> l' = (if holds_lock q then Some i else None) ->
  forall j t, at_point ts i c q !! j = Some t -> holds_lock (t_at t) = true <-> l' = Some j.
Proof.
  intros Hi Hok Hp -> j t Hj. unfold at_point in Hj.
  assert (Hl : l = None \/ l = Some i).
  { destruct (holds_lock p) eqn:E; [|by left; apply Hp]. right. by apply (Hok i (Thread c p)). }
  destruct (decide (i = j)) as [<-|Hne].
  - rewrite list_lookup_insert_eq in Hj by (by eapply lookup_lt_Some). injection Hj as <-. cbn.
    by destruct (holds_lock q).
  - rewrite list_lookup_insert_ne in Hj by done. specialize (Hok j t Hj).
    assert (Hf : holds_lock (t_at t) <> true).
    { intros Ht. apply Hok in Ht. destruct Hl as [Hl|Hl]; congruence. }
    destruct (holds_lock q); split; intros; congruence.
Qed.

Lemma held (ts : list thread) (i : nat) c p l :
  ts !! i = Some (Thread c p) -> holds_lock p = true ->
  (forall (j : nat) t, ts !! j = Some t -> holds_lock (t_at t) = true <-> l = Some j) -> l = Some i.
Proof. intros Hi Hp Hok. by apply (Hok i (Thread c p)). Qed.

Lemma step_lock_ok x y : step x y -> lock_ok x -> lock_ok y.
Proof.
  unfold lock_ok. destruct 1 as [r ts s sent got i c Hi|r r' ts s sent got i c l rc Hi _|r ts s sent got i c l Hi
    |r ts s sent got i c Hi|r r' ts s sent got i c l m from Hi _|r ts s sent got i c l m Hi
    |]; cbn [sh_lock sh_threads]; intros Hok; [..|done].
  - by apply (lock_step ts i c _ _ _ _ Hi Hok).
  - by apply (lock_step ts i c _ _ _ _ Hi Hok), (held ts i c _ l Hi).
  - apply (lock_step ts i c _ _ _ _ Hi Hok); [done|by destruct c].
  - by apply (lock_step ts i c _ _ _ _ Hi Hok).
  - by apply (lock_step ts i c _ _ _ _ Hi Hok), (held ts i c _ l Hi).
  - by apply (lock_step ts i c _ _ _ _ Hi Hok).
Qed.

Lemma step_lock_valid x y :
  step x y -> (forall i, sh_lock x = Some i -> (i < length (sh_threads x))%nat) ->
  forall i, sh_lock y = Some i -> (i < length (sh_threads y))%nat.
Proof.
  destruct 1; cbn [sh_lock sh_threads]; unfold at_point; intros Hok j Hj; rewrite ?length_insert; auto;
    try discriminate; injection Hj as <-; by eapply lookup_lt_Some.
Qed.

(** The pipe after a message is sent, or a reply received. *)
Lemma send_spec (r : nrm_role_client F) m rc r' :
  nrm_role_client_send r (Some m) None = Ok (rc, r') ->
  cl_pipe r' = Pipe (p_out (cl_pipe r) ++ [sent_ctrl m]) (p_in (cl_pipe r)).
Proof. by intros [= <- <-]. Qed.

Lemma recv_spec (r : nrm_role_client F) m from r' todo :
  nrm_role_client_recv r = Ok (Some m, from, r') -> p_in (cl_pipe r) = reply_ctrl <$> todo ->
  exists reply todo', todo = reply :: todo' /\ m = norm_msg reply /\
    cl_pipe r' = Pipe (p_out (cl_pipe r)) (reply_ctrl <$> todo').
Proof.
  unfold nrm_role_client_recv, pipe_recvmsg, pipe_recv. intros Hr Hin. rewrite Hin in Hr.
  destruct todo as [|reply todo]; [done|]. exists reply, todo. cbn in Hr. by injection Hr as <- _ <-.
Qed.

Lemma sent_msgs_snoc l r ts s sent got i c :
  sent_msgs (Shared l r ts s (sent ++ [(i, c)]) got) = (call_msg <$> sent.*2) ++ [call_msg c].
Proof. unfold sent_msgs. cbn. by rewrite !fmap_app. Qed.

Lemma step_fifo_ok s0 x y : step x y -> fifo_ok s0 x -> fifo_ok s0 y.
Proof.
  destruct 1 as [r ts s sent got i c Hi|r r' ts s sent got i c l rc Hi Hsend|r ts s sent got i c l Hi
    |r ts s sent got i c Hi|r r' ts s sent got i c l m from Hi Hrecv|r ts s sent got i c l m Hi
    |r ts s sent got l c out inp m from rs s' Hpipe Hmsg Hans]; try done;
    intros (k & rs0 & todo & Hk & Hrs & Hout & Hgot & Hin).
  - apply send_spec in Hsend. exists k, rs0, todo. rewrite sent_msgs_snoc. cbn in *. rewrite Hsend, length_app. cbn.
    assert (length (call_msg <$> sent.*2) = length sent) as Hlen by by rewrite !length_fmap.
    split; [lia|]. rewrite take_app_le, drop_app_le, fmap_app by (rewrite Hlen; lia).
    split; [exact Hrs|]. split; [|done]. by f_equal.
  - destruct (recv_spec _ _ _ _ _ Hrecv Hin) as (reply & todo' & -> & -> & Hp).
    exists k, rs0, todo'. cbn in *. rewrite Hp. split; [done|]. split; [done|]. split; [done|]. split; [|done].
    rewrite Hgot, fmap_app. by rewrite <- app_assoc.
  - unfold fifo_ok, sent_msgs in *. cbn in *. rewrite Hpipe in Hout, Hin. cbn in Hout, Hin. cbn [sh_sent] in *.
    destruct (drop k (call_msg <$> sent.*2)) as [|m' rest] eqn:Ed; [done|]. injection Hout as -> Hout.
    cbn in Hmsg. injection Hmsg as -> _.
    assert (Hlt : (k < length (call_msg <$> sent.*2))%nat).
    { apply (f_equal length) in Ed. rewrite length_drop in Ed. cbn in Ed. lia. }
    assert (Hk' : (call_msg <$> sent.*2) !! k = Some m).
    { rewrite <- (Nat.add_0_r k), <- lookup_drop, Ed. done. }
    exists (Datatypes.S k), (rs0 ++ rs), (todo ++ rs). rewrite !length_fmap in Hlt. split; [cbn; lia|].
    rewrite (take_S_r _ _ _ Hk'), answers_app, Hrs. cbn [answers]. rewrite Hans, app_nil_r. split; [done|].
    split; [|split].
    + cbn. rewrite Hout. f_equal. replace (Datatypes.S k) with (k + 1)%nat by lia.
      by rewrite <- drop_drop, Ed.
    + cbn. by rewrite !fmap_app, Hgot, <- app_assoc.
    + cbn. by rewrite Hin, fmap_app.
Qed.

Lemma point_call ts i c p q :
  ts !! i = Some (Thread c p) -> t_call <$> at_point ts i c q = t_call <$> ts.
Proof.
  intros Hi. unfold at_point. rewrite list_fmap_insert. apply list_insert_id.
  by rewrite list_lookup_fmap, Hi.
Qed.

(** A thread that moves: the others, and the replies, stay as they are. *)
Lemma replies_move (ts : list thread) (got got' : list (nat * nrm_msg)) i c q :
  (i < length ts)%nat ->
  (forall j t m, ts !! j = Some t -> reply_at (t_at t) = Some m -> (j, m) ∈ got) ->
  (forall e, e ∈ got -> e ∈ got') -> (forall m, reply_at q = Some m -> (i, m) ∈ got') ->
  forall j t m, at_point ts i c q !! j = Some t -> reply_at (t_at t) = Some m -> (j, m) ∈ got'.
Proof.
  intros Hi Hok Hsub Hq j t m Hj Hm. unfold at_point in Hj. destruct (decide (i = j)) as [<-|Hne].
  - rewrite list_lookup_insert_eq in Hj by done. injection Hj as <-. by apply Hq.
  - rewrite list_lookup_insert_ne in Hj by done. by eapply Hsub, Hok.
Qed.

Lemma step_threads_ok calls x y : step x y -> threads_ok calls x -> threads_ok calls y.
Proof.
  intros Hstep (Hcalls & Hpoints & Hsum & Hsent & Hreplies). unfold threads_ok in *.
  destruct Hstep as [r ts s sent got i c Hi|r r' ts s sent got i c l rc Hi Hsend|r ts s sent got i c l Hi
    |r ts s sent got i c Hi|r r' ts s sent got i c l m from Hi Hrecv|r ts s sent got i c l m Hi|];
    cbn [sh_threads sh_sent sh_got] in *; [..|done];
    pose proof (lookup_lt_Some _ _ _ Hi) as Hlt; pose proof (Forall_lookup_1 _ _ _ _ Hpoints Hi) as Hp;
    (split; [by rewrite (point_call ts i c _ _ Hi)|]);
    (split; [apply Forall_insert; [done|by destruct c]|]);
    match goal with |- context [at_point ts i c ?q] =>
      pose proof (sum_list_insert waits ts i (Thread c _) (Thread c q) Hi) as Hw; fold (at_point ts i c q) in Hw
    end.
  - split; [cbn in Hw; lia|]. split; [done|]. by eapply replies_move.
  - rewrite !fmap_app, sum_list_with_app. split; [destruct c; cbn in Hw |- *; lia|]. split.
    + intros j c' [Hj|Hj]%elem_of_app; [by eapply Hsent|]. apply list_elem_of_singleton in Hj as [= -> ->].
      rewrite <- Hcalls. apply list_elem_of_fmap. exists (Thread c At_send). split; [done|].
      by eapply list_elem_of_lookup_2.
    + by eapply replies_move.
  - split; [destruct c; cbn in Hw |- *; lia|]. split; [done|]. eapply replies_move; try done. by destruct c.
  - split; [destruct c; cbn in Hw |- *; lia|]. split; [done|]. by eapply replies_move.
  - rewrite length_app. split; [destruct c; [cbn in Hw |- *; lia|done]|]. split; [done|].
    eapply replies_move; try done; [intros e He; apply elem_of_app; by left|].
    intros m' [= <-]. apply elem_of_app. right. by apply list_elem_of_singleton.
  - split; [destruct c; cbn in Hw |- *; lia|]. split; [done|].
    eapply replies_move; try done. intros m' [= <-]. by apply (Hreplies i (Thread c (At_release m))).
Qed.

Lemma reachable_ok s0 sub cmd calls x :
  reachable (start sub cmd calls s0) x -> shared_ok s0 calls x.
Proof.
  apply (rtc_ind_r (shared_ok s0 calls)); [apply start_ok|].
  intros y z _ Hstep (Hl & Hv & Hf & Ht). split; [by eapply step_lock_ok|].
  split; [by eapply step_lock_valid|]. split; [by eapply step_fifo_ok|by eapply step_threads_ok].
Qed.

(** ** What holds of every interleaving *)

(** C8: the calls of any number of threads on one client exclude each other where
    they use the role, and replies are received in the order of the requests: in every
    state that can be reached, two threads are never both in a critical section, and
    the replies received so far are a prefix of those that the other side gives to the
    messages sent so far, in the order in which the threads got the lock. What a call
    returns is one of them. Nothing says that it is the reply to its own request. *)
Theorem client_fifo s0 sub cmd calls x :
  reachable (start sub cmd calls s0) x ->
  (forall i j t t', sh_threads x !! i = Some t -> sh_threads x !! j = Some t' ->
     holds_lock (t_at t) = true -> holds_lock (t_at t') = true -> i = j) /\
  (sh_got x).*2 `prefix_of` (norm_msg <$> (answers s0 (sent_msgs x)).1) /\
  (forall i c m, sh_threads x !! i = Some (Thread c (Returned (Some m))) -> (i, m) ∈ sh_got x).
Proof.
  intros Hx. destruct (reachable_ok _ _ _ _ _ Hx) as (Hl & _ & (k & rs & todo & _ & Hrs & _ & Hgot & _) & Ht).
  split; [|split].
  - intros i j t t' Hi Hj Hit Hjt. apply (Hl i t Hi) in Hit. apply (Hl j t' Hj) in Hjt. congruence.
  - rewrite <- (take_drop k (sent_msgs x)), answers_app, Hrs. destruct (answers (sh_server x) _) as [rs' s'].
    cbn. rewrite fmap_app, Hgot, <- app_assoc. by apply prefix_app_r.
  - intros i c m Hi. destruct Ht as (_ & _ & _ & _ & Hreplies). by apply (Hreplies i _ m Hi).
Qed.

(** ** Every call returns *)

(** The steps a thread has left, with that of the other side on its message. *)
Definition steps_left (t : thread) : nat :=
  match t_at t with
  | At_lock => 7 | At_send => 6 | At_unlock => 4 | At_relock => 3 | At_recv => 2 | At_release _ => 1
  | Returned _ => 0
  end.
Definition work (x : shared) : nat :=
  sum_list (steps_left <$> sh_threads x) + length (p_out (cl_pipe (sh_role x))).

Lemma step_work x y : step x y -> (work y < work x)%nat.
Proof.
  unfold work. destruct 1 as [r ts s sent got i c Hi|r r' ts s sent got i c l rc Hi Hsend|r ts s sent got i c l Hi
    |r ts s sent got i c Hi|r r' ts s sent got i c l m from Hi Hrecv|r ts s sent got i c l m Hi
    |r ts s sent got l c out inp m from rs s' Hpipe]; cbn [sh_threads sh_role];
    [..|rewrite Hpipe; cbn; lia];
    match goal with |- context [at_point ts i c ?q] =>
      pose proof (sum_list_insert steps_left ts i (Thread c _) (Thread c q) Hi) as Hw; fold (at_point ts i c q) in Hw
    end; try (cbn in Hw |- *; lia).
  - apply send_spec in Hsend. rewrite Hsend. cbn in Hw |- *. rewrite length_app. cbn. lia.
  - destruct c; cbn in Hw |- *; lia.
  - assert (Hout : p_out (cl_pipe r') = p_out (cl_pipe r)).
    { revert Hrecv. unfold nrm_role_client_recv, pipe_recvmsg, pipe_recv.
      destruct (p_in (cl_pipe r)) as [|c0 inp]; [done|]. cbn [mbind outcome_bind].
      destruct (nrm_ctrlmsg_recvmsg c0) as [[[m0 type] from0]| | |]; [|done..]. cbn [mbind outcome_bind].
      destruct (c_assert _); [|done..]. by intros [= _ _ <-]. }
    rewrite Hout. cbn in Hw |- *. lia.
Qed.

Lemma start_work s0 sub cmd calls : work (start sub cmd calls s0) = (7 * length calls)%nat.
Proof.
  unfold work, start. cbn [sh_threads sh_role cl_pipe p_out length]. rewrite Nat.add_0_r.
  induction calls as [|c calls IH]; [done|]. rewrite !fmap_cons. cbn [length].
  change (sum_list (?x :: ?l)) with (x + sum_list l)%nat. rewrite IH. cbn. lia.
Qed.

Lemma nsteps_work n x y : nsteps step n x y -> (n + work y <= work x)%nat.
Proof. induction 1 as [|n x y z Hstep _ IH]; [done|]. apply step_work in Hstep. lia. Qed.

(** In the states where the other side is well, it answers the requests and stays well;
    it may answer the rest too. *)
Definition answers_requests (ok : S -> Prop) (calls : list call) : Prop :=
  forall c s, c ∈ calls -> ok s ->
    ok (answer s (call_msg c)).2 /\ (is_request c = 1%nat -> (answer s (call_msg c)).1 <> []).

Lemma answers_length ok calls sent s :
  answers_requests ok calls -> ok s -> (forall c, c ∈ sent -> c ∈ calls) ->
  (sum_list (is_request <$> sent) <= length (answers s (call_msg <$> sent)).1)%nat.
Proof.
  intros Hans. revert s. induction sent as [|c sent IH]; intros s Hs Hsub; [done|].
  destruct (Hans c s (Hsub _ (list_elem_of_here _ _)) Hs) as [Hs1 Hne].
  cbn [fmap list_fmap answers]. destruct (answer s (call_msg c)) as [rs s1] eqn:E.
  specialize (IH s1 Hs1 (fun c' Hc' => Hsub c' (list_elem_of_further _ _ _ Hc'))).
  change (list_fmap ?A ?B) with (@fmap list _ A B).
  destruct (answers s1 _) as [rs' s2]. cbn [fst] in *. rewrite length_app.
  change (sum_list (is_request c :: (is_request <$> sent))) with
    (is_request c + sum_list (is_request <$> sent))%nat.
  assert (is_request c <= length rs)%nat; [|lia]. destruct c as [m|m]; [|cbn; lia].
  specialize (Hne eq_refl). destruct rs; [done|cbn; lia].
Qed.

Definition returned (t : thread) : bool := match t_at t with Returned _ => true | _ => false end.

(** A call that waits has something to wait for. *)
Lemma waiting_has_input ok s0 calls x i m p :
  shared_ok s0 calls x -> answers_requests ok calls -> ok s0 ->
  sh_threads x !! i = Some (Thread (Request m) p) -> waits (Thread (Request m) p) = 1%nat ->
  p_out (cl_pipe (sh_role x)) = [] -> exists reply todo, p_in (cl_pipe (sh_role x)) = reply_ctrl reply :: todo.
Proof.
  intros (_ & _ & (k & rs & todo & Hk & Hrs & Hout & Hgot & Hin) & (_ & _ & Hsum & Hsent & _)) Hans Hs0 Hi Hw Hempty.
  rewrite Hempty in Hout. symmetry in Hout. apply fmap_nil_inv in Hout.
  assert (Htake : take k (sent_msgs x) = sent_msgs x).
  { rewrite <- (take_drop k (sent_msgs x)) at 2. by rewrite Hout, app_nil_r. }
  rewrite Htake in Hrs. pose proof (answers_length ok calls (sh_sent x).*2 s0 Hans Hs0) as Hlen.
  fold (sent_msgs x) in Hlen. rewrite Hrs in Hlen. cbn [fst] in Hlen.
  assert (Hsub : forall c, c ∈ (sh_sent x).*2 -> c ∈ calls).
  { intros c Hc. apply list_elem_of_fmap in Hc as ([j c'] & -> & Hc). by eapply Hsent. }
  specialize (Hlen Hsub). apply (f_equal length) in Hgot. rewrite length_app, !length_fmap in Hgot.
  assert (Hone : (1 <= sum_list (waits <$> sh_threads x))%nat).
  { pose proof (sum_list_insert waits _ i _ (Thread (Request m) At_lock) Hi) as Hs. rewrite Hw in Hs. cbn in Hs. lia. }
  destruct todo as [|reply todo]; [cbn in Hgot; lia|]. by exists reply, (reply_ctrl <$> todo).
Qed.

(** The thread that receives has the lock: either a reply is there, or the other side
    has a message to serve. *)
Lemma pipe_has_step ok s0 calls x i c :
  shared_ok s0 calls x -> answers_requests ok calls -> ok s0 ->
  sh_threads x !! i = Some (Thread c At_recv) -> exists y, step x y.
Proof.
  intros Hok Hans Hs0 Hi. pose proof Hok as (_ & _ & (k & rs & todo & _ & _ & Hout & _) & (_ & Hpoints & _)).
  pose proof (Forall_lookup_1 _ _ _ _ Hpoints Hi) as Hp. destruct c as [m|m]; [|done].
  destruct (p_out (cl_pipe (sh_role x))) as [|c out] eqn:E.
  - destruct (waiting_has_input _ _ _ _ _ _ _ Hok Hans Hs0 Hi eq_refl E) as (reply & inp & Hin).
    destruct x as [l [p sub cmd] ts s sent got]. cbn in *. eexists.
    eapply (step_recv _ (RoleClient (Pipe (p_out p) inp) sub cmd)); [exact Hi|].
    unfold nrm_role_client_recv, pipe_recvmsg, pipe_recv. cbn [cl_pipe]. rewrite Hin. reflexivity.
  - symmetry in Hout. apply fmap_cons_inv in Hout as (m' & ? & -> & _).
    destruct x as [l [[out' inp] sub cmd] ts s sent got]. cbn in E. subst out'.
    destruct (answer s m') as [rs' s'] eqn:Ea. eexists.
    eapply step_serve; [reflexivity|reflexivity|exact Ea].
Qed.

(** C9: no call is left waiting. When the other side answers every request, every
    run of the threads ends, after at most seven steps for each call, and it can only
    end with all calls returned: while one has not, some step is possible. The lock is
    held while a reply is waited for, which blocks the other threads but never for
    good. *)
Theorem client_calls_end ok s0 sub cmd calls x :
  answers_requests ok calls -> ok s0 ->
  (forall n y, nsteps step n (start sub cmd calls s0) y -> (n <= 7 * length calls)%nat) /\
  (reachable (start sub cmd calls s0) x -> Forall (fun t => returned t = true) (sh_threads x) \/ exists y, step x y).
Proof.
  intros Hans Hs0. split.
  - intros n y Hn. apply nsteps_work in Hn. rewrite start_work in Hn. lia.
  - intros Hx. pose proof (reachable_ok _ _ _ _ _ Hx) as Hok.
    pose proof Hok as (Hl & Hv & _). destruct x as [l r ts s sent got].
    destruct (list_find (fun t => returned t = false) ts) as [[i t]|] eqn:Efind.
    2:{ left. apply list_find_None in Efind. eapply Forall_impl; [exact Efind|].
        intros t Hret. cbn in Hret. destruct (returned t); [done|by destruct Hret]. }
    right. apply list_find_Some in Efind as (Hi & Hr & _). destruct l as [j|].
    + destruct (lookup_lt_is_Some_2 ts j (Hv j eq_refl)) as [[c p] Hj].
      assert (Hp : holds_lock p = true) by by apply (Hl j (Thread c p) Hj).
      destruct p; try discriminate Hp.
      * eexists. by eapply step_send.
      * eexists. by eapply step_unlock.
      * destruct (pipe_has_step _ _ _ _ _ _ Hok Hans Hs0 Hj) as [y Hy]. by exists y.
      * eexists. by eapply step_release.
    + destruct t as [c p]. assert (Hp : holds_lock p <> true) by (intros Hp; by apply (Hl i (Thread c p) Hi) in Hp).
      destruct p; try discriminate Hr; try (by destruct Hp).
      * eexists. by eapply step_lock.
      * eexists. by eapply step_relock.
Qed.

(** ** Replies that cross *)

Ltac go c k := eapply rtc_l; [eapply c with (i := k); reflexivity|cbn].

(** Both send before either receives; then the second has got the first reply and still
    holds the lock, which the first waits for. *)
Lemma requests_sent sub cmd m0 m1 r0 r1 s0 s1 s2 :
  answer s0 m0 = ([r0], s1) -> answer s1 m1 = ([r1], s2) ->
  reachable (start sub cmd [Request m0; Request m1] s0)
    (Shared (Some 1%nat) (RoleClient (Pipe [] [reply_ctrl r1]) sub cmd)
       [Thread (Request m0) At_relock; Thread (Request m1) (At_release (norm_msg r0))]
       s2 [(0%nat, Request m0); (1%nat, Request m1)] [(1%nat, norm_msg r0)]).
Proof.
  intros H0 H1. unfold start, reachable. cbn.
  go step_lock 0%nat. go step_send 0%nat. go step_unlock 0%nat.
  go step_lock 1%nat. go step_send 1%nat. go step_unlock 1%nat.
  eapply rtc_l; [eapply step_serve; [reflexivity|reflexivity|exact H0]|cbn].
  eapply rtc_l; [eapply step_serve; [reflexivity|reflexivity|exact H1]|cbn].
  go step_relock 1%nat. go step_recv 1%nat.
  apply rtc_refl.
Qed.

Lemma requests_cross sub cmd m0 m1 r0 r1 s0 s1 s2 :
  answer s0 m0 = ([r0], s1) -> answer s1 m1 = ([r1], s2) ->
  reachable (start sub cmd [Request m0; Request m1] s0)
    (Shared None (RoleClient (Pipe [] []) sub cmd)
       [Thread (Request m0) (Returned (Some (norm_msg r1))); Thread (Request m1) (Returned (Some (norm_msg r0)))]
       s2 [(0%nat, Request m0); (1%nat, Request m1)] [(1%nat, norm_msg r0); (0%nat, norm_msg r1)]).
Proof.
  intros H0 H1. unfold reachable. etransitivity; [by eapply requests_sent|].
  go step_release 1%nat. go step_relock 0%nat. go step_recv 0%nat. go step_release 0%nat. apply rtc_refl.
Qed.

(** C10: a reply can reach the wrong call. Between the two critical sections of a
    request another thread can send and receive: two requests can return with the
    reply of the other, and one that expects an acknowledgement then fails its
    assertion. The same happens without threads after a message that is only sent and
    that the other side answers, as [nrm_client_send_exit]: the next request returns
    with that answer, and its own is left in the pipe. *)
Theorem client_replies_cross sub cmd m0 m1 r0 r1 s0 s1 s2 :
  answer s0 m0 = ([r0], s1) -> answer s1 m1 = ([r1], s2) ->
  reachable (start sub cmd [Request m0; Request m1] s0)
    (Shared None (RoleClient (Pipe [] []) sub cmd)
       [Thread (Request m0) (Returned (Some (norm_msg r1))); Thread (Request m1) (Returned (Some (norm_msg r0)))]
       s2 [(0%nat, Request m0); (1%nat, Request m1)] [(1%nat, norm_msg r0); (0%nat, norm_msg r1)]) /\
  reachable (start sub cmd [Post m0; Request m1] s0)
    (Shared None (RoleClient (Pipe [] [reply_ctrl r1]) sub cmd)
       [Thread (Post m0) (Returned None); Thread (Request m1) (Returned (Some (norm_msg r0)))]
       s2 [(0%nat, Post m0); (1%nat, Request m1)] [(1%nat, norm_msg r0)]) /\
  (m_type (norm_msg r0) <> NRM_MSG_TYPE_ACK -> reply_ack (norm_msg r0) = Assert_failed).
Proof.
  intros H0 H1. split; [by eapply requests_cross|split].
  - unfold start, reachable. cbn.
    go step_lock 0%nat. go step_send 0%nat. go step_unlock 0%nat.
    go step_lock 1%nat. go step_send 1%nat. go step_unlock 1%nat.
    eapply rtc_l; [eapply step_serve; [reflexivity|reflexivity|exact H0]|cbn].
    eapply rtc_l; [eapply step_serve; [reflexivity|reflexivity|exact H1]|cbn].
    go step_relock 1%nat. go step_recv 1%nat. go step_release 1%nat.
    apply rtc_refl.
  - intros Hne. unfold reply_ack. by destruct (Z.eqb_spec (m_type (norm_msg r0)) NRM_MSG_TYPE_ACK).
Qed.
End shared.
Arguments shared _ _ : clear implicits.

(** ** With the server of nrmd *)

Section server.
Context `{Qsort, Protobuf} {U : Type}.
Variable callbacks : nrm_server_user_callbacks U.
Variable at_uuid : nat -> string.
Variable id : string.

(** What the server sends back to this client because of a message. *)
Definition to_client (c : ctrlmsg) : option nrm_msg :=
  match nrm_ctrlmsg_recvmsg c with
  | Ok (Some m, _, Some to) =>
      if decide (to = id) then if negb (nrm_msg_is_reply m =? 0) then Some m else None else None
  | _ => None
  end.
Definition server_answer (s : nrm_server U) (m : nrm_msg) : list nrm_msg * nrm_server U :=
  match dispatch callbacks at_uuid s (norm_msg m) (Some id) with
  | Ok (_, s) => (omap to_client (server_out s), server_flush s)
  | _ => ([], s)
  end.
End server.

(** ** Witnesses *)

Definition tick_msg : nrm_msg := Msg NRM_MSG_TYPE_TICK D_none.
Definition ack_msg : nrm_msg := Msg NRM_MSG_TYPE_ACK D_none.
Definition empty_server : nrm_server nat := srv (Pipe [] []) (State [] [] [] []) [] 0%nat.
Definition nrmd_answers := server_answer counting zeros "c".
Definition scope_list : list nrm_msg_scope -> nrm_msg := list_msg.
Definition two_calls : list call := [Request (scope_list []); Request tick_msg].

Lemma client_replies_cross_witness :
  reachable (F := unit) nrmd_answers (start None None two_calls empty_server)
    (Shared None (RoleClient (Pipe [] []) None None)
       [Thread (Request (scope_list [])) (Returned (Some ack_msg));
        Thread (Request tick_msg) (Returned (Some (scope_list [])))]
       empty_server [(0%nat, Request (scope_list [])); (1%nat, Request tick_msg)]
       [(1%nat, scope_list []); (0%nat, ack_msg)]) /\
  reply_ack (scope_list []) = Assert_failed.
Proof.
  destruct (client_replies_cross (F := unit) nrmd_answers None None (scope_list []) tick_msg (scope_list [])
    ack_msg empty_server empty_server empty_server eq_refl eq_refl) as (Hcross & _ & Hfail).
  split; [exact Hcross|apply Hfail; discriminate].
Defined.

Definition quiet_server (s : nrm_server nat) : Prop :=
  exists u, s = srv (Pipe [] []) (State [] [] [] []) [] u.

Lemma nrmd_answers_calls : answers_requests nrmd_answers quiet_server two_calls.
Proof.
  intros c s Hc [u ->]. apply elem_of_cons in Hc as [->|Hc%list_elem_of_singleton]; [|subst c];
    (split; [by exists u|discriminate]).
Qed.

Lemma client_calls_end_witness :
  let x := start (F := unit) None None two_calls empty_server in
  (forall n y, nsteps (step nrmd_answers) n x y -> (n <= 14)%nat) /\
  (Forall (fun t => returned t = true) (sh_threads x) \/ exists y, step nrmd_answers x y).
Proof.
  intros x. destruct (client_calls_end nrmd_answers quiet_server empty_server None None two_calls x
    nrmd_answers_calls (ex_intro _ 0%nat eq_refl)) as [Hends Hgoes].
  split; [exact Hends|]. apply Hgoes. apply rtc_refl.
Defined.

(** The two threads in the middle of a run, where the second holds the lock and has got
    a reply while the first waits for the lock, and at its end, where both replies have
    been received, in the order of the requests. *)
Lemma client_fifo_witness :
  let x0 := start (F := unit) None None two_calls empty_server in
  let middle := Shared (Some 1%nat) (RoleClient (Pipe [] [reply_ctrl ack_msg]) None None)
    [Thread (Request (scope_list [])) At_relock; Thread (Request tick_msg) (At_release (scope_list []))]
    empty_server [(0%nat, Request (scope_list [])); (1%nat, Request tick_msg)] [(1%nat, scope_list [])] in
  let final := Shared None (RoleClient (Pipe [] []) None None)
    [Thread (Request (scope_list [])) (Returned (Some ack_msg));
     Thread (Request tick_msg) (Returned (Some (scope_list [])))]
    empty_server [(0%nat, Request (scope_list [])); (1%nat, Request tick_msg)]
    [(1%nat, scope_list []); (0%nat, ack_msg)] in
  let replies x := norm_msg <$> (answers nrmd_answers empty_server (sent_msgs x)).1 in
  (reachable nrmd_answers x0 middle /\
   (forall i t, sh_threads middle !! i = Some t -> holds_lock (t_at t) = true -> i = 1%nat) /\
   [scope_list []] `prefix_of` replies middle) /\
  (reachable nrmd_answers x0 final /\ [scope_list []; ack_msg] `prefix_of` replies final /\
   replies final = [scope_list []; ack_msg] /\ (0%nat, ack_msg) ∈ sh_got final).
Proof.
  intros x0 middle final replies.
  assert (Hm : reachable nrmd_answers x0 middle) by (exact (requests_sent nrmd_answers None None (scope_list []) tick_msg (scope_list []) ack_msg
      empty_server empty_server empty_server eq_refl eq_refl)).
  assert (Hf : reachable nrmd_answers x0 final) by (exact (requests_cross nrmd_answers None None (scope_list []) tick_msg (scope_list []) ack_msg
      empty_server empty_server empty_server eq_refl eq_refl)).
  destruct (client_fifo nrmd_answers empty_server None None two_calls middle Hm) as (Hlock & Hpre & _).
  destruct (client_fifo nrmd_answers empty_server None None two_calls final Hf) as (_ & Hpre' & Hgot).
  split; [split; [exact Hm|split; [|exact Hpre]]|split; [exact Hf|split; [exact Hpre'|split; [vm_compute; reflexivity|]]]].
  - intros i t Hi Ht. exact (Hlock i 1%nat t _ Hi eq_refl Ht eq_refl).
  - exact (Hgot 0%nat _ ack_msg eq_refl).
Defined.
