(* ===== verification/Sampling.v ===== *)
(** * Finding the scope of a process (src/preloads, src/binaries)

    The libraries that are preloaded and the wrappers look for the scope of the
    server that has the same maps as one of their own, in the same loop: the three
    copies are in preloads/ompt/entrypoint.c, preloads/pmpi/mpi_api.c and
    binaries/nrm-papiwrapper.c; binaries/nrm-geopm.c has a variant. *)

From S2P Require Import Prelude Vectors Doubles Hashes Bitmaps Json Timers Scopes Actuators.
From S2P Require Import Events Messages MsgJson States Roles Server Client System Topology.

(** ** The loop *)

(** One scope taken from the back of the vector, against the one kept so far. *)
Definition match_step (kept : nrm_scope * bool) (s : option nrm_scope) : outcome (nrm_scope * bool) :=
  s ← deref s;
  r ← nrm_scope_cmp s kept.1;
  if r =? 0 then _ ← nrm_scope_destroy (Some kept.1); Ok (s, true)
  else _ ← nrm_scope_destroy (Some s); Ok kept.

(** The scopes of the server, popped one by one. *)
Definition match_scopes (ret : nrm_scope) (nrmd_scopes : list (option nrm_scope))
    : outcome (nrm_scope * bool) :=
  mfold match_step (ret, false) (rev nrmd_scopes).

Section find.
Context `{Qsort} {D W : Type}.
Implicit Types client : option (nrm_client D W).

(** The part of the functions after their own scope [ret] is made: the code, and
    what [*scope] gets, if it is written. A list that was not filled is not
    initialised. *)
Definition find_matching client (ret : nrm_scope)
    : outcome (Z * option (nrm_client D W) * option nrm_scope) :=
  '(rc, client, nrmd_scopes) ← nrm_client_list_scopes client false;
  if negb (rc =? 0) then Undefined
  else
    '(ret, newscope) ← match_scopes ret nrmd_scopes;
    if negb newscope then Ok (- NRM_EINVAL, client, None) else Ok (0, client, Some ret).

(** [nrm.ompt.global.<pid>] and [nrm.extra.papi.<pid>] name the scope that is
    allowed. *)
Definition ompt_find_allowed_scope (load : Z -> hwloc_topology) (f1 f2 f3 : Z) (pid : string) client :=
  allowed ← nrm_scope_create_hwloc_allowed load f1 f2 f3 (Some ("nrm.ompt.global." ++ pid)%string);
  find_matching client allowed.

Definition papi_find_allowed_scope (load : Z -> hwloc_topology) (f1 f2 f3 : Z) (pid : string) client :=
  allowed ← nrm_scope_create_hwloc_allowed load f1 f2 f3 (Some ("nrm.extra.papi." ++ pid)%string);
  find_matching client allowed.

(** The scope of an MPI process is the CPU and the node it runs on. *)
Definition pmpi_find_scope (getcpu : Z * Z) (rank : string) client :=
  ret ← nrm_scope_create false (Some ("nrm.pmpi." ++ rank)%string);
  '(_, ret) ← nrm_scope_threadshared getcpu ret;
  find_matching client ret.

(** The variant of nrm-geopm keeps its own scope when there is no match: the scope,
    and whether it is its own. *)
Definition nrm_geopm_find_scope client (scope : nrm_scope)
    : outcome (Z * option (nrm_client D W) * nrm_scope * Z) :=
  '(rc, client, nrmd_scopes) ← nrm_client_list_scopes client false;
  if negb (rc =? 0) then Undefined
  else
    '(scope, newscope) ← match_scopes scope nrmd_scopes;
    Ok (0, client, scope, c_bool (negb newscope)).
End find.

(** ** What is found *)

#[export] Instance nrm_bitmap_eq_dec : EqDecision nrm_bitmap.
Proof. solve_decision. Defined.

(** The first scope of a list with the same maps. *)
Definition same_maps (ret : nrm_scope) (l : list nrm_scope) : option nrm_scope :=
  snd <$> list_find (fun s => maps s = maps ret) l.

Definition named_scope (s : nrm_scope) : Prop := scope_wf s /\ is_Some (scope_uuid s).

Lemma match_scopes_first ret l :
  named_scope ret -> Forall named_scope l ->
  match_scopes ret (Some <$> l) =
  Ok (match same_maps ret l with Some s => (s, true) | None => (ret, false) end).
Proof.
  intros Hret Hl. unfold match_scopes, same_maps. induction Hl as [|s l Hs Hl IH]; [done|].
  rewrite fmap_cons. cbn [rev]. rewrite mfold_app, IH. cbn [mbind outcome_bind mfold list_find].
  set (kept := match snd <$> list_find _ l with Some s => _ | None => _ end).
  assert (Hkept : named_scope kept.1 /\ maps kept.1 = maps ret).
  { unfold kept. destruct (list_find _ l) as [[i x]|] eqn:E; cbn; [|done].
    apply list_find_Some in E as (Hx & Hm & _). split; [|done].
    apply list_elem_of_lookup_2 in Hx. rewrite Forall_forall in Hl. by apply Hl. }
  assert (Hk : kept = match snd <$> list_find (fun s => maps s = maps ret) l with
                      | Some s => (s, true) | None => (ret, false) end) by done.
  clearbody kept. destruct kept as [k b]. cbn [fst] in Hkept. destruct Hkept as [[Hkwf [ku Hku]] Hkm].
  destruct Hs as [Hswf [su Hsu]]. unfold match_step. cbn [deref mbind outcome_bind fst].
  destruct (scope_cmp_maps s k Hswf Hkwf) as (r & -> & Hr). cbn [mbind outcome_bind].
  rewrite Hkm in Hr. destruct (Z.eqb_spec r 0) as [Hz|Hz].
  - unfold nrm_scope_destroy. cbn [fst deref mbind outcome_bind]. rewrite Hku. cbn [deref mbind outcome_bind].
    rewrite decide_True by tauto. done.
  - unfold nrm_scope_destroy. cbn [deref mbind outcome_bind]. rewrite Hsu. cbn [deref mbind outcome_bind].
    rewrite decide_False by tauto. rewrite Hk. by destruct (list_find _ l) as [[]|].
Qed.

(** ** Through the system *)

Section system.
Context `{Qsort, Protobuf} {U W : Type}.
Variable callbacks : nrm_server_user_callbacks U.
Variable at_uuid : nat -> string.
Variable on_command : string -> option (option nrm_msg -> W -> outcome W).

Lemma state_scopes_named st : state_ok st -> Forall named_scope (ptr <$> st_scopes st).
Proof.
  intros (_ & _ & Pc & _). apply Forall_fmap. eapply Forall_impl; [exact Pc|].
  intros e [Hu Hwf]. split; [done|]. by eexists.
Qed.

(** What the search gives on a server. *)
Lemma find_matching_state st u tm topics pub sub cmd id w fn act ret :
  state_ok st -> named_scope ret ->
  let c := client_on callbacks at_uuid on_command (quiet st u tm topics pub sub cmd id w) fn act in
  find_matching (Some c) ret =
  Ok (match same_maps ret (ptr <$> st_scopes st) with
      | Some s => (0, Some c, Some s)
      | None => (- NRM_EINVAL, Some c, None)
      end).
Proof.
  intros Hst Hret c. unfold find_matching, c. rewrite list_scopes_state by done.
  cbn [mbind outcome_bind Z.eqb negb]. rewrite match_scopes_first by (done || by apply state_scopes_named).
  by destruct (same_maps ret (ptr <$> st_scopes st)).
Qed.

Lemma allowed_scope_named load f1 f2 f3 name :
  exists s, nrm_scope_create_hwloc_allowed load f1 f2 f3 (Some name) = Ok s /\ named_scope s /\
    let t := load (Z.land (Z.land f1 f2) f3) in
    maps s = [bitmap_of (allowed_cpuset t); bitmap_of (allowed_nodeset t); bitmap_zero].
Proof.
  unfold nrm_scope_create_hwloc_allowed. rewrite create_scope. cbn [mbind outcome_bind].
  rewrite (add_set_items _ _ _ 0 bitmap_zero) by done. cbn [mbind outcome_bind].
  rewrite (add_set_items _ _ _ 1 bitmap_zero) by done. eexists. split; [reflexivity|]. split; [|done].
  split; [|by eexists]. apply scope_wf_3; [apply bitmap_of_wf|apply bitmap_of_wf|apply bitmap_zero_wf].
Qed.

(** C33: a process finds its scope in the daemon. Through messages, brokers, wire and
    server, [find_allowed_scope] of the OpenMP tool gives the first scope of the
    server's table that has the CPUs and nodes that hwloc allows the process, whatever
    its name and however many match; without one it returns [-NRM_EINVAL] and leaves
    the caller's pointer as it was. Neither changes the server. *)
Theorem ompt_finds_scope st u tm topics pub sub cmd id w fn act load f1 f2 f3 pid :
  state_ok st ->
  let t := load (Z.land (Z.land f1 f2) f3) in
  let wanted := [bitmap_of (allowed_cpuset t); bitmap_of (allowed_nodeset t); bitmap_zero] in
  let c := client_on callbacks at_uuid on_command (quiet st u tm topics pub sub cmd id w) fn act in
  (forall i e, st_scopes st !! i = Some e -> maps (ptr e) = wanted ->
     (forall j e', (j < i)%nat -> st_scopes st !! j = Some e' -> maps (ptr e') <> wanted) ->
     ompt_find_allowed_scope load f1 f2 f3 pid (Some c) = Ok (0, Some c, Some (ptr e))) /\
  ((forall e, e ∈ st_scopes st -> maps (ptr e) <> wanted) ->
     ompt_find_allowed_scope load f1 f2 f3 pid (Some c) = Ok (- NRM_EINVAL, Some c, None)).
Proof.
  intros Hst t wanted c.
  destruct (allowed_scope_named load f1 f2 f3 ("nrm.ompt.global." ++ pid)) as (s & Es & Hs & Hm).
  unfold ompt_find_allowed_scope. rewrite Es. cbn [mbind outcome_bind].
  unfold c. rewrite find_matching_state by done. unfold same_maps.
  cbv zeta in Hm. fold t in Hm. fold wanted in Hm. rewrite Hm. split.
  - intros i e Hi He Hbefore.
    assert (Hfind : list_find (fun s => maps s = wanted) (ptr <$> st_scopes st) = Some (i, ptr e)).
    { apply list_find_Some. rewrite list_lookup_fmap, Hi. split; [done|]. split; [done|].
      intros j y Hj Hlt. apply list_lookup_fmap_Some in Hj as (e' & -> & Hj). by apply (Hbefore j). }
    rewrite Hfind. reflexivity.
  - intros Hno.
    assert (Hfind : list_find (fun s => maps s = wanted) (ptr <$> st_scopes st) = None).
    { apply list_find_None, Forall_fmap, Forall_forall. intros e He. by apply Hno. }
    rewrite Hfind. reflexivity.
Qed.
End system.

Lemma ompt_finds_scope_witness :
  let load := fun _ => Topology [] [] [3] [] in
  let st := state_add_scope (State [] [] [] []) "s" some_scope in
  let c := client_on counting zeros (fun _ => None) (quiet st 0%nat [] [] [] None None "me" tt) None None in
  ompt_find_allowed_scope load 2 16 32 "1" (Some c) = Ok (0, Some c, Some some_scope).
Proof.
  intros load st c.
  assert (Hst : state_ok st).
  { split; [split_and!; (apply NoDup_singleton || constructor)|].
    split_and!; [constructor|apply Forall_singleton; split; [reflexivity|]|constructor|constructor].
    apply scope_wf_3; auto with nrm. }
  apply (proj1 (ompt_finds_scope counting zeros (fun _ => None) st 0%nat [] [] [] None None "me" tt None None
    load 2 16 32 "1" Hst) 0%nat (Elem "s" some_scope)); [reflexivity|vm_compute; reflexivity|lia].
Defined.
