(* ===== verification/Nrmc.v ===== *)
(** * The command line client (src/binaries/nrmc.c)

    Every command is a function of the words of its command line and of the client.
    What it prints is a list: JSON values as [json_dumpf] gets them, and lines. The
    command [run] ends in the program that it executes. The client works on the list
    of what its listener prints. *)

From Stdlib Require Import Ascii.
From S2P Require Import Prelude Decimal Vectors Doubles Hashes Runtime Strings Bitmaps Loops Json Timers.
From S2P Require Import Getopt Tools Reactor Scopes Actuators Events Messages MsgJson States Roles Server Client Objects System Sampling.

Section nrmc.
Context `{Qsort, Zloop, Protobuf, Jansson, Getopt} {D : Type}.

(** ** What a command gives *)

Inductive printed :=
| P_json (j : json_t)
| P_line (s : string)
| P_event (nstime : Z) (sensor_uuid : string) (scope : option string) (value : double).

Abbreviation client := (option (nrm_client D (list printed))) (only parsing).

(** The exit status; or the program that [execvp] starts, with its arguments and the
    two variables of its environment that have been set. *)
Inductive ending :=
| Returns (status : Z)
| Executes (argv : list (list ascii)) (ld_preload omp_tool_libraries : list ascii).

Definition EXIT_FAILURE : Z := 1.

(** A command on the state of the option parser, which is a global, its words, and
    the client. *)
Definition command : Type :=
  getopt_state -> list (list ascii) -> client -> outcome (ending * client * list printed).

Definition fails (c : client) : outcome (ending * client * list printed) :=
  Ok (Returns EXIT_FAILURE, c, []).

(** What the world answers: the text of JSON, the numbers, the clock, the CPU and node
    of the thread, a random number, and the environment. *)
Record world := World {
  json_loads : list ascii -> option json_t;
  strtod : list ascii -> double * bool * bool;
  clock : nrm_time;
  getcpu : Z * Z;
  rand : Z;
  env_preload : option (list ascii);
  env_omp : option (list ascii)
}.
Variable wd : world.

(** [argv[i]], NULL past the end. *)
Definition arg (argv : list (list ascii)) (i : nat) : option string := text_of <$> argv !! i.

(** ** Connecting *)

(** The loop on retries; [attempts] is what [nrm_client_create] gives each time. *)
Fixpoint connect_loop (attempts : nat -> Z * client) (i retries : nat) : Z * client :=
  match retries with
  | O => (EXIT_FAILURE, None)
  | S retries =>
      let '(err, c) := attempts i in
      if err =? 0 then (0, c) else connect_loop attempts (S i) retries
  end.

Definition cmd_connect (attempts : nat -> Z * client) (argv : list (list ascii))
    : outcome (Z * client) :=
  if (3 <? length argv)%nat then Ok (EXIT_FAILURE, None)
  else
    let '(err, retries) :=
      if (length argv =? 2)%nat
      then match argv !! 1%nat with
           | Some a => let '(err, r) := nrm_parse_uint a in (err, default 5 r)
           | None => (0, 5)
           end
      else (0, 5) in
    _ ← c_assert (err =? 0);
    Ok (connect_loop attempts 0 (Z.to_nat retries)).

(** ** Printing vectors of objects *)

(** The loop that prints the elements of a vector, and destroys them. *)
Definition print_items {A} (to_json : A -> outcome (option json_t)) (destroy : A -> outcome unit)
    (items : list (option A)) : outcome (list printed) :=
  array ← mfold (fun array item =>
            a ← deref item;
            json ← to_json a;
            _ ← destroy a;
            Ok (array ++ [json])) [] items;
  Ok [P_json (json_array_of array)].

Definition destroy_actuator (a : nrm_actuator) : outcome unit :=
  _ ← nrm_actuator_destroy (Some (Some a)); Ok tt.
Definition destroy_scope (s : nrm_scope) : outcome unit := _ ← nrm_scope_destroy (Some s); Ok tt.
Definition destroy_sensor (s : nrm_sensor) : outcome unit :=
  _ ← nrm_sensor_destroy (Some (Some s)); Ok tt.
Definition destroy_slice (s : nrm_slice) : outcome unit :=
  _ ← nrm_slice_destroy (Some (Some s)); Ok tt.

Definition sensor_json (s : nrm_sensor) : outcome (option json_t) := Ok (nrm_sensor_to_json s).
Definition slice_json (s : nrm_slice) : outcome (option json_t) := Ok (nrm_slice_to_json s).

(** ** Listing *)

Definition cmd_list_actuators : command := fun _ _ c =>
  '(err, c, actuators) ← nrm_client_list_actuators c false;
  if negb (err =? 0) then fails c
  else out ← print_items nrm_actuator_to_json destroy_actuator actuators; Ok (Returns 0, c, out).

Definition cmd_list_scopes : command := fun _ _ c =>
  '(err, c, scopes) ← nrm_client_list_scopes c false;
  if negb (err =? 0) then fails c
  else out ← print_items nrm_scope_to_json destroy_scope scopes; Ok (Returns 0, c, out).

Definition cmd_list_sensors : command := fun _ _ c =>
  '(err, c, sensors) ← nrm_client_list_sensors c false;
  if negb (err =? 0) then fails c
  else out ← print_items sensor_json destroy_sensor sensors; Ok (Returns 0, c, out).

Definition cmd_list_slices : command := fun _ _ c =>
  '(err, c, slices) ← nrm_client_list_slices c false;
  if negb (err =? 0) then fails c
  else out ← print_items slice_json destroy_slice slices; Ok (Returns 0, c, out).

(** ** Finding *)

(** The part that the commands share; the results are of the type asked for. *)
Definition find_results (type : Z) (name : option string) (c : client)
    : outcome (Z * client * option found) := nrm_client_find c type name.

Definition actuators_found (r : option found) : outcome (list (option nrm_actuator)) :=
  match r with Some (Found_actuators l) => Ok l | _ => Undefined end.
Definition scopes_found (r : option found) : outcome (list (option nrm_scope)) :=
  match r with Some (Found_scopes l) => Ok l | _ => Undefined end.
Definition sensors_found (r : option found) : outcome (list (option nrm_sensor)) :=
  match r with Some (Found_sensors l) => Ok l | _ => Undefined end.
Definition slices_found (r : option found) : outcome (list (option nrm_slice)) :=
  match r with Some (Found_slices l) => Ok l | _ => Undefined end.

Definition cmd_find_actuator : command := fun _ argv c =>
  if (length argv <? 2)%nat then fails c
  else
    '(err, c, results) ← find_results NRM_MSG_TARGET_TYPE_ACTUATOR (arg argv 1) c;
    if negb (err =? 0) then fails c
    else l ← actuators_found results;
         out ← print_items nrm_actuator_to_json destroy_actuator l; Ok (Returns 0, c, out).

Definition cmd_find_scope : command := fun _ argv c =>
  if (length argv <? 2)%nat then fails c
  else
    '(err, c, results) ← find_results NRM_MSG_TARGET_TYPE_SCOPE (arg argv 1) c;
    if negb (err =? 0) then fails c
    else l ← scopes_found results;
         out ← print_items nrm_scope_to_json destroy_scope l; Ok (Returns 0, c, out).

Definition cmd_find_sensor : command := fun _ argv c =>
  if (length argv <? 2)%nat then fails c
  else
    '(err, c, results) ← find_results NRM_MSG_TARGET_TYPE_SENSOR (arg argv 1) c;
    if negb (err =? 0) then fails c
    else l ← sensors_found results;
         out ← print_items sensor_json destroy_sensor l; Ok (Returns 0, c, out).

Definition cmd_find_slice : command := fun _ argv c =>
  if (length argv <? 2)%nat then fails c
  else
    '(err, c, results) ← find_results NRM_MSG_TARGET_TYPE_SLICE (arg argv 1) c;
    if negb (err =? 0) then fails c
    else l ← slices_found results;
         out ← print_items slice_json destroy_slice l; Ok (Returns 0, c, out).

(** ** Actuating and sending events *)

Definition cmd_actuate : command := fun _ argv c =>
  if (length argv <? 3)%nat then fails c
  else
    text ← deref (argv !! 2%nat);
    let value := (strtod wd text).1.1 in
    '(err, c, results) ← find_results NRM_MSG_TARGET_TYPE_ACTUATOR (arg argv 1) c;
    if negb (err =? 0) then fails c
    else
      l ← actuators_found results;
      _ ← c_assert (length l =? 1)%nat;
      a ← deref (l !! 0%nat);
      '(_, c) ← nrm_client_actuate c a value;
      a ← deref a;
      _ ← destroy_actuator a;
      Ok (Returns 0, c, []).

Definition cmd_send_event : command := fun _ argv c =>
  if (length argv <? 3)%nat then fails c
  else
    '(err, c, results) ← find_results NRM_MSG_TARGET_TYPE_SENSOR (arg argv 1) c;
    if negb (err =? 0) then fails c
    else
      l ← sensors_found results;
      _ ← c_assert (length l =? 1)%nat;
      sensor ← deref (l !! 0%nat);
      scope ← nrm_scope_create false (arg argv 2);
      '(_, scope) ← nrm_scope_threadprivate (getcpu wd) scope;
      '(_, c) ← nrm_client_send_event c (clock wd) sensor (Some scope) (d_of_Z (rand wd));
      sensor ← deref sensor;
      _ ← destroy_sensor sensor;
      _ ← nrm_scope_destroy (Some scope);
      Ok (Returns 0, c, []).

(** ** Adding *)

(** [json_dumpf] of NULL prints nothing. *)
Definition print_one (json : option json_t) : list printed :=
  match json with Some j => [P_json j] | None => [] end.

Definition cmd_add_scope : command := fun _ argv c =>
  if negb (length argv =? 3)%nat then fails c
  else
    text ← deref (argv !! 2%nat);
    let param := json_loads wd text in
    scope ← nrm_scope_create false (arg argv 1);
    '(err, scope) ← nrm_scope_from_json scope param;
    if negb (err =? 0) then fails c
    else
      '(err, c, scope) ← nrm_client_add_scope c (Some scope);
      if negb (err =? 0) then fails c
      else s ← deref scope; json ← nrm_scope_to_json s; Ok (Returns 0, c, print_one json).

Definition cmd_add_slice : command := fun _ argv c =>
  if (length argv <? 2)%nat then fails c
  else
    slice ← nrm_slice_create false (arg argv 1);
    '(err, c, slice) ← nrm_client_add_slice c (Some slice);
    if negb (err =? 0) then fails c
    else s ← deref slice; Ok (Returns 0, c, print_one (nrm_slice_to_json s)).

Definition cmd_add_sensor : command := fun _ argv c =>
  if (length argv <? 2)%nat then fails c
  else
    sensor ← nrm_sensor_create false (arg argv 1);
    '(err, c, sensor) ← nrm_client_add_sensor c (Some sensor);
    if negb (err =? 0) then fails c
    else s ← deref sensor; Ok (Returns 0, c, print_one (nrm_sensor_to_json s)).

(** ** Options of a command *)

(** [getopt_long] reads [argv[optind]]: past the NULL that ends [argv] is out of
    bounds. *)
Definition next_option (argv : list (list ascii)) (shorts : string) (longs : list longopt)
    (g : getopt_state) : outcome (getopt_result * getopt_state) :=
  if optind g >? Z.of_nat (length argv) then Undefined
  else Ok (getopt_long argv (String.list_ascii_of_string shorts) longs g).

(** The loop over the options of a command with a state of its own; [None] is an
    early [return EXIT_FAILURE]. *)
Fixpoint option_loop {S} (fuel : nat) (argv : list (list ascii)) (shorts : string)
    (longs : list longopt) (handle : getopt_result -> S -> outcome (option S)) (g : getopt_state) (s : S)
    : outcome (option (getopt_state * S)) :=
  match fuel with
  | O => Diverges
  | S fuel =>
      '(r, g) ← next_option argv shorts longs g;
      if go_code r =? -1 then Ok (Some (g, s))
      else s' ← handle r s;
           match s' with
           | None => Ok None
           | Some s => option_loop fuel argv shorts longs handle g s
           end
  end.

Definition options {S} (argv : list (list ascii)) (shorts : string) (longs : list longopt)
    (handle : getopt_result -> S -> outcome (option S)) (g : getopt_state) (s : S) :=
  option_loop (Datatypes.S (getopt_left argv g)) argv shorts longs handle g s.

(** ** Running a program *)

Definition run_handle (r : getopt_result) (s : list (list ascii) * list (list ascii))
    : outcome (option (list (list ascii) * list (list ascii))) :=
  let '(preloads, ompt) := s in
  if go_code r =? 0 then Ok (Some s)
  else if go_code r =? code "d" then path ← deref (go_arg r); Ok (Some (preloads ++ [path], ompt))
  else if go_code r =? code "t" then path ← deref (go_arg r); Ok (Some (preloads, ompt ++ [path]))
  else Ok None.

Definition run_longopts : list longopt :=
  [Longopt "preload" true false (code "d"); Longopt "ompt" true false (code "t")].

(** A variable as the first element of a vector. The strings of a vector are their
    texts; [vector_strings] is where they are on the heap of Strings, made one after the
    other by [nrm_string_fromchar]. *)
Definition nrmc_string_getenv (env : option (list ascii)) : list (list ascii) :=
  match env with Some s => [s] | None => [] end.
Definition vector_strings (vec : list (list ascii)) : outcome (list loc * heap) :=
  mfold (fun '(strings, h) text =>
    '(l, h) ← nrm_string_fromchar false h (Some text); l ← deref l; Ok (strings ++ [l], h))
    ([], Heap ∅ 1) vec.

(** The text that [setenv] copies. *)
Definition nrmc_string_setenv (vec : list (list ascii)) : outcome (list ascii) :=
  '(strings, h) ← vector_strings vec;
  '(val, h) ← nrm_string_vjoin h ":"%char strings;
  rs ← deref (cells h !! val);
  _ ← nrm_string_decref h val;
  Ok (take (Z.to_nat (slen rs)) (chars rs)).

Definition cmd_run : command := fun g argv c =>
  let preloads := nrmc_string_getenv (env_preload wd) in
  let ompt := nrmc_string_getenv (env_omp wd) in
  o ← options argv ":d:t:" run_longopts run_handle (Getopt_state 1 (nextchar g)) (preloads, ompt);
  match o with
  | None => fails c
  | Some (g, (preloads, ompt)) =>
      let argv := drop (Z.to_nat (optind g)) argv in
      match argv with
      | [] => fails c
      | _ =>
          ld_preload ← nrmc_string_setenv preloads;
          omp_tool_libraries ← nrmc_string_setenv ompt;
          Ok (Executes argv ld_preload omp_tool_libraries, c, [])
      end
  end.

(** ** Removing *)

Definition remove_handle (r : getopt_result) (ask_all : bool) : outcome (option bool) :=
  if go_code r =? 0
  then Ok (Some (match go_flag r with Some v => negb (v =? 0) | None => ask_all end))
  else if go_code r =? code "a" then Ok (Some true)
  else Ok None.

(** The long option sets the static variable itself. *)
Definition remove_longopts : list longopt := [Longopt "all" false true 1].

(** The vector holds pointers; [nrm_vector_get_withtype] with the type of the objects
    takes the slot that holds a pointer for the object. *)
Definition slot_as_object {A} (slot : option (option A)) : outcome A := Undefined.

(** The loop of the three commands, on all results or the first. *)
Definition remove_items {A} (to_json : A -> outcome (option json_t))
    (remove : client -> A -> outcome (Z * client)) (ask_all : bool) (results : list (option A)) (c : client)
    : outcome (client * list printed) :=
  let len := if ask_all then length results else if (0 <? length results)%nat then 1%nat else 0%nat in
  '(c, array) ← mfold (fun '(c, array) i =>
                  s ← slot_as_object (results !! i);
                  json ← to_json s;
                  '(_, c) ← remove c s;
                  Ok (c, array ++ [json])) (c, []) (seq 0 len);
  Ok (c, [P_json (json_array_of array)]).

(** The options, from where the parser stands: [optind] is not set again. *)
Definition remove_options (g : getopt_state) (argv : list (list ascii))
    : outcome (option (list (list ascii) * bool)) :=
  o ← options argv ":a" remove_longopts remove_handle g false;
  match o with
  | None => Ok None
  | Some (g, ask_all) =>
      match drop (Z.to_nat (optind g)) argv with
      | [] => Ok None
      | argv => Ok (Some (argv, ask_all))
      end
  end.

Definition cmd_remove_scope : command := fun g argv c =>
  o ← remove_options g argv;
  match o with
  | None => fails c
  | Some (argv, ask_all) =>
      '(err, c, results) ← find_results NRM_MSG_TARGET_TYPE_SCOPE (arg argv 0) c;
      if negb (err =? 0) then fails c
      else l ← scopes_found results;
           '(c, out) ← remove_items nrm_scope_to_json (fun c s => nrm_client_remove_scope c (Some s))
                         ask_all l c;
           Ok (Returns 0, c, out)
  end.

Definition cmd_remove_sensor : command := fun g argv c =>
  o ← remove_options g argv;
  match o with
  | None => fails c
  | Some (argv, ask_all) =>
      '(err, c, results) ← find_results NRM_MSG_TARGET_TYPE_SENSOR (arg argv 0) c;
      if negb (err =? 0) then fails c
      else l ← sensors_found results;
           '(c, out) ← remove_items sensor_json (fun c s => nrm_client_remove_sensor c (Some s))
                         ask_all l c;
           Ok (Returns 0, c, out)
  end.

(** The name is the second word that is left, not the first. *)
Definition cmd_remove_slice : command := fun g argv c =>
  o ← remove_options g argv;
  match o with
  | None => fails c
  | Some (argv, ask_all) =>
      '(err, c, results) ← find_results NRM_MSG_TARGET_TYPE_SLICE (arg argv 1) c;
      if negb (err =? 0) then fails c
      else l ← slices_found results;
           '(c, out) ← remove_items slice_json (fun c s => nrm_client_remove_slice c (Some s))
                         ask_all l c;
           Ok (Returns 0, c, out)
  end.

(** ** Listening, exit, tick *)

Definition client_listen_callback (sensor_uuid : string) (time : nrm_time) (scope : option nrm_scope)
    (value : double) (out : list printed) : outcome (list printed) :=
  let nstime := nrm_time_tons time in
  s ← deref scope;
  Ok (out ++ [P_event nstime sensor_uuid (scope_uuid s) value]).

(** [sys] is what the system answers to the reactor, which has no callbacks, and
    [wakeups] what its loop gets; a reactor that is not created is not initialised. *)
Definition cmd_listen (sys : syscalls) (p : process) (wakeups : list reactor_event) : command :=
  fun _ argv c =>
  if (2 <? length argv)%nat then fails c
  else
    let topic := if (length argv =? 2)%nat then arg argv 1 else Some ""%string in
    let '(_, c) := nrm_client_set_event_listener c (Some client_listen_callback) in
    '(_, c) ← nrm_client_start_event_listener c topic;
    match nrm_reactor_create sys false false None tt p with
    | (_, None, _) => Undefined
    | (_, Some r, p) =>
        '(rc, r) ← nrm_reactor_start (Some r) wakeups;
        match rc with
        | None => Diverges
        | Some _ => let '(_, p) := nrm_reactor_destroy (Some r) p in Ok (Returns 0, c, [])
        end
    end.

Definition cmd_exit : command := fun _ _ c => '(_, c) ← nrm_client_send_exit c; Ok (Returns 0, c, []).
Definition cmd_tick : command := fun _ _ c => '(_, c) ← nrm_client_send_tick c; Ok (Returns 0, c, []).

(** ** The program *)

Section main.
Variables (sys : syscalls) (p : process) (wakeups : list reactor_event).

Definition commands : list (string * command) :=
  [ ("actuate", cmd_actuate); ("add-scope", cmd_add_scope); ("add-slice", cmd_add_slice);
    ("add-sensor", cmd_add_sensor); ("find-actuator", cmd_find_actuator);
    ("find-scope", cmd_find_scope); ("find-slice", cmd_find_slice); ("find-sensor", cmd_find_sensor);
    ("listen", cmd_listen sys p wakeups); ("list-actuators", cmd_list_actuators);
    ("list-scopes", cmd_list_scopes); ("list-slices", cmd_list_slices);
    ("list-sensors", cmd_list_sensors); ("send-event", cmd_send_event);
    ("remove-scope", cmd_remove_scope); ("remove-slice", cmd_remove_slice);
    ("remove-sensor", cmd_remove_sensor); ("run", cmd_run); ("exit", cmd_exit); ("tick", cmd_tick) ]%string.

Definition nrmc_print_help (args : nrm_tools_args_t) : list printed :=
  (P_line <$> snd (nrm_tools_print_help args)) ++
  [P_line (newline ++ "Available Commands:" ++ newline)%string] ++
  ((fun c : string * command => P_line (c.1 ++ newline)%string) <$> commands).

(** The end of [main]: [err] after the client is destroyed. *)
Definition at_end (e : ending) (c : client) (out : list printed) : outcome (ending * list printed) :=
  match e with
  | Returns _ => _ ← nrm_client_destroy (Some c); Ok (e, out)
  | Executes _ _ _ => Ok (e, out)
  end.

(** The two fields that [main] sets before parsing. *)
Definition nrmc_args (args : nrm_tools_args_t) : nrm_tools_args_t :=
  Args "nrmc" 0 (upstream_uri args) (pub_port args) (rpc_port args) (log_level args)
    (ask_help args) (ask_version args) (freq args) (Tools.events args) (inheritance args).

(** [create] is [nrm_client_create] on the arguments, at each attempt. *)
Definition nrmc_main (nrm_version_string : string)
    (create : option string -> Z -> Z -> nat -> Z * client) (args : nrm_tools_args_t)
    (argv : list (list ascii)) : outcome (ending * list printed) :=
  '(err, g, args) ← nrm_tools_parse_args (strtod wd) argv (nrmc_args args);
  if err <? 0 then Ok (Returns EXIT_FAILURE, nrmc_print_help args)
  else
    let argv := drop (Z.to_nat err) argv in
    if negb (ask_help args =? 0) then Ok (Returns 0, nrmc_print_help args)
    else if negb (ask_version args =? 0)
    then Ok (Returns 0, P_line <$> snd (nrm_tools_print_version nrm_version_string args))
    else match argv with
    | [] => Ok (Returns EXIT_FAILURE, nrmc_print_help args)
    | name :: _ =>
        let attempts := create (upstream_uri args) (pub_port args) (rpc_port args) in
        if bool_decide (text_of name = "connect"%string) then
          '(err, c) ← cmd_connect attempts argv; at_end (Returns err) c []
        else
          let '(err, c) := attempts 0%nat in
          if negb (err =? 0) then Ok (Returns err, [])
          else match list_find (fun x : string * command => text_of name = x.1) commands with
               | Some (_, (_, fn)) => '(e, c, out) ← fn g argv c; at_end e c out
               | None => at_end (Returns EXIT_FAILURE) c []
               end
    end.
End main.
End nrmc.

(** ** The actuators of a server *)

Lemma same_actuator_validate a b v :
  actuator_wf a -> same_actuator a b ->
  nrm_actuator_validate_value (Some b) v = nrm_actuator_validate_value (Some a) v.
Proof.
  intros [Hwf _] (_ & _ & _ & _ & Hops & Hun). unfold nrm_actuator_validate_value.
  cbn [is_null negb c_assert deref mbind outcome_bind]. rewrite Hops.
  destruct a as [[t u c x un] ops], b as [[t' u' c' x' un'] ops']. cbn in *.
  destruct un as [cs|lo hi], un' as [cs'|lo' hi']; try done.
  - destruct Hwf as (_ & -> & _), Hun as [Hp _]. unfold nrm_actuator_discrete_validate_value. cbn.
    destruct (list_find (fun d => deq d v = true) cs') as [[i d]|] eqn:E';
      destruct (list_find (fun d => deq d v = true) cs) as [[j d2]|] eqn:E; try done; exfalso.
    + apply list_find_Some in E' as (Hd & Hv & _). apply list_find_None in E.
      apply list_elem_of_lookup_2 in Hd. rewrite Hp in Hd. rewrite Forall_forall in E. by apply (E d).
    + apply list_find_Some in E as (Hd & Hv & _). apply list_find_None in E'.
      apply list_elem_of_lookup_2 in Hd. rewrite <- Hp in Hd. rewrite Forall_forall in E'. by apply (E' d2).
  - by destruct Hun as [-> ->], Hwf as (_ & ->).
Qed.

Lemma destroy_same_actuator a b : actuator_wf a -> same_actuator a b -> destroy_actuator b = Ok tt.
Proof.
  intros [Hwf [n Hn]] (Hu & _ & _ & _ & Hops & Hun). unfold destroy_actuator, nrm_actuator_destroy.
  destruct a as [[t u c x un] ops], b as [[t' u' c' x' un'] ops']. cbn in *. subst u' ops'.
  destruct un, un'; try done; [destruct Hwf as (_ & -> & _)|destruct Hwf as (_ & ->)]; cbn; by rewrite Hn.
Qed.

Section system.
Context `{Qsort, Zloop, Protobuf, Jansson, Getopt} {U : Type}.
Variable callbacks : nrm_server_user_callbacks U.
Variable at_uuid : nat -> string.
Variable on_command : string -> option (option nrm_msg -> list printed -> outcome (list printed)).

(** Finding an actuator of the server by its name gives the one that is there. *)
Lemma find_actuator_state st u tm topics pub sub cmd id w fn act name e :
  state_ok st -> Forall (fun e => actuator_wf (ptr e)) (st_actuators st) ->
  HASH_FIND (st_actuators st) name = Some e ->
  let c := client_on callbacks at_uuid on_command (quiet st u tm topics pub sub cmd id w) fn act in
  exists b, same_actuator (ptr e) b /\
    nrm_client_find (Some c) NRM_MSG_TARGET_TYPE_ACTUATOR (Some name) =
    Ok (0, Some c, Some (Found_actuators [Some b])).
Proof.
  intros Hst Hwf He c.
  destruct (find_state callbacks at_uuid on_command st u tm topics pub sub cmd id w fn act name
    (state_ok_actuators st Hst Hwf)) as (ys & E & Hys).
  cbn [list_table_of actuator_ops] in Hys. rewrite <- HASH_FIND_map, He in Hys.
  destruct Hys as (b & -> & Hsame). by exists b.
Qed.

(** C28: [nrmc actuate] acts. When the server has a well-formed actuator of that name:
    a value that it accepts is stored there, corrected, and sent to its owner, whichever
    client that is, whose callback for commands runs on it; a value that it does not
    accept is not sent at all. The exit status is 0 either way. *)
Theorem nrmc_actuates wd g st u tm topics pub sub cmd id w fn act name text words v x y e b cb u' w' owner rc v' :
  state_ok st -> Forall (fun e => actuator_wf (ptr e)) (st_actuators st) ->
  HASH_FIND (st_actuators st) (text_of name) = Some e -> strtod wd text = (v, x, y) ->
  nrm_actuator_validate_value (Some (ptr e)) v = Ok b ->
  cb_actuate callbacks = Some cb ->
  cb (srv (Pipe [] []) st tm u) (ptr e) v = Ok (0, srv (Pipe [] []) st tm u') ->
  a_clientid (a_data (ptr e)) = Some owner ->
  nrm_actuator_corrected_value (Some (ptr e)) (Some v) = Ok (rc, Some v') ->
  (match on_command owner with
   | Some f => f (Some (System.command (text_of name) v')) w
   | None => Ok w
   end) = Ok w' ->
  let c st u w := client_on callbacks at_uuid on_command (quiet st u tm topics pub sub cmd id w) fn act in
  cmd_actuate wd g (words :: name :: text :: []) (Some (c st u w)) =
  Ok (Returns 0,
      Some (if b =? 0 then c (state_set_value st (text_of name) (with_value (ptr e) v')) u' w'
            else c st u w), []).
Proof.
  intros Hst Hwf He Hv Hval Hcb Ecb Hown Hcorr Hw c.
  destruct (find_actuator_state st u tm topics pub sub cmd id w fn act (text_of name) e Hst Hwf He)
    as (a & Hsame & Hfind).
  assert (Hea : actuator_wf (ptr e)).
  { apply HASH_FIND_key in He as [_ Hin]. rewrite Forall_forall in Hwf. by apply Hwf. }
  unfold cmd_actuate, find_results. change (arg _ 1) with (Some (text_of name)).
  cbn [length Nat.ltb Nat.leb]. change ((words :: name :: text :: []) !! 2%nat) with (Some text).
  cbn [deref mbind outcome_bind]. rewrite Hv. cbn [fst]. unfold c. rewrite Hfind.
  cbn [mbind outcome_bind Z.eqb negb actuators_found length Nat.eqb c_assert lookup list_lookup deref].
  rewrite <- (same_actuator_validate _ a v Hea Hsame) in Hval.
  assert (Hact : exists rc, nrm_client_actuate (Some (c st u w)) (Some a) v =
    Ok (rc, Some (if b =? 0 then c (state_set_value st (text_of name) (with_value (ptr e) v')) u' w' else c st u w))).
  { destruct (Z.eqb_spec b 0) as [->|Hb].
    - exists 0. apply (client_actuate_valid callbacks at_uuid on_command st u tm topics pub sub cmd id w fn act a
        (text_of name) v e cb u' w' owner rc v'); try done.
      destruct Hsame as (Hu & _). rewrite Hu. apply HASH_FIND_key in He as [<- Hin].
      destruct Hst as (_ & Pa & _). rewrite Forall_forall in Pa. by apply Pa.
    - exists b. by apply client_actuate_refused. }
  unfold c in Hact. destruct Hact as [rc' Hact]. rewrite Hact. cbn [mbind outcome_bind deref].
  by rewrite (destroy_same_actuator _ _ Hea Hsame).
Qed.
End system.

(** ** The command line *)

(** The arguments after the options. *)
Definition parsed (args : nrm_tools_args_t) (opts : list tool_option) : nrm_tools_args_t :=
  let a := foldl option_effect (default_values (nrmc_args args)) opts in
  if is_null (upstream_uri a) then set_uri (Some "tcp://127.0.0.1"%string) a else a.

(** The options that do not end the program. *)
Definition goes_through (strtod : list ascii -> double * bool * bool) (o : tool_option) : Prop :=
  match o with
  | T_rpc n | T_pub n => 0 <= n <= INT_MAX
  | T_level z => in_i32 z
  | T_freq _ _ | T_event _ | T_inherit | T_help | T_version => False
  | _ => True
  end.

Lemma goes_through_fits strtod args o : goes_through strtod o -> option_fits strtod (nrmc_args args) o.
Proof. by destruct o. Qed.

Lemma parsed_asks strtod args opts :
  Forall (goes_through strtod) opts ->
  ask_help (parsed args opts) = 0 /\ ask_version (parsed args opts) = 0.
Proof.
  intros Hopts. unfold parsed.
  assert (H : forall a, ask_help a = 0 -> ask_version a = 0 ->
    ask_help (foldl option_effect a opts) = 0 /\ ask_version (foldl option_effect a opts) = 0).
  { induction Hopts as [|o opts Ho _ IH]; [done|]. intros a Hh Hv. cbn [foldl]. apply IH; by destruct o. }
  specialize (H (default_values (nrmc_args args)) eq_refl eq_refl). by destruct (is_null _).
Qed.

Section main.
Context `{Qsort, Zloop, Protobuf, Jansson} {D : Type}.
Variables (wd : world) (sys : syscalls) (p : process) (wakeups : list reactor_event) (version : string).
Variables (create : option string -> Z -> Z -> nat -> Z * option (nrm_client D (list printed))).
Variables (args : nrm_tools_args_t) (prog : list ascii) (opts : list (bool * tool_option)).
Hypothesis Hopts : Forall (fun o => goes_through (strtod wd) o.2) opts.

Definition option_count : Z := Z.of_nat (length (mjoin (option_words <$> opts))).

Lemma command_names : NoDup (commands (D := D) wd sys p wakeups).*1.
Proof. cbn [commands fmap list_fmap fst]. apply (bool_decide_unpack _). vm_compute. exact I. Qed.

Lemma find_command name i fn :
  commands (D := D) wd sys p wakeups !! (i : nat) = Some (name, fn) ->
  list_find (fun x : string * command (D := D) => name = x.1) (commands wd sys p wakeups) =
  Some (i, (name, fn)).
Proof.
  intros Hi. apply list_find_Some. split; [done|]. split; [done|]. intros j [n f] Hj Hlt Hname. cbn in Hname.
  subst n. pose proof (NoDup_lookup _ i j name command_names) as Hnd.
  rewrite !list_lookup_fmap, Hi, Hj in Hnd. specialize (Hnd eq_refl eq_refl). lia.
Qed.

(** What a command gets from [main]: its words, a parser that stands where the first
    of them was, and a client of the server that the options name. *)
Lemma nrmc_main_command name rest i fn c :
  head name <> Some "-"%char -> text_of name <> "connect"%string ->
  commands (D := D) wd sys p wakeups !! (i : nat) = Some (text_of name, fn) ->
  let a := parsed args opts.*2 in
  create (upstream_uri a) (pub_port a) (rpc_port a) 0%nat = (0, c) ->
  nrmc_main wd sys p wakeups version create args
    (prog :: mjoin (option_words <$> opts) ++ name :: rest) =
  ('(e, c, out) ← fn (Getopt_state (1 + option_count) []) (name :: rest) c; at_end e c out).
Proof.
  intros Hname Hconnect Hfind a Hcreate. unfold nrmc_main.
  rewrite (parse_args_options (strtod wd) prog opts (name :: rest) (nrmc_args args));
    [|eapply Forall_impl; [exact Hopts|]; intros; by apply goes_through_fits|by left].
  cbn [mbind outcome_bind]. fold option_count. assert (0 <= option_count) by (unfold option_count; lia).
  destruct (Z.ltb_spec (1 + option_count) 0); [lia|].
  change (if is_null _ then _ else _) with a.
  destruct (parsed_asks (strtod wd) args opts.*2) as [Hh Hv]; [by apply Forall_fmap|]. fold a in Hh, Hv.
  rewrite Hh, Hv. cbn [Z.eqb negb].
  replace (drop (Z.to_nat (1 + option_count)) (prog :: mjoin (option_words <$> opts) ++ name :: rest))
    with (name :: rest).
  2:{ unfold option_count. replace (Z.to_nat (1 + _)) with (S (length (mjoin (option_words <$> opts)))) by lia.
      cbn [skipn]. by rewrite drop_app_length. }
  rewrite bool_decide_eq_false_2 by done. rewrite Hcreate. cbn [Z.eqb negb]. by rewrite (find_command _ _ _ Hfind).
Qed.
End main.

(** ** Commands on a server, from the command line *)

Lemma print_items_ok `{Jansson} {A} to_json (destroy : A -> outcome unit) items :
  Forall (fun a => (exists j, to_json a = Ok j) /\ destroy a = Ok tt) items ->
  exists js, Forall2 (fun a j => to_json a = Ok j) items js /\
    print_items to_json destroy (Some <$> items) = Ok [P_json (json_array_of js)].
Proof.
  intros Hitems. unfold print_items.
  enough (Hacc : forall acc, exists js, Forall2 (fun a j => to_json a = Ok j) items js /\
    mfold (fun array item => a ← deref item; json ← to_json a; _ ← destroy a; Ok (array ++ [json]))
      acc (Some <$> items) = Ok (acc ++ js)).
  { destruct (Hacc []) as (js & Hjs & ->). by exists js. }
  induction Hitems as [|a items [[j Hj] Hd] _ IH]; intros acc; [exists []; by rewrite app_nil_r|].
  destruct (IH (acc ++ [j])) as (js & Hjs & E). exists (j :: js). split; [by constructor|].
  cbn [fmap list_fmap mfold deref mbind outcome_bind]. rewrite Hj. cbn [mbind outcome_bind]. rewrite Hd.
  cbn [mbind outcome_bind]. change (list_fmap ?A ?B) with (@fmap list _ A B).
  by rewrite E, <- app_assoc.
Qed.

Lemma destroy_named_scope s : named_scope s -> destroy_scope s = Ok tt.
Proof. intros [_ [n Hn]]. unfold destroy_scope, nrm_scope_destroy. cbn. by rewrite Hn. Qed.

Section server.
Context `{Qsort, Zloop, Protobuf, Jansson} {U : Type}.
Variable callbacks : nrm_server_user_callbacks U.
Variable at_uuid : nat -> string.
Variable on_command : string -> option (option nrm_msg -> list printed -> outcome (list printed)).
Variables (wd : world) (sys : syscalls) (p : process) (wakeups : list reactor_event) (version : string).
Variables (args : nrm_tools_args_t) (prog : list ascii) (opts : list (bool * tool_option)).
Hypothesis Hopts : Forall (fun o => goes_through (strtod wd) o.2) opts.
Variables (st : nrm_state) (u : U) (tm : list Z) (topics : list string) (pub : list (list string)).
Variables (sub cmd : option client_callback).
Variables (id : string) (w : list printed) (fn : option (string -> nrm_time -> option nrm_scope -> double -> list printed -> outcome (list printed))).
Variable act : option (option string -> double -> list printed -> outcome (list printed)).
Hypothesis Hst : state_ok st.

(** The server is where the options say. *)
Let a := parsed args opts.*2.
Let c := client_on callbacks at_uuid on_command (quiet st u tm topics pub sub cmd id w) fn act.
Definition connects create : Prop :=
  create (upstream_uri a) (pub_port a) (rpc_port a) 0%nat = (0, Some c).

(** The words of a command after the options. *)
Definition command_line (words : list string) : list (list ascii) :=
  prog :: mjoin (option_words <$> opts) ++ (String.list_ascii_of_string <$> words).

(** C27: [nrmc list-scopes], with any options of the common ones in front, prints the
    scopes of the server, each as its JSON, in the order of the server's table, and
    exits with 0. *)
Theorem nrmc_lists_scopes create rest :
  connects create ->
  exists js, Forall2 (fun e j => nrm_scope_to_json (ptr e) = Ok j) (st_scopes st) js /\
    nrmc_main wd sys p wakeups version create args (command_line ("list-scopes" :: rest)%string) =
    Ok (Returns 0, [P_json (json_array_of js)]).
Proof.
  intros Hcreate.
  destruct (print_items_ok nrm_scope_to_json destroy_scope (ptr <$> st_scopes st)) as (js & Hjs & Hprint).
  { eapply Forall_impl; [by apply state_scopes_named|]. intros s Hs.
    split; [apply scope_to_json_ok, Hs|by apply destroy_named_scope]. }
  exists js. split; [by apply Forall2_fmap_l in Hjs|]. unfold command_line. rewrite fmap_cons.
  rewrite (nrmc_main_command wd sys p wakeups version create args prog opts Hopts
    (String.list_ascii_of_string "list-scopes") _ 10 (cmd_list_scopes (D := _)) (Some c));
    [|discriminate|discriminate|reflexivity|exact Hcreate].
  unfold cmd_list_scopes, c. rewrite list_scopes_state by done. cbn [mbind outcome_bind Z.eqb negb].
  rewrite Hprint. reflexivity.
Qed.

(** The options of a command with one word, which is not an option, from where the
    parser stands. *)
Lemma remove_options_word count cmd_name name :
  0 <= count -> stops [name] ->
  remove_options (Getopt_state (1 + count) []) [cmd_name; name] =
  if count =? 0 then Ok (Some ([name], false)) else if count =? 1 then Ok None else Undefined.
Proof.
  intros Hcount Hname. unfold remove_options, options. cbn [option_loop]. unfold next_option.
  cbn [optind length]. destruct (Z.eqb_spec count 0) as [->|Hz].
  - change (1 + 0 >? Z.of_nat 2) with false. cbv iota.
    rewrite (getopt_stops _ _ _ 1 [name]) by done. reflexivity.
  - destruct (Z.eqb_spec count 1) as [->|Ho].
    + change (1 + 1 >? Z.of_nat 2) with false. cbv iota.
      rewrite (getopt_stops _ _ _ 2 []) by done. reflexivity.
    + destruct (Z.gtb_spec (1 + count) (Z.of_nat 2)); [done|lia].
Qed.

(** [nrmc remove-scope] removes nothing. Without options in front it takes the
    slot of the vector that holds a pointer to the scope for the scope itself, which
    is undefined; a name that the server does not know gives an empty array and 0.
    After one word of options the name is skipped and the exit status is 1; after
    more, the parser, which still stands where those options ended, reads past the
    end of the words. *)
Theorem nrmc_remove_scope create name :
  connects create -> head (String.list_ascii_of_string name) <> Some "-"%char ->
  nrmc_main wd sys p wakeups version create args (command_line ["remove-scope"; name]%string) =
  if option_count opts =? 0 then
    match HASH_FIND (st_scopes st) name with
    | Some _ => Undefined
    | None => Ok (Returns 0, [P_json (json_array_of [])])
    end
  else if option_count opts =? 1 then Ok (Returns EXIT_FAILURE, [])
  else Undefined.
Proof.
  intros Hcreate Hname. unfold command_line. rewrite fmap_cons.
  rewrite (nrmc_main_command wd sys p wakeups version create args prog opts Hopts
    (String.list_ascii_of_string "remove-scope") _ 14 (cmd_remove_scope (D := _)) (Some c));
    [|discriminate|discriminate|reflexivity|exact Hcreate].
  unfold cmd_remove_scope. change (String.list_ascii_of_string <$> [name]) with [String.list_ascii_of_string name].
  rewrite remove_options_word; [|unfold option_count; lia|by left].
  destruct (option_count opts =? 0); [|by destruct (option_count opts =? 1)].
  cbn [mbind outcome_bind]. change (arg [_] 0) with (Some (text_of (String.list_ascii_of_string name))).
  unfold text_of. rewrite String.string_of_list_ascii_of_string. unfold find_results, c.
  rewrite find_scope_state by done. by destruct (HASH_FIND (st_scopes st) name).
Qed.
End server.

(** ** Running a program *)

(** The vector of strings is well-formed. *)
Lemma vector_strings_live vec : exists strings h,
  vector_strings vec = Ok (strings, h) /\ heap_wf h /\ Forall2 (live h) strings (pair 1 <$> vec).
Proof.
  unfold vector_strings. induction vec as [|text vec (strings & h & E & Hwf & Hl)] using rev_ind.
  { exists [], (Heap ∅ 1). split_and!; [done| |constructor]. intros l _. apply lookup_empty. }
  rewrite mfold_app, E. cbn [mbind outcome_bind mfold]. rewrite fromchar_spec by done.
  cbn [mbind outcome_bind deref]. eexists _, _. split; [reflexivity|]. split.
  - intros l Hlt. cbn in *. rewrite lookup_insert_ne by lia. apply Hwf. lia.
  - rewrite fmap_app. apply Forall2_app.
    + eapply Forall2_impl; [exact Hl|]. intros l [n t] [Ht Hn]. split; [|done].
      pose proof (fresh_lookup _ _ _ Hwf Ht). cbn [cells]. by rewrite lookup_insert_ne by lia.
    + constructor; [|constructor]. split; [|cbn; lia]. cbn [cells fst snd]. by rewrite lookup_insert_eq.
Qed.

(** The variable is set to the strings that are not empty, joined by colons. *)
Lemma setenv_join vec : nrmc_string_setenv vec = Ok (join_texts ":"%char (filter nonempty vec)).
Proof.
  destruct (vector_strings_live vec) as (strings & h & E & Hwf & Hl). unfold nrmc_string_setenv. rewrite E.
  cbn [mbind outcome_bind].
  destruct (string_vjoin_spec h ":"%char strings _ Hwf Hl) as (val & h' & -> & (k & Hk & Hpos) & _).
  cbn [mbind outcome_bind]. rewrite Hk. cbn [mbind outcome_bind deref]. rewrite (decref_spec _ _ _ _ Hk Hpos).
  cbn [mbind outcome_bind holds slen chars]. rewrite Nat2Z.id, take_app_length.
  do 3 f_equal. rewrite <- list_fmap_compose. apply list_fmap_id.
Qed.

(** The options of [run], short or long. *)
Inductive run_option := R_preload (path : list ascii) | R_ompt (path : list ascii).

Definition run_words (o : bool * run_option) : list (list ascii) :=
  match o.2 with
  | R_preload path => [opt_word o.1 "d" "preload"; path]
  | R_ompt path => [opt_word o.1 "t" "ompt"; path]
  end.

Definition preload_of (o : bool * run_option) : option (list ascii) :=
  match o.2 with R_preload path => Some path | _ => None end.
Definition ompt_of (o : bool * run_option) : option (list ascii) :=
  match o.2 with R_ompt path => Some path | _ => None end.

Lemma run_step argv fuel i o post pre om :
  1 <= i -> drop (Z.to_nat i) argv = run_words o ++ post ->
  option_loop (S fuel) argv ":d:t:" run_longopts run_handle (Getopt_state i []) (pre, om) =
  option_loop fuel argv ":d:t:" run_longopts run_handle (Getopt_state (i + 2) [])
    (pre ++ omap preload_of [o], om ++ omap ompt_of [o]).
Proof.
  intros Hi Hdrop. cbn [option_loop]. unfold next_option. cbn [optind].
  assert (Hlen : (length (run_words o ++ post) <= length argv - Z.to_nat i)%nat)
    by (rewrite <- Hdrop, length_drop; lia).
  assert (Hget : getopt_long argv (String.list_ascii_of_string ":d:t:") run_longopts (Getopt_state i []) =
    (Result (code (match o.2 with R_preload _ => "d" | R_ompt _ => "t" end)) (run_words o !! 1%nat) None,
     Getopt_state (i + 2) [])).
  { cbn [getopt_long plus_getopt]. unfold getopt_plus. cbn [optind nextchar].
    destruct (Z.ltb_spec i 1); [lia|].
    assert (Hw : forall k v, (run_words o ++ post) !! k = Some v -> argv !! (Z.to_nat i + k)%nat = Some v)
      by (intros k v Hk; by rewrite <- Hdrop, lookup_drop in Hk).
    destruct o as [long [path|path]];
      pose proof (Hw 0%nat _ eq_refl) as H0'; pose proof (Hw 1%nat _ eq_refl) as H1';
      rewrite Nat.add_0_r in H0'; rewrite H0';
      replace (Z.to_nat i + 1)%nat with (Z.to_nat (i + 1)) in H1' by lia;
      destruct long; run_word; by rewrite H1'. }
  rewrite Hget. destruct (Z.gtb_spec i (Z.of_nat (length argv))).
  { rewrite length_app in Hlen. destruct o as [? []]; cbn in Hlen; lia. }
  destruct o as [long [path|path]]; cbn [snd]; cbn [mbind outcome_bind go_code];
    unfold run_handle; cbn [go_code go_arg]; decide_codes; cbn; by rewrite app_nil_r.
Qed.

Lemma run_options argv ropts : forall fuel i post pre om,
  1 <= i -> drop (Z.to_nat i) argv = mjoin (run_words <$> ropts) ++ post -> stops post ->
  i <= Z.of_nat (length argv) -> (length ropts < fuel)%nat ->
  option_loop fuel argv ":d:t:" run_longopts run_handle (Getopt_state i []) (pre, om) =
  Ok (Some (Getopt_state (i + 2 * Z.of_nat (length ropts)) [],
            (pre ++ omap preload_of ropts, om ++ omap ompt_of ropts))).
Proof.
  induction ropts as [|o ropts IH]; intros fuel i post pre om Hi Hdrop Hstop Hlen Hfuel.
  - destruct fuel as [|fuel]; [cbn in Hfuel; lia|]. cbn [option_loop]. unfold next_option. cbn [optind].
    destruct (Z.gtb_spec i (Z.of_nat (length argv))); [lia|].
    rewrite (getopt_stops _ _ _ i post) by done. cbn. by rewrite !app_nil_r, Z.add_0_r.
  - destruct fuel as [|fuel]; [cbn in Hfuel; lia|].
    change (mjoin (run_words <$> o :: ropts)) with (run_words o ++ mjoin (run_words <$> ropts)) in Hdrop.
    rewrite <- app_assoc in Hdrop. rewrite (run_step argv fuel i o _ pre om Hi Hdrop).
    assert (Hdrop' : drop (Z.to_nat (i + 2)) argv = mjoin (run_words <$> ropts) ++ post).
    { replace (Z.to_nat (i + 2)) with (Z.to_nat i + 2)%nat by lia.
      rewrite <- drop_drop, Hdrop. by destruct o as [? []]. }
    rewrite (IH fuel (i + 2) post) by (done || (cbn in Hfuel; lia) ||
      (apply (f_equal length) in Hdrop; rewrite length_app, length_drop in Hdrop;
       destruct o as [? []]; cbn in Hdrop; lia)).
    rewrite <- !app_assoc, <- !omap_app. cbn [length]. do 2 f_equal. f_equal. f_equal. lia.
Qed.

Section run.
Context `{Qsort, Zloop, Protobuf, Jansson} {D : Type}.
Variables (wd : world) (sys : syscalls) (p : process) (wakeups : list reactor_event) (version : string).
Variables (create : option string -> Z -> Z -> nat -> Z * option (nrm_client D (list printed))).
Variables (args : nrm_tools_args_t) (prog : list ascii) (opts : list (bool * tool_option)).
Hypothesis Hopts : Forall (fun o => goes_through (strtod wd) o.2) opts.

(** C29: [nrmc run] starts the program it is given, with its words as they are, and
    with the libraries asked for, in their order, after what the two variables held:
    joined by colons, the empty ones left out. Options before the command change
    nothing of it. The client has to be created, but is not used. *)
Theorem nrmc_run (ropts : list (bool * run_option)) program rest c :
  let a := parsed args opts.*2 in
  create (upstream_uri a) (pub_port a) (rpc_port a) 0%nat = (0, c) ->
  head program <> Some "-"%char ->
  let var env libs := join_texts ":"%char (filter nonempty (nrmc_string_getenv env ++ libs)) in
  nrmc_main wd sys p wakeups version create args
    (prog :: mjoin (option_words <$> opts) ++
     String.list_ascii_of_string "run" :: mjoin (run_words <$> ropts) ++ program :: rest) =
  Ok (Executes (program :: rest) (var (env_preload wd) (omap preload_of ropts))
        (var (env_omp wd) (omap ompt_of ropts)), []).
Proof.
  intros a Hcreate Hprogram var.
  rewrite (nrmc_main_command wd sys p wakeups version create args prog opts Hopts
    (String.list_ascii_of_string "run") _ 17 (cmd_run wd (D := _)) c);
    [|discriminate|discriminate|reflexivity|exact Hcreate].
  unfold cmd_run, options. set (argv := _ :: _ ++ _). cbn [nextchar].
  assert (Hwords : length (mjoin (run_words <$> ropts)) = (2 * length ropts)%nat).
  { clear var argv. induction ropts as [|o ropts IH]; [done|].
    change (mjoin (run_words <$> o :: ropts)) with (run_words o ++ mjoin (run_words <$> ropts)).
    rewrite length_app, IH. destruct o as [? []]; cbn [run_words snd length]; lia. }
  rewrite (run_options argv ropts _ 1 (program :: rest)); [|lia|done|by left| |].
  - cbn [mbind outcome_bind optind].
    replace (drop (Z.to_nat (1 + 2 * Z.of_nat (length ropts))) argv) with (program :: rest);
      [by rewrite !setenv_join|].
    replace (Z.to_nat _) with (S (length (mjoin (run_words <$> ropts)))) by lia.
    unfold argv. cbn [skipn]. by rewrite drop_app_length.
  - unfold argv. cbn [length]. lia.
  - cbn [getopt_left plus_getopt]. rewrite plus_left_nil. pose proof (words_left_length argv 1) as Hl.
    change (Z.to_nat 1) with 1%nat. unfold argv in Hl at 1. cbn [length] in Hl. rewrite length_app in Hl.
    cbn [length] in Hl. lia.
Qed.
End run.

(** ** Witnesses *)

(** The text of any number is 3. *)
Definition three_world : world :=
  World (fun _ => None) (fun _ => (d_of_Z 3, false, false)) (Time 0 0) (0, 0) 0
    (Some ["x"%char]) None.
Definition idle_sys : syscalls := Syscalls None 0 7 0.
Definition idle_process : process := Process ∅ [].
Definition quiet_client (st : nrm_state) : nrm_client _ (list printed) :=
  client_on counting zeros (fun _ => None) (quiet st 0%nat [] [] [] None None "c" []) None None.
Definition at_quiet (st : nrm_state) (uri : option string) (pub rpc : Z) (attempt : nat)
    : Z * option (nrm_client _ (list printed)) :=
  (0, Some (quiet_client st)).
Definition one_scope : nrm_state := state_add_scope (State [] [] [] []) "s" some_scope.

Lemma one_scope_ok : state_ok one_scope.
Proof.
  split; [split_and!; (apply NoDup_singleton || constructor)|].
  split_and!; [constructor|apply Forall_singleton; split; [reflexivity|]|constructor|constructor].
  apply scope_wf_3; auto with nrm.
Qed.

Definition fits_three (o : bool * tool_option) : Prop := goes_through (strtod three_world) o.2.
Lemma verbose_fits : Forall fits_three [(true, T_verbose)].
Proof. by apply Forall_singleton. Qed.
Lemma port_fits : Forall fits_three [(false, T_pub 5)].
Proof. apply Forall_singleton. unfold fits_three, goes_through, INT_MAX. cbn. lia. Qed.

(** The owner ["c"] of the actuator keeps the value that it is told; the client of the
    command line is another one. *)
Definition tells (id : string) : option (option nrm_msg -> list printed -> outcome (list printed)) :=
  Some (fun m w =>
    match m with
    | Some (Msg _ (D_actuate a)) => Ok (P_event 0 id (mac_uuid a) (mac_value a) :: w)
    | _ => Ok w
    end).

Lemma nrmc_actuates_witness :
  let c u w st := client_on counting zeros tells (quiet st u [] [] [] None None "nrmc" w) None None in
  cmd_actuate three_world (Getopt_state 1 []) [["c"]; ["a"]; ["3"]]%char (Some (c 0%nat [] one_actuator)) =
  Ok (Returns 0,
      Some (c 1%nat [P_event 0 "c" (Some "a"%string) (d_of_Z 3)] (state_set_value one_actuator "a" (with_value limited (d_of_Z 3)))), []).
Proof.
  intros c.
  apply (nrmc_actuates counting zeros tells three_world (Getopt_state 1 []) one_actuator 0%nat [] [] [] None
    None "nrmc" [] None None ["a"%char] ["3"%char] ["c"%char] (d_of_Z 3) false false (Elem "a" limited) 0
    (fun s _ _ => Ok (0, with_user s (S (s_user s)))) 1%nat [P_event 0 "c" (Some "a"%string) (d_of_Z 3)] "c"%string 0 (d_of_Z 3)
    one_actuator_ok); try reflexivity.
  apply Forall_singleton. split; [by split|by eexists].
Defined.

Lemma nrmc_lists_scopes_witness :
  exists js, Forall2 (fun e j => nrm_scope_to_json (ptr e) = Ok j) (st_scopes one_scope) js /\
    nrmc_main three_world idle_sys idle_process [] "1" (at_quiet one_scope) (no_args 7)
      (command_line ["n"%char] [(true, T_verbose)] ["list-scopes"]%string) =
    Ok (Returns 0, [P_json (json_array_of js)]).
Proof.
  apply (nrmc_lists_scopes counting zeros (fun _ => None) three_world idle_sys idle_process [] "1" (no_args 7)
    ["n"%char] [(true, T_verbose)] verbose_fits one_scope 0%nat [] [] [] None None "c" [] None
    None one_scope_ok (at_quiet one_scope) []). reflexivity.
Defined.

(** A scope that the server has, and one that it has not. *)
Lemma nrmc_remove_scope_witness :
  let run opts name := nrmc_main three_world idle_sys idle_process [] "1" (at_quiet one_scope) (no_args 7)
    (command_line ["n"%char] opts ["remove-scope"; name]%string) in
  run [] "s"%string = Undefined /\ run [] "t"%string = Ok (Returns 0, [P_json (json_array_of [])]) /\
  run [(true, T_verbose)] "s"%string = Ok (Returns EXIT_FAILURE, []).
Proof.
  intros run.
  split; [|split]; etransitivity.
  1:{ apply (nrmc_remove_scope counting zeros (fun _ => None) three_world idle_sys idle_process [] "1" (no_args 7)
        ["n"%char] [] (Forall_nil_2 _) one_scope 0%nat [] [] [] None None "c" [] None None one_scope_ok
        (at_quiet one_scope) "s"); [reflexivity|discriminate]. }
  1:{ vm_compute. reflexivity. }
  1:{ apply (nrmc_remove_scope counting zeros (fun _ => None) three_world idle_sys idle_process [] "1" (no_args 7)
        ["n"%char] [] (Forall_nil_2 _) one_scope 0%nat [] [] [] None None "c" [] None None one_scope_ok
        (at_quiet one_scope) "t"); [reflexivity|discriminate]. }
  1:{ vm_compute. reflexivity. }
  1:{ apply (nrmc_remove_scope counting zeros (fun _ => None) three_world idle_sys idle_process [] "1" (no_args 7)
        ["n"%char] [(true, T_verbose)] verbose_fits one_scope 0%nat [] [] [] None None "c" [] None None one_scope_ok
        (at_quiet one_scope) "s"); [reflexivity|discriminate]. }
  1:{ vm_compute. reflexivity. }
Defined.

Lemma nrmc_run_witness :
  nrmc_main three_world idle_sys idle_process [] "1" (at_quiet one_scope) (no_args 7)
    (["n"%char] :: mjoin (option_words <$> [(false, T_pub 5)]) ++
     String.list_ascii_of_string "run" ::
     mjoin (run_words <$> [(false, R_preload ["a"%char]); (true, R_ompt ["b"%char]); (true, R_preload ["d"%char])])
     ++ ["p"%char] :: [["-"; "d"]%char]) =
  Ok (Executes [["p"%char]; ["-"; "d"]%char] ["x"; ":"; "a"; ":"; "d"]%char ["b"%char], []).
Proof.
  apply (nrmc_run three_world idle_sys idle_process [] "1" (at_quiet one_scope) (no_args 7) ["n"%char]
    [(false, T_pub 5)] port_fits
    [(false, R_preload ["a"%char]); (true, R_ompt ["b"%char]); (true, R_preload ["d"%char])] ["p"%char]
    [["-"; "d"]%char] (Some (quiet_client one_scope))); [reflexivity|discriminate].
Defined.
