(* ===== verification/Preloads.v ===== *)
(** * The preloaded libraries (src/preloads)

    The OpenMP tool (ompt/entrypoint.c, ompt/nrm_omp_callbacks.c) counts the chunks
    of work that the runtime dispatches and sends the count at a limited rate; the
    MPI library (pmpi/mpi_api.c) sends an event before and after each collective
    call. The globals of a library are a record; the clock, the process id, what the
    OpenMP runtime answers and the real MPI functions are arguments. The results of
    calls that the code ignores are ignored. *)

From S2P Require Import Prelude Vectors Doubles Hashes Bitmaps Json Timers Scopes Actuators.
From S2P Require Import Events Messages MsgJson States Roles Server Client System Topology Sampling.

(** ** The OpenMP tool *)

(** [ompt_callbacks_t], the events that a tool can register for. *)
Inductive ompt_callbacks :=
| ompt_callback_thread_begin | ompt_callback_thread_end | ompt_callback_parallel_begin
| ompt_callback_parallel_end | ompt_callback_work | ompt_callback_masked | ompt_callback_dispatch
| ompt_callback_task_create | ompt_callback_dependences | ompt_callback_task_dependence
| ompt_callback_task_schedule | ompt_callback_implicit_task | ompt_callback_sync_region
| ompt_callback_mutex_acquire | ompt_callback_nest_lock | ompt_callback_flush
| ompt_callback_cancel | ompt_callback_device_initialize | ompt_callback_device_finalize
| ompt_callback_device_load | ompt_callback_device_unload | ompt_callback_target_data_op
| ompt_callback_target | ompt_callback_target_map | ompt_callback_target_submit
| ompt_callback_control_tool.

(** The order of registration, and whether the result is asserted. *)
Definition registrations : list (ompt_callbacks * bool) :=
  [ (ompt_callback_thread_begin, true); (ompt_callback_thread_end, true);
    (ompt_callback_parallel_begin, true); (ompt_callback_parallel_end, true);
    (ompt_callback_work, false); (ompt_callback_masked, false); (ompt_callback_dispatch, false);
    (ompt_callback_task_create, true); (ompt_callback_dependences, false);
    (ompt_callback_task_dependence, false); (ompt_callback_task_schedule, true);
    (ompt_callback_implicit_task, true); (ompt_callback_sync_region, false);
    (ompt_callback_mutex_acquire, false); (ompt_callback_nest_lock, false);
    (ompt_callback_flush, false); (ompt_callback_cancel, false);
    (ompt_callback_device_initialize, false); (ompt_callback_device_finalize, false);
    (ompt_callback_device_load, false); (ompt_callback_device_unload, false);
    (ompt_callback_target_data_op, false); (ompt_callback_target, false);
    (ompt_callback_target_map, false); (ompt_callback_target_submit, false);
    (ompt_callback_control_tool, true) ].

Section ompt.
Context `{Qsort} {D W : Type}.

(** The globals of entrypoint.c. *)
Record ompt_tool := Tool {
  global_client : option (nrm_client D W);
  global_scope : option nrm_scope;
  global_sensor : option nrm_sensor;
  global_count : double;
  last_send : nrm_time
}.
Implicit Types t : ompt_tool.

Definition with_client_of t (c : option (nrm_client D W)) : ompt_tool :=
  Tool c (global_scope t) (global_sensor t) (global_count t) (last_send t).

(** [nrm_ratelimit] is an unsigned number of nanoseconds, cast to a signed one. *)
Definition nrm_ompt_send_event (nrm_ratelimit : Z) (now : nrm_time) t : outcome ompt_tool :=
  let diff := nrm_time_diff (last_send t) now in
  let count := dadd (global_count t) (d_of_Z 1) in
  if diff >? i64 nrm_ratelimit then
    '(_, c) ← nrm_client_send_event (global_client t) now (global_sensor t) (global_scope t) count;
    Ok (Tool c (global_scope t) (global_sensor t) d0 now)
  else Ok (Tool (global_client t) (global_scope t) (global_sensor t) count (last_send t)).

(** The callbacks of nrm_omp_callbacks.c: all but one do nothing. First those on
    devices and targets, and the control of the tool. *)
Definition ompt_target_callback_fn (e : ompt_callbacks) t : outcome ompt_tool :=
  match e with
  | ompt_callback_target_data_op | ompt_callback_target | ompt_callback_target_map
  | ompt_callback_target_submit | ompt_callback_control_tool => Ok t
  | _ => Undefined
  end.

(** Those on synchronization and devices. *)
Definition ompt_sync_callback_fn (e : ompt_callbacks) t : outcome ompt_tool :=
  match e with
  | ompt_callback_sync_region | ompt_callback_mutex_acquire | ompt_callback_nest_lock
  | ompt_callback_flush | ompt_callback_cancel | ompt_callback_device_initialize
  | ompt_callback_device_finalize | ompt_callback_device_load | ompt_callback_device_unload => Ok t
  | _ => ompt_target_callback_fn e t
  end.

Definition ompt_callback_fn (nrm_ratelimit : Z) (now : nrm_time) (e : ompt_callbacks) t
    : outcome ompt_tool :=
  match e with
  | ompt_callback_dispatch => nrm_ompt_send_event nrm_ratelimit now t
  | ompt_callback_thread_begin | ompt_callback_thread_end | ompt_callback_parallel_begin
  | ompt_callback_parallel_end | ompt_callback_work | ompt_callback_masked
  | ompt_callback_task_create | ompt_callback_dependences | ompt_callback_task_dependence
  | ompt_callback_task_schedule | ompt_callback_implicit_task => Ok t
  | _ => ompt_sync_callback_fn e t
  end.

(** [always] tells whether the runtime answers [ompt_set_always]. The result is the
    events that are registered. *)
Definition nrm_ompt_register_cbs (always : ompt_callbacks -> bool) : outcome (list ompt_callbacks) :=
  mfold (fun l '(e, asserted) => _ ← c_assert (negb asserted || always e); Ok (l ++ [e]))
        [] registrations.

Definition nrm_ompt_ratelimit_init (now : nrm_time) t : Z * ompt_tool :=
  (0, Tool (global_client t) (global_scope t) (global_sensor t) (global_count t) now).

Definition nrm_ompt_ratelimit_finalize (now : nrm_time) t : outcome (Z * ompt_tool) :=
  let t := Tool (global_client t) (global_scope t) (global_sensor t) (global_count t) now in
  if dlt d0 (global_count t) then
    '(_, c) ← nrm_client_send_event (global_client t) (last_send t) (global_sensor t) (global_scope t)
                (global_count t);
    Ok (0, with_client_of t c)
  else Ok (0, t).

(** [client] is what [nrm_client_create] makes; [found_set] and [found_finalize] tell
    whether the lookups find their functions. *)
Definition nrm_ompt_initialize (now : nrm_time) (client : option (nrm_client D W))
    (load : Z -> hwloc_topology) (f1 f2 f3 : Z) (pid : string) (always : ompt_callbacks -> bool)
    (found_set found_finalize : bool) t : outcome (Z * list ompt_callbacks * ompt_tool) :=
  let '(_, t) := nrm_ompt_ratelimit_init now t in
  '(_, client, scope) ← ompt_find_allowed_scope load f1 f2 f3 pid client;
  let scope := match scope with Some s => Some s | None => global_scope t end in
  sensor ← nrm_sensor_create false (Some "nrm-ompt"%string);
  '(_, client, sensor) ← nrm_client_add_sensor client (Some sensor);
  _ ← c_assert found_set;
  registered ← nrm_ompt_register_cbs always;
  _ ← c_assert found_finalize;
  Ok (1, registered, Tool client scope sensor (global_count t) (last_send t)).

(** The globals after the call: nothing is left of the client and the sensor. *)
Definition nrm_ompt_finalize (now : nrm_time) t : outcome ompt_tool :=
  '(_, t) ← nrm_ompt_ratelimit_finalize now t;
  _ ← nrm_scope_destroy (global_scope t);
  '(_, client) ← nrm_client_remove_sensor (global_client t) (global_sensor t);
  _ ← nrm_sensor_destroy (Some (global_sensor t));
  client ← nrm_client_destroy (Some client);
  Ok (Tool client (global_scope t) None (global_count t) (last_send t)).
End ompt.
Arguments ompt_tool _ _ : clear implicits.

(** ** The MPI library *)

Section pmpi.
Context `{Qsort} {D W S : Type}.

Record pmpi_lib := Pmpi {
  pmpi_client : option (nrm_client D W);
  pmpi_scope : option nrm_scope;
  pmpi_sensor : option nrm_sensor
}.
Implicit Types l : pmpi_lib.

(** [NRM_MPI_RESOLVE]: the real function is found under one of its two names. *)
Definition NRM_MPI_RESOLVE (dlsym : string -> bool) (fname : string) : outcome unit :=
  c_assert (dlsym ("P" ++ fname)%string || dlsym fname).

Definition pmpi_send (time : nrm_time) l : outcome pmpi_lib :=
  '(_, c) ← nrm_client_send_event (pmpi_client l) time (pmpi_sensor l) (pmpi_scope l) (d_of_Z 1);
  Ok (Pmpi c (pmpi_scope l) (pmpi_sensor l)).

(** [MPI_Allreduce] and [MPI_Barrier]: the time is read once, before the first event.
    [real] is the call that is wrapped, on the state of MPI. *)
Definition nrm_MPI_Allreduce (dlsym : string -> bool) (clock : nrm_time) (real : S -> Z * S) l (s : S)
    : outcome (Z * pmpi_lib * S) :=
  _ ← NRM_MPI_RESOLVE dlsym "MPI_Allreduce";
  l ← pmpi_send clock l;
  let '(ret, s) := real s in
  l ← pmpi_send clock l;
  Ok (ret, l, s).

Definition nrm_MPI_Barrier (dlsym : string -> bool) (clock : nrm_time) (real : S -> Z * S) l (s : S)
    : outcome (Z * pmpi_lib * S) :=
  _ ← NRM_MPI_RESOLVE dlsym "MPI_Barrier";
  l ← pmpi_send clock l;
  let '(ret, s) := real s in
  l ← pmpi_send clock l;
  Ok (ret, l, s).

Definition nrm_MPI_Comm_size (dlsym : string -> bool) (real : S -> Z * S) (s : S) : outcome (Z * S) :=
  _ ← NRM_MPI_RESOLVE dlsym "MPI_Comm_size"; Ok (real s).
Definition nrm_MPI_Comm_rank (dlsym : string -> bool) (real : S -> Z * S) (s : S) : outcome (Z * S) :=
  _ ← NRM_MPI_RESOLVE dlsym "MPI_Comm_rank"; Ok (real s).

(** [init] is the result of [nrm_init], [created] that of [nrm_client_create] with the
    client it makes. The caller of [find_scope] asserts nothing: an error is returned
    as that of [MPI_Init]. *)
Definition nrm_MPI_Init (dlsym : string -> bool) (real : S -> Z * S) (rank : string) (init : Z)
    (created : Z * option (nrm_client D W)) (getcpu : Z * Z) l (s : S) : outcome (Z * pmpi_lib * S) :=
  _ ← NRM_MPI_RESOLVE dlsym "MPI_Init";
  let '(ret, s) := real s in
  if negb (ret =? 0) then Ok (ret, l, s)
  else
    _ ← NRM_MPI_RESOLVE dlsym "MPI_Comm_rank";
    if negb (init =? 0) then Ok (init, l, s)
    else
      let '(ret, client) := created in
      if negb (ret =? 0) then Ok (ret, l, s)
      else
        '(ret, client, scope) ← pmpi_find_scope getcpu rank client;
        if negb (ret =? 0) then Ok (ret, Pmpi client (pmpi_scope l) (pmpi_sensor l), s)
        else
          sensor ← nrm_sensor_create false (Some ("nrm.pmpi." ++ rank)%string);
          '(_, client, sensor) ← nrm_client_add_sensor client (Some sensor);
          Ok (ret, Pmpi client scope sensor, s).

Definition nrm_MPI_Finalize (dlsym : string -> bool) (real : S -> Z * S) l (s : S)
    : outcome (Z * pmpi_lib * S) :=
  _ ← NRM_MPI_RESOLVE dlsym "MPI_Finalize";
  _ ← match pmpi_scope l with Some sc => nrm_scope_destroy (Some sc) | None => Ok 0 end;
  client ← match pmpi_client l with
           | Some c => nrm_client_destroy (Some (Some c))
           | None => Ok None
           end;
  let '(ret, s) := real s in
  Ok (ret, Pmpi client (pmpi_scope l) (pmpi_sensor l), s).
End pmpi.
Arguments pmpi_lib _ _ : clear implicits.

(** ** The rate limit *)

#[export] Instance ompt_callbacks_eq_dec : EqDecision ompt_callbacks.
Proof. solve_decision. Defined.

(** Each time is more than [r] nanoseconds after the one before it. *)
Fixpoint spaced (r : Z) (last : nrm_time) (times : list nrm_time) : Prop :=
  match times with
  | [] => True
  | t :: times => r < nrm_time_diff last t /\ spaced r t times
  end.

Lemma spaced_elapsed r last times :
  0 <= r -> time_ok last -> Forall time_ok times -> spaced r last times ->
  Z.of_nat (length times) * (r + 1) <= nrm_time_tons (List.last times last) - nrm_time_tons last.
Proof.
  intros Hr Hl Hts. revert last Hl. induction Hts as [|t ts Ht Hts IH]; intros last Hl Hs; [cbn; lia|].
  destruct Hs as [Hd Hs]. rewrite time_diff_exact in Hd by done. specialize (IH t Ht Hs).
  assert (Hlast : List.last (t :: ts) last = List.last ts t).
  { clear. revert t last. induction ts as [|x ts IH]; intros t last; [done|].
    change (List.last (x :: ts) last = List.last (x :: ts) t). by rewrite (IH x last), (IH x t). }
  rewrite Hlast. cbn [length]. lia.
Qed.

Section ratelimit.
Context `{Qsort} {W : Type}.
Variables (r : Z) (sensor : string) (scope : nrm_scope) (c : string) (ms : nrm_msg_scope).
Variables (inp : list ctrlmsg) (sub cmd : option client_callback)
  (fn : option (string -> nrm_time -> option nrm_scope -> double -> W -> outcome W))
  (act : option (option string -> double -> W -> outcome W)).
Hypotheses (Hr : 0 <= r < 2 ^ 63) (Hwf : scope_wf scope) (Hu : scope_uuid scope = Some c)
  (Hms : nrm_msg_scope_new scope = Ok ms).

(** The tool with [k] uncounted chunks, and the messages of its counts. *)
Definition tool (out : list ctrlmsg) (k : nat) (last : nrm_time) :
    ompt_tool (nrm_role_client client_callback) W :=
  Tool (Some (on_pipe out inp sub cmd fn act)) (Some scope) (Some (Sensor (Some sensor)))
       (d_of_Z (Z.of_nat k)) last.
Definition count_msgs (sends : list (nrm_time * nat)) : list ctrlmsg :=
  (fun s : nrm_time * nat => event_ctrl sensor ms scope (s.1, d_of_Z (Z.of_nat s.2))) <$> sends.

Lemma send_event_step out k last now :
  Z.of_nat k < 2 ^ 53 - 1 ->
  nrm_ompt_send_event r now (tool out k last) =
  Ok (if nrm_time_diff last now >? r then tool (out ++ count_msgs [(now, S k)]) 0 now
      else tool out (S k) last).
Proof.
  intros Hk. unfold nrm_ompt_send_event. cbn [tool last_send global_count global_client global_scope global_sensor].
  rewrite d_of_Z_succ, (i64_small r) by (unfold in_i64; lia).
  replace (Z.of_nat k + 1) with (Z.of_nat (S k)) by lia.
  destruct (nrm_time_diff last now >? r); [|done].
  rewrite (send_event_out _ _ _ _ _ _ _ _ _ c ms) by done. reflexivity.
Qed.

(** The run of a trace of callbacks. *)
Definition run_callbacks (t : ompt_tool (nrm_role_client client_callback) W)
    (trace : list (nrm_time * ompt_callbacks)) : outcome (ompt_tool (nrm_role_client client_callback) W) :=
  mfold (fun t e => ompt_callback_fn r e.1 e.2 t) t trace.

Definition dispatches (trace : list (nrm_time * ompt_callbacks)) : nat :=
  length (filter (fun e => e.2 = ompt_callback_dispatch) trace).

Lemma run_callbacks_sends trace out k last :
  Z.of_nat (k + dispatches trace) < 2 ^ 53 ->
  exists sends k' last',
    run_callbacks (tool out k last) trace = Ok (tool (out ++ count_msgs sends) k' last') /\
    (sum_list sends.*2 + k' = k + dispatches trace)%nat /\
    last' = List.last sends.*1 last /\ spaced r last sends.*1 /\ sends.*1 `sublist_of` trace.*1.
Proof.
  revert out k last. induction trace as [|[now e] trace IH]; intros out k last Hk.
  { exists [], k, last. unfold count_msgs, dispatches. cbn. rewrite app_nil_r. split; [done|].
    split; [lia|]. by repeat split. }
  unfold run_callbacks, dispatches in *. cbn [mfold fst snd]. rewrite filter_cons in *. cbn [snd] in *.
  destruct (decide (e = ompt_callback_dispatch)) as [->|Hne].
  - cbn [ompt_callback_fn length] in *. rewrite send_event_step by lia. cbn [mbind outcome_bind].
    rewrite Z.gtb_ltb. destruct (Z.ltb_spec r (nrm_time_diff last now)) as [Hlt|Hge].
    + destruct (IH (out ++ count_msgs [(now, S k)]) 0%nat now) as (sends & k' & last' & E & Hs & Hl & Hsp & Hin);
        [lia|].
      exists ((now, S k) :: sends), k', last'. rewrite E, <- app_assoc. split; [done|].
      rewrite !fmap_cons. cbn [sum_list_with id fst snd spaced]. split; [unfold id in *; lia|].
      split; [|split; [done|by apply sublist_skip]]. rewrite Hl. clear.
      assert (Hany : forall l (x d : nrm_time), List.last (x :: l) d = List.last l x).
      { induction l as [|y l IH]; intros x d; [done|].
        change (List.last (y :: l) d = List.last (y :: l) x). by rewrite (IH y d), (IH y x). }
      symmetry. apply Hany.
    + destruct (IH out (S k) last) as (sends & k' & last' & E & Hs & Hl & Hsp & Hin); [lia|].
      exists sends, k', last'. rewrite E. split; [done|]. split; [lia|]. split; [done|].
      split; [done|by apply sublist_cons].
  - assert (Hsame : ompt_callback_fn r now e (tool out k last) = Ok (tool out k last)) by by destruct e.
    rewrite Hsame. cbn [mbind outcome_bind]. destruct (IH out k last Hk) as (sends & k' & last' & E & Hs & Hl & Hsp & Hin).
    exists sends, k', last'. rewrite E. split; [done|]. split; [done|]. split; [done|].
    split; [done|by apply sublist_cons].
Qed.

Lemma finalize_sends out k last now :
  Z.of_nat k < 2 ^ 53 ->
  nrm_ompt_ratelimit_finalize now (tool out k last) =
  Ok (0, tool (out ++ count_msgs (match k with O => [] | _ => [(now, k)] end)) k now).
Proof.
  intros Hk. unfold nrm_ompt_ratelimit_finalize.
  cbn [tool global_count global_client global_scope global_sensor last_send].
  destruct k as [|k]; [cbn; by rewrite app_nil_r|].
  destruct (d_of_Z_finite (Z.of_nat (S k))) as (m & e & Hd); [lia|].
  rewrite Hd. cbn [dlt d0 SFltb SFcompare]. rewrite <- Hd.
  rewrite (send_event_out _ _ _ _ _ _ _ _ _ c ms) by done. reflexivity.
Qed.
End ratelimit.

(** C7: the OpenMP tool counts every chunk once and does not flood the daemon. On any
    trace of callbacks of the runtime, with counts below 2^53: the messages it sends
    are the counts of some of the times of the trace, in order, each more than
    [nrm_ratelimit] nanoseconds after the one before, so that their number times the
    limit is at most the time elapsed; their counts, and the one that
    [nrm_ompt_ratelimit_finalize] sends in the end, add up to the number of chunks
    dispatched; and the sums of doubles that make the counts are exact. *)
Theorem ompt_ratelimit `{Qsort} {W} r sensor scope c ms inp sub cmd
    (fn : option (string -> nrm_time -> option nrm_scope -> double -> W -> outcome W)) act
    trace out start stop :
  0 <= r < 2 ^ 63 -> scope_wf scope -> scope_uuid scope = Some c -> nrm_msg_scope_new scope = Ok ms ->
  Z.of_nat (dispatches trace) < 2 ^ 53 -> Forall time_ok (start :: trace.*1) ->
  exists sends k last,
    run_callbacks r (tool sensor scope inp sub cmd fn act out 0 start) trace =
      Ok (tool sensor scope inp sub cmd fn act (out ++ count_msgs sensor scope ms sends) k last) /\
    spaced r start sends.*1 /\ sends.*1 `sublist_of` trace.*1 /\
    Z.of_nat (length sends) * (r + 1) <= nrm_time_tons last - nrm_time_tons start /\
    exists final,
      nrm_ompt_ratelimit_finalize stop
        (tool sensor scope inp sub cmd fn act (out ++ count_msgs sensor scope ms sends) k last) =
      Ok (0, tool sensor scope inp sub cmd fn act
               (out ++ count_msgs sensor scope ms (sends ++ final)) k stop) /\
      sum_list (sends ++ final).*2 = dispatches trace /\ Forall (fun s => s.1 = stop) final.
Proof.
  intros Hr Hwf Hu Hms Hn Hts. apply Forall_cons in Hts as [Hstart Hts].
  destruct (run_callbacks_sends r sensor scope c ms inp sub cmd fn act Hr Hwf Hu Hms trace out 0 start Hn)
    as (sends & k & last & E & Hs & -> & Hsp & Hin).
  exists sends, k, (List.last sends.*1 start). split; [done|]. split; [done|]. split; [done|]. split.
  { rewrite <- (length_fmap fst). apply spaced_elapsed; [lia|done| |done].
    apply Forall_forall. intros t Ht. rewrite Forall_forall in Hts. apply Hts.
    eapply sublist_subseteq in Hin. by apply Hin. }
  exists (match k with O => [] | _ => [(stop, k)] end).
  rewrite (finalize_sends sensor scope c ms) by (done || lia).
  unfold count_msgs. rewrite fmap_app, app_assoc. split; [done|].
  rewrite fmap_app, sum_list_with_app. split; [destruct k; cbn; unfold id in *; lia|by destruct k; repeat constructor].
Qed.

Lemma ompt_ratelimit_witness :
  let trace := [(Time 1 0, ompt_callback_dispatch); (Time 1 1, ompt_callback_work);
                (Time 1 30, ompt_callback_dispatch); (Time 1 31, ompt_callback_dispatch)] in
  let t out k last := tool "s" some_scope [] None None (None (A := string -> nrm_time -> option nrm_scope ->
    double -> unit -> outcome unit)) None out k last in
  exists ms sends k last,
    run_callbacks 20 (t [] 0%nat (Time 1 0)) trace = Ok (t (count_msgs "s" some_scope ms sends) k last) /\
    spaced 20 (Time 1 0) sends.*1 /\ sends.*1 `sublist_of` trace.*1 /\
    Z.of_nat (length sends) * (20 + 1) <= nrm_time_tons last - nrm_time_tons (Time 1 0) /\
    exists final,
      nrm_ompt_ratelimit_finalize (Time 2 0) (t (count_msgs "s" some_scope ms sends) k last) =
      Ok (0, t (count_msgs "s" some_scope ms (sends ++ final)) k (Time 2 0)) /\
      sum_list (sends ++ final).*2 = 3%nat /\ Forall (fun s => s.1 = Time 2 0) final.
Proof.
  intros trace t. eexists.
  apply (ompt_ratelimit 20 "s" some_scope "s" _ [] None None None None trace [] (Time 1 0) (Time 2 0));
    [lia|apply scope_wf_3; auto with nrm|reflexivity|vm_compute; reflexivity|vm_compute; reflexivity|].
  repeat constructor; cbn; lia.
Defined.

(** ** The wrapped calls *)

Section wrapped.
Context `{Qsort} {W S : Type}.
Variables (sensor : string) (scope : nrm_scope) (c : string) (ms : nrm_msg_scope).
Variables (inp : list ctrlmsg) (sub cmd : option client_callback)
  (fn : option (string -> nrm_time -> option nrm_scope -> double -> W -> outcome W))
  (act : option (option string -> double -> W -> outcome W)).
Hypotheses (Hwf : scope_wf scope) (Hu : scope_uuid scope = Some c)
  (Hms : nrm_msg_scope_new scope = Ok ms).

Definition lib (out : list ctrlmsg) : pmpi_lib (nrm_role_client client_callback) W :=
  Pmpi (Some (on_pipe out inp sub cmd fn act)) (Some scope) (Some (Sensor (Some sensor))).

Lemma pmpi_send_out out t :
  pmpi_send t (lib out) = Ok (lib (out ++ [event_ctrl sensor ms scope (t, d_of_Z 1)])).
Proof.
  unfold pmpi_send. cbn [lib pmpi_client pmpi_scope pmpi_sensor].
  by rewrite (send_event_out _ _ _ _ _ _ _ _ _ c ms).
Qed.

(** A wrapped call gives what the real one gives. The event after it has the time of
    the event before it, so that the two do not tell how long the call took. *)
Lemma wrapped_transparent dlsym t (real : S -> Z * S) out s :
  dlsym "PMPI_Barrier"%string = true -> dlsym "PMPI_Allreduce"%string = true ->
  let e := event_ctrl sensor ms scope (t, d_of_Z 1) in
  nrm_MPI_Barrier dlsym t real (lib out) s = Ok ((real s).1, lib (out ++ [e; e]), (real s).2) /\
  nrm_MPI_Allreduce dlsym t real (lib out) s = Ok ((real s).1, lib (out ++ [e; e]), (real s).2).
Proof.
  intros Hb Ha e. unfold nrm_MPI_Barrier, nrm_MPI_Allreduce, NRM_MPI_RESOLVE.
  change ("P" ++ "MPI_Barrier")%string with "PMPI_Barrier"%string.
  change ("P" ++ "MPI_Allreduce")%string with "PMPI_Allreduce"%string. rewrite Hb, Ha.
  cbn [orb c_assert mbind outcome_bind]. rewrite pmpi_send_out. cbn [mbind outcome_bind].
  destruct (real s) as [ret s']. rewrite pmpi_send_out, <- app_assoc. done.
Qed.
End wrapped.

(** Without a client, because [MPI_Init] failed, the calls still go through. *)
Lemma wrapped_without_client `{Qsort} {D W S} dlsym t (real : S -> Z * S) scope sensor s :
  dlsym "PMPI_Barrier"%string = true ->
  let l := Pmpi None scope sensor : pmpi_lib D W in
  nrm_MPI_Barrier dlsym t real l s = Ok ((real s).1, l, (real s).2).
Proof.
  intros Hb l. unfold nrm_MPI_Barrier, NRM_MPI_RESOLVE.
  change ("P" ++ "MPI_Barrier")%string with "PMPI_Barrier"%string. rewrite Hb. cbn.
  by destruct (real s).
Qed.

(** Without a scope nothing is sent, and the count is lost. *)
Lemma send_without_scope `{Qsort} {D W} (client : option (nrm_client D W)) sensor count t now :
  nrm_ompt_ratelimit_finalize now (Tool client None sensor count t) = Ok (0, Tool client None sensor count now).
Proof.
  unfold nrm_ompt_ratelimit_finalize. cbn. destruct (dlt d0 count); [|done].
  by destruct client, sensor.
Qed.

(** A tool that did not find its scope goes on without one, and its finalisation
    releases the NULL scope. *)
Lemma finalize_without_scope `{Qsort} {D W} (client : option (nrm_client D W)) sensor count t now :
  nrm_ompt_finalize now (Tool client None sensor count t) = Undefined.
Proof. unfold nrm_ompt_finalize. by rewrite send_without_scope. Qed.
