(* ===== verification/Extras.v ===== *)
(** * The programs that sample (src/binaries: nrm-dummy-extra.c, nrm-geopm.c,
    nrm-papiwrapper.c)

    Each parses its arguments, makes a client, registers what it samples with the
    daemon, and then waits in a reactor whose timer callback sends events. The globals
    of a program are a record, the user state of its reactor (Reactor). What GEOPM, PAPI
    and the system answer are records of functions; the clock and the readings are
    indexed by how often they have been asked. *)

From Stdlib Require Import Ascii.
From S2P Require Import Prelude Vectors Doubles Hashes Runtime Bitmaps Loops Json Timers Getopt Tools Reactor.
From S2P Require Import Scopes Actuators Events Messages MsgJson States Roles Server Client System Topology Sampling.

(** How a program ends, or that it waits in its reactor. *)
Inductive extra_result (X : Type) :=
| X_exits (status : Z) (printed : list string)
| X_executes (argv : list (list ascii))
| X_waits (x : X)
| X_returns (status : Z).
Arguments X_exits {_} _ _.
Arguments X_executes {_} _.
Arguments X_waits {_} _.
Arguments X_returns {_} _.

Definition EXIT_FAILURE : Z := 1.

Section programs.
Context `{Qsort, Zloop, Protobuf, Getopt} {D W : Type}.
Abbreviation client := (option (nrm_client D W)) (only parsing).
Variables (clock : nat -> nrm_time) (strtod : list ascii -> double * bool * bool) (version : string).
(** [nrm_client_create] on the URI and the ports. *)
Variable create : option string -> Z -> Z -> Z * option (nrm_client D W).

Definition with_program (name : string) (fl : Z) (args : nrm_tools_args_t) : nrm_tools_args_t :=
  Args name fl (upstream_uri args) (pub_port args) (rpc_port args) (log_level args)
    (ask_help args) (ask_version args) (freq args) (Tools.events args) (inheritance args).

(** The part that the programs share: parsing, help and version. *)
Definition after_args {X} (args : nrm_tools_args_t) (argv : list (list ascii))
    (k : Z -> nrm_tools_args_t -> outcome (extra_result X)) : outcome (extra_result X) :=
  '(err, _, args) ← nrm_tools_parse_args strtod argv args;
  if err <? 0 then Ok (X_exits EXIT_FAILURE (snd (nrm_tools_print_help args)))
  else if negb (ask_help args =? 0) then Ok (X_exits 0 (snd (nrm_tools_print_help args)))
  else if negb (ask_version args =? 0) then Ok (X_exits 0 (snd (nrm_tools_print_version version args)))
  else k err args.

(** The reactor with its two callbacks and its timer, on the state of the program. *)
Definition sampling_reactor {X} (r : nrm_reactor X) (callbacks : nrm_reactor_user_callbacks X)
    (args : nrm_tools_args_t) : outcome (option (nrm_reactor X)) :=
  let '(_, r) := nrm_reactor_setcallbacks (Some r) callbacks in
  sleeptime ← nrm_time_fromfreq (freq args);
  Ok (snd (nrm_reactor_settimer r sleeptime)).

(** ** nrm-dummy-extra.c *)

Record dummy := Dummy {
  du_client : option (nrm_client D W);
  du_counter : Z;
  du_sensor : option nrm_sensor;
  du_scope : option nrm_scope;
  du_actuator : option nrm_actuator;
  du_clock : nat
}.

Definition nrm_dummy_extra_action_callback (uuid : option string) (value : double) (w : W) : outcome W :=
  Ok w.

(** [counter] is an [int]: past the greatest its increment is undefined. *)
Definition nrm_dummy_extra_timer_callback (d : dummy) : outcome (Z * dummy) :=
  let time := clock (du_clock d) in
  if du_counter d =? INT_MAX then Undefined
  else
    '(_, c) ← nrm_client_send_event (du_client d) time (du_sensor d) (du_scope d) (d_of_Z (du_counter d));
    Ok (0, Dummy c (du_counter d + 1) (du_sensor d) (du_scope d) (du_actuator d) (S (du_clock d))).

(** What is registered with the daemon. *)
Definition dummy_register (getcpu : Z * Z) (c : client) : outcome (Z * dummy) :=
  sensor ← nrm_sensor_create false (Some "nrm-dummy-extra-sensor"%string);
  '(err, c, sensor) ← nrm_client_add_sensor c (Some sensor);
  if negb (err =? 0) then Ok (EXIT_FAILURE, Dummy c 0 sensor None None 0)
  else
    scope ← nrm_scope_create false (Some "nrm.scope.package.0"%string);
    '(_, scope) ← nrm_scope_threadprivate getcpu scope;
    '(err, c, scope) ← nrm_client_add_scope c (Some scope);
    if negb (err =? 0) then Ok (EXIT_FAILURE, Dummy c 0 sensor scope None 0)
    else
      actuator ← nrm_actuator_discrete_create false (Some "nrm-dummy-extra-actuator"%string);
      '(_, actuator) ← nrm_actuator_discrete_set_choices (Some actuator) 2 (Some [d_of_Z 0; d_of_Z 1]);
      '(_, actuator) ← nrm_actuator_set_value actuator (d_of_Z 0);
      '(err, c, actuator) ← nrm_client_add_actuator c (Some actuator);
      Ok (if negb (err =? 0) then EXIT_FAILURE else 0, Dummy c 0 sensor scope actuator 0).

Definition dummy_main (getcpu : Z * Z) (sys : syscalls) (p : process) (wakeups : list reactor_event)
    (args : nrm_tools_args_t) (argv : list (list ascii)) : outcome (extra_result dummy) :=
  after_args (with_program "nrm-dummy-extra" NRM_TOOLS_ARGS_FLAG_FREQ args) argv (fun _ args =>
    let '(err, c) := create (upstream_uri args) (pub_port args) (rpc_port args) in
    if negb (err =? 0) then Ok (X_returns EXIT_FAILURE)
    else
      '(err, d) ← dummy_register getcpu c;
      if negb (err =? 0) then Ok (X_returns EXIT_FAILURE)
      else
        let '(_, c) := nrm_client_set_actuate_listener (du_client d) (Some nrm_dummy_extra_action_callback) in
        '(_, c) ← nrm_client_start_actuate_listener c;
        let d := Dummy c (du_counter d) (du_sensor d) (du_scope d) (du_actuator d) (du_clock d) in
        match nrm_reactor_create sys false false None d p with
        | (_, None, _) => Ok (X_returns EXIT_FAILURE)
        | (_, Some r, p) =>
            r ← sampling_reactor r (ReactorCallbacks None (Some nrm_dummy_extra_timer_callback)) args;
            '(rc, r) ← nrm_reactor_start r wakeups;
            r ← deref r;
            match rc with
            | None => Ok (X_waits (r_user r))
            | Some _ => _ ← nrm_client_destroy (Some (du_client (r_user r))); Ok (X_returns 0)
            end
        end).

(** ** nrm-papiwrapper.c *)

Definition PAPI_OK : Z := 0.
Definition CLD_TRAPPED : Z := 4.
Definition CLD_STOPPED : Z := 5.
Definition CLD_CONTINUED : Z := 6.

(** What PAPI answers; [papi_component] tells whether attaching needs ptrace, and
    [papi_read] gives the counters of each reading. *)
Record papi_lib := PapiLib {
  papi_init : bool;
  papi_component : option bool;
  papi_create_eventset : Z;
  papi_name_to_code : string -> Z * Z;
  papi_add_event : Z -> Z;
  papi_set_inherit : Z;
  papi_attach : Z -> Z;
  papi_start : Z;
  papi_read : nat -> Z * list Z;
  papi_stop : list Z
}.
(** What the system answers: to [fork], to [ptrace] in the child, to [execvp] (whether it
    starts the program), to [waitpid] with whether the child is stopped, to [malloc], and
    to [ptrace] in the parent. *)
Record papi_os := PapiOs {
  os_fork : Z;
  os_traceme : Z;
  os_execvp : bool;
  os_waitpid : Z * bool;
  os_malloc : bool;
  os_cont : Z
}.

Record papi := Papi {
  pa_client : option (nrm_client D W);
  pa_scope : option nrm_scope;
  pa_sensors : list (option nrm_sensor);
  pa_counters : list Z;
  pa_cmdpid : Z;
  pa_events : nat;
  pa_reads : nat;
  pa_clock : nat
}.
Definition pa_with_client (d : papi) (c : client) : papi :=
  Papi c (pa_scope d) (pa_sensors d) (pa_counters d) (pa_cmdpid d) (pa_events d) (pa_reads d) (pa_clock d).

(** The event of one counter. *)
Definition send_counter (time : nrm_time) (i : nat) (d : papi) : outcome (Z * papi) :=
  sensor ← deref (pa_sensors d !! i);
  counter ← deref (pa_counters d !! i);
  '(rc, c) ← nrm_client_send_event (pa_client d) time sensor (pa_scope d) (d_of_Z counter);
  Ok (rc, pa_with_client d c).

(** The loop of the timer callback from [i] on, with [n] counters left. *)
Fixpoint send_counters (time : nrm_time) (n i : nat) (d : papi) : outcome (Z * papi) :=
  match n with
  | O => Ok (0, d)
  | S n =>
      '(rc, d) ← send_counter time i d;
      if negb (rc =? 0) then Ok (-1, d) else send_counters time n (S i) d
  end.

Definition nrm_papiwrapper_timer_callback (lib : papi_lib) (d : papi) : outcome (Z * papi) :=
  let '(err, counters) := papi_read lib (pa_reads d) in
  if negb (err =? PAPI_OK)
  then Ok (-1, Papi (pa_client d) (pa_scope d) (pa_sensors d) (pa_counters d) (pa_cmdpid d) (pa_events d)
                 (S (pa_reads d)) (pa_clock d))
  else
    let time := clock (pa_clock d) in
    send_counters time (pa_events d) 0
      (Papi (pa_client d) (pa_scope d) (pa_sensors d) counters (pa_cmdpid d) (pa_events d)
         (S (pa_reads d)) (S (pa_clock d))).

Definition nrm_papiwrapper_signal_callback (d : papi) (fdsi : signalfd_siginfo) : outcome (Z * papi) :=
  if negb (ssi_signo fdsi =? SIGCHLD) then Ok (-1, d)
  else if negb (ssi_pid fdsi =? pa_cmdpid d) then Ok (0, d)
  else if (ssi_code fdsi =? CLD_STOPPED) || (ssi_code fdsi =? CLD_CONTINUED) || (ssi_code fdsi =? CLD_TRAPPED)
  then Ok (0, d)
  else Ok (-1, d).

(** The sensors of the events, as long as they can be added. *)
Fixpoint papi_add_sensors (pid : string) (names : list string) (c : client) (sensors : list (option nrm_sensor))
    : outcome (bool * client * list (option nrm_sensor)) :=
  match names with
  | [] => Ok (true, c, sensors)
  | name :: names =>
      sensor ← nrm_sensor_create false (Some ("nrm.extra.perf." ++ name ++ "." ++ pid)%string);
      '(err, c, sensor) ← nrm_client_add_sensor c (Some sensor);
      if negb (err =? 0) then Ok (false, c, sensors)
      else papi_add_sensors pid names c (sensors ++ [sensor])
  end.

(** The calls that set PAPI up; [None] is a [goto cleanup]. *)
Definition papi_setup (lib : papi_lib) (names : list string) (inherit : bool) : option bool :=
  if negb (papi_init lib) then None
  else match papi_component lib with
  | None => None
  | Some must_ptrace =>
      if negb (papi_create_eventset lib =? PAPI_OK) then None
      else if forallb (fun name => let '(err, code) := papi_name_to_code lib name in
                         (err =? PAPI_OK) && (papi_add_event lib code =? PAPI_OK)) names
      then if inherit && negb (papi_set_inherit lib =? PAPI_OK) then None else Some must_ptrace
      else None
  end.

(** The labels at the end: the loop goes over all events, and takes the sensor of each
    out of the vector. *)
Definition papi_cleanup (events : nat) (args : nrm_tools_args_t) (c : client) (scope : nrm_scope)
    (sensors : list (option nrm_sensor)) (ret : Z) : outcome (extra_result papi) :=
  _ ← mfold (fun _ i => sensor ← deref (sensors !! i);
                        match sensor with
                        | Some _ => _ ← nrm_sensor_destroy (Some sensor); Ok tt
                        | None => Ok tt
                        end) tt (seq 0 events);
  _ ← nrm_scope_destroy (Some scope);
  _ ← nrm_client_destroy (Some c);
  _ ← nrm_tools_args_destroy args;
  Ok (X_returns ret).

(** The parent once the child is there, up to its counters. *)
Definition papi_attach_child (lib : papi_lib) (os : papi_os) (must_ptrace : bool) (cmdpid : Z) : bool :=
  (negb must_ptrace || (negb ((os_waitpid os).1 =? -1) && (os_waitpid os).2)) &&
  (papi_attach lib cmdpid =? PAPI_OK) && (papi_start lib =? PAPI_OK) && os_malloc os.

(** After the reactor: the last counters, and the results of sending them ignored. *)
Definition papi_final (lib : papi_lib) (d : papi) : outcome papi :=
  let time := clock (pa_clock d) in
  let d := Papi (pa_client d) (pa_scope d) (pa_sensors d) (papi_stop lib) (pa_cmdpid d) (pa_events d)
             (pa_reads d) (S (pa_clock d)) in
  mfold (fun d i => '(_, d) ← send_counter time i d; Ok d) d (seq 0 (pa_events d)).

Definition papi_sigmask : gset Z := {[ SIGINT; SIGTERM; SIGCHLD ]}.

Definition papi_run (lib : papi_lib) (os : papi_os) (must_ptrace : bool) (sys : syscalls) (p : process)
    (wakeups : list reactor_event) (args : nrm_tools_args_t) (scope : nrm_scope) (d : papi)
    : outcome (extra_result papi) :=
  let cleanup c := papi_cleanup (pa_events d) args c scope (pa_sensors d) in
  if negb (papi_attach_child lib os must_ptrace (pa_cmdpid d)) then cleanup (pa_client d) EXIT_FAILURE
  else match nrm_reactor_create sys false false (Some papi_sigmask) d p with
  | (_, None, _) => cleanup (pa_client d) EXIT_FAILURE
  | (_, Some r, p) =>
      r ← sampling_reactor r (ReactorCallbacks (Some nrm_papiwrapper_signal_callback)
                                (Some (nrm_papiwrapper_timer_callback lib))) args;
      if must_ptrace && (os_cont os =? -1) then cleanup (pa_client d) EXIT_FAILURE
      else
        '(rc, r) ← nrm_reactor_start r wakeups;
        r ← deref r;
        match rc with
        | None => Ok (X_waits (r_user r))
        | Some _ => d ← papi_final lib (r_user r); cleanup (pa_client d) 0
        end
  end.

(** The signals are blocked first. The result is that of the parent, or, where [fork]
    gives 0, that of the child. *)
Definition papi_main (lib : papi_lib) (os : papi_os) (load : Z -> hwloc_topology) (f1 f2 f3 : Z) (pid : string)
    (sys : syscalls) (p : process) (wakeups : list reactor_event) (args : nrm_tools_args_t)
    (argv : list (list ascii)) : outcome (extra_result papi) :=
  let p := Process (blocked p ∪ papi_sigmask) (open_fds p) in
  let fl := NRM_TOOLS_FLAGS_SET (NRM_TOOLS_FLAGS_SET NRM_TOOLS_ARGS_FLAG_FREQ NRM_TOOLS_ARGS_FLAG_EVENT)
              NRM_TOOLS_ARGS_FLAG_INHERIT in
  after_args (with_program "nrm-papiwrapper" fl args) argv (fun err args =>
    if err >=? Z.of_nat (length argv) then Ok (X_exits EXIT_FAILURE [])
    else
      let argv := drop (Z.to_nat err) argv in
      names ← deref (Tools.events args);
      let names := match names with [] => ["PAPI_TOT_INS"%string] | _ => names end in
      let '(err, c) := create (upstream_uri args) (pub_port args) (rpc_port args) in
      if negb (err =? 0) || is_null c then _ ← nrm_tools_args_destroy args; Ok (X_returns EXIT_FAILURE)
      else
        '(err, c, scope) ← papi_find_allowed_scope load f1 f2 f3 pid c;
        if negb (err =? 0)
        then _ ← nrm_client_destroy (Some c); _ ← nrm_tools_args_destroy args; Ok (X_returns EXIT_FAILURE)
        else
          scope ← deref scope;
          '(added, c, sensors) ← papi_add_sensors pid names c [];
          let cleanup := papi_cleanup (length names) args c scope sensors EXIT_FAILURE in
          if negb added then cleanup
          else match papi_setup lib names (negb (inheritance args =? 0)) with
          | None => cleanup
          | Some must_ptrace =>
              if os_fork os <? 0 then cleanup
              else if os_fork os =? 0 then
                Ok (if must_ptrace && (os_traceme os =? -1) then X_exits EXIT_FAILURE []
                    else if os_execvp os then X_executes argv else X_exits EXIT_FAILURE [])
              else papi_run lib os must_ptrace sys p wakeups args scope
                     (Papi c (Some scope) sensors (replicate (length names) 0) (os_fork os) (length names) 0 0)
          end).

(** ** nrm-geopm.c *)

(** What GEOPM answers. [read_signal] is the value it stores at each time, if it does. *)
Record geopm_lib := GeopmLib {
  GEOPM_DOMAIN_PACKAGE : Z;
  GEOPM_DOMAIN_GPU : Z;
  signal_domain_type : string -> Z;
  topo_num_domain : Z -> Z;
  topo_domain_name : Z -> Z * string;
  topo_domain_nested : Z -> list Z;
  read_signal : string -> Z -> Z -> nat -> option double;
  write_control : Z -> double -> Z;
  num_signal_name : Z
}.

Record nrm_geopm_eventinfo := Eventinfo {
  ei_name : string;
  ei_domain_type : Z;
  ei_num_domains : Z;
  ei_sensor : option nrm_sensor;
  ei_scopes : list (option nrm_scope)
}.
Record geopm := Geopm {
  ge_client : option (nrm_client D W);
  ge_events : list nrm_geopm_eventinfo;
  ge_actuator : option nrm_actuator;
  ge_clock : nat
}.

Section geopm.
Variable lib : geopm_lib.

(** The writes to the packages one after the other, up to the first error: what is
    written and the code. *)
Fixpoint write_packages (n : nat) (i : Z) (value : double) : Z * list (Z * double) :=
  match n with
  | O => (0, [])
  | S n =>
      let err := write_control lib i value in
      if negb (err =? 0) then (err, [(i, value)])
      else let '(err, l) := write_packages n (i + 1) value in (err, (i, value) :: l)
  end.

Definition nrm_geopm_cpu_act_callback (uuid : option string) (value : double) : Z * list (Z * double) :=
  write_packages (Z.to_nat (topo_num_domain lib (GEOPM_DOMAIN_PACKAGE lib))) 0 value.

Definition nrm_geopm_domain_to_scope (scope : nrm_scope) (domain_type domain_idx : Z) : outcome (Z * nrm_scope) :=
  scope ← (if domain_type =? GEOPM_DOMAIN_PACKAGE lib
           then mfold (fun s pu => '(_, s) ← nrm_scope_add s NRM_SCOPE_TYPE_CPU pu; Ok s) scope
                  (topo_domain_nested lib domain_idx)
           else if domain_type =? GEOPM_DOMAIN_GPU lib
           then '(_, s) ← nrm_scope_add scope NRM_SCOPE_TYPE_GPU domain_idx; Ok s
           else Ok scope);
  Ok (0, scope).

(** The scope of one domain of an event. *)
Definition geopm_scope (name domain_name : string) (domain_type : Z) (i : Z) (c : client)
    : outcome (client * nrm_scope) :=
  scope ← nrm_scope_create false (Some ("nrm.geopm." ++ name ++ "." ++ domain_name ++ "." ++ dec_text i)%string);
  '(_, scope) ← nrm_geopm_domain_to_scope scope domain_type i;
  '(_, c, scope, _) ← nrm_geopm_find_scope c scope;
  Ok (c, scope).

(** What the code asks of GEOPM is asserted. *)
Definition nrm_geopm_prepare_event (s : string) (g : geopm) : outcome geopm :=
  let domain_type := signal_domain_type lib s in
  _ ← c_assert (domain_type >? 0);
  let num_domains := topo_num_domain lib domain_type in
  _ ← c_assert (num_domains >? 0);
  let '(err, domain_name) := topo_domain_name lib domain_type in
  _ ← c_assert (err =? 0);
  sensor ← nrm_sensor_create false (Some ("nrm.geopm." ++ s)%string);
  '(_, c, sensor) ← nrm_client_add_sensor (ge_client g) (Some sensor);
  '(c, scopes) ← mfold (fun '(c, scopes) i =>
                    '(c, scope) ← geopm_scope s domain_name domain_type i c;
                    Ok (c, scopes ++ [Some scope])) (c, []) (seqZ 0 num_domains);
  Ok (Geopm c (ge_events g ++ [Eventinfo s domain_type num_domains sensor scopes]) (ge_actuator g) (ge_clock g)).

(** Reading 0 of both limits; a limit that is not read is not initialised. *)
Definition nrm_geopm_prepare_cpu_actuator (actuator : option nrm_actuator) : outcome (option nrm_actuator) :=
  max ← deref (read_signal lib "CPU_POWER_LIMIT_DEFAULT" (GEOPM_DOMAIN_PACKAGE lib) 0 0);
  min ← deref (read_signal lib "CPU_POWER_MIN_AVAIL" (GEOPM_DOMAIN_PACKAGE lib) 0 0);
  let '(_, actuator) := nrm_actuator_continuous_set_limits actuator min max in
  '(_, actuator) ← nrm_actuator_set_value actuator max;
  Ok (Some actuator).

(** The domains of one event. *)
Definition sample_event (n : nat) (c : client) (e : nrm_geopm_eventinfo) : outcome client :=
  mfold (fun c i =>
           s ← deref (ei_scopes e !! Z.to_nat i);
           let value := default d0 (read_signal lib (ei_name e) (ei_domain_type e) i n) in
           '(_, c) ← nrm_client_send_event c (clock n) (ei_sensor e) s value;
           Ok c) c (seqZ 0 (ei_num_domains e)).

Definition nrm_geopm_timer_callback (g : geopm) : outcome (Z * geopm) :=
  c ← mfold (sample_event (ge_clock g)) (ge_client g) (ge_events g);
  Ok (0, Geopm c (ge_events g) (ge_actuator g) (S (ge_clock g))).

(** The labels [cleanup_act] and after: the sensors are removed from the daemon. *)
Definition geopm_cleanup (args : nrm_tools_args_t) (g : geopm) (ret : Z) : outcome (extra_result geopm) :=
  _ ← nrm_actuator_destroy (Some (ge_actuator g));
  c ← mfold (fun c e =>
               '(_, c) ← nrm_client_remove_sensor c (ei_sensor e);
               _ ← nrm_sensor_destroy (Some (ei_sensor e));
               _ ← mfold (fun _ i => s ← deref (ei_scopes e !! Z.to_nat i); s ← deref s;
                                     _ ← nrm_scope_destroy (Some s); Ok tt) tt (seqZ 0 (ei_num_domains e));
               Ok c) (ge_client g) (ge_events g);
  _ ← nrm_client_destroy (Some c);
  _ ← nrm_tools_args_destroy args;
  Ok (X_returns ret).

Definition geopm_remove (args : nrm_tools_args_t) (g : geopm) (ret : Z) : outcome (extra_result geopm) :=
  '(_, c) ← nrm_client_remove_actuator (ge_client g) (ge_actuator g);
  geopm_cleanup args (Geopm c (ge_events g) (ge_actuator g) (ge_clock g)) ret.

(** [listener] is [nrm_geopm_cpu_act_callback] on what the client's callbacks change. *)
Definition geopm_main (listener : option string -> double -> W -> outcome W) (sys : syscalls) (p : process)
    (wakeups : list reactor_event) (args : nrm_tools_args_t) (argv : list (list ascii))
    : outcome (extra_result geopm) :=
  let fl := NRM_TOOLS_FLAGS_SET NRM_TOOLS_ARGS_FLAG_FREQ NRM_TOOLS_ARGS_FLAG_EVENT in
  after_args (with_program "nrm-geopm" fl args) argv (fun _ args =>
    names ← deref (Tools.events args);
    let names := match names with [] => ["CPU_FREQUENCY_STATUS"%string] | _ => names end in
    let '(err, c) := create (upstream_uri args) (pub_port args) (rpc_port args) in
    if negb (err =? 0) || is_null c then _ ← nrm_tools_args_destroy args; Ok (X_returns EXIT_FAILURE)
    else
      _ ← c_assert (num_signal_name lib >? 0);
      g ← mfold (fun g name => nrm_geopm_prepare_event name g) (Geopm c [] None 0) names;
      actuator ← nrm_actuator_continuous_create false (Some "nrm.geopm.cpu.power"%string);
      actuator ← nrm_geopm_prepare_cpu_actuator (Some actuator);
      '(err, c, actuator) ← nrm_client_add_actuator (ge_client g) actuator;
      let g := Geopm c (ge_events g) actuator (ge_clock g) in
      if negb (err =? 0) then geopm_cleanup args g EXIT_FAILURE
      else
        let '(_, c) := nrm_client_set_actuate_listener c (Some listener) in
        '(_, c) ← nrm_client_start_actuate_listener c;
        let g := Geopm c (ge_events g) actuator (ge_clock g) in
        match nrm_reactor_create sys false false None g p with
        | (_, None, _) => geopm_remove args g EXIT_FAILURE
        | (_, Some r, p) =>
            r ← sampling_reactor r (ReactorCallbacks None (Some nrm_geopm_timer_callback)) args;
            '(rc, r) ← nrm_reactor_start r wakeups;
            r ← deref r;
            match rc with
            | None => Ok (X_waits (r_user r))
            | Some _ => geopm_remove args (r_user r) 0
            end
        end).
End geopm.
End programs.
Arguments dummy _ _ : clear implicits.
Arguments papi _ _ : clear implicits.
Arguments geopm _ _ : clear implicits.

(** ** What the PAPI wrapper sends *)

Section papi_samples.
Context `{Qsort, Zloop} {W : Type}.
Variables (clock : nat -> nrm_time) (lib : papi_lib) (cmdpid : Z) (names : list string).
Variables (scope : nrm_scope) (c : string) (ms : nrm_msg_scope).
Variables (inp : list ctrlmsg) (sub cmd : option client_callback)
  (fn : option (string -> nrm_time -> option nrm_scope -> double -> W -> outcome W))
  (act : option (option string -> double -> W -> outcome W)).
Hypotheses (Hwf : scope_wf scope) (Hu : scope_uuid scope = Some c) (Hms : nrm_msg_scope_new scope = Ok ms).

(** The wrapper with one sensor for each event. *)
Definition wrapper (out : list ctrlmsg) (counters : list Z) (reads k : nat)
    : papi (nrm_role_client client_callback) W :=
  Papi (Some (on_pipe out inp sub cmd fn act)) (Some scope)
    ((fun s => Some (Sensor (Some s))) <$> names) counters cmdpid (length names) reads k.

(** The messages of one row of counters. *)
Definition row_msgs (time : nrm_time) (counters : list Z) : list ctrlmsg :=
  zip_with (fun s v => event_ctrl s ms scope (time, d_of_Z v)) names counters.

Lemma send_counter_out time i out counters reads k s v :
  names !! i = Some s -> counters !! i = Some v ->
  send_counter time i (wrapper out counters reads k) =
  Ok (0, wrapper (out ++ [event_ctrl s ms scope (time, d_of_Z v)]) counters reads k).
Proof.
  intros Hs Hv. unfold send_counter, wrapper. cbn [pa_sensors pa_counters pa_client pa_scope].
  rewrite list_lookup_fmap, Hs. cbn [fmap option_fmap option_map deref mbind outcome_bind]. rewrite Hv.
  cbn [deref mbind outcome_bind]. by rewrite (send_event_out _ _ _ _ _ _ _ _ _ c ms).
Qed.

Lemma row_msgs_step time counters i s v :
  names !! i = Some s -> counters !! i = Some v ->
  drop i (row_msgs time counters) =
  event_ctrl s ms scope (time, d_of_Z v) :: drop (S i) (row_msgs time counters).
Proof.
  intros Hs Hv. apply drop_S, lookup_zip_with_Some. by exists s, v.
Qed.

Lemma send_counters_out time counters reads k n : forall i out,
  (i + n = length names)%nat -> length counters = length names ->
  send_counters time n i (wrapper out counters reads k) =
  Ok (0, wrapper (out ++ drop i (row_msgs time counters)) counters reads k).
Proof.
  induction n as [|n IH]; intros i out Hi Hlen; cbn [send_counters].
  - rewrite drop_ge, app_nil_r; [done|]. unfold row_msgs. rewrite length_zip_with. lia.
  - destruct (lookup_lt_is_Some_2 names i) as [s Hs]; [lia|].
    destruct (lookup_lt_is_Some_2 counters i) as [v Hv]; [lia|].
    rewrite (send_counter_out _ _ _ _ _ _ s v) by done. cbn [mbind outcome_bind Z.eqb negb].
    rewrite IH by lia. rewrite (row_msgs_step _ _ i s v) by done. by rewrite <- app_assoc.
Qed.

(** Readings of the right length that succeed. *)
Hypothesis Hreads : forall j, (papi_read lib j).1 = PAPI_OK /\ length (papi_read lib j).2 = length names.

Lemma papi_tick out counters reads k :
  nrm_papiwrapper_timer_callback clock lib (wrapper out counters reads k) =
  Ok (0, wrapper (out ++ row_msgs (clock k) (papi_read lib reads).2) (papi_read lib reads).2 (S reads) (S k)).
Proof.
  unfold nrm_papiwrapper_timer_callback. cbn [wrapper pa_reads pa_clock pa_events pa_client pa_scope pa_sensors pa_cmdpid pa_counters]. destruct (Hreads reads) as [Hr Hl].
  destruct (papi_read lib reads) as [err row]. cbn [fst snd] in *. subst err.
  cbn [PAPI_OK Z.eqb negb]. fold (wrapper out row (S reads) (S k)).
  by rewrite (send_counters_out _ _ _ _ _ 0 out).
Qed.

(** What does not end the reactor: its timer, a signal about another process, one that
    says that the program is stopped, traced or continued. *)
Definition keeps_going (e : reactor_event) : Prop :=
  match e with
  | Re_timer i => i = 0%nat
  | Re_signal (Some f) =>
      ssi_signo f = SIGCHLD /\
      (ssi_pid f <> cmdpid \/ ssi_code f = CLD_STOPPED \/ ssi_code f = CLD_CONTINUED \/ ssi_code f = CLD_TRAPPED)
  | Re_signal None => False
  end.
Definition is_tick (e : reactor_event) : nat := match e with Re_timer _ => 1 | Re_signal _ => 0 end.
Definition ticks (events : list reactor_event) : nat := sum_list (is_tick <$> events).

Lemma ignored_signal d f :
  pa_cmdpid d = cmdpid -> keeps_going (Re_signal (Some f)) ->
  nrm_papiwrapper_signal_callback (D := nrm_role_client client_callback) (W := W) d f = Ok (0, d).
Proof.
  intros Hp [Hs Hi]. unfold nrm_papiwrapper_signal_callback. rewrite Hs, Hp. cbn [SIGCHLD Z.eqb Pos.eqb negb].
  destruct (Z.eqb_spec (ssi_pid f) cmdpid); [|done]. destruct Hi as [Hi|[->|[->| ->]]]; done.
Qed.

(** The reactor of the wrapper, and the rows of the ticks. *)
Definition wrapper_reactor (sfd d : Z) (old : gset Z) (w : papi (nrm_role_client client_callback) W)
    : nrm_reactor (papi (nrm_role_client client_callback) W) :=
  Reactor sfd [d] old (ReactorCallbacks (Some nrm_papiwrapper_signal_callback)
                         (Some (nrm_papiwrapper_timer_callback clock lib))) w.
Definition tick_rows (from n : nat) : list ctrlmsg :=
  mjoin ((fun j => row_msgs (clock j) (papi_read lib j).2) <$> seq from n).

Lemma wakeups_go_on sfd d old events : forall out counters k,
  Forall keeps_going events ->
  exists counters',
    goes_on reactor_step (wrapper_reactor sfd d old (wrapper out counters k k)) events
      (wrapper_reactor sfd d old
         (wrapper (out ++ tick_rows k (ticks events)) counters' (k + ticks events) (k + ticks events))).
Proof.
  induction events as [|e events IH]; intros out counters k Hall.
  - exists counters. unfold tick_rows. cbn. rewrite app_nil_r, Nat.add_0_r. constructor.
  - apply Forall_cons in Hall as [He Hall]. destruct e as [[f|]|i]; [|done|].
    + destruct (IH out counters k Hall) as [counters' Hgo]. exists counters'.
      change (ticks (Re_signal (Some f) :: events)) with (ticks events).
      eapply goes_on_cons with (rc := 0); [|discriminate|exact Hgo]. cbn [reactor_step]. unfold nrm_reactor_signal_callback.
      cbn [is_null negb c_assert mbind outcome_bind deref wrapper_reactor r_callbacks rcb_signal r_user].
      by rewrite ignored_signal.
    + cbn in He. subst i.
      destruct (IH (out ++ row_msgs (clock k) (papi_read lib k).2) (papi_read lib k).2 (S k) Hall)
        as [counters' Hgo]. exists counters'.
      change (ticks (Re_timer 0 :: events)) with (S (ticks events)).
      replace (k + S (ticks events))%nat with (S k + ticks events)%nat by lia.
      replace (out ++ tick_rows k (S (ticks events)))
        with ((out ++ row_msgs (clock k) (papi_read lib k).2) ++ tick_rows (S k) (ticks events))
        by (rewrite <- app_assoc; done).
      eapply goes_on_cons with (rc := 0); [|discriminate|exact Hgo]. cbn [reactor_step wrapper_reactor r_timers lookup list_lookup is_null].
      unfold nrm_reactor_timer_callback. cbn [wrapper_reactor r_callbacks rcb_timer r_user]. by rewrite papi_tick.
Qed.

Lemma final_row out counters reads k :
  length (papi_stop lib) = length names ->
  papi_final clock lib (wrapper out counters reads k) =
  Ok (wrapper (out ++ row_msgs (clock k) (papi_stop lib)) (papi_stop lib) reads (S k)).
Proof.
  intros Hlen. unfold papi_final. cbn [wrapper pa_clock pa_events pa_client pa_scope pa_sensors pa_cmdpid pa_reads].
  fold (wrapper out (papi_stop lib) reads (S k)).
  enough (Hloop : forall n i out, (i + n = length names)%nat ->
    mfold (fun d i => '(_, d) ← send_counter (clock k) i d; Ok d)
      (wrapper out (papi_stop lib) reads (S k)) (seq i n) =
    Ok (wrapper (out ++ drop i (row_msgs (clock k) (papi_stop lib))) (papi_stop lib) reads (S k))).
  { by apply (Hloop _ 0%nat). }
  clear out. induction n as [|n IH]; intros i out Hi; cbn [seq mfold].
  - rewrite drop_ge, app_nil_r; [done|]. unfold row_msgs. rewrite length_zip_with. lia.
  - destruct (lookup_lt_is_Some_2 names i) as [s Hs]; [lia|].
    destruct (lookup_lt_is_Some_2 (papi_stop lib) i) as [v Hv]; [lia|].
    rewrite (send_counter_out _ _ _ _ _ _ s v) by done. cbn [mbind outcome_bind].
    rewrite IH by lia. rewrite (row_msgs_step _ _ i s v) by done. by rewrite <- app_assoc.
Qed.

(** The program has ended, or the wrapper is told to. *)
Definition ends (f : signalfd_siginfo) : Prop :=
  ssi_signo f <> SIGCHLD \/
  (ssi_pid f = cmdpid /\ ssi_code f <> CLD_STOPPED /\ ssi_code f <> CLD_CONTINUED /\ ssi_code f <> CLD_TRAPPED).

Lemma ending_signal d f :
  pa_cmdpid d = cmdpid -> ends f ->
  nrm_papiwrapper_signal_callback (D := nrm_role_client client_callback) (W := W) d f = Ok (-1, d).
Proof.
  intros Hp Hf. unfold nrm_papiwrapper_signal_callback. destruct Hf as [Hs|(-> & H1 & H2 & H3)].
  - by apply Z.eqb_neq in Hs as ->.
  - rewrite Hp, Z.eqb_refl. apply Z.eqb_neq in H1 as ->. apply Z.eqb_neq in H2 as ->.
    apply Z.eqb_neq in H3 as ->. by destruct (ssi_signo f =? SIGCHLD).
Qed.

(** C30: nrm-papiwrapper reports every reading. While its timer fires and signals
    arrive about other processes, or that the program is stopped, traced or continued,
    its reactor goes on; the end of the program, SIGINT or SIGTERM make it return, and
    what is pending behind them is not handled. Then the counters are read a last time.
    The messages sent are, for each tick in turn and at the end, one event for each PAPI
    event in order, with its sensor, the scope of the process, the time of the tick and
    the value of its counter. *)
Theorem papiwrapper_samples sfd d old counters events last rest :
  length (papi_stop lib) = length names -> Forall keeps_going events -> ends last ->
  exists r,
    nrm_reactor_start (Some (wrapper_reactor sfd d old (wrapper [] counters 0 0)))
      (events ++ Re_signal (Some last) :: rest) = Ok (Some (-1), Some r) /\
    papi_final clock lib (r_user r) =
    Ok (wrapper (tick_rows 0 (ticks events) ++ row_msgs (clock (ticks events)) (papi_stop lib))
          (papi_stop lib) (ticks events) (S (ticks events))).
Proof.
  intros Hstop Hevents Hlast. destruct (wakeups_go_on sfd d old events [] counters 0 Hevents) as [counters' Hgo].
  exists (wrapper_reactor sfd d old
            (wrapper (tick_rows 0 (ticks events)) counters' (ticks events) (ticks events))). split.
  - unfold nrm_reactor_start. erewrite (zloop_stops _ _ _ _ (Re_signal (Some last)) _ rest Hgo); [reflexivity|].
    cbn [reactor_step]. unfold nrm_reactor_signal_callback.
    cbn [is_null negb c_assert mbind outcome_bind deref wrapper_reactor r_callbacks rcb_signal r_user].
    by rewrite ending_signal.
  - cbn [wrapper_reactor r_user]. by rewrite final_row.
Qed.
End papi_samples.

Lemma papiwrapper_samples_witness :
  let lib := PapiLib true (Some false) 0 (fun _ => (0, 0)) (fun _ => 0) 0 (fun _ => 0) 0
               (fun j => (PAPI_OK, [Z.of_nat j; 7])) [8; 9] in
  let w := wrapper (W := unit) 42 ["e"; "f"]%string some_scope [] None None None None in
  exists r,
    nrm_reactor_start (Some (wrapper_reactor (fun j => Time (Z.of_nat j) 0) lib 3 10 ∅ (w [] [0; 0] 0%nat 0%nat)))
      ([Re_timer 0; Re_signal (Some (Siginfo SIGCHLD CLD_STOPPED 42)); Re_timer 0] ++
       Re_signal (Some (Siginfo SIGCHLD 1 42)) :: []) = Ok (Some (-1), Some r) /\
    exists d, papi_final (fun j => Time (Z.of_nat j) 0) lib (r_user r) = Ok d /\
      pa_counters d = [8; 9] /\ pa_reads d = 2%nat.
Proof.
  intros lib w.
  destruct (papiwrapper_samples (W := unit) (fun j => Time (Z.of_nat j) 0) lib 42 ["e"; "f"]%string some_scope
    "s" (MScope (Some "s"%string) [3] [] []) [] None None None None
    (scope_wf_3 _ _ _ _ (or_bit_wf _ 3 bitmap_zero_wf) bitmap_zero_wf bitmap_zero_wf)
    eq_refl eq_refl (fun j => conj eq_refl eq_refl) 3 10 ∅ [0; 0]
    [Re_timer 0; Re_signal (Some (Siginfo SIGCHLD CLD_STOPPED 42)); Re_timer 0]
    (Siginfo SIGCHLD 1 42) []) as (r & Hr & Hd).
  - reflexivity.
  - constructor; [reflexivity|]. constructor; [split; [reflexivity|by right; left]|].
    constructor; [reflexivity|constructor].
  - right. repeat split; discriminate.
  - exists r. split; [exact Hr|]. eexists. split; [exact Hd|by split].
Defined.

(** A sensor that cannot be added leaves the vector shorter than the loop that cleans
    up takes it to be. *)
Lemma papi_cleanup_short `{Qsort} {D W} events args (c : option (nrm_client D W)) scope ret :
  papi_cleanup (S events) args c scope [] ret = Undefined.
Proof. reflexivity. Qed.

(** ** What the GEOPM program sends *)

Section geopm_samples.
Context `{Qsort, Zloop} {W : Type}.
Variables (clock : nat -> nrm_time) (lib : geopm_lib).
Variables (inp : list ctrlmsg) (sub cmd : option client_callback)
  (fn : option (string -> nrm_time -> option nrm_scope -> double -> W -> outcome W))
  (act : option (option string -> double -> W -> outcome W)).

(** An event with its sensor and, for each domain, its scope and the message of it. *)
Record sampled := Sampled {
  sa_name : string; sa_type : Z; sa_sensor : string; sa_domains : list (nrm_scope * nrm_msg_scope) }.
Definition domain_ok (d : nrm_scope * nrm_msg_scope) : Prop :=
  scope_wf d.1 /\ is_Some (scope_uuid d.1) /\ nrm_msg_scope_new d.1 = Ok d.2.
Definition info_of (s : sampled) : nrm_geopm_eventinfo :=
  Eventinfo (sa_name s) (sa_type s) (Z.of_nat (length (sa_domains s))) (Some (Sensor (Some (sa_sensor s))))
    ((fun d => Some d.1) <$> sa_domains s).

(** The messages of one event at a tick, domain by domain. *)
Definition domain_msg (n : nat) (s : sampled) (i : nat) (d : nrm_scope * nrm_msg_scope) : ctrlmsg :=
  event_ctrl (sa_sensor s) d.2 d.1
    (clock n, default d0 (read_signal lib (sa_name s) (sa_type s) (Z.of_nat i) n)).
Definition event_msgs (n : nat) (s : sampled) : list ctrlmsg := imap (domain_msg n s) (sa_domains s).

Lemma sample_event_out n s out :
  Forall domain_ok (sa_domains s) ->
  sample_event (D := nrm_role_client client_callback) clock lib n (Some (on_pipe out inp sub cmd fn act)) (info_of s) =
  Ok (Some (on_pipe (out ++ event_msgs n s) inp sub cmd fn act)).
Proof.
  intros Hok. unfold sample_event, seqZ. cbn [info_of ei_num_domains ei_scopes ei_name ei_domain_type ei_sensor].
  rewrite Nat2Z.id.
  enough (Hloop : forall ds i out, drop i (sa_domains s) = ds ->
    mfold (fun c k => sc ← deref (((fun d => Some d.1) <$> sa_domains s) !! Z.to_nat k);
             '(_, c) ← nrm_client_send_event c (clock n) (Some (Sensor (Some (sa_sensor s)))) sc
                (default d0 (read_signal lib (sa_name s) (sa_type s) k n)); Ok c)
      (Some (on_pipe out inp sub cmd fn act)) ((fun k => Z.of_nat k + 0) <$> seq i (length ds)) =
    Ok (Some (on_pipe (out ++ imap (fun k => domain_msg n s (i + k)) ds) inp sub cmd fn act))).
  { by apply (Hloop _ 0%nat). }
  clear out. induction ds as [|d ds IH]; intros i out Hdrop; [cbn; by rewrite app_nil_r|].
  assert (Hd : sa_domains s !! i = Some d).
  { rewrite <- (Nat.add_0_r i), <- lookup_drop, Hdrop. done. }
  cbn [length seq]. rewrite fmap_cons. cbn [mfold]. rewrite Z.add_0_r, Nat2Z.id, list_lookup_fmap, Hd.
  cbn [fmap option_fmap option_map deref mbind outcome_bind].
  pose proof (Forall_lookup_1 _ _ _ _ Hok Hd) as (Hwf & [u Hu] & Hms).
  rewrite (send_event_out _ _ _ _ _ _ _ _ _ u d.2) by done. cbn [mbind outcome_bind].
  rewrite (IH (S i)).
  2:{ replace (S i) with (i + 1)%nat by lia. by rewrite <- drop_drop, Hdrop. }
  cbn [imap]. rewrite <- app_assoc, Nat.add_0_r. do 4 f_equal. cbn [app]. f_equal.
  apply imap_ext. intros k x _. cbn [compose]. unfold domain_msg. by rewrite Nat.add_succ_r.
Qed.

(** The program at its [n]th tick, and its reactor. *)
Definition sampling (evs : list sampled) (a : option nrm_actuator) (out : list ctrlmsg) (n : nat)
    : geopm (nrm_role_client client_callback) W :=
  Geopm (Some (on_pipe out inp sub cmd fn act)) (info_of <$> evs) a n.
Definition geopm_reactor (sfd d : Z) (old : gset Z) (g : geopm (nrm_role_client client_callback) W)
    : nrm_reactor (geopm (nrm_role_client client_callback) W) :=
  Reactor sfd [d] old (ReactorCallbacks None (Some (nrm_geopm_timer_callback clock lib))) g.

Lemma geopm_tick evs a out n :
  Forall (fun s => Forall domain_ok (sa_domains s)) evs ->
  nrm_geopm_timer_callback clock lib (sampling evs a out n) =
  Ok (0, sampling evs a (out ++ mjoin (event_msgs n <$> evs)) (S n)).
Proof.
  intros Hok. unfold nrm_geopm_timer_callback, sampling. cbn [ge_client ge_events ge_actuator ge_clock].
  enough (Hloop : forall l out, Forall (fun s => Forall domain_ok (sa_domains s)) l ->
    mfold (sample_event clock lib n) (Some (on_pipe out inp sub cmd fn act)) (info_of <$> l) =
    Ok (Some (on_pipe (out ++ mjoin (event_msgs n <$> l)) inp sub cmd fn act))) by by rewrite Hloop.
  clear out Hok. induction l as [|s l IH]; intros out Hok; [cbn; by rewrite app_nil_r|].
  apply Forall_cons in Hok as [Hs Hok]. rewrite !fmap_cons. cbn [mfold]. rewrite sample_event_out by done.
  cbn [mbind outcome_bind]. rewrite IH by done. by rewrite <- app_assoc.
Qed.

(** C31: nrm-geopm reports every signal of every domain. Any number of ticks of its
    timer go on; the first signal makes its reactor return. The messages sent are, for
    each tick in turn, those of each event in order, domain by domain: the sensor of the
    event, the scope of the domain, the time of the tick and the value that GEOPM reads
    there, 0 when it reads none. *)
Theorem geopm_samples sfd d old evs a out n fdsi rest :
  Forall (fun s => Forall domain_ok (sa_domains s)) evs ->
  exists r,
    nrm_reactor_start (Some (geopm_reactor sfd d old (sampling evs a out 0)))
      (replicate n (Re_timer 0) ++ Re_signal (Some fdsi) :: rest) = Ok (Some (-1), Some r) /\
    r_user r = sampling evs a (out ++ mjoin ((fun j => mjoin (event_msgs j <$> evs)) <$> seq 0 n)) n.
Proof.
  intros Hok.
  assert (Hgo : forall n k out, goes_on reactor_step (geopm_reactor sfd d old (sampling evs a out k))
    (replicate n (Re_timer 0))
    (geopm_reactor sfd d old
       (sampling evs a (out ++ mjoin ((fun j => mjoin (event_msgs j <$> evs)) <$> seq k n)) (k + n)))).
  { clear n out. induction n as [|n IH]; intros k out.
    - cbn. rewrite app_nil_r, Nat.add_0_r. constructor.
    - specialize (IH (S k) (out ++ mjoin (event_msgs k <$> evs))). rewrite <- app_assoc, Nat.add_succ_comm in IH.
      eapply goes_on_cons with (rc := 0); [|discriminate|exact IH].
      cbn [reactor_step geopm_reactor r_timers lookup list_lookup is_null]. unfold nrm_reactor_timer_callback.
      cbn [geopm_reactor r_callbacks rcb_timer r_user]. by rewrite geopm_tick. }
  exists (geopm_reactor sfd d old
            (sampling evs a (out ++ mjoin ((fun j => mjoin (event_msgs j <$> evs)) <$> seq 0 n)) n)).
  split; [|done]. unfold nrm_reactor_start.
  erewrite (zloop_stops _ _ _ _ (Re_signal (Some fdsi)) _ rest (Hgo n 0%nat out)); reflexivity.
Qed.
End geopm_samples.

Lemma geopm_samples_witness :
  let lib := GeopmLib 1 8 (fun _ => 1) (fun _ => 1) (fun _ => (0, "package"%string)) (fun _ => [3])
               (fun _ _ i n => Some (d_of_Z (10 * Z.of_nat n + i))) (fun _ _ => 0) 1 in
  let evs := [Sampled "P" 1 "nrm.geopm.P" [(some_scope, MScope (Some "s"%string) [3] [] [])]] in
  exists r,
    nrm_reactor_start (Some (geopm_reactor (W := unit) (fun j => Time (Z.of_nat j) 0) lib 3 10 ∅
        (sampling [] None None None None evs None [] 0)))
      (replicate 2 (Re_timer 0) ++ Re_signal (Some (Siginfo SIGTERM 0 1)) :: []) = Ok (Some (-1), Some r) /\
    r_user r = sampling [] None None None None evs None
      ([] ++ mjoin ((fun j => mjoin (event_msgs (fun j => Time (Z.of_nat j) 0) lib j <$> evs)) <$> seq 0 2)) 2.
Proof.
  intros lib evs. apply (geopm_samples (W := unit) (fun j => Time (Z.of_nat j) 0) lib [] None None None None 3 10 ∅
    evs None [] 2 (Siginfo SIGTERM 0 1) []).
  apply Forall_singleton, Forall_singleton. split; [|split; [by eexists|reflexivity]].
  apply scope_wf_3; auto with nrm.
Defined.

(** The power limit is written to the packages in order; an error stops there. *)
Lemma write_packages_all lib value n : forall i,
  (forall j, write_control lib j value = 0) ->
  write_packages lib n i value = (0, (fun j => (j, value)) <$> seqZ i (Z.of_nat n)).
Proof.
  intros i Hw. revert i. induction n as [|n IH]; intros i; [done|]. cbn [write_packages]. rewrite Hw. cbn [Z.eqb negb].
  rewrite IH, (seqZ_cons i) by lia. rewrite fmap_cons. by replace (Z.pred (Z.of_nat (S n))) with (Z.of_nat n) by lia.
Qed.

(** The counter of the dummy program is an [int]. *)
Lemma dummy_counter_overflows `{Qsort} {D W} clock (d : dummy D W) :
  du_counter d = INT_MAX -> nrm_dummy_extra_timer_callback clock d = Undefined.
Proof. intros Hd. unfold nrm_dummy_extra_timer_callback. by rewrite Hd. Qed.
