(* ===== verification/Control.v ===== *)
(** * The control loop (src/control/control.c, src/control/europar21.c)

    A control method reads the time series of its inputs and writes the values of
    its outputs. europar21 computes a progress from the events of its first input
    and a power cap for its first output, with a linear model of the power.

    Vectors are lists here (Vectors shows that they behave as such). [exp] and
    [log] of the C library, whose results the standard leaves to the
    implementation, are parameters. *)

From S2P Require Import Prelude Vectors Doubles Hashes Json Timers Scopes Events.

(** ** Data *)

(** [nrm_control_input_t] and [nrm_control_output_t]. *)
Record control_input := Input {
  in_sensor_uuid : string; in_scope_uuid : string; in_since : nrm_time;
  in_timeserie : option nrm_timeserie }.
Record control_output := Output { out_actuator_uuid : string; out_value : double }.

(** [nrm_control_europar21_data_t]. *)
Record europar21_data := Europar21 {
  active : bool;
  pa : double; pb : double; palpha : double; pbeta : double; pKl : double; pt : double;
  pe : double; ptobj : double;
  pcap_max : double; pcap_min_L : double; pcap_max_L : double;
  prev_e : double;
  lastaction : nrm_time;
  inputs : list control_input;
  outputs : list control_output
}.

(** The tables of functions, of which there is one, and [struct nrm_control_s]. *)
Inductive nrm_control_ops := nrm_control_europar21_ops.
Record nrm_control := Control { c_ops : nrm_control_ops; c_data : europar21_data }.

Definition with_inputs (d : europar21_data) (ins : list control_input) : europar21_data :=
  Europar21 (active d) (pa d) (pb d) (palpha d) (pbeta d) (pKl d) (pt d) (pe d) (ptobj d)
    (pcap_max d) (pcap_min_L d) (pcap_max_L d) (prev_e d) (lastaction d) ins (outputs d).
Definition with_outputs (d : europar21_data) (outs : list control_output) : europar21_data :=
  Europar21 (active d) (pa d) (pb d) (palpha d) (pbeta d) (pKl d) (pt d) (pe d) (ptobj d)
    (pcap_max d) (pcap_min_L d) (pcap_max_L d) (prev_e d) (lastaction d) (inputs d) outs.
Definition with_prev_e (d : europar21_data) (e : double) : europar21_data :=
  Europar21 (active d) (pa d) (pb d) (palpha d) (pbeta d) (pKl d) (pt d) (pe d) (ptobj d)
    (pcap_max d) (pcap_min_L d) (pcap_max_L d) e (lastaction d) (inputs d) (outputs d).
Definition with_lastaction (d : europar21_data) (t : nrm_time) : europar21_data :=
  Europar21 (active d) (pa d) (pb d) (palpha d) (pbeta d) (pKl d) (pt d) (pe d) (ptobj d)
    (pcap_max d) (pcap_min_L d) (pcap_max_L d) (prev_e d) t (inputs d) (outputs d).

(** ** Arithmetic *)

(** [fmin] and [fmax] ignore a NaN when the other argument is a number. *)
Definition fmin (x y : double) : double :=
  if is_nan x then y else if is_nan y then x else if dlt y x then y else x.
Definition fmax (x y : double) : double :=
  if is_nan x then y else if is_nan y then x else if dlt x y then y else x.

Definition d1 : double := d_of_Z 1.
Definition d2 : double := d_of_Z 2.
Definition d3 : double := d_of_Z 3.
(** The literal [1e-9]: the double nearest to it, as division rounds. *)
Definition d_nano : double := ddiv d1 (d_of_Z 1000000000).

(** [*out] of [nrm_vector_get]; NULL past the end. *)
Definition vget {A} (l : list A) (index : Z) : option A :=
  if index <? Z.of_nat (length l) then l !! Z.to_nat index else None.

Section control.
Context `{Qsort} (exp log : double -> double).

Definition linearize (value a b alpha beta : double) : double :=
  dopp (exp (dmul (dopp alpha) (dsub (dadd (dmul a value) b) beta))).

Definition error (e Kl pcap_max_L prog : double) : double :=
  dsub (dmul (dmul e Kl) (dadd d1 pcap_max_L)) prog.

Definition thresholding (val min max : double) : double := fmax (fmin val max) min.

Definition actionL (Ki deltaTi Kp e prev_e prev_pcapL : double) : double :=
  dadd (dsub (dmul (dadd (dmul Ki deltaTi) Kp) e) (dmul Kp prev_e)) prev_pcapL.

Definition delinearize (value a b alpha beta : double) : double :=
  ddiv (dsub (dadd (ddiv (dopp (log (dopp value))) alpha) beta) b) a.

(** ** Progress *)

Definition event_rate (prev_e e : nrm_event) : double :=
  let delta := nrm_time_diff (e_time prev_e) (e_time e) in
  ddiv (e_value e) (dmul (d_of_Z delta) d_nano).

(** The vector [diffs] after the loop over the events that follow [prev_e]. *)
Fixpoint event_rates (prev_e : nrm_event) (events : list nrm_event) : list double :=
  match events with
  | [] => []
  | e :: events => event_rate prev_e e :: event_rates e events
  end.

(** [numevents] is unsigned. *)
Definition nrm_control_europar21_events2progress (events : list nrm_event) : outcome double :=
  let numevents := Z.of_nat (length events) in
  let diffs := match events with [] => [] | e :: rest => event_rates e rest end in
  let diffs := qsort nrm_vector_sort_double_cmp diffs in
  let n := u64 (numevents - 1) in
  if n mod 2 =? 1 then deref (vget diffs (n / 2))
  else
    a ← deref (vget diffs (u64 (n / 2 - 1)));
    b ← deref (vget diffs (n / 2));
    Ok (ddiv (dadd a b) d2).

(** ** europar21 *)

(** The inputs and outputs that the caller gets are those of the control. *)
Definition nrm_control_europar21_getargs (data : europar21_data) : Z * europar21_data :=
  (0, with_inputs data ((fun i => Input (in_sensor_uuid i) (in_scope_uuid i) (lastaction data)
                                    (in_timeserie i)) <$> inputs data)).

(** The data and the outputs after one step of the controller on a progress and
    the cap in force. *)
Definition control_step (data : europar21_data) (prog pcap : double) : europar21_data * double :=
  if active data then
    if dlt prog (dmul (dsub d1 (pe data)) (pKl data)) || dlt (dmul d2 (pKl data)) prog
    then (with_prev_e data d0, pcap_max data)
    else
      let pcapL := linearize pcap (pa data) (pb data) (palpha data) (pbeta data) in
      let newe := error (pe data) (pKl data) (pcap_max_L data) prog in
      let actL := actionL (ddiv d1 (ddiv (dmul (pKl data) (ptobj data)) d3)) d1
                    (ddiv (pt data) (dmul (pKl data) (ptobj data))) newe (prev_e data) pcapL in
      let threshold := thresholding actL (pcap_min_L data) (pcap_max_L data) in
      let act := delinearize threshold (pa data) (pb data) (palpha data) (pbeta data) in
      (with_prev_e data newe, act)
  else (data, pcap).

(** [now] is what [nrm_time_gettime] reads. *)
Definition nrm_control_europar21_action (now : nrm_time) (data : europar21_data)
    (ins : list control_input) (outs : list control_output)
    : outcome (Z * europar21_data * list control_output) :=
  match vget ins 0 with
  | None => Ok (- NRM_EINVAL, data, outs)
  | Some i =>
      match nrm_timeserie_get_events (in_timeserie i) with
      | None => Ok (0, data, outs)
      | Some events =>
          if Z.of_nat (length events) <=? 1 then Ok (0, data, outs)
          else
            prog ← nrm_control_europar21_events2progress events;
            match vget outs 0 with
            | None => Ok (- NRM_EINVAL, data, outs)
            | Some out =>
                let '(data, value) := control_step data prog (out_value out) in
                Ok (0, with_lastaction data now,
                    <[0%nat := Output (out_actuator_uuid out) value]> outs)
            end
      end
  end.

(** The pointer after the call. *)
Definition nrm_control_europar21_destroy (control : option (option nrm_control))
    : Z * option (option nrm_control) :=
  match control with
  | Some (Some _) => (0, Some None)
  | _ => (0, control)
  end.

(** ** control.c: dispatch through the table *)

Definition nrm_control_getargs (control : nrm_control) : Z * nrm_control :=
  match c_ops control with
  | nrm_control_europar21_ops =>
      let '(rc, d) := nrm_control_europar21_getargs (c_data control) in
      (rc, Control (c_ops control) d)
  end.

Definition nrm_control_action (now : nrm_time) (control : nrm_control) (ins : list control_input)
    (outs : list control_output) : outcome (Z * nrm_control * list control_output) :=
  match c_ops control with
  | nrm_control_europar21_ops =>
      '(rc, d, outs) ← nrm_control_europar21_action now (c_data control) ins outs;
      Ok (rc, Control (c_ops control) d, outs)
  end.

Definition nrm_control_destroy (control : option (option nrm_control))
    : outcome (Z * option (option nrm_control)) :=
  c ← deref control; c ← deref c;
  match c_ops c with
  | nrm_control_europar21_ops => Ok (nrm_control_europar21_destroy control)
  end.

(** ** Configuration *)

Section config.
Context `{Jansson}.

(** A missing member of the configuration fails an assertion. *)
Definition config_member (config : option json_t) (key : string) : outcome json_t :=
  let object := json_object_get config key in
  _ ← c_assert (negb (is_null object)); deref object.

Definition unpack_b (j : json_t) : option bool :=
  match json_look j with J_true => Some true | J_false => Some false | _ => None end.

Definition input_of_json (creationtime : nrm_time) (value : json_t) : outcome control_input :=
  let u := if json_is_object (Some value) then
             sensor ← unpack_req (Some value) "sensor" unpack_string;
             scope ← unpack_req (Some value) "scope" unpack_string;
             Some (sensor, scope)
           else None in
  _ ← c_assert (negb (is_null u));
  '(sensor, scope) ← deref u;
  Ok (Input sensor scope creationtime None).

Definition output_of_json (value : json_t) : outcome control_output :=
  let u := unpack_string value in
  _ ← c_assert (negb (is_null u));
  actuator ← deref u;
  Ok (Output actuator d0).

(** One object after the other, into a vector. *)
Fixpoint foreach_json {A} (f : json_t -> outcome A) (items : list json_t) : outcome (list A) :=
  match items with
  | [] => Ok []
  | j :: items => x ← f j; xs ← foreach_json f items; Ok (x :: xs)
  end.

(** The ten members of the arguments. *)
Definition args_of_json (object : json_t) : option (list double) :=
  if json_is_object (Some object) then
    let get k := unpack_req (Some object) k unpack_f in
    a ← get "a"%string; b ← get "b"%string; alpha ← get "alpha"%string; beta ← get "beta"%string;
    Kl ← get "Kl"%string; t ← get "t"%string; e ← get "e"%string; tobj ← get "tobj"%string;
    min ← get "min"%string; max ← get "max"%string;
    Some [a; b; alpha; beta; Kl; t; e; tobj; min; max]
  else None.

(** [control] is what [*control] holds when the call returns 0. *)
Definition nrm_control_europar21_create (oom : bool) (creationtime : nrm_time)
    (config : option json_t) : outcome (Z * option nrm_control) :=
  if oom then Ok (- NRM_ENOMEM, None)
  else
    object ← config_member config "active";
    let act := default false (unpack_b object) in
    object ← config_member config "inputs";
    ins ← foreach_json (input_of_json creationtime) (json_array_items object);
    object ← config_member config "outputs";
    outs ← foreach_json output_of_json (json_array_items object);
    object ← config_member config "args";
    match args_of_json object with
    | Some [a; b; alpha; beta; Kl; t; e; tobj; min; max] =>
        Ok (0, Some (Control nrm_control_europar21_ops
          (Europar21 act a b alpha beta Kl t e tobj max
             (linearize min a b alpha beta) (linearize max a b alpha beta) d0 creationtime ins outs)))
    | _ => Assert_failed
    end.

(** The table of methods by name. *)
Definition nrm_control_methods
    : list (string * (bool -> nrm_time -> option json_t -> outcome (Z * option nrm_control))) :=
  [("europar21"%string, nrm_control_europar21_create)].

Definition nrm_control_create (oom : bool) (creationtime : nrm_time) (config : option json_t)
    : outcome (Z * option nrm_control) :=
  let u := jname ← json_object_get config "name"; unpack_string jname in
  _ ← c_assert (negb (is_null u));
  name ← deref u;
  match list_find (fun m => m.1 = name) nrm_control_methods with
  | Some (_, m) => m.2 oom creationtime config
  | None => Ok (- NRM_EINVAL, None)
  end.
End config.
End control.

(** ** Properties *)

Lemma fmin_spec x y :
  is_nan y = false ->
  is_nan (fmin x y) = false /\ dlt y (fmin x y) = false.
Proof.
  intros Hy. unfold fmin. destruct (is_nan x) eqn:Hx; [by rewrite dlt_irrefl|]. rewrite Hy.
  destruct (dlt y x) eqn:E; [by rewrite dlt_irrefl|done].
Qed.

(** Whatever the value, NaN included, the result is a number between the bounds. *)
Lemma thresholding_bounds val min max :
  is_nan min = false -> is_nan max = false -> dlt max min = false ->
  is_nan (thresholding val min max) = false /\
  dlt (thresholding val min max) min = false /\ dlt max (thresholding val min max) = false.
Proof.
  intros Hmin Hmax Hle. unfold thresholding. destruct (fmin_spec val max Hmax) as [Hn Hlt].
  unfold fmax. rewrite Hn, Hmin. destruct (dlt (fmin val max) min) eqn:E; [by rewrite dlt_irrefl|done].
Qed.

Lemma event_rates_length e l : length (event_rates e l) = length l.
Proof. revert e; induction l as [|x l IH]; intros e; [done|]. cbn. by rewrite IH. Qed.

Lemma vget_lookup {A} (l : list A) (k : nat) : (k < length l)%nat -> vget l (Z.of_nat k) = l !! k.
Proof. intros Hk. unfold vget. case_tests; [by rewrite Nat2Z.id|lia]. Qed.

Lemma double_cmp_le x y : nrm_vector_sort_double_cmp x y <= 0 -> dlt y x = false.
Proof.
  unfold nrm_vector_sort_double_cmp. destruct (dlt x y) eqn:E; [intros _; by apply dlt_asym|].
  by destruct (dlt y x).
Qed.

Lemma StronglySorted_weaken {A} (R R' : A -> A -> Prop) l :
  (forall x y, R x y -> R' x y) -> StronglySorted R l -> StronglySorted R' l.
Proof.
  intros HR. induction 1 as [|x l _ IH Hx]; constructor; [done|]. eapply Forall_impl; [exact Hx|]. auto.
Qed.

Section properties.
Context `{Qsort} (exp log : double -> double).

(** The progress of at least two events is the median of the rates between
    successive events: the middle one of the sorted rates, or the mean of the two
    in the middle. *)
Theorem progress_is_median e rest :
  rest <> [] -> Z.of_nat (length rest) < 2 ^ 32 ->
  Forall (fun r => is_nan r = false) (event_rates e rest) ->
  exists sorted, sorted ≡ₚ event_rates e rest /\ StronglySorted (fun x y => dlt y x = false) sorted /\
    (forall k, length rest = (2 * k + 1)%nat ->
       exists m, sorted !! k = Some m /\ nrm_control_europar21_events2progress (e :: rest) = Ok m) /\
    (forall k, length rest = (2 * k + 2)%nat ->
       exists a b, sorted !! k = Some a /\ sorted !! S k = Some b /\
         nrm_control_europar21_events2progress (e :: rest) = Ok (ddiv (dadd a b) d2)).
Proof.
  intros Hne Hlen Hnan. pose proof (double_cmp_ok _ Hnan) as Hok.
  pose proof (qsort_perm _ _ Hok) as Hp. pose proof (qsort_sorted _ _ Hok) as Hs.
  unfold nrm_control_europar21_events2progress. cbn [length].
  assert (Hl : length (qsort nrm_vector_sort_double_cmp (event_rates e rest)) = length rest)
    by (by rewrite Hp, event_rates_length).
  exists (qsort nrm_vector_sort_double_cmp (event_rates e rest)). split; [done|].
  split; [eapply StronglySorted_weaken; [|exact Hs]; intros x y; apply double_cmp_le|].
  revert Hl. generalize (qsort nrm_vector_sort_double_cmp (event_rates e rest)) as sorted.
  intros sorted Hl. assert (Hu : u64 (Z.of_nat (S (length rest)) - 1) = Z.of_nat (length rest)).
  { rewrite u64_small by (unfold in_u64; lia). lia. }
  rewrite Hu. split; intros k Hk; rewrite Hk.
  - replace (Z.of_nat (2 * k + 1) mod 2) with 1 by zlia. cbn [Z.eqb Pos.eqb].
    replace (Z.of_nat (2 * k + 1) / 2) with (Z.of_nat k) by zlia. rewrite vget_lookup by lia.
    destruct (lookup_lt_is_Some_2 sorted k) as [m Hm]; [lia|]. exists m. by rewrite Hm.
  - replace (Z.of_nat (2 * k + 2) mod 2) with 0 by zlia. cbn [Z.eqb].
    replace (Z.of_nat (2 * k + 2) / 2) with (Z.of_nat (S k)) by zlia.
    replace (u64 (Z.of_nat (S k) - 1)) with (Z.of_nat k) by (rewrite u64_small; unfold in_u64; lia).
    rewrite !vget_lookup by lia.
    destruct (lookup_lt_is_Some_2 sorted k) as [a Ha]; [lia|].
    destruct (lookup_lt_is_Some_2 sorted (S k)) as [b Hb]; [lia|]. exists a, b. by rewrite Ha, Hb.
Qed.

(** C23: an action of europar21. With at most one event nothing changes, not even
    the time from which events are pulled. Otherwise the first output gets: its
    own value when the controller is not active; the greatest cap when the
    progress is too far from the model; and else the cap of a linearised value
    that lies between the linearised least and greatest caps, whatever the
    arithmetic gave, NaN included. *)
Theorem europar21_action_spec now d i ins out outs t prog :
  in_timeserie i = Some t ->
  is_nan (pcap_min_L d) = false -> is_nan (pcap_max_L d) = false ->
  dlt (pcap_max_L d) (pcap_min_L d) = false ->
  (Z.of_nat (length (t_events t)) <= 1 ->
   nrm_control_europar21_action exp log now d (i :: ins) (out :: outs) = Ok (0, d, out :: outs)) /\
  (1 < Z.of_nat (length (t_events t)) -> nrm_control_europar21_events2progress (t_events t) = Ok prog ->
   exists d' value,
     nrm_control_europar21_action exp log now d (i :: ins) (out :: outs) =
     Ok (0, d', Output (out_actuator_uuid out) value :: outs) /\
     lastaction d' = now /\ inputs d' = inputs d /\ outputs d' = outputs d /\
     (active d = false -> value = out_value out /\ prev_e d' = prev_e d) /\
     (active d = true ->
      dlt prog (dmul (dsub d1 (pe d)) (pKl d)) = true \/ dlt (dmul d2 (pKl d)) prog = true ->
      value = pcap_max d /\ prev_e d' = d0) /\
     (active d = true -> dlt prog (dmul (dsub d1 (pe d)) (pKl d)) = false ->
      dlt (dmul d2 (pKl d)) prog = false ->
      prev_e d' = error (pe d) (pKl d) (pcap_max_L d) prog /\
      exists threshold, value = delinearize log threshold (pa d) (pb d) (palpha d) (pbeta d) /\
        is_nan threshold = false /\ dlt threshold (pcap_min_L d) = false /\
        dlt (pcap_max_L d) threshold = false)).
Proof.
  intros Ht Hmin Hmax Hle. unfold nrm_control_europar21_action.
  change (vget (i :: ins) 0) with (Some i). change (vget (out :: outs) 0) with (Some out).
  cbn [fmap option_fmap option_map]. rewrite Ht. cbn [nrm_timeserie_get_events fmap option_fmap option_map].
  split; intros Hlen.
  { by rewrite (proj2 (Z.leb_le _ _) Hlen). }
  intros Hprog. rewrite (proj2 (Z.leb_gt _ _) Hlen), Hprog. cbn [mbind outcome_bind].
  unfold control_step. destruct (active d) eqn:Ea; cycle 1.
  { eexists _, _. split; [reflexivity|]. by repeat (split; [done|]). }
  destruct (dlt prog _) eqn:E1; cbn [orb].
  { eexists _, _. split; [reflexivity|]. by repeat (split; [done|]). }
  destruct (dlt _ prog) eqn:E2.
  { eexists _, _. split; [reflexivity|]. by repeat (split; [done|]). }
  eexists _, _. split; [reflexivity|]. do 4 (split; [done|]). split; [by intros _ [?|?]|].
  intros _ _ _. split; [done|]. eexists. split; [reflexivity|].
  by apply thresholding_bounds.
Qed.
End properties.

(** A controller with bounds -2 and -1, whose model has the value 1 for [exp]. *)
Definition some_data : europar21_data :=
  Europar21 true d1 d0 d1 d0 d1 d1 d1 d1 (d_of_Z 9) (dopp d2) (dopp d1) d0 (Time 0 0) [] [].
Definition some_series : nrm_timeserie :=
  Timeserie "s" (Scope None []) [Event (Time 1 0) d1; Event (Time 2 0) d1] (Time 2 0).

Lemma progress_is_median_witness :
  exists m, nrm_control_europar21_events2progress (t_events some_series) = Ok m /\
            m ∈ event_rates (Event (Time 1 0) d1) [Event (Time 2 0) d1].
Proof.
  destruct (progress_is_median (Event (Time 1 0) d1) [Event (Time 2 0) d1]) as (sorted & Hp & _ & Hodd & _);
    [done|done|by repeat constructor|].
  destruct (Hodd 0%nat eq_refl) as (m & Hm & E). exists m. split; [exact E|].
  rewrite <- Hp. by eapply list_elem_of_lookup_2.
Defined.

Lemma europar21_action_spec_witness :
  exists d' value,
    nrm_control_europar21_action (fun _ => d1) (fun x => x) (Time 7 0) some_data
      [Input "s" "c" (Time 0 0) (Some some_series)] [Output "a" d2] =
    Ok (0, d', [Output "a" value]) /\ lastaction d' = Time 7 0.
Proof.
  assert (Hp : nrm_control_europar21_events2progress (t_events some_series) = Ok d1)
    by (vm_compute; reflexivity).
  destruct (proj2 (europar21_action_spec (fun _ => d1) (fun x => x) (Time 7 0) some_data
    (Input "s" "c" (Time 0 0) (Some some_series)) [] (Output "a" d2) [] some_series d1
    eq_refl eq_refl eq_refl eq_refl) eq_refl Hp) as (d' & value & E & Hl & _).
  exists d', value. split; [exact E|exact Hl].
Defined.
