(* ===== verification/Utlist.v ===== *)
(** * utlist (src/include/internal/utlist.h)

    The three kinds of linked lists of utlist: singly linked (LL), doubly linked
    (DL) and circular (CDL), as the macros work on them, on a heap of elements with
    their pointers; the lists that the pointers link, and how chains of pointers and
    the heap change. UtlistRefine says what each macro does to the list, Utsort what
    the sorting macros do.

    The names of the pointer fields that the macros with a [2] in their names take
    are [prev] and [next] here. These are the macros as a GNU compiler has them; the
    workarounds for compilers without [__typeof] are not compiled. Loops walk over
    elements of the heap: they have its size as their fuel. *)

From S2P Require Import Prelude Links.

Abbreviation addr := positive (only parsing).
Abbreviation pointer := (option addr) (only parsing).

(** ** Elements in memory *)

Section utlist.
Context {A : Type}.

(** A user's structure: what the macros do not touch, and the two pointers. *)
Record element := Element { prev : pointer; next : pointer; user : A }.

Abbreviation heap := (gmap addr element).

(** Code that reads and writes elements. *)
Definition M (X : Type) : Type := heap -> outcome (X * heap).
#[export] Instance M_ret : MRet M := fun X x h => Ok (x, h).
#[export] Instance M_bind : MBind M := fun X Y f c h => '(x, h) ← c h; f x h.

Definition diverges {X} : M X := fun _ => Diverges.
Definition assert (b : bool) : M unit := fun h => _ ← c_assert b; Ok (tt, h).

(** [*p]. *)
Definition load (p : pointer) : M element := fun h =>
  a ← deref p; d ← deref (h !! a); Ok (d, h).
Definition store (p : pointer) (f : element -> element) : M unit := fun h =>
  a ← deref p; d ← deref (h !! a); Ok (tt, <[a := f d]> h).

(** [p->next], [p->prev], and assignments to them. *)
Definition next_of (p : pointer) : M pointer := d ← load p; mret (next d).
Definition prev_of (p : pointer) : M pointer := d ← load p; mret (prev d).
Definition set_next (p q : pointer) : M unit := store p (fun d => Element (prev d) q (user d)).
Definition set_prev (p q : pointer) : M unit := store p (fun d => Element q (next d) (user d)).

Definition not_null (p : pointer) : bool := negb (is_null p).
Definition eq_ptr (p q : pointer) : bool := bool_decide (p = q).

(** A loop with as much fuel as there are elements. *)
Definition with_fuel {X} (loop : nat -> M X) : M X := fun h => loop (size h) h.

(** [while (tmp->next && tmp->next != x) tmp = tmp->next], where a loop that only
    looks for the end has NULL for [x]. *)
Fixpoint before (fuel : nat) (x tmp : pointer) : M pointer :=
  n ← next_of tmp;
  if not_null n && negb (eq_ptr n x) then
    match fuel with O => diverges | S fuel => before fuel x n end
  else mret tmp.

(** [for (el = head; el; el = step) body], where the body can [break]. *)
Fixpoint for_loop {X} (step : pointer -> M pointer) (body : X -> pointer -> M (bool * X))
    (fuel : nat) (el : pointer) (s : X) : M (pointer * X) :=
  if not_null el then
    match fuel with
    | O => diverges
    | S fuel =>
        '(stop, s) ← body s el;
        if stop : bool then mret (el, s)
        else el ← step el; for_loop step body fuel el s
    end
  else mret (el, s).

(** [for (el = head; el && (tmp = el->next, 1); el = step) body]. *)
Fixpoint for_safe {X} (step : pointer -> pointer -> pointer) (body : X -> pointer -> M (bool * X))
    (fuel : nat) (el : pointer) (s : X) : M (pointer * X) :=
  if not_null el then
    match fuel with
    | O => diverges
    | S fuel =>
        tmp ← next_of el;
        '(stop, s) ← body s el;
        if stop : bool then mret (el, s) else for_safe step body fuel (step el tmp) s
    end
  else mret (el, s).

(** The users' comparison of what two elements hold. *)
Section macros.
Context (cmp : A -> A -> Z).

Definition cmp_at (p q : pointer) : M Z := x ← load p; y ← load q; mret (cmp (user x) (user y)).

(** [for (elt = head; elt->next != stop; elt = elt->next) if (cmp(elt->next, like) >= 0) break]. *)
Fixpoint lower_bound_loop (fuel : nat) (stop elt like : pointer) : M pointer :=
  n ← next_of elt;
  if negb (eq_ptr n stop) then
    c ← cmp_at n like;
    if c >=? 0 then mret elt
    else match fuel with O => diverges | S fuel => lower_bound_loop fuel stop n like end
  else mret elt.

(** ** Singly linked lists *)

Definition LL_PREPEND2 (head add : pointer) : M pointer :=
  _ ← set_next add head; mret add.

Definition LL_CONCAT2 (head1 head2 : pointer) : M pointer :=
  if not_null head1 then
    _tmp ← with_fuel (fun fuel => before fuel None head1);
    _ ← set_next _tmp head2; mret head1
  else mret head2.

Definition LL_APPEND2 (head add : pointer) : M pointer :=
  _ ← set_next add None;
  if not_null head then
    _tmp ← with_fuel (fun fuel => before fuel None head);
    _ ← set_next _tmp add; mret head
  else mret add.

Definition LL_LOWER_BOUND2 (head like : pointer) : M pointer :=
  if is_null head then mret None
  else
    c ← cmp_at head like;
    if c >=? 0 then mret None
    else with_fuel (fun fuel => lower_bound_loop fuel None head like).

Definition LL_APPEND_ELEM2 (head el add : pointer) : M pointer :=
  if not_null el then
    _ ← assert (not_null head); _ ← assert (not_null add);
    n ← next_of el; _ ← set_next add n; _ ← set_next el add; mret head
  else LL_PREPEND2 head add.

Definition LL_INSERT_INORDER2 (head add : pointer) : M pointer :=
  if not_null head then
    _tmp ← LL_LOWER_BOUND2 head add;
    LL_APPEND_ELEM2 head _tmp add
  else _ ← set_next add None; mret add.

Definition LL_DELETE2 (head del : pointer) : M pointer :=
  if eq_ptr head del then next_of head
  else
    _tmp ← with_fuel (fun fuel => before fuel del head);
    n ← next_of _tmp;
    if not_null n then dn ← next_of del; _ ← set_next _tmp dn; mret head
    else mret head.

Definition LL_FOREACH2 {X} (head : pointer) (body : X -> pointer -> M (bool * X)) (s : X) : M (pointer * X) :=
  with_fuel (fun fuel => for_loop next_of body fuel head s).

Definition LL_FOREACH_SAFE2 {X} (head : pointer) (body : X -> pointer -> M (bool * X)) (s : X)
    : M (pointer * X) :=
  with_fuel (fun fuel => for_safe (fun _ tmp => tmp) body fuel head s).

Definition LL_COUNT2 (head : pointer) : M Z :=
  '(_, counter) ← LL_FOREACH2 head (fun counter _ => mret (false, counter + 1)) 0; mret counter.

Definition LL_SEARCH_SCALAR2 (head : pointer) (field : A -> Z) (val : Z) : M pointer :=
  '(out, _) ← LL_FOREACH2 head (fun _ out => d ← load out; mret (field (user d) =? val, tt)) tt; mret out.

Definition LL_SEARCH2 (head elt : pointer) : M pointer :=
  '(out, _) ← LL_FOREACH2 head (fun _ out => c ← cmp_at out elt; mret (c =? 0, tt)) tt; mret out.

Definition LL_REPLACE_ELEM2 (head el add : pointer) : M pointer :=
  _ ← assert (not_null head); _ ← assert (not_null el); _ ← assert (not_null add);
  n ← next_of el; _ ← set_next add n;
  if eq_ptr head el then mret add
  else
    _tmp ← with_fuel (fun fuel => before fuel el head);
    n ← next_of _tmp;
    if not_null n then _ ← set_next _tmp add; mret head else mret head.

Definition LL_PREPEND_ELEM2 (head el add : pointer) : M pointer :=
  if not_null el then
    _ ← assert (not_null head); _ ← assert (not_null add);
    _ ← set_next add el;
    if eq_ptr head el then mret add
    else
      _tmp ← with_fuel (fun fuel => before fuel el head);
      n ← next_of _tmp;
      if not_null n then _ ← set_next _tmp add; mret head else mret head
  else LL_APPEND2 head add.

(** ** Doubly linked lists *)

Definition DL_PREPEND2 (head add : pointer) : M pointer :=
  _ ← set_next add head;
  _ ← (if not_null head then
         p ← prev_of head; _ ← set_prev add p; set_prev head add
       else set_prev add add);
  mret add.

Definition DL_APPEND2 (head add : pointer) : M pointer :=
  if not_null head then
    p ← prev_of head; _ ← set_prev add p;
    p ← prev_of head; _ ← set_next p add;
    _ ← set_prev head add;
    _ ← set_next add None; mret head
  else
    let head := add in
    _ ← set_prev head head; _ ← set_next head None; mret head.

Definition DL_LOWER_BOUND2 (head like : pointer) : M pointer :=
  if is_null head then mret None
  else
    c ← cmp_at head like;
    if c >=? 0 then mret None
    else with_fuel (fun fuel => lower_bound_loop fuel None head like).

Definition DL_CONCAT2 (head1 head2 : pointer) : M pointer :=
  if not_null head2 then
    if not_null head1 then
      _tmp ← prev_of head2;
      p ← prev_of head1; _ ← set_prev head2 p;
      p ← prev_of head1; _ ← set_next p head2;
      _ ← set_prev head1 _tmp; mret head1
    else mret head2
  else mret head1.

Definition DL_DELETE2 (head del : pointer) : M pointer :=
  _ ← assert (not_null head);
  p ← prev_of del;
  _ ← assert (not_null p);
  if eq_ptr p del then mret None
  else if eq_ptr del head then
    n ← next_of del; p ← prev_of del; _ ← set_prev n p;
    next_of del
  else
    p ← prev_of del; n ← next_of del; _ ← set_next p n;
    n ← next_of del;
    if not_null n then p ← prev_of del; _ ← set_prev n p; mret head
    else p ← prev_of del; _ ← set_prev head p; mret head.

Definition DL_FOREACH2 {X} (head : pointer) (body : X -> pointer -> M (bool * X)) (s : X) : M (pointer * X) :=
  with_fuel (fun fuel => for_loop next_of body fuel head s).

Definition DL_FOREACH_SAFE2 {X} (head : pointer) (body : X -> pointer -> M (bool * X)) (s : X)
    : M (pointer * X) :=
  with_fuel (fun fuel => for_safe (fun _ tmp => tmp) body fuel head s).

Definition DL_COUNT2 (head : pointer) : M Z :=
  '(_, counter) ← DL_FOREACH2 head (fun counter _ => mret (false, counter + 1)) 0; mret counter.

Definition DL_SEARCH_SCALAR2 := LL_SEARCH_SCALAR2.
Definition DL_SEARCH2 := LL_SEARCH2.

Definition DL_REPLACE_ELEM2 (head el add : pointer) : M pointer :=
  _ ← assert (not_null head); _ ← assert (not_null el); _ ← assert (not_null add);
  if eq_ptr head el then
    let head := add in
    n ← next_of el; _ ← set_next add n;
    n ← next_of el;
    if is_null n then _ ← set_prev add add; mret head
    else
      p ← prev_of el; _ ← set_prev add p;
      n ← next_of add; _ ← set_prev n add; mret head
  else
    n ← next_of el; _ ← set_next add n;
    p ← prev_of el; _ ← set_prev add p;
    p ← prev_of add; _ ← set_next p add;
    n ← next_of el;
    if is_null n then _ ← set_prev head add; mret head
    else n ← next_of add; _ ← set_prev n add; mret head.

Definition DL_PREPEND_ELEM2 (head el add : pointer) : M pointer :=
  if not_null el then
    _ ← assert (not_null head); _ ← assert (not_null add);
    _ ← set_next add el;
    p ← prev_of el; _ ← set_prev add p;
    _ ← set_prev el add;
    if eq_ptr head el then mret add
    else p ← prev_of add; _ ← set_next p add; mret head
  else DL_APPEND2 head add.

Definition DL_APPEND_ELEM2 (head el add : pointer) : M pointer :=
  if not_null el then
    _ ← assert (not_null head); _ ← assert (not_null add);
    n ← next_of el; _ ← set_next add n;
    _ ← set_prev add el;
    _ ← set_next el add;
    n ← next_of add;
    if not_null n then _ ← set_prev n add; mret head
    else _ ← set_prev head add; mret head
  else DL_PREPEND2 head add.

Definition DL_INSERT_INORDER2 (head add : pointer) : M pointer :=
  if not_null head then
    _tmp ← DL_LOWER_BOUND2 head add;
    DL_APPEND_ELEM2 head _tmp add
  else
    let head := add in
    _ ← set_prev head head; _ ← set_next head None; mret head.

(** ** Circular lists *)

Definition CDL_APPEND2 (head add : pointer) : M pointer :=
  if not_null head then
    p ← prev_of head; _ ← set_prev add p;
    _ ← set_next add head;
    _ ← set_prev head add;
    p ← prev_of add; _ ← set_next p add; mret head
  else _ ← set_prev add add; _ ← set_next add add; mret add.

Definition CDL_PREPEND2 (head add : pointer) : M pointer :=
  _ ← (if not_null head then
         p ← prev_of head; _ ← set_prev add p;
         _ ← set_next add head;
         _ ← set_prev head add;
         p ← prev_of add; set_next p add
       else _ ← set_prev add add; set_next add add);
  mret add.

Definition CDL_LOWER_BOUND2 (head like : pointer) : M pointer :=
  if is_null head then mret None
  else
    c ← cmp_at head like;
    if c >=? 0 then mret None
    else with_fuel (fun fuel => lower_bound_loop fuel head head like).

Definition CDL_DELETE2 (head del : pointer) : M pointer :=
  single ← (if eq_ptr head del then n ← next_of head; mret (eq_ptr n head) else mret false);
  if single : bool then mret None
  else
    n ← next_of del; p ← prev_of del; _ ← set_prev n p;
    p ← prev_of del; n ← next_of del; _ ← set_next p n;
    if eq_ptr del head then next_of del else mret head.

Definition CDL_FOREACH2 {X} (head : pointer) (body : X -> pointer -> M (bool * X)) (s : X) : M (pointer * X) :=
  with_fuel (fun fuel =>
    for_loop (fun el => n ← next_of el; if eq_ptr n head then mret None else next_of el) body fuel head s).

Definition CDL_FOREACH_SAFE2 {X} (head : pointer) (body : X -> pointer -> M (bool * X)) (s : X)
    : M (pointer * X) :=
  tmp1 ← (if not_null head then prev_of head else mret None);
  with_fuel (fun fuel => for_safe (fun el tmp2 => if eq_ptr el tmp1 then None else tmp2) body fuel head s).

Definition CDL_COUNT2 (head : pointer) : M Z :=
  '(_, counter) ← CDL_FOREACH2 head (fun counter _ => mret (false, counter + 1)) 0; mret counter.

Definition CDL_SEARCH_SCALAR2 (head : pointer) (field : A -> Z) (val : Z) : M pointer :=
  '(out, _) ← CDL_FOREACH2 head (fun _ out => d ← load out; mret (field (user d) =? val, tt)) tt; mret out.

Definition CDL_SEARCH2 (head elt : pointer) : M pointer :=
  '(out, _) ← CDL_FOREACH2 head (fun _ out => c ← cmp_at out elt; mret (c =? 0, tt)) tt; mret out.

Definition CDL_REPLACE_ELEM2 (head el add : pointer) : M pointer :=
  _ ← assert (not_null head); _ ← assert (not_null el); _ ← assert (not_null add);
  n ← next_of el;
  if eq_ptr n el then
    _ ← set_next add add; _ ← set_prev add add; mret add
  else
    n ← next_of el; _ ← set_next add n;
    p ← prev_of el; _ ← set_prev add p;
    n ← next_of add; _ ← set_prev n add;
    p ← prev_of add; _ ← set_next p add;
    if eq_ptr head el then mret add else mret head.

Definition CDL_PREPEND_ELEM2 (head el add : pointer) : M pointer :=
  if not_null el then
    _ ← assert (not_null head); _ ← assert (not_null add);
    _ ← set_next add el;
    p ← prev_of el; _ ← set_prev add p;
    _ ← set_prev el add;
    p ← prev_of add; _ ← set_next p add;
    if eq_ptr head el then mret add else mret head
  else CDL_APPEND2 head add.

Definition CDL_APPEND_ELEM2 (head el add : pointer) : M pointer :=
  if not_null el then
    _ ← assert (not_null head); _ ← assert (not_null add);
    n ← next_of el; _ ← set_next add n;
    _ ← set_prev add el;
    _ ← set_next el add;
    n ← next_of add; _ ← set_prev n add; mret head
  else CDL_PREPEND2 head add.

Definition CDL_INSERT_INORDER2 (head add : pointer) : M pointer :=
  if not_null head then
    _tmp ← CDL_LOWER_BOUND2 head add;
    CDL_APPEND_ELEM2 head _tmp add
  else
    let head := add in
    _ ← set_next head head; _ ← set_prev head head; mret head.
End macros.

(** ** Lists that the pointers link *)

Definition nx (h : heap) (a : addr) : option pointer := next <$> h !! a.
Definition pv (h : heap) (a : addr) : option pointer := prev <$> h !! a.
Definition us (h : heap) (a : addr) : option A := user <$> h !! a.

(** Following a pointer from the elements of [l] gives the next one, and at last [n]. *)
Fixpoint nexts (f : addr -> option pointer) (l : list addr) (n : pointer) : Prop :=
  match l with [] => True | a :: l => f a = Some (first l n) /\ nexts f l n end.

Definition line f l := nexts f l None.
Definition ring f l := nexts f l (first l None).

(** The three kinds of lists. The head of a list that is linked both ways points back
    to its last element. *)
Inductive kind := LL | DL | CDL.
#[export] Instance kind_eq_dec : EqDecision kind.
Proof. solve_decision. Defined.

Definition shape (k : kind) (h : heap) (l : list addr) : Prop :=
  match k with
  | LL => line (nx h) l
  | DL => line (nx h) l /\ ring (pv h) (reverse l)
  | CDL => ring (nx h) l /\ ring (pv h) (reverse l)
  end.

(** The elements at [L.*1], which hold [L.*2], are the list with this head. *)
Definition list_at (k : kind) (h : heap) (head : pointer) (L : list (addr * A)) : Prop :=
  NoDup L.*1 /\ Forall (fun e => us h e.1 = Some e.2) L /\ head = first L.*1 None /\ shape k h L.*1.

(** Only pointers in the elements at [l] are written. *)
Definition writes (l : list addr) (h h' : heap) : Prop :=
  (forall a, us h' a = us h a) /\ (forall a, a ∉ l -> h' !! a = h !! a).

(** The macro of this kind of list that turns the list of a head into [L]. *)
Definition yields (k : kind) (c : M pointer) (h : heap) (L : list (addr * A)) (l : list addr) : Prop :=
  exists head h', c h = Ok (head, h') /\ list_at k h' head L /\ writes l h h'.

Definition PREPEND (k : kind) : pointer -> pointer -> M pointer :=
  match k with LL => LL_PREPEND2 | DL => DL_PREPEND2 | CDL => CDL_PREPEND2 end.
Definition APPEND (k : kind) : pointer -> pointer -> M pointer :=
  match k with LL => LL_APPEND2 | DL => DL_APPEND2 | CDL => CDL_APPEND2 end.
Definition DELETE (k : kind) : pointer -> pointer -> M pointer :=
  match k with LL => LL_DELETE2 | DL => DL_DELETE2 | CDL => CDL_DELETE2 end.
Definition REPLACE_ELEM (k : kind) : pointer -> pointer -> pointer -> M pointer :=
  match k with LL => LL_REPLACE_ELEM2 | DL => DL_REPLACE_ELEM2 | CDL => CDL_REPLACE_ELEM2 end.
Definition PREPEND_ELEM (k : kind) : pointer -> pointer -> pointer -> M pointer :=
  match k with LL => LL_PREPEND_ELEM2 | DL => DL_PREPEND_ELEM2 | CDL => CDL_PREPEND_ELEM2 end.
Definition APPEND_ELEM (k : kind) : pointer -> pointer -> pointer -> M pointer :=
  match k with LL => LL_APPEND_ELEM2 | DL => DL_APPEND_ELEM2 | CDL => CDL_APPEND_ELEM2 end.
Definition LOWER_BOUND (k : kind) : (A -> A -> Z) -> pointer -> pointer -> M pointer :=
  match k with LL => LL_LOWER_BOUND2 | DL => DL_LOWER_BOUND2 | CDL => CDL_LOWER_BOUND2 end.
Definition INSERT_INORDER (k : kind) : (A -> A -> Z) -> pointer -> pointer -> M pointer :=
  match k with LL => LL_INSERT_INORDER2 | DL => DL_INSERT_INORDER2 | CDL => CDL_INSERT_INORDER2 end.
Definition COUNT (k : kind) : pointer -> M Z :=
  match k with LL => LL_COUNT2 | DL => DL_COUNT2 | CDL => CDL_COUNT2 end.
Definition SEARCH (k : kind) : (A -> A -> Z) -> pointer -> pointer -> M pointer :=
  match k with LL => LL_SEARCH2 | DL => DL_SEARCH2 | CDL => CDL_SEARCH2 end.
Definition SEARCH_SCALAR (k : kind) : pointer -> (A -> Z) -> Z -> M pointer :=
  match k with LL => LL_SEARCH_SCALAR2 | DL => DL_SEARCH_SCALAR2 | CDL => CDL_SEARCH_SCALAR2 end.
Definition FOREACH (k : kind) {X} : pointer -> (X -> pointer -> M (bool * X)) -> X -> M (pointer * X) :=
  match k with LL => LL_FOREACH2 | DL => DL_FOREACH2 | CDL => CDL_FOREACH2 end.
Definition FOREACH_SAFE (k : kind) {X} : pointer -> (X -> pointer -> M (bool * X)) -> X -> M (pointer * X) :=
  match k with LL => LL_FOREACH_SAFE2 | DL => DL_FOREACH_SAFE2 | CDL => CDL_FOREACH_SAFE2 end.
(** There is no macro for two circular lists. *)
Definition CONCAT (k : kind) : option (pointer -> pointer -> M pointer) :=
  match k with LL => Some LL_CONCAT2 | DL => Some DL_CONCAT2 | CDL => None end.

(** ** The operations on lists *)

(** The elements before the first one that is not smaller than [like], and the rest. *)
Fixpoint split_bound (cmp : A -> A -> Z) (like : A) (L : list (addr * A))
    : list (addr * A) * list (addr * A) :=
  match L with
  | [] => ([], [])
  | e :: L' => if cmp e.2 like >=? 0 then ([], L)
               else let '(L1, L2) := split_bound cmp like L' in (e :: L1, L2)
  end.

(** The first element that passes a test. *)
Definition found (P : A -> bool) (L : list (addr * A)) : pointer := fst <$> List.find (fun e => P e.2) L.

(** The body of a loop that reads what the elements hold, and what it does to a list. *)
Definition reader {X} (g : X -> A -> bool * X) (s : X) (el : pointer) : M (bool * X) :=
  d ← load el; mret (g s (user d)).

Fixpoint loop_over {X} (g : X -> A -> bool * X) (L : list (addr * A)) (s : X) : pointer * X :=
  match L with
  | [] => (None, s)
  | (a, x) :: L => let '(stop, s') := g s x in if stop : bool then (Some a, s') else loop_over g L s'
  end.

(** The body of a loop that deletes the elements that pass a test, from the list whose
    head is its state. *)
Definition delete_if (k : kind) (P : A -> bool) (head el : pointer) : M (bool * pointer) :=
  d ← load el;
  if P (user d) then head ← DELETE k head el; mret (false, head) else mret (false, head).

(** A comparison that orders what elements hold. *)
Record orders (cmp : A -> A -> Z) : Prop := {
  cmp_trans x y z : cmp x y <= 0 -> cmp y z <= 0 -> cmp x z <= 0;
  cmp_flip x y : 0 <= cmp y x -> cmp x y <= 0
}.

Definition sorted (cmp : A -> A -> Z) : list (addr * A) -> Prop := StronglySorted (fun e e' => cmp e.2 e'.2 <= 0).

(** ** Chains of pointers *)

Implicit Types (f : addr -> option pointer) (l : list addr) (n m p q : pointer) (a b c : addr) (h : heap).

Lemma nexts_app f l1 l2 n : nexts f (l1 ++ l2) n <-> nexts f l1 (first l2 n) /\ nexts f l2 n.
Proof. induction l1 as [|a l1 IH]; cbn; [tauto|]. rewrite IH, first_app. tauto. Qed.

Lemma nexts_ext f f' l n : (forall c, c ∈ l -> f' c = f c) -> nexts f l n -> nexts f' l n.
Proof.
  induction l as [|a l IH]; intros Hf; [done|]. intros [Ha Hl]. split; [rewrite Hf by set_solver; done|].
  apply IH; [set_solver|done].
Qed.

(** Another end is another pointer in the last element. *)
Lemma nexts_end f f' l n m :
  NoDup l -> (forall c, c ∈ l -> f' c = if decide (final None l = Some c) then Some m else f c) ->
  nexts f l n -> nexts f' l m.
Proof.
  destruct l as [|b l _] using rev_ind; [done|]. rewrite final_snoc. intros Hd Hf. rewrite !nexts_app.
  apply NoDup_app in Hd as (_ & Hd & _). intros [Hl _]. cbn. split; [|split; [|done]].
  - eapply nexts_ext; [|exact Hl]. intros c Hc. rewrite Hf by set_solver.
    rewrite decide_False; [done|]. intros [= ->]. apply (Hd c Hc). set_solver.
  - rewrite Hf by set_solver. by rewrite decide_True.
Qed.

Lemma first_default l n : first l n = match first l None with Some a => Some a | None => n end.
Proof. by destruct l. Qed.

Lemma final_default p l : final p l = match final None l with Some a => Some a | None => p end.
Proof. destruct l as [|a l _] using rev_ind; [done|]. by rewrite !final_snoc. Qed.

Lemma final_reverse l : final None (reverse l) = first l None.
Proof. destruct l as [|a l]; [done|]. by rewrite reverse_cons, final_snoc. Qed.

Lemma first_reverse l : first (reverse l) None = final None l.
Proof. rewrite <- (reverse_involutive l) at 2. by rewrite final_reverse. Qed.

Lemma ring_rotate f l1 l2 : ring f (l1 ++ l2) -> ring f (l2 ++ l1).
Proof.
  unfold ring. rewrite !nexts_app, !first_app. intros [H1 H2].
  destruct l1 as [|a1 l1], l2 as [|a2 l2]; cbn [first] in *; auto.
Qed.

Lemma line_insert f f' l1 l2 a :
  NoDup (l1 ++ l2) -> f' a = Some (first l2 None) ->
  (forall c, c ∈ l1 ++ l2 -> f' c = if decide (final None l1 = Some c) then Some (Some a) else f c) ->
  line f (l1 ++ l2) -> line f' (l1 ++ a :: l2).
Proof.
  unfold line. rewrite !nexts_app. intros (Hd1 & Hd & Hd2)%NoDup_app Ha Hf [H1 H2]. split; [|split; [done|]].
  - eapply nexts_end; [done| |exact H1]. intros c Hc. apply Hf. set_solver.
  - eapply nexts_ext; [|exact H2]. intros c Hc. rewrite Hf by set_solver. rewrite decide_False; [done|].
    intros [?|?]%final_elem; set_solver.
Qed.

Lemma line_remove f f' l1 b l2 :
  NoDup (l1 ++ b :: l2) ->
  (forall c, c ∈ l1 ++ l2 -> f' c = if decide (final None l1 = Some c) then Some (first l2 None) else f c) ->
  line f (l1 ++ b :: l2) -> line f' (l1 ++ l2).
Proof.
  unfold line. rewrite !nexts_app. intros (Hd1 & Hd & Hd2)%NoDup_app Hf [H1 [_ H2]]. split.
  - eapply nexts_end; [done| |exact H1]. intros c Hc. apply Hf. set_solver.
  - eapply nexts_ext; [|exact H2]. intros c Hc. rewrite Hf by set_solver. rewrite decide_False; [done|].
    intros [?|?]%final_elem; set_solver.
Qed.

(** The neighbours of a place in a ring are the last and the first element from there
    around. *)
Lemma ring_insert f f' l1 l2 a :
  NoDup (l1 ++ l2) -> f' a = Some (first (l2 ++ l1) (Some a)) ->
  (forall c, c ∈ l1 ++ l2 -> f' c = if decide (final None (l2 ++ l1) = Some c) then Some (Some a) else f c) ->
  ring f (l1 ++ l2) -> ring f' (l1 ++ a :: l2).
Proof.
  intros Hd Ha Hf Hr%ring_rotate. apply (ring_rotate _ (a :: l2)). split; [done|]. cbn [first].
  eapply nexts_end; [by rewrite Permutation_app_comm| |exact Hr]. intros c Hc. apply Hf. set_solver.
Qed.

Lemma ring_remove f f' l1 b l2 :
  NoDup (l1 ++ b :: l2) ->
  (forall c, c ∈ l1 ++ l2 -> f' c = if decide (final None (l2 ++ l1) = Some c)
                                     then Some (first (l2 ++ l1) None) else f c) ->
  ring f (l1 ++ b :: l2) -> ring f' (l1 ++ l2).
Proof.
  intros Hd Hf Hr%ring_rotate. apply ring_rotate. destruct Hr as [_ Hr]. cbn [first] in Hr.
  eapply nexts_end; [|intros c Hc; apply Hf; set_solver|exact Hr].
  rewrite (Permutation_app_comm l2 l1). apply NoDup_app in Hd as (? & ? & [? ?]%NoDup_cons).
  apply NoDup_app. set_solver.
Qed.

(** ** Runs of the macros *)

Definition alive h a : Prop := is_Some (h !! a).

(** The heap with another pointer in one element. *)
Definition with_next h a q : heap := alter (fun d => Element (prev d) q (user d)) a h.
Definition with_prev h a q : heap := alter (fun d => Element q (next d) (user d)) a h.

Lemma nx_with_next h a q b : nx (with_next h a q) b = if decide (a = b) then (fun _ => q) <$> nx h b else nx h b.
Proof. unfold nx, with_next. rewrite lookup_alter. case_decide; subst; by destruct (h !! _). Qed.
Lemma nx_with_prev h a q b : nx (with_prev h a q) b = nx h b.
Proof. unfold nx, with_prev. rewrite lookup_alter. case_decide; subst; by destruct (h !! _). Qed.
Lemma pv_with_next h a q b : pv (with_next h a q) b = pv h b.
Proof. unfold pv, with_next. rewrite lookup_alter. case_decide; subst; by destruct (h !! _). Qed.
Lemma pv_with_prev h a q b : pv (with_prev h a q) b = if decide (a = b) then (fun _ => q) <$> pv h b else pv h b.
Proof. unfold pv, with_prev. rewrite lookup_alter. case_decide; subst; by destruct (h !! _). Qed.
Lemma us_with_next h a q b : us (with_next h a q) b = us h b.
Proof. unfold us, with_next. rewrite lookup_alter. case_decide; subst; by destruct (h !! _). Qed.
Lemma us_with_prev h a q b : us (with_prev h a q) b = us h b.
Proof. unfold us, with_prev. rewrite lookup_alter. case_decide; subst; by destruct (h !! _). Qed.
Lemma alive_with_next h a q b : alive (with_next h a q) b <-> alive h b.
Proof. unfold alive, with_next. rewrite lookup_alter. case_decide; subst; by destruct (h !! _). Qed.
Lemma alive_with_prev h a q b : alive (with_prev h a q) b <-> alive h b.
Proof. unfold alive, with_prev. rewrite lookup_alter. case_decide; subst; by destruct (h !! _). Qed.

Lemma insert_alter (g : element -> element) h a d : h !! a = Some d -> <[a := g d]> h = alter g a h.
Proof. intros H. apply map_eq. intros b. rewrite lookup_insert, lookup_alter. case_decide; subst; [by rewrite H|done]. Qed.

Lemma bind_run {X Y} (c : M X) (g : X -> M Y) h x h' : c h = Ok (x, h') -> (c ≫= g) h = g x h'.
Proof. intros H. unfold mbind, M_bind. by rewrite H. Qed.

Lemma load_run h a d : h !! a = Some d -> load (Some a) h = Ok (d, h).
Proof. unfold load. cbn. by intros ->. Qed.

Lemma next_run h a n : nx h a = Some n -> next_of (Some a) h = Ok (n, h).
Proof. unfold nx. intros (d & H & ->)%fmap_Some. unfold next_of. by erewrite bind_run by (by apply load_run). Qed.
Lemma prev_run h a n : pv h a = Some n -> prev_of (Some a) h = Ok (n, h).
Proof. unfold pv. intros (d & H & ->)%fmap_Some. unfold prev_of. by erewrite bind_run by (by apply load_run). Qed.

Lemma set_next_run h a q : alive h a -> set_next (Some a) q h = Ok (tt, with_next h a q).
Proof. intros [d H]. unfold set_next, store, with_next. cbn. rewrite H. cbn. do 2 f_equal. by apply (insert_alter (fun d => Element (prev d) q (user d))). Qed.
Lemma set_prev_run h a q : alive h a -> set_prev (Some a) q h = Ok (tt, with_prev h a q).
Proof. intros [d H]. unfold set_prev, store, with_prev. cbn. rewrite H. cbn. do 2 f_equal. by apply (insert_alter (fun d => Element q (next d) (user d))). Qed.

Lemma bind_assert {X} (g : unit -> M X) h : (assert true ≫= g) h = g tt h.
Proof. done. Qed.

Lemma alive_us h a x : us h a = Some x -> alive h a.
Proof. unfold us. intros (d & H & _)%fmap_Some. by eexists. Qed.

Lemma nx_alive h a n : nx h a = Some n -> alive h a.
Proof. unfold nx. intros (d & H & _)%fmap_Some. by eexists. Qed.

Lemma alive_nx h a : alive h a -> exists n, nx h a = Some n.
Proof. intros [d H]. unfold nx. rewrite H. by eexists. Qed.
Lemma alive_pv h a : alive h a -> exists n, pv h a = Some n.
Proof. intros [d H]. unfold pv. rewrite H. by eexists. Qed.

(** The elements of a list are in the heap, so that there is fuel for all of them. *)
Lemma alive_length h l : NoDup l -> Forall (alive h) l -> (length l <= size h)%nat.
Proof.
  intros Hd Hl. rewrite <- (size_list_to_set (C := gset addr)) by done. rewrite <- size_dom.
  apply subseteq_size. intros a Ha%elem_of_list_to_set. apply elem_of_dom. by eapply Forall_forall in Hl.
Qed.

Lemma list_at_alive k h head L : list_at k h head L -> Forall (alive h) L.*1.
Proof. intros (_ & Hu & _). apply Forall_fmap. eapply Forall_impl; [exact Hu|]. intros e. apply alive_us. Qed.

Lemma writes_refl l h : writes l h h.
Proof. done. Qed.
Lemma writes_next l h h' a q : a ∈ l -> writes l h h' -> writes l h (with_next h' a q).
Proof.
  intros Ha [Hu Hf]. split; intros b; [by rewrite us_with_next|]. intros Hb. unfold with_next.
  rewrite lookup_alter_ne by (intros ->; done). auto.
Qed.
Lemma writes_prev l h h' a q : a ∈ l -> writes l h h' -> writes l h (with_prev h' a q).
Proof.
  intros Ha [Hu Hf]. split; intros b; [by rewrite us_with_prev|]. intros Hb. unfold with_prev.
  rewrite lookup_alter_ne by (intros ->; done). auto.
Qed.
End utlist.
