(* ===== verification/UtlistRefine.v ===== *)
(** * What the macros of utlist do to lists

    Every macro of Utlist, run on pointers that link a list, gives pointers that link
    the list that the macro's name promises, for all three kinds of lists. *)

From S2P Require Import Prelude Links Utlist.

Section refine.
Context {A : Type}.
Abbreviation heap := (gmap addr (@element A)).
Implicit Types (f : addr -> option pointer) (l : list addr) (n m p q : pointer) (a b c : addr) (h : heap).

(** The walk to the element before [x], or to the last. *)
Lemma before_run h l b n x fuel :
  nexts (nx h) (l ++ [b]) n -> n = None \/ n = x -> (forall c, c ∈ tail (l ++ [b]) -> Some c <> x) ->
  (length l <= fuel)%nat -> before fuel x (first (l ++ [b]) None) h = Ok (Some b, h).
Proof.
  intros Hl Hn. revert fuel. induction l as [|c l IH]; intros fuel Hx Hf.
  - destruct Hl as [Hb _]. cbn in Hb |- *. destruct fuel; cbn [before]; erewrite bind_run by (by apply next_run);
      destruct n as [d|]; cbn; [|done| |done]; (destruct Hn as [|<-]; [done|]); unfold eq_ptr;
      by rewrite bool_decide_true.
  - destruct Hl as [Hc Hl], fuel as [|fuel]; [cbn in Hf; lia|]. cbn [app first before] in *.
    erewrite bind_run by (by apply next_run).
    assert (exists d, first (l ++ [b]) n = Some d /\ first (l ++ [b]) None = Some d /\ d ∈ l ++ [b]) as (d & -> & Hd & Hin).
    { destruct l as [|d l]; cbn; eexists; (split; [done|]); split; [done| |done|]; set_solver. }
    cbn [not_null is_null negb andb]. unfold eq_ptr. rewrite bool_decide_false by (by apply Hx). cbn [negb].
    rewrite <- Hd. apply IH; [done| |cbn in Hf; lia].
    intros e He. apply Hx. cbn [tail]. destruct l; cbn in *; set_solver.
Qed.

(** Solves what a pointer is after some writes, and runs the macros one pointer at a
    time. *)
Ltac rewrite_views := repeat first [rewrite nx_with_next | rewrite nx_with_prev | rewrite pv_with_next | rewrite pv_with_prev].

Ltac views :=
  rewrite_views;
  repeat match goal with
  | |- context [decide (?p = ?p)] => rewrite (decide_True (P := p = p)) by reflexivity
  | |- context [decide (?p = ?q)] => rewrite (decide_False (P := p = q)) by congruence
  end;
  repeat match goal with
  | H : nx ?h ?a = _ |- context [nx ?h ?a] => rewrite H
  | H : pv ?h ?a = _ |- context [pv ?h ?a] => rewrite H
  end; cbn [fmap option_fmap option_map]; try reflexivity.

Ltac is_alive := repeat first [rewrite alive_with_next | rewrite alive_with_prev]; first [assumption | eapply nx_alive; eassumption].

Ltac eval_ptrs :=
  unfold eq_ptr; cbn [not_null is_null negb andb first final app];
  repeat match goal with
  | |- context [bool_decide (?p = ?p)] => rewrite (bool_decide_true (p = p)) by reflexivity
  | |- context [bool_decide (?p = ?q)] => rewrite (bool_decide_false (p = q)) by congruence
  end; cbn [not_null is_null negb andb].

Lemma bind_assoc {X Y Z} (c : M X) (g : X -> M Y) (g' : Y -> M Z) h :
  ((c ≫= g) ≫= g') h = (c ≫= fun x => g x ≫= g') h.
Proof. unfold mbind, M_bind. by destruct (c h) as [[x h']| | |]. Qed.

Ltac run :=
  repeat (eval_ptrs;
    match goal with
    | |- (next_of _ ≫= _) _ = _ => erewrite bind_run by (apply next_run; views)
    | |- (prev_of _ ≫= _) _ = _ => erewrite bind_run by (apply prev_run; views)
    | |- (set_next _ _ ≫= _) _ = _ => erewrite bind_run by (apply set_next_run; is_alive)
    | |- (set_prev _ _ ≫= _) _ = _ => erewrite bind_run by (apply set_prev_run; is_alive)
    | Hw : with_fuel _ ?h = _ |- (with_fuel _ ≫= _) ?h = _ => rewrite (bind_run _ _ _ _ _ Hw)
    | |- ((_ ≫= _) ≫= _) _ = _ => rewrite bind_assoc
    | |- (assert true ≫= _) _ = _ => rewrite bind_assert
    | |- (mret ?x ≫= _) ?h = _ => rewrite (bind_run (mret x) _ h x h) by reflexivity
    | |- next_of _ _ = _ => erewrite next_run by views; reflexivity
    | |- set_next _ _ _ = _ => erewrite set_next_run by is_alive; reflexivity
    | |- set_prev _ _ _ = _ => erewrite set_prev_run by is_alive; reflexivity
    | |- mret _ _ = _ => reflexivity
    end).

(** *** Insertions *)

Lemma nexts_at f l1 b l2 n : nexts f (l1 ++ b :: l2) n -> f b = Some (first l2 n).
Proof. by intros [_ [H _]]%nexts_app. Qed.

Lemma ring_at f l1 b l2 : ring f (l1 ++ b :: l2) -> f b = Some (first (l2 ++ l1) (Some b)).
Proof. by intros [H _]%ring_rotate. Qed.

Lemma ring_reverse_at f l1 b l2 : ring f (reverse (l1 ++ b :: l2)) -> f b = Some (final (Some b) (l2 ++ l1)).
Proof.
  rewrite reverse_app, reverse_cons, <- (assoc_L (++)). cbn [app]. intros ->%ring_at.
  by rewrite <- reverse_app, first_default, first_reverse, <- final_default.
Qed.

Lemma ring_insert_reverse f f' l1 l2 a :
  NoDup (l1 ++ l2) -> f' a = Some (final (Some a) (l2 ++ l1)) ->
  (forall c, c ∈ l1 ++ l2 -> f' c = if decide (first (l2 ++ l1) None = Some c) then Some (Some a) else f c) ->
  ring f (reverse (l1 ++ l2)) -> ring f' (reverse (l1 ++ a :: l2)).
Proof.
  intros Hd Ha Hf. rewrite !reverse_app, reverse_cons, <- (assoc_L (++)). cbn [app]. apply ring_insert.
  - rewrite <- reverse_app. by rewrite reverse_Permutation.
  - by rewrite <- reverse_app, first_default, first_reverse, <- final_default.
  - intros c Hc. rewrite <- reverse_app, final_reverse. apply Hf. rewrite elem_of_app, !elem_of_reverse in Hc. set_solver.
Qed.

(** A new element between two parts of a list. *)
Record inserting (k : kind) h l1 a l2 : Prop := {
  ins_nodup : NoDup (l1 ++ l2);
  ins_new : a ∉ l1 ++ l2;
  ins_alive : Forall (alive h) (l1 ++ l2);
  ins_alive_new : alive h a;
  ins_shape : shape k h (l1 ++ l2)
}.

Definition inserts (k : kind) (c : M pointer) h l1 a l2 : Prop :=
  exists h', c h = Ok (first (l1 ++ a :: l2) None, h') /\ shape k h' (l1 ++ a :: l2) /\ writes (a :: l1 ++ l2) h h'.

Lemma ins_others k h l1 a l2 : inserting k h l1 a l2 -> forall c, c ∈ l1 ++ l2 -> alive h c /\ a <> c.
Proof. intros [_ Ha Hl _ _] c Hc. split; [by eapply Forall_forall in Hl|]. by intros ->. Qed.

(** An insertion gives the new element its neighbours, and its neighbours the new
    element. *)
Definition succ (k : kind) l1 l2 n : pointer := match k with CDL => first (l2 ++ l1) n | _ => first l2 None end.
Definition pred (k : kind) l1 l2 : pointer := match k with CDL => final None (l2 ++ l1) | _ => final None l1 end.

Lemma inserts_intro k (r : M pointer) h l1 a l2 h' :
  inserting k h l1 a l2 -> r h = Ok (first (l1 ++ a :: l2) None, h') ->
  nx h' a = Some (succ k l1 l2 (Some a)) ->
  (forall c, c ∈ l1 ++ l2 -> nx h' c = if decide (pred k l1 l2 = Some c) then Some (Some a) else nx h c) ->
  (k <> LL -> pv h' a = Some (final (Some a) (l2 ++ l1)) /\
   forall c, c ∈ l1 ++ l2 -> pv h' c = if decide (first (l2 ++ l1) None = Some c) then Some (Some a) else pv h c) ->
  writes (a :: l1 ++ l2) h h' -> inserts k r h l1 a l2.
Proof.
  intros [Hd _ _ _ Hs] Hc Hn1 Hn2 Hp Hw. exists h'. split; [exact Hc|]. split; [|exact Hw].
  destruct k; cbn [shape succ pred] in *; [by eapply line_insert| |];
    (destruct Hp as [Hp1 Hp2]; [done|]); destruct Hs; (split; [|by eapply ring_insert_reverse]).
  - by eapply line_insert.
  - by eapply ring_insert.
Qed.

(** The pointers of an element of the list. *)
Ltac look b Hb :=
  let n := fresh "n" in let Hn := fresh "Hn" in let p := fresh "p" in let Hp := fresh "Hp" in
  pose proof Hb; destruct (alive_nx _ _ Hb) as [n Hn]; destruct (alive_pv _ _ Hb) as [p Hp].

(** The neighbours of the place, with what the context says of the ends of the list. *)
Ltac ends :=
  repeat match goal with
  | H : final ?p ?l = _ |- context [final ?p ?l] => rewrite H
  | H : first ?l ?p = _ |- context [first ?l ?p] => rewrite H
  | H : forall l2 n, first (?l ++ ?b :: l2) n = _ |- context [first (?l ++ ?b :: _) _] => rewrite H
  end.
Ltac neighbours :=
  unfold succ, pred; cbn [app first final]; rewrite ?app_nil_r; ends; rewrite ?final_app; cbn [app first final]; ends.

Ltac pointwise :=
  let c := fresh "c" in let Hc := fresh "Hc" in let Hl := fresh "Hl" in
  intros c Hc;
  lazymatch goal with H : forall c, c ∈ _ -> alive ?h c /\ ?a <> c |- _ =>
    destruct (H c Hc) as [Hl ?]; destruct (alive_nx h c Hl) as [? ?]; destruct (alive_pv h c Hl) as [? ?]
  end;
  rewrite_views; neighbours;
  repeat match goal with
  | H : nx ?h ?c = _ |- context [nx ?h ?c] => rewrite H
  | H : pv ?h ?c = _ |- context [pv ?h ?c] => rewrite H
  end; cbn [fmap option_fmap option_map];
  repeat case_decide; simplify_eq; first [reflexivity | congruence].

Lemma final_some b l : exists z, final (Some b) l = Some z /\ z ∈ b :: l.
Proof.
  revert b; induction l as [|c l IH]; intros b; [exists b; set_solver|]. destruct (IH c) as (z & Hz & Hin).
  exists z. split; [exact Hz|set_solver].
Qed.

Ltac written :=
  repeat lazymatch goal with
  | |- writes _ _ (with_next _ _ _) => apply writes_next
  | |- writes _ _ (with_prev _ _ _) => apply writes_prev
  | |- writes _ _ _ => apply writes_refl
  end; set_solver.

Ltac inserted :=
  lazymatch goal with H : inserting _ _ _ _ _ |- _ =>
    pose proof (ins_others _ _ _ _ _ H); eapply (inserts_intro _ _ _ _ _ _ _ H);
    [ rewrite <- ?(assoc_L (++)); cbn [app]; neighbours; solve [run] | solve [neighbours; views] | pointwise
    | first [done | intros _; split; [solve [neighbours; views]|pointwise]] | written ]
  end.

Lemma first_some l b : exists c, (forall l2 n, first (l ++ b :: l2) n = Some c) /\ c ∈ l ++ [b].
Proof. destruct l as [|c l]; [exists b|exists c]; (split; [done|set_solver]). Qed.

(** The walk to [b], from the head of a list. *)
Lemma LL_before h l b l2 c : NoDup (l ++ b :: l2) -> Forall (alive h) (l ++ b :: l2) ->
  line (nx h) (l ++ b :: l2) -> first (l ++ [b]) None = Some c ->
  with_fuel (fun fuel => before fuel (first l2 None) (Some c)) h = Ok (Some b, h).
Proof.
  intros Hd Hl Hs <-. unfold with_fuel. rewrite (app_assoc l [b] l2 : l ++ b :: l2 = _) in Hd, Hl, Hs.
  apply nexts_app in Hs as [Hs _]. eapply before_run; [exact Hs|by right| |].
  - intros d Hc Heq. symmetry in Heq. apply first_elem in Heq. apply NoDup_app in Hd as (_ & Hd & _). apply (Hd d); [|done].
    destruct l; cbn in *; set_solver.
  - apply Nat.le_trans with (length ((l ++ [b]) ++ l2)); [rewrite !length_app; lia|]. by apply alive_length.
Qed.

(** The same when [a], which is not in the list, has changed. *)
Lemma LL_before_new h l b l2 a q c : NoDup (l ++ b :: l2) -> a ∉ l ++ b :: l2 -> Forall (alive h) (l ++ b :: l2) ->
  line (nx h) (l ++ b :: l2) -> first (l ++ [b]) None = Some c ->
  with_fuel (fun fuel => before fuel (first l2 None) (Some c)) (with_next h a q) = Ok (Some b, with_next h a q).
Proof.
  intros Hd Ha Hl Hs Hc. apply (LL_before _ l b); [done| | |done].
  - eapply Forall_impl; [exact Hl|]. intros d. by rewrite alive_with_next.
  - eapply nexts_ext; [|exact Hs]. intros d Hin. rewrite nx_with_next. rewrite decide_False; [done|]. set_solver.
Qed.

Ltac look_in b Hl := look b (proj1 (Forall_forall _ _) Hl b ltac:(set_solver)).

Lemma LL_PREPEND_inserts h l a : inserting LL h [] a l -> inserts LL (LL_PREPEND2 (first l None) (Some a)) h [] a l.
Proof. intros H. destruct (H) as [Hd Ha Hl Hha Hs]. look a Hha. unfold LL_PREPEND2. inserted. Qed.

Lemma LL_APPEND_inserts h l a : inserting LL h l a [] -> inserts LL (LL_APPEND2 (first l None) (Some a)) h l a [].
Proof.
  intros H. destruct (H) as [Hd Ha Hl Hha Hs]. look a Hha. unfold LL_APPEND2. cbn [shape] in Hs.
  destruct l as [|b l _] using rev_ind; [inserted|].
  look_in b Hl. assert (a <> b) by set_solver. destruct (first_some l b) as (c & Hc & Hin).
  rewrite app_nil_r in Hd, Ha, Hl, Hs.
  pose proof (LL_before_new h l b [] a None c Hd Ha Hl Hs (Hc [] None)) as Hw. cbn [first] in Hw. rewrite Hc.
  inserted.
Qed.

Lemma LL_APPEND_ELEM_inserts h l b l2 a :
  inserting LL h (l ++ [b]) a l2 ->
  inserts LL (LL_APPEND_ELEM2 (first ((l ++ [b]) ++ l2) None) (Some b) (Some a)) h (l ++ [b]) a l2.
Proof.
  intros H. destruct (H) as [Hd Ha Hl Hha Hs]. look a Hha. unfold LL_APPEND_ELEM2. cbn [shape] in Hs.
  look_in b Hl. assert (a <> b) by set_solver. destruct (first_some l b) as (c & Hc & Hin).
  rewrite <- !(assoc_L (++)) in Hs |- *. apply nexts_at in Hs as Hb. cbn [app]. rewrite Hc. simplify_eq.
  inserted.
Qed.

Lemma LL_PREPEND_ELEM_inserts h l1 b l2 a :
  inserting LL h l1 a (b :: l2) ->
  inserts LL (LL_PREPEND_ELEM2 (first (l1 ++ b :: l2) None) (Some b) (Some a)) h l1 a (b :: l2).
Proof.
  intros H. destruct (H) as [Hd Ha Hl Hha Hs]. look a Hha. unfold LL_PREPEND_ELEM2. cbn [shape] in Hs.
  look_in b Hl. assert (a <> b) by set_solver. destruct l1 as [|d l _] using rev_ind; [inserted|].
  look_in d Hl. destruct (first_some l d) as (c & Hc & Hin). rewrite <- !(assoc_L (++)) in Hd, Ha, Hl, Hs |- *.
  cbn [app] in *. pose proof (LL_before_new h l d (b :: l2) a (Some b) c Hd Ha Hl Hs (Hc [] None)) as Hw.
  apply nexts_at in Hs as Hn'. cbn [first] in Hn', Hw. rewrite Hc. simplify_eq.
  assert (a <> d) by set_solver. assert (c <> b).
  { intros ->. apply NoDup_app in Hd as (_ & Hd & Hd2). apply NoDup_cons in Hd2 as [Hd2 _]. set_solver. }
  inserted.
Qed.

Lemma DL_PREPEND_inserts h l a : inserting DL h [] a l -> inserts DL (DL_PREPEND2 (first l None) (Some a)) h [] a l.
Proof.
  intros H. destruct (H) as [Hd Ha Hl Hha [Hs Hr]]. look a Hha. unfold DL_PREPEND2.
  destruct l as [|b l]; [inserted|]. look_in b Hl. assert (a <> b) by set_solver.
  destruct (final_some b l) as (z & Hz & Hin). apply (ring_reverse_at _ []) in Hr. rewrite app_nil_r, Hz in Hr. simplify_eq.
  inserted.
Qed.

Lemma DL_APPEND_inserts h l a : inserting DL h l a [] -> inserts DL (DL_APPEND2 (first l None) (Some a)) h l a [].
Proof.
  intros H. destruct (H) as [Hd Ha Hl Hha [Hs Hr]]. look a Hha. unfold DL_APPEND2.
  destruct l as [|b l]; [inserted|]. look_in b Hl. assert (a <> b) by set_solver.
  destruct (final_some b l) as (z & Hz & Hin). rewrite app_nil_r in Hr. apply (ring_reverse_at _ []) in Hr.
  rewrite app_nil_r, Hz in Hr. look_in z Hl. assert (a <> z) by set_solver. simplify_eq.
  inserted.
Qed.

Lemma DL_PREPEND_ELEM_inserts h l1 b l2 a :
  inserting DL h l1 a (b :: l2) ->
  inserts DL (DL_PREPEND_ELEM2 (first (l1 ++ b :: l2) None) (Some b) (Some a)) h l1 a (b :: l2).
Proof.
  intros H. destruct (H) as [Hd Ha Hl Hha [Hs Hr]]. look a Hha. unfold DL_PREPEND_ELEM2.
  look_in b Hl. assert (a <> b) by set_solver. apply ring_reverse_at in Hr.
  destruct l1 as [|d l _] using rev_ind.
  - destruct (final_some b l2) as (z & Hz & Hin). rewrite app_nil_r, Hz in Hr. simplify_eq. inserted.
  - rewrite (assoc_L (++)), final_snoc in Hr. look_in d Hl. assert (a <> d) by set_solver.
    destruct (first_some l d) as (c & Hc & Hin). assert (c <> b).
    { intros ->. apply NoDup_app in Hd as (_ & Hd & _). apply (Hd b); set_solver. }
    rewrite <- !(assoc_L (++)). cbn [app]. rewrite Hc. simplify_eq. inserted.
Qed.

Lemma DL_APPEND_ELEM_inserts h l b l2 a :
  inserting DL h (l ++ [b]) a l2 ->
  inserts DL (DL_APPEND_ELEM2 (first ((l ++ [b]) ++ l2) None) (Some b) (Some a)) h (l ++ [b]) a l2.
Proof.
  intros H. destruct (H) as [Hd Ha Hl Hha [Hs Hr]]. look a Hha. unfold DL_APPEND_ELEM2.
  look_in b Hl. assert (a <> b) by set_solver. destruct (first_some l b) as (c & Hc & Hin).
  rewrite <- !(assoc_L (++)) in Hs |- *. apply nexts_at in Hs as Hb. cbn [app]. rewrite Hc.
  look_in c Hl. assert (a <> c) by set_solver. destruct l2 as [|d l2].
  - cbn [first] in Hb. simplify_eq. inserted.
  - look_in d Hl. assert (a <> d) by set_solver. assert (b <> d).
    { intros ->. apply NoDup_app in Hd as (_ & Hd & _). apply (Hd d); set_solver. }
    cbn [first] in Hb. simplify_eq. inserted.
Qed.

Lemma CDL_PREPEND_inserts h l a :
  inserting CDL h [] a l -> inserts CDL (CDL_PREPEND2 (first l None) (Some a)) h [] a l.
Proof.
  intros H. destruct (H) as [Hd Ha Hl Hha [Hs Hr]]. look a Hha. unfold CDL_PREPEND2.
  destruct l as [|b l]; [inserted|]. look_in b Hl. assert (a <> b) by set_solver.
  destruct (final_some b l) as (z & Hz & Hin). apply (ring_reverse_at _ []) in Hr.
  rewrite app_nil_r, Hz in Hr. look_in z Hl. assert (a <> z) by set_solver. simplify_eq.
  inserted.
Qed.

Lemma CDL_APPEND_inserts h l a :
  inserting CDL h l a [] -> inserts CDL (CDL_APPEND2 (first l None) (Some a)) h l a [].
Proof.
  intros H. destruct (H) as [Hd Ha Hl Hha [Hs Hr]]. look a Hha. unfold CDL_APPEND2.
  destruct l as [|b l]; [inserted|]. look_in b Hl. assert (a <> b) by set_solver.
  destruct (final_some b l) as (z & Hz & Hin). rewrite app_nil_r in Hr. apply (ring_reverse_at _ []) in Hr.
  rewrite app_nil_r, Hz in Hr. look_in z Hl. assert (a <> z) by set_solver. simplify_eq.
  inserted.
Qed.

Lemma CDL_PREPEND_ELEM_inserts h l1 b l2 a :
  inserting CDL h l1 a (b :: l2) ->
  inserts CDL (CDL_PREPEND_ELEM2 (first (l1 ++ b :: l2) None) (Some b) (Some a)) h l1 a (b :: l2).
Proof.
  intros H. destruct (H) as [Hd Ha Hl Hha [Hs Hr]]. look a Hha. unfold CDL_PREPEND_ELEM2.
  look_in b Hl. assert (a <> b) by set_solver. apply ring_reverse_at in Hr.
  destruct (final_some b (l2 ++ l1)) as (z & Hz & Hin). rewrite Hz in Hr.
  look_in z Hl. assert (a <> z) by set_solver. simplify_eq. destruct l1 as [|c l1].
  - rewrite app_nil_r in Hz. inserted.
  - assert (c <> b) by (apply NoDup_app in Hd as (_ & Hd & _); intros ->; apply (Hd b); set_solver).
    inserted.
Qed.

Lemma CDL_APPEND_ELEM_inserts h l b l2 a :
  inserting CDL h (l ++ [b]) a l2 ->
  inserts CDL (CDL_APPEND_ELEM2 (first ((l ++ [b]) ++ l2) None) (Some b) (Some a)) h (l ++ [b]) a l2.
Proof.
  intros H. destruct (H) as [Hd Ha Hl Hha [Hs Hr]]. look a Hha. unfold CDL_APPEND_ELEM2.
  look_in b Hl. assert (a <> b) by set_solver. destruct (first_some l b) as (c & Hc & Hin).
  rewrite <- !(assoc_L (++)) in Hs |- *. apply ring_at in Hs as Hb. cbn [app]. rewrite Hc.
  destruct l2 as [|d l2].
  - look_in c Hl. assert (a <> c) by set_solver. 
    assert (Hb' : first ([] ++ l) (Some b) = Some c) by (rewrite <- (Hc [] None); by destruct l).
    rewrite Hb' in Hb. simplify_eq. inserted.
  - look_in d Hl. assert (a <> d) by set_solver. cbn [first app] in Hb. simplify_eq. inserted.
Qed.

(** *** Removals and replacements *)

(** An element between two parts of a list. *)
Record removing (k : kind) h l1 b l2 : Prop := {
  rem_nodup : NoDup (l1 ++ b :: l2);
  rem_alive : Forall (alive h) (l1 ++ b :: l2);
  rem_shape : shape k h (l1 ++ b :: l2)
}.

Lemma rem_others k h l1 b l2 : removing k h l1 b l2 -> forall c, c ∈ l1 ++ l2 -> alive h c /\ b <> c.
Proof.
  intros [Hd Hl _] c Hc. split.
  - eapply Forall_forall in Hl; [exact Hl|]. set_solver.
  - intros ->. apply NoDup_app in Hd as (_ & Hd & [Hb _]%NoDup_cons). apply elem_of_app in Hc as [Hc|Hc]; [|done].
    apply (Hd c Hc). set_solver.
Qed.

Definition removes (k : kind) (r : M pointer) h l1 b l2 : Prop :=
  exists h', r h = Ok (first (l1 ++ l2) None, h') /\ shape k h' (l1 ++ l2) /\ writes (l1 ++ b :: l2) h h'.

Lemma ring_remove_reverse f f' l1 b l2 :
  NoDup (l1 ++ b :: l2) ->
  (forall c, c ∈ l1 ++ l2 -> f' c = if decide (first (l2 ++ l1) None = Some c)
                                     then Some (final None (l2 ++ l1)) else f c) ->
  ring f (reverse (l1 ++ b :: l2)) -> ring f' (reverse (l1 ++ l2)).
Proof.
  intros Hd Hf. rewrite !reverse_app, reverse_cons, <- (assoc_L (++)). cbn [app]. apply ring_remove.
  - apply (NoDup_Permutation_proper (reverse (l1 ++ b :: l2))); [|by rewrite reverse_Permutation].
    by rewrite reverse_app, reverse_cons, <- (assoc_L (++)).
  - intros c Hc. rewrite <- reverse_app, final_reverse, first_reverse. apply Hf.
    rewrite elem_of_app, !elem_of_reverse in Hc. set_solver.
Qed.

Lemma removes_intro k (r : M pointer) h l1 b l2 h' :
  removing k h l1 b l2 -> r h = Ok (first (l1 ++ l2) None, h') ->
  (forall c, c ∈ l1 ++ l2 -> nx h' c = if decide (pred k l1 l2 = Some c) then Some (succ k l1 l2 None) else nx h c) ->
  (k <> LL ->
   forall c, c ∈ l1 ++ l2 -> pv h' c = if decide (first (l2 ++ l1) None = Some c)
                                         then Some (final None (l2 ++ l1)) else pv h c) ->
  writes (l1 ++ b :: l2) h h' -> removes k r h l1 b l2.
Proof.
  intros [Hd _ Hs] Hc Hn Hp Hw. exists h'. split; [exact Hc|]. split; [|exact Hw].
  destruct k; cbn [shape succ pred] in *; [by eapply line_remove| |];
    specialize (Hp ltac:(done)); destruct Hs; (split; [|by eapply ring_remove_reverse]).
  - by eapply line_remove.
  - by eapply ring_remove.
Qed.

Ltac removed :=
  lazymatch goal with H : removing _ _ _ _ _ |- _ =>
    pose proof (rem_others _ _ _ _ _ H); eapply (removes_intro _ _ _ _ _ _ _ H);
    [ rewrite <- ?(assoc_L (++)); cbn [app]; neighbours; solve [run] | pointwise
    | first [done | intros _; pointwise] | written ]
  end.

Lemma LL_DELETE_removes h l1 b l2 :
  removing LL h l1 b l2 -> removes LL (LL_DELETE2 (first (l1 ++ b :: l2) None) (Some b)) h l1 b l2.
Proof.
  intros H. destruct (H) as [Hd Hl Hs]. unfold LL_DELETE2. cbn [shape] in Hs. look_in b Hl.
  apply nexts_at in Hs as Hb. destruct l1 as [|d l _] using rev_ind; [simplify_eq; removed|].
  look_in d Hl. destruct (first_some l d) as (c & Hc & Hin).
  assert (d <> b /\ c <> b) as [? ?] by (split; intros ->; apply NoDup_app in Hd as (_ & Hd & _); apply (Hd b); set_solver).
  rewrite <- !(assoc_L (++)) in Hd, Hl, Hs |- *. cbn [app] in *.
  pose proof (LL_before h l d (b :: l2) c Hd Hl Hs (Hc [] None)) as Hw. apply nexts_at in Hs as Hn'.
  cbn [first] in Hn', Hw. rewrite Hc. simplify_eq. removed.
Qed.

Lemma DL_DELETE_removes h l1 b l2 :
  removing DL h l1 b l2 -> removes DL (DL_DELETE2 (first (l1 ++ b :: l2) None) (Some b)) h l1 b l2.
Proof.
  intros H. destruct (H) as [Hd Hl [Hs Hr]]. unfold DL_DELETE2. look_in b Hl.
  apply nexts_at in Hs as Hb. apply ring_reverse_at in Hr as Hb'.
  assert (Hne : forall c, c ∈ l1 ++ l2 -> b <> c) by (intros c Hc; by destruct (rem_others _ _ _ _ _ H c Hc)).
  destruct l1 as [|d l _] using rev_ind.
  - destruct l2 as [|d l2]; [simplify_eq; removed|].
    destruct (final_some d l2) as (z & Hz & Hin). rewrite app_nil_r in Hb'. cbn [first final app] in Hb, Hb', Hne.
    rewrite Hz in Hb'. look_in d Hl. assert (b <> z) by set_solver. assert (b <> d) by set_solver.
    simplify_eq. removed.
  - rewrite (assoc_L (++)), final_snoc in Hb'. look_in d Hl. destruct (first_some l d) as (c & Hc & Hin).
    assert (b <> d) by set_solver. assert (b <> c) by set_solver.
    rewrite <- !(assoc_L (++)). cbn [app]. rewrite Hc. look_in c Hl. destruct l2 as [|e l2].
    + simplify_eq. removed.
    + look_in e Hl. assert (b <> e) by set_solver. cbn [first] in Hb. simplify_eq. removed.
Qed.

Lemma CDL_DELETE_removes h l1 b l2 :
  removing CDL h l1 b l2 -> removes CDL (CDL_DELETE2 (first (l1 ++ b :: l2) None) (Some b)) h l1 b l2.
Proof.
  intros H. destruct (H) as [Hd Hl [Hs Hr]]. unfold CDL_DELETE2. look_in b Hl.
  apply ring_at in Hs as Hb. apply ring_reverse_at in Hr as Hb'.
  assert (Hne : forall c, c ∈ l1 ++ l2 -> b <> c) by (intros c Hc; by destruct (rem_others _ _ _ _ _ H c Hc)).
  destruct l1 as [|c l1].
  - destruct l2 as [|d l2]; [simplify_eq; removed|].
    destruct (final_some d l2) as (z & Hz & Hin). rewrite app_nil_r in Hb, Hb'. cbn [first final app] in Hb, Hb', Hne.
    rewrite Hz in Hb'. look_in d Hl. look_in z Hl. assert (b <> z) by set_solver. assert (b <> d) by set_solver.
    simplify_eq. removed.
  - assert (b <> c) by set_solver. destruct (final_some c l1) as (z & Hz & Hin).
    rewrite final_app in Hb'. cbn [final] in Hb'. rewrite Hz in Hb'. look_in z Hl. assert (b <> z) by set_solver.
    destruct l2 as [|d l2].
    + cbn [first app] in Hb. look_in c Hl. simplify_eq. removed.
    + look_in d Hl. assert (b <> d) by set_solver. cbn [first app] in Hb. simplify_eq. removed.
Qed.

Definition replaces (k : kind) (r : M pointer) h l1 b l2 a : Prop :=
  exists h', r h = Ok (first (l1 ++ a :: l2) None, h') /\ shape k h' (l1 ++ a :: l2) /\ writes (a :: l1 ++ b :: l2) h h'.

(** A replacement is a removal and an insertion, for the other elements. *)
Lemma replaces_intro k (r : M pointer) h l1 b l2 a h' :
  removing k h l1 b l2 -> r h = Ok (first (l1 ++ a :: l2) None, h') ->
  nx h' a = Some (succ k l1 l2 (Some a)) ->
  (forall c, c ∈ l1 ++ l2 -> nx h' c = if decide (pred k l1 l2 = Some c) then Some (Some a) else nx h c) ->
  (k <> LL -> pv h' a = Some (final (Some a) (l2 ++ l1)) /\
   forall c, c ∈ l1 ++ l2 -> pv h' c = if decide (first (l2 ++ l1) None = Some c) then Some (Some a) else pv h c) ->
  writes (a :: l1 ++ b :: l2) h h' -> replaces k r h l1 b l2 a.
Proof.
  intros [Hd _ Hs] Hc Hn1 Hn2 Hp Hw. exists h'. split; [exact Hc|]. split; [|exact Hw].
  assert (NoDup (l1 ++ l2)) as Hd'.
  { apply NoDup_app in Hd as (? & ? & [? ?]%NoDup_cons). apply NoDup_app. set_solver. }
  pose (g := fun c => if decide (pred k l1 l2 = Some c) then Some (succ k l1 l2 None) else nx h c).
  pose (g' := fun c => if decide (first (l2 ++ l1) None = Some c) then Some (final None (l2 ++ l1)) else pv h c).
  assert (forall c, c ∈ l1 ++ l2 -> nx h' c = if decide (pred k l1 l2 = Some c) then Some (Some a) else g c) as Hn3.
  { intros c Hin. rewrite Hn2 by done. unfold g. by case_decide. }
  assert (k <> LL -> forall c, c ∈ l1 ++ l2 ->
            pv h' c = if decide (first (l2 ++ l1) None = Some c) then Some (Some a) else g' c) as Hp3.
  { intros Hk c Hin. destruct (Hp Hk) as [_ Hp2]. rewrite Hp2 by done. unfold g'. by case_decide. }
  assert (k <> LL -> ring (pv h) (reverse (l1 ++ b :: l2)) -> ring (pv h') (reverse (l1 ++ a :: l2))) as Hrev.
  { intros Hk Hr. destruct (Hp Hk) as [Hp1 _].
    eapply (ring_insert_reverse g'); [done|exact Hp1|exact (Hp3 Hk)|]. by eapply ring_remove_reverse. }
  destruct k; cbn [shape succ pred] in *; [| |].
  - eapply (line_insert g); [done|exact Hn1|exact Hn3|]. by eapply line_remove.
  - destruct Hs. split; [|by apply Hrev]. eapply (line_insert g); [done|exact Hn1|exact Hn3|]. by eapply line_remove.
  - destruct Hs. split; [|by apply Hrev]. eapply (ring_insert g); [done|exact Hn1|exact Hn3|]. by eapply ring_remove.
Qed.

Ltac replaced :=
  lazymatch goal with H : removing _ _ _ _ _ |- _ =>
    eapply (replaces_intro _ _ _ _ _ _ _ _ H);
    [ rewrite <- ?(assoc_L (++)); cbn [app]; neighbours; solve [run] | solve [neighbours; views] | pointwise
    | first [done | intros _; split; [solve [neighbours; views]|pointwise]] | written ]
  end.

(** What a replacement starts with: the new element is another one. *)
Lemma rep_others k h l1 b l2 a : removing k h l1 b l2 -> a ∉ l1 ++ b :: l2 ->
  forall c, c ∈ l1 ++ l2 -> alive h c /\ a <> c.
Proof.
  intros H Ha c Hc. destruct (rem_others _ _ _ _ _ H c Hc). split; [done|]. intros ->. apply Ha. set_solver.
Qed.

Lemma LL_REPLACE_ELEM_replaces h l1 b l2 a :
  removing LL h l1 b l2 -> a ∉ l1 ++ b :: l2 -> alive h a ->
  replaces LL (LL_REPLACE_ELEM2 (first (l1 ++ b :: l2) None) (Some b) (Some a)) h l1 b l2 a.
Proof.
  intros H Ha Hha. pose proof (rep_others _ _ _ _ _ _ H Ha) as Hne. destruct (H) as [Hd Hl Hs].
  unfold LL_REPLACE_ELEM2. cbn [shape] in Hs. look a Hha. look_in b Hl. assert (a <> b) by set_solver.
  apply nexts_at in Hs as Hb. destruct l1 as [|d l _] using rev_ind; [simplify_eq; replaced|].
  look_in d Hl. destruct (first_some l d) as (c & Hc & Hin). assert (a <> d) by set_solver.
  assert (d <> b /\ c <> b) as [? ?] by (split; intros ->; apply NoDup_app in Hd as (_ & Hd & _); apply (Hd b); set_solver).
  rewrite <- !(assoc_L (++)) in Hd, Ha, Hl, Hs |- *. cbn [app] in *.
  pose proof (LL_before_new h l d (b :: l2) a (first l2 None) c Hd Ha Hl Hs (Hc [] None)) as Hw. apply nexts_at in Hs as Hn'.
  cbn [first] in Hn', Hw. rewrite Hc. simplify_eq. replaced.
Qed.

Lemma DL_REPLACE_ELEM_replaces h l1 b l2 a :
  removing DL h l1 b l2 -> a ∉ l1 ++ b :: l2 -> alive h a ->
  replaces DL (DL_REPLACE_ELEM2 (first (l1 ++ b :: l2) None) (Some b) (Some a)) h l1 b l2 a.
Proof.
  intros H Ha Hha. pose proof (rep_others _ _ _ _ _ _ H Ha) as Hne. destruct (H) as [Hd Hl [Hs Hr]].
  unfold DL_REPLACE_ELEM2. look a Hha. look_in b Hl. assert (a <> b) by set_solver.
  apply nexts_at in Hs as Hb. apply ring_reverse_at in Hr as Hb'.
  assert (Hnb : forall c, c ∈ l1 ++ l2 -> b <> c) by (intros c Hc; by destruct (rem_others _ _ _ _ _ H c Hc)).
  destruct l1 as [|d l _] using rev_ind.
  - destruct l2 as [|d l2]; [simplify_eq; replaced|].
    destruct (final_some d l2) as (z & Hz & Hin). rewrite app_nil_r in Hb'. cbn [first final app] in Hb, Hb', Hnb.
    rewrite Hz in Hb'. look_in d Hl. assert (b <> d) by set_solver. assert (a <> d) by set_solver. simplify_eq. replaced.
  - rewrite (assoc_L (++)), final_snoc in Hb'. look_in d Hl. destruct (first_some l d) as (c & Hc & Hin).
    assert (b <> d) by set_solver. assert (b <> c) by set_solver. assert (a <> d) by set_solver.
    rewrite <- !(assoc_L (++)). cbn [app]. rewrite Hc. look_in c Hl. assert (a <> c) by set_solver. destruct l2 as [|e l2].
    + simplify_eq. replaced.
    + look_in e Hl. assert (b <> e) by set_solver. assert (a <> e) by set_solver. cbn [first] in Hb. simplify_eq. replaced.
Qed.

Lemma CDL_REPLACE_ELEM_replaces h l1 b l2 a :
  removing CDL h l1 b l2 -> a ∉ l1 ++ b :: l2 -> alive h a ->
  replaces CDL (CDL_REPLACE_ELEM2 (first (l1 ++ b :: l2) None) (Some b) (Some a)) h l1 b l2 a.
Proof.
  intros H Ha Hha. pose proof (rep_others _ _ _ _ _ _ H Ha) as Hne. destruct (H) as [Hd Hl [Hs Hr]].
  unfold CDL_REPLACE_ELEM2. look a Hha. look_in b Hl. assert (a <> b) by set_solver.
  apply ring_at in Hs as Hb. apply ring_reverse_at in Hr as Hb'.
  assert (Hnb : forall c, c ∈ l1 ++ l2 -> b <> c) by (intros c Hc; by destruct (rem_others _ _ _ _ _ H c Hc)).
  destruct l1 as [|c l1].
  - destruct l2 as [|d l2]; [simplify_eq; replaced|].
    destruct (final_some d l2) as (z & Hz & Hin). rewrite app_nil_r in Hb, Hb'. cbn [first final app] in Hb, Hb', Hnb.
    rewrite Hz in Hb'. look_in d Hl. look_in z Hl. assert (b <> d) by set_solver.
    assert (a <> z) by set_solver. assert (a <> d) by set_solver. simplify_eq. replaced.
  - assert (b <> c) by set_solver. destruct (final_some c l1) as (z & Hz & Hin).
    rewrite final_app in Hb'. cbn [final] in Hb'. rewrite Hz in Hb'. look_in z Hl. assert (b <> z) by set_solver.
    assert (a <> z) by set_solver. destruct l2 as [|d l2].
    + cbn [first app] in Hb. look_in c Hl. assert (a <> c) by set_solver. simplify_eq. replaced.
    + look_in d Hl. assert (b <> d) by set_solver. assert (a <> d) by set_solver. cbn [first app] in Hb.
      simplify_eq. replaced.
Qed.

(** *** Loops *)

(** Each step of a loop leads to the next element, and the last one to NULL. *)
Fixpoint walks (step : pointer -> M pointer) h l : Prop :=
  match l with [] => True | a :: l => step (Some a) h = Ok (first l None, h) /\ walks step h l end.

Lemma walks_line h l : line (nx h) l -> walks next_of h l.
Proof.
  unfold line. induction l as [|a l IH]; [done|]. intros [Ha Hl]. split; [|by apply IH]. by apply next_run.
Qed.

Definition around (head el : pointer) : @M A pointer :=
  n ← next_of el; if eq_ptr n head then mret None else next_of el.

Lemma walks_around h l b : nexts (nx h) l (Some b) -> b ∉ tail l -> walks (around (Some b)) h l.
Proof.
  induction l as [|a l IH]; [done|]. intros [Ha Hl] Hb. split.
  - unfold around. erewrite bind_run by (by apply next_run). unfold eq_ptr. destruct l as [|c l]; cbn in *.
    + by rewrite bool_decide_true.
    + rewrite bool_decide_false by (intros [= ->]; set_solver). by erewrite next_run.
  - apply IH; [done|]. destruct l; set_solver.
Qed.

Lemma walks_ring h l : NoDup l -> ring (nx h) l -> walks (around (first l None)) h l.
Proof. destruct l as [|b l]; [done|]. intros [Hb _]%NoDup_cons Hr. by apply walks_around. Qed.

Lemma for_loop_run {X} step h (g : X -> A -> bool * X) body (L : list (addr * A)) fuel s :
  (forall s a x, (a, x) ∈ L -> body s (Some a) h = Ok (g s x, h)) ->
  walks step h L.*1 -> (length L <= fuel)%nat ->
  for_loop step body fuel (first L.*1 None) s h = Ok (loop_over g L s, h).
Proof.
  intros Hb. revert fuel s. induction L as [|[a x] L IH]; intros fuel s Hw Hf.
  { by destruct fuel. }
  destruct fuel as [|fuel]; [cbn in Hf; lia|]. destruct Hw as [Ha Hw]. cbn.
  erewrite bind_run by (apply (Hb s a x); set_solver). destruct (g s x) as [[|] s']; [done|].
  erewrite bind_run by exact Ha. apply IH; [|done|cbn in Hf; lia]. intros; apply Hb; set_solver.
Qed.

Lemma list_at_length k h head L : list_at k h head L -> (length L <= size h)%nat.
Proof.
  intros H. rewrite <- (length_fmap fst). apply alive_length; [apply H|by eapply list_at_alive].
Qed.

Lemma list_at_load k h head L a x : list_at k h head L -> (a, x) ∈ L -> us h a = Some x.
Proof. intros (_ & Hu & _) Hin. eapply Forall_forall in Hu; [|exact Hin]. done. Qed.

Lemma FOREACH_run {X} k h head L (g : X -> A -> bool * X) body s :
  list_at k h head L -> (forall s a x, us h a = Some x -> body s (Some a) h = Ok (g s x, h)) ->
  FOREACH k head body s h = Ok (loop_over g L s, h).
Proof.
  intros H Hb. pose proof (list_at_length _ _ _ _ H). pose proof H as (Hd & _ & -> & Hs).
  assert (forall step, walks step h L.*1 ->
    with_fuel (fun fuel => for_loop step body fuel (first L.*1 None) s) h = Ok (loop_over g L s, h)) as Hloop.
  { intros step Hw. apply for_loop_run; [|done|done]. intros s' a x Hin. by apply Hb, (list_at_load _ _ _ _ _ _ H). }
  destruct k; apply Hloop.
  - by apply walks_line.
  - apply walks_line, Hs.
  - apply (walks_ring h L.*1); [done|apply Hs].
Qed.

Lemma reader_run {X} (g : X -> A -> bool * X) h s a x : us h a = Some x -> reader g s (Some a) h = Ok (g s x, h).
Proof.
  unfold us. intros (d & Hd & ->)%fmap_Some. unfold reader. by erewrite bind_run by (by apply load_run).
Qed.

Lemma cmp_run cmp h a b x y : us h a = Some x -> us h b = Some y -> cmp_at cmp (Some a) (Some b) h = Ok (cmp x y, h).
Proof.
  unfold us. intros (d & Hd & ->)%fmap_Some (e & He & ->)%fmap_Some. unfold cmp_at.
  erewrite bind_run by (by apply load_run). by erewrite bind_run by (by apply load_run).
Qed.

Lemma loop_over_find (P : A -> bool) L : loop_over (fun _ x => (P x, tt)) L tt = (found P L, tt).
Proof. unfold found. induction L as [|[a x] L IH]; [done|]. cbn. by destruct (P x). Qed.

Lemma loop_over_count (L : list (addr * A)) (z : Z) : loop_over (fun counter _ => (false, counter + 1)) L z = (None, z + Z.of_nat (length L)).
Proof. revert z. induction L as [|[a x] L IH]; intros z; cbn; [f_equal; lia|]. rewrite IH. f_equal. lia. Qed.

Lemma COUNT_run k h head L : list_at k h head L -> COUNT k head h = Ok (Z.of_nat (length L), h).
Proof.
  intros H.
  assert (Hf : FOREACH k head (fun counter _ => mret (false, counter + 1)) 0 h =
               Ok (loop_over (fun counter _ => (false, counter + 1)) L 0, h)) by (by apply FOREACH_run).
  rewrite loop_over_count in Hf. destruct k; (etransitivity; [apply (bind_run _ _ _ _ _ Hf)|done]).
Qed.

Lemma SEARCH_run k h head L cmp b y : list_at k h head L -> us h b = Some y ->
  SEARCH k cmp head (Some b) h = Ok (found (fun x => cmp x y =? 0) L, h).
Proof.
  intros H Hb.
  assert (Hf : FOREACH k head (fun (_ : ()) out => c ← cmp_at cmp out (Some b); mret (c =? 0, tt)) tt h =
               Ok (loop_over (fun _ x => (cmp x y =? 0, tt)) L tt, h)).
  { apply FOREACH_run; [exact H|]. intros _ a x Ha. by erewrite bind_run by (by apply cmp_run). }
  rewrite loop_over_find in Hf. destruct k; (etransitivity; [apply (bind_run _ _ _ _ _ Hf)|done]).
Qed.

Lemma SEARCH_SCALAR_run k h head L field v : list_at k h head L ->
  SEARCH_SCALAR k head field v h = Ok (found (fun x => field x =? v) L, h).
Proof.
  intros H.
  assert (Hf : FOREACH k head (reader (fun (_ : ()) x => (field x =? v, tt))) tt h =
               Ok (loop_over (fun _ x => (field x =? v, tt)) L tt, h)).
  { apply FOREACH_run; [exact H|]. intros s a x. apply (reader_run (fun (_ : ()) x => (field x =? v, tt))). }
  rewrite loop_over_find in Hf. destruct k; (etransitivity; [apply (bind_run _ _ _ _ _ Hf)|done]).
Qed.

(** *** Bounds and insertions in order *)

Lemma split_bound_app cmp (like : A) L : (split_bound cmp like L).1 ++ (split_bound cmp like L).2 = L.
Proof.
  induction L as [|e L IH]; [done|]. cbn. case_match; [done|]. destruct (split_bound cmp like L). cbn in *. by rewrite IH.
Qed.

Lemma lower_bound_run (cmp : A -> A -> Z) h b (L : list (addr * A)) stop a x fuel :
  nexts (nx h) (b :: L.*1) stop -> (forall c, c ∈ L.*1 -> Some c <> stop) ->
  (forall c y, (c, y) ∈ L -> us h c = Some y) -> us h a = Some x -> (length L <= fuel)%nat ->
  lower_bound_loop cmp fuel stop (Some b) (Some a) h = Ok (final (Some b) (split_bound cmp x L).1.*1, h).
Proof.
  intros Hn Hs Hu Ha. revert b fuel Hn. induction L as [|[c y] L IH]; intros b fuel [Hb Hn] Hf.
  - destruct fuel; cbn [lower_bound_loop]; erewrite bind_run by (by apply next_run); eval_ptrs;
      cbn; unfold eq_ptr; by rewrite bool_decide_true.
  - destruct fuel as [|fuel]; [cbn in Hf; lia|]. cbn [lower_bound_loop]. cbn [fmap list_fmap first] in *.
    erewrite bind_run by (by apply next_run). unfold eq_ptr.
    rewrite bool_decide_false by (apply Hs; set_solver). cbn [negb].
    erewrite bind_run by (apply (cmp_run _ _ _ _ y x); [apply Hu; left|exact Ha]). cbn [split_bound snd].
    destruct (cmp y x >=? 0); [done|]. rewrite IH; [by destruct (split_bound cmp x L)| | |done|cbn in Hf; lia].
    + intros d Hd. apply Hs. set_solver.
    + intros d z Hd. apply Hu. set_solver.
Qed.

Lemma LOWER_BOUND_run k (cmp : A -> A -> Z) h head L a x : list_at k h head L -> us h a = Some x ->
  LOWER_BOUND k cmp head (Some a) h = Ok (final None (split_bound cmp x L).1.*1, h).
Proof.
  intros H Ha. pose proof (list_at_length _ _ _ _ H). pose proof H as (Hd & _ & -> & Hs).
  assert (forall stop, nexts (nx h) L.*1 stop -> (stop = None \/ stop = first L.*1 None) ->
    (if is_null (first L.*1 None) then mret None
     else c ← cmp_at cmp (first L.*1 None) (Some a);
          if c >=? 0 then mret None
          else with_fuel (fun fuel => lower_bound_loop cmp fuel stop (first L.*1 None) (Some a))) h =
    Ok (final None (split_bound cmp x L).1.*1, h)) as Hrun.
  { intros stop Hn Hstop. destruct L as [|[b y] L]; [done|]. cbn [fmap list_fmap first fst is_null] in *.
    erewrite bind_run by (apply (cmp_run _ _ _ _ y x); [apply (list_at_load _ _ _ _ _ _ H); left|exact Ha]).
    cbn [split_bound snd]. destruct (cmp y x >=? 0); [done|]. unfold with_fuel.
    rewrite (lower_bound_run _ _ _ L _ _ x);
      [by destruct (split_bound cmp x L)|exact Hn| | |done|cbn in *; lia].
    - intros c Hc. destruct Hstop as [->| ->]; [done|]. intros [= ->]. apply NoDup_cons in Hd as [Hd _]. done.
    - intros c z Hc. apply (list_at_load _ _ _ _ _ _ H). set_solver. }
  destruct k; apply Hrun; try (by left); try (by right); apply Hs.
Qed.

(** A list on the heap, with its elements. *)
Lemma holds_writes l h h' (L : list (addr * A)) : writes l h h' ->
  Forall (fun e => us h e.1 = Some e.2) L -> Forall (fun e => us h' e.1 = Some e.2) L.
Proof. intros [Hus _] Hu. eapply Forall_impl; [exact Hu|]. intros e He. by rewrite Hus. Qed.

Lemma NoDup_insert {T} (l1 l2 : list T) x : NoDup (l1 ++ l2) -> x ∉ l1 ++ l2 -> NoDup (l1 ++ x :: l2).
Proof. intros. apply (NoDup_Permutation_proper (x :: l1 ++ l2)); [by rewrite Permutation_middle|]. by constructor. Qed.

Lemma NoDup_remove {T} (l1 l2 : list T) x : NoDup (l1 ++ x :: l2) -> NoDup (l1 ++ l2) /\ x ∉ l1 ++ l2.
Proof.
  intros H. apply (NoDup_Permutation_proper _ (x :: l1 ++ l2)) in H; [|by rewrite Permutation_middle].
  by apply NoDup_cons in H as [? ?].
Qed.

Lemma yields_inserts k (r : M pointer) h head L1 L2 a x :
  list_at k h head (L1 ++ L2) -> us h a = Some x -> a ∉ (L1 ++ L2).*1 ->
  (inserting k h L1.*1 a L2.*1 -> inserts k r h L1.*1 a L2.*1) ->
  yields k r h (L1 ++ (a, x) :: L2) (a :: (L1 ++ L2).*1).
Proof.
  intros H Hx Ha Hr. pose proof (list_at_alive _ _ _ _ H) as Hl. destruct H as (Hd & Hu & -> & Hs).
  rewrite !fmap_app in *.
  destruct Hr as (h' & Hrun & Hs' & Hw); [by split; try done; eapply alive_us|].
  eexists _, h'. split; [exact Hrun|]. split; [|exact Hw].
  unfold list_at. rewrite fmap_app. cbn. split; [by apply NoDup_insert|]. split; [|split; [done|exact Hs']].
  apply (holds_writes _ _ _ _ Hw). apply Forall_app in Hu as [Hu1 Hu2]. apply Forall_app. split; [done|]. by constructor.
Qed.

Lemma yields_removes k (r : M pointer) h head L1 b y L2 :
  list_at k h head (L1 ++ (b, y) :: L2) ->
  (removing k h L1.*1 b L2.*1 -> removes k r h L1.*1 b L2.*1) ->
  yields k r h (L1 ++ L2) (L1 ++ (b, y) :: L2).*1.
Proof.
  intros H Hr. pose proof (list_at_alive _ _ _ _ H) as Hl. destruct H as (Hd & Hu & -> & Hs).
  rewrite !fmap_app in *. cbn [fmap list_fmap fst] in *. apply Forall_app in Hu as [Hu1 Hu2].
  destruct Hr as (h' & Hrun & Hs' & Hw); [by split|].
  eexists _, h'. split; [exact Hrun|]. split; [|exact Hw].
  unfold list_at. rewrite fmap_app. split; [by eapply NoDup_remove|]. split; [|split; [done|exact Hs']].
  apply (holds_writes _ _ _ _ Hw). apply Forall_app. split; [done|]. by inversion Hu2.
Qed.

Lemma yields_replaces k (r : M pointer) h head L1 b y L2 a x :
  list_at k h head (L1 ++ (b, y) :: L2) -> us h a = Some x -> a ∉ (L1 ++ (b, y) :: L2).*1 ->
  (removing k h L1.*1 b L2.*1 -> a ∉ L1.*1 ++ b :: L2.*1 -> alive h a -> replaces k r h L1.*1 b L2.*1 a) ->
  yields k r h (L1 ++ (a, x) :: L2) (a :: (L1 ++ (b, y) :: L2).*1).
Proof.
  intros H Hx Ha Hr. pose proof (list_at_alive _ _ _ _ H) as Hl. destruct H as (Hd & Hu & -> & Hs).
  rewrite !fmap_app in *. cbn [fmap list_fmap fst] in *. apply Forall_app in Hu as [Hu1 Hu2].
  destruct Hr as (h' & Hrun & Hs' & Hw); [by split|done|by eapply alive_us|].
  eexists _, h'. split; [exact Hrun|]. split; [|exact Hw].
  unfold list_at. rewrite fmap_app. split; [|split; [|split; [done|exact Hs']]].
  - apply NoDup_insert; [by eapply NoDup_remove|]. set_solver.
  - apply (holds_writes _ _ _ _ Hw). apply Forall_app. split; [done|]. constructor; [done|]. by inversion Hu2.
Qed.

Lemma PREPEND_yields k h head L a x : list_at k h head L -> us h a = Some x -> a ∉ L.*1 ->
  yields k (PREPEND k head (Some a)) h ((a, x) :: L) (a :: L.*1).
Proof.
  intros H Hx Ha. pose proof H as (_ & _ & -> & _). apply (yields_inserts k _ h _ [] L a x H Hx Ha). cbn.
  destruct k; [apply LL_PREPEND_inserts|apply DL_PREPEND_inserts|apply CDL_PREPEND_inserts].
Qed.

Lemma APPEND_yields k h head L a x : list_at k h head L -> us h a = Some x -> a ∉ L.*1 ->
  yields k (APPEND k head (Some a)) h (L ++ [(a, x)]) (a :: L.*1).
Proof.
  intros H Hx Ha. pose proof H as (_ & _ & -> & _). rewrite <- (app_nil_r L) in H, Ha.
  pose proof (yields_inserts k (APPEND k (first L.*1 None) (Some a)) h _ L [] a x H Hx Ha) as Hy.
  rewrite app_nil_r in Hy. apply Hy.
  destruct k; [apply LL_APPEND_inserts|apply DL_APPEND_inserts|apply CDL_APPEND_inserts].
Qed.

Lemma PREPEND_ELEM_yields k h head L1 b y L2 a x :
  list_at k h head (L1 ++ (b, y) :: L2) -> us h a = Some x -> a ∉ (L1 ++ (b, y) :: L2).*1 ->
  yields k (PREPEND_ELEM k head (Some b) (Some a)) h (L1 ++ (a, x) :: (b, y) :: L2) (a :: (L1 ++ (b, y) :: L2).*1).
Proof.
  intros H Hx Ha. pose proof H as (_ & _ & -> & _). apply (yields_inserts k _ h _ L1 ((b, y) :: L2) a x H Hx Ha).
  rewrite fmap_app. cbn.
  destruct k; [apply LL_PREPEND_ELEM_inserts|apply DL_PREPEND_ELEM_inserts|apply CDL_PREPEND_ELEM_inserts].
Qed.

Lemma APPEND_ELEM_yields k h head L1 b y L2 a x :
  list_at k h head (L1 ++ (b, y) :: L2) -> us h a = Some x -> a ∉ (L1 ++ (b, y) :: L2).*1 ->
  yields k (APPEND_ELEM k head (Some b) (Some a)) h (L1 ++ (b, y) :: (a, x) :: L2) (a :: (L1 ++ (b, y) :: L2).*1).
Proof.
  intros H Hx Ha. pose proof H as (_ & _ & -> & _).
  rewrite (app_assoc L1 [(b, y)] L2 : L1 ++ (b, y) :: L2 = _) in H, Ha |- *.
  rewrite (app_assoc L1 [(b, y)] ((a, x) :: L2) : L1 ++ (b, y) :: _ = _).
  apply (yields_inserts k _ h _ (L1 ++ [(b, y)]) L2 a x H Hx Ha). rewrite !fmap_app. cbn.
  destruct k; [apply LL_APPEND_ELEM_inserts|apply DL_APPEND_ELEM_inserts|apply CDL_APPEND_ELEM_inserts].
Qed.

Lemma DELETE_yields k h head L1 b y L2 : list_at k h head (L1 ++ (b, y) :: L2) ->
  yields k (DELETE k head (Some b)) h (L1 ++ L2) (L1 ++ (b, y) :: L2).*1.
Proof.
  intros H. pose proof H as (_ & _ & -> & _). apply (yields_removes k _ h _ L1 b y L2 H). rewrite fmap_app. cbn.
  destruct k; [apply LL_DELETE_removes|apply DL_DELETE_removes|apply CDL_DELETE_removes].
Qed.

Lemma REPLACE_ELEM_yields k h head L1 b y L2 a x :
  list_at k h head (L1 ++ (b, y) :: L2) -> us h a = Some x -> a ∉ (L1 ++ (b, y) :: L2).*1 ->
  yields k (REPLACE_ELEM k head (Some b) (Some a)) h (L1 ++ (a, x) :: L2) (a :: (L1 ++ (b, y) :: L2).*1).
Proof.
  intros H Hx Ha. pose proof H as (_ & _ & -> & _). apply (yields_replaces k _ h _ L1 b y L2 a x H Hx Ha).
  rewrite fmap_app. cbn.
  destruct k; [apply LL_REPLACE_ELEM_replaces|apply DL_REPLACE_ELEM_replaces|apply CDL_REPLACE_ELEM_replaces].
Qed.

(** The element goes where [APPEND_ELEM] puts it after its lower bound. *)
Lemma INSERT_INORDER_yields k h head (cmp : A -> A -> Z) L a x : list_at k h head L -> us h a = Some x -> a ∉ L.*1 ->
  yields k (INSERT_INORDER k cmp head (Some a)) h
    ((split_bound cmp x L).1 ++ (a, x) :: (split_bound cmp x L).2) (a :: L.*1).
Proof.
  intros H Hx Ha. pose proof (LOWER_BOUND_run k cmp h head L a x H Hx) as Hb.
  pose proof (split_bound_app cmp x L) as Hsplit. destruct (split_bound cmp x L) as [L1 L2]. cbn [fst snd] in *. subst L.
  assert (alive h a) as Hha by (by eapply alive_us). pose proof H as (_ & _ & Hhead & _).
  destruct head as [b|].
  - assert (yields k (APPEND_ELEM k (Some b) (final None L1.*1) (Some a)) h (L1 ++ (a, x) :: L2) (a :: (L1 ++ L2).*1))
      as (hd & h' & Hr & Hy).
    { destruct L1 as [|[c z] L1 _] using rev_ind.
      - pose proof (PREPEND_yields k h _ ([] ++ L2) a x H Hx Ha) as Hp. destruct k; exact Hp.
      - rewrite fmap_app. cbn [fmap list_fmap fst]. rewrite final_snoc. rewrite <- !(app_assoc L1) in *.
        by apply (APPEND_ELEM_yields k h (Some b) L1 c z L2). }
    exists hd, h'. split; [|exact Hy]. destruct k; (etransitivity; [apply (bind_run _ _ _ _ _ Hb)|exact Hr]).
  - assert (L1 ++ L2 = []) as Hnil by (destruct (L1 ++ L2); done).
    apply app_eq_nil in Hnil as [-> ->]. destruct k.
    + by apply (PREPEND_yields LL h None []).
    + by apply (APPEND_yields DL h None []).
    + apply (yields_inserts CDL _ h None [] [] a x H Hx Ha). clear H. intros H. cbn [fmap list_fmap] in *. look a Hha.
      unfold INSERT_INORDER, CDL_INSERT_INORDER2. inserted.
Qed.

(** *** Deleting while walking *)

Lemma nexts_at_list f (K R : list (addr * A)) a x n : nexts f (K ++ (a, x) :: R).*1 n -> f a = Some (first R.*1 n).
Proof. rewrite fmap_app. apply nexts_at. Qed.

(** What [next_of] gives, and the step makes of it, is the next element. *)
Lemma next_step k h head K a x R : list_at k h head (K ++ (a, x) :: R) ->
  exists tmp, nx h a = Some tmp /\
    (match k with
     | CDL => fun el tmp2 => if eq_ptr el (final None (K ++ (a, x) :: R).*1) then None else tmp2
     | _ => fun _ tmp => tmp end) (Some a) tmp = first R.*1 None.
Proof.
  intros (Hd & _ & _ & Hs). destruct k; cbn [shape] in Hs.
  - apply nexts_at_list in Hs. by eexists.
  - destruct Hs as [Hs _]. apply nexts_at_list in Hs. by eexists.
  - destruct Hs as [Hs _]. apply nexts_at_list in Hs. eexists. split; [exact Hs|]. cbn. unfold eq_ptr.
    rewrite fmap_app in *. cbn [fmap list_fmap fst] in *. rewrite final_app. cbn [final].
    destruct R as [|[b y] R]; cbn [fmap list_fmap fst first final] in *; [by rewrite bool_decide_true|].
    rewrite bool_decide_false; [done|]. apply NoDup_app in Hd as (_ & _ & [Hd _]%NoDup_cons).
    intros He. symmetry in He. destruct (final_some b R.*1) as (z & Hz & Hin). rewrite Hz in He. naive_solver.
Qed.

Lemma writes_mono (l l' : list addr) h h' : writes l h h' -> l ⊆ l' -> writes l' h h'.
Proof. intros [Hu Hf] Hl. split; [done|]. intros a Ha. apply Hf. set_solver. Qed.

Lemma writes_trans l l' h h1 h2 : writes l h h1 -> writes l' h1 h2 -> l' ⊆ l -> writes l h h2.
Proof.
  intros [Hu1 Hf1] [Hu2 Hf2] Hl. split; intros a; [by rewrite Hu2|]. intros Ha. rewrite Hf2 by set_solver. auto.
Qed.

Lemma delete_if_run k P h head K a x R : list_at k h head (K ++ (a, x) :: R) ->
  exists head' h', delete_if k P head (Some a) h = Ok ((false, head'), h') /\
    list_at k h' head' (K ++ (if P x then [] else [(a, x)]) ++ R) /\ writes (K ++ (a, x) :: R).*1 h h'.
Proof.
  intros H. assert (us h a = Some x) as Hx by (apply (list_at_load _ _ _ _ _ _ H); set_solver).
  unfold us in Hx. apply fmap_Some in Hx as (d & Hd & ->). unfold delete_if.
  destruct (P (user d)) eqn:E.
  - destruct (DELETE_yields k h head K a (user d) R H) as (head' & h' & Hr & Hl & Hw). exists head', h'.
    split; [|done]. erewrite bind_run by (by apply load_run). rewrite E. by erewrite bind_run by exact Hr.
  - exists head, h. split; [|done]. erewrite bind_run by (by apply load_run). by rewrite E.
Qed.

Lemma for_safe_run k P (step : pointer -> pointer -> pointer) : forall R fuel K h head,
  list_at k h head (K ++ R) -> (length R <= fuel)%nat ->
  step = (match k with
          | CDL => fun el tmp2 => if eq_ptr el (final None (K ++ R).*1) then None else tmp2
          | _ => fun _ tmp => tmp end) \/ R = [] ->
  exists head' h', for_safe step (delete_if k P) fuel (first R.*1 None) head h = Ok ((None, head'), h') /\
    list_at k h' head' (K ++ List.filter (fun e => negb (P e.2)) R) /\ writes (K ++ R).*1 h h'.
Proof.
  intros R. induction R as [|[a x] R IH]; intros fuel K h head H Hf Hstep.
  { exists head, h. split; [by destruct fuel|done]. }
  destruct fuel as [|fuel]; [cbn in Hf; lia|]. destruct Hstep as [Hstep|]; [|done].
  destruct (next_step _ _ _ _ _ _ _ H) as (tmp & Htmp & Hnext). rewrite <- Hstep in Hnext.
  destruct (delete_if_run k P _ _ _ _ _ _ H) as (head1 & h1 & Hr1 & Hl1 & Hw1).
  rewrite (assoc_L (++)) in Hl1.
  destruct (IH fuel _ _ _ Hl1) as (head' & h' & Hr & Hl & Hw); [cbn in Hf; lia| |].
  - destruct R as [|e R]; [by right|left]. rewrite Hstep. destruct k; [done..|].
    rewrite !fmap_app. cbn [fmap list_fmap]. rewrite !final_app. by destruct (P x).
  - exists head', h'. split; [|split].
    + cbn [fmap list_fmap fst first for_safe not_null is_null negb]. erewrite bind_run by (by apply next_run).
      erewrite bind_run by exact Hr1. cbn. rewrite Hnext. exact Hr.
    + cbn. destruct (P x); cbn in *; by rewrite ?app_nil_r, <- ?(assoc_L (++)) in Hl.
    + eapply writes_trans; [exact Hw1|exact Hw|]. destruct (P x); rewrite !fmap_app; set_solver.
Qed.

Lemma FOREACH_SAFE_run k P h head L : list_at k h head L ->
  exists head' h', FOREACH_SAFE k head (delete_if k P) head h = Ok ((None, head'), h') /\
    list_at k h' head' (List.filter (fun e => negb (P e.2)) L) /\ writes L.*1 h h'.
Proof.
  intros H. pose proof (list_at_length _ _ _ _ H) as Hf. pose proof H as (_ & _ & Hhead & Hs).
  destruct (for_safe_run k P _ L (size h) [] h head H Hf (or_introl eq_refl))
    as (head' & h' & Hr & Hl & Hw).
  exists head', h'. split; [|done]. rewrite <- Hhead in Hr. destruct k; [exact Hr..|].
  cbn [FOREACH_SAFE]. unfold CDL_FOREACH_SAFE2. destruct L as [|[b y] L]; cbn in Hhead; subst head; [exact Hr|].
  cbn [not_null is_null negb]. destruct Hs as [_ Hs]. apply (ring_reverse_at _ []) in Hs. rewrite app_nil_r in Hs.
  by erewrite bind_run by (by apply prev_run).
Qed.

(** *** Two lists *)

Lemma line_app f f' l1 l2 : NoDup (l1 ++ l2) ->
  (forall c, c ∈ l1 ++ l2 -> f' c = if decide (final None l1 = Some c) then Some (first l2 None) else f c) ->
  line f l1 -> line f l2 -> line f' (l1 ++ l2).
Proof.
  unfold line. rewrite nexts_app. intros (Hd1 & Hd & Hd2)%NoDup_app Hf H1 H2. split.
  - eapply nexts_end; [done| |exact H1]. intros c Hc. apply Hf. set_solver.
  - eapply nexts_ext; [|exact H2]. intros c Hc. rewrite Hf by set_solver. rewrite decide_False; [done|].
    intros [?|?]%final_elem; set_solver.
Qed.

Lemma ring_app f f' a1 l1 a2 l2 : NoDup ((a1 :: l1) ++ (a2 :: l2)) ->
  (forall c, c ∈ (a1 :: l1) ++ (a2 :: l2) ->
     f' c = if decide (a1 = c) then Some (final (Some a2) l2)
            else if decide (a2 = c) then Some (final (Some a1) l1) else f c) ->
  ring f (reverse (a1 :: l1)) -> ring f (reverse (a2 :: l2)) ->
  ring f' (reverse ((a1 :: l1) ++ (a2 :: l2))).
Proof.
  intros (Hd1 & Hd & Hd2)%NoDup_app Hf. unfold ring. rewrite reverse_app, nexts_app, first_app.
  assert (forall n l a, first (reverse (a :: l)) n = final (Some a) l) as Hfirst.
  { intros n l a. rewrite first_default, first_reverse. cbn [final]. by destruct (final_some a l) as (z & -> & _). }
  rewrite !Hfirst. intros H1 H2. split.
  - eapply nexts_end; [by rewrite reverse_Permutation| |exact H2]. intros c Hc. rewrite elem_of_reverse in Hc.
    rewrite final_reverse. cbn [first]. rewrite Hf by set_solver.
    rewrite (decide_False (P := a1 = c)) by (intros ->; apply (Hd c); set_solver). by repeat case_decide; simplify_eq.
  - eapply nexts_end; [by rewrite reverse_Permutation| |exact H1]. intros c Hc. rewrite elem_of_reverse in Hc.
    rewrite final_reverse. cbn [first]. rewrite Hf by set_solver.
    rewrite (decide_False (P := a2 = c)) by (intros ->; apply (Hd c); set_solver). by repeat case_decide; simplify_eq.
Qed.

Lemma LL_before_last h b l z : NoDup (b :: l) -> Forall (alive h) (b :: l) -> line (nx h) (b :: l) ->
  final (Some b) l = Some z -> with_fuel (fun fuel => before fuel None (Some b)) h = Ok (Some z, h).
Proof.
  intros Hd Hl Hs Hz. destruct l as [|z' l _] using rev_ind.
  - injection Hz as <-. by apply (LL_before h [] b []).
  - rewrite final_snoc in Hz. injection Hz as <-. by apply (LL_before h (b :: l) z' [] b).
Qed.

Lemma LL_CONCAT_yields h head1 head2 L1 L2 :
  list_at LL h head1 L1 -> list_at LL h head2 L2 -> NoDup (L1 ++ L2).*1 ->
  yields LL (LL_CONCAT2 head1 head2) h (L1 ++ L2) (L1 ++ L2).*1.
Proof.
  intros H1 H2 Hd. pose proof (list_at_alive _ _ _ _ H1) as Hl1. pose proof (list_at_alive _ _ _ _ H2) as Hl2.
  destruct H1 as (Hd1 & Hu1 & -> & Hs1). destruct L1 as [|[b y] L1].
  { exists head2, h. by split. }
  destruct H2 as (Hd2 & Hu2 & -> & Hs2), (final_some b L1.*1) as (z & Hz & Hin). cbn [fmap list_fmap fst] in *.
  pose proof (LL_before_last h b L1.*1 z Hd1 Hl1 Hs1 Hz) as Hwalk. look_in z Hl1. rewrite fmap_app in *.
  cbn [fmap list_fmap fst] in *.
  assert (writes (b :: L1.*1 ++ L2.*1) h (with_next h z (first L2.*1 None))) as Hw by written.
  eexists _, _. split; [unfold LL_CONCAT2; cbn [first]; run|]. split; [|exact Hw].
  unfold list_at. rewrite fmap_app. cbn [fmap list_fmap fst]. split; [exact Hd|]. split; [|split; [done|]].
  - apply (holds_writes _ _ _ _ Hw). by apply Forall_app.
  - cbn [shape fmap list_fmap fst]. apply (line_app (nx h) _ (b :: L1.*1) L2.*1 Hd); [|done|done]. intros c Hc. rewrite nx_with_next. cbn [final].
    rewrite Hz. destruct (decide (z = c)) as [->|Hne].
    + rewrite decide_True by done. by views.
    + by rewrite decide_False by congruence.
Qed.

Lemma DL_CONCAT_yields h head1 head2 L1 L2 :
  list_at DL h head1 L1 -> list_at DL h head2 L2 -> NoDup (L1 ++ L2).*1 ->
  yields DL (DL_CONCAT2 head1 head2) h (L1 ++ L2) (L1 ++ L2).*1.
Proof.
  intros H1 H2 Hd. pose proof (list_at_alive _ _ _ _ H1) as Hl1. pose proof (list_at_alive _ _ _ _ H2) as Hl2.
  destruct L2 as [|[d x] L2].
  { rewrite app_nil_r. destruct H2 as (_ & _ & -> & _). by exists head1, h. }
  destruct L1 as [|[b y] L1].
  { destruct H1 as (_ & _ & -> & _). destruct H2 as (? & ? & -> & ?). by exists (Some d), h. }
  destruct H1 as (Hd1 & Hu1 & -> & Hs1 & Hr1), H2 as (Hd2 & Hu2 & -> & Hs2 & Hr2).
  destruct (final_some b L1.*1) as (z & Hz & Hin), (final_some d L2.*1) as (w & Hw & Hinw).
  rewrite fmap_app in *. cbn [fmap list_fmap fst] in *. look_in b Hl1. look_in z Hl1. look_in d Hl2.
  pose proof (ring_reverse_at _ [] _ _ Hr1) as Hb. pose proof (ring_reverse_at _ [] _ _ Hr2) as Hb'.
  rewrite app_nil_r, Hz in Hb. rewrite app_nil_r, Hw in Hb'. assert (b <> d) by (intros ->; apply NoDup_cons in Hd as [Hd _]; set_solver).
  simplify_eq. set (h' := with_prev (with_next (with_prev h d (Some z)) z (Some d)) b (Some w)).
  assert (writes ((b :: L1.*1) ++ d :: L2.*1) h h') as Hwr by (unfold h'; written).
  exists (Some b), h'. split; [|split; [|exact Hwr]].
  { unfold DL_CONCAT2. cbn [first]. run. }
  unfold list_at. rewrite fmap_app. cbn [fmap list_fmap fst]. split; [exact Hd|]. split; [|split; [done|split]].
  - apply (holds_writes _ _ _ _ Hwr). by apply Forall_app.
  - apply (line_app (nx h) _ (b :: L1.*1) (d :: L2.*1) Hd); [|done|done]. intros c Hc. unfold h'. rewrite_views.
    cbn [final first]. rewrite Hz. destruct (decide (z = c)) as [->|Hne].
    + rewrite decide_True by done. by views.
    + by rewrite decide_False by congruence.
  - apply (ring_app (pv h) _ b L1.*1 d L2.*1 Hd); [|done|done]. intros c Hc. unfold h'. rewrite_views.
    rewrite Hz, Hw. repeat case_decide; subst; by views.
Qed.

(** *** The macros on lists *)

Lemma split_bound_sorted (cmp : A -> A -> Z) a x L : orders cmp -> sorted cmp L ->
  sorted cmp ((split_bound cmp x L).1 ++ (a, x) :: (split_bound cmp x L).2).
Proof.
  intros [Ht Hf]. induction L as [|e L IH]; intros Hs; [repeat constructor|]. cbn [split_bound].
  apply StronglySorted_inv in Hs as [Hs He]. destruct (Z.geb_spec (cmp e.2 x) 0) as [Hge|Hlt].
  - constructor; [by constructor|]. constructor; [by apply Hf|]. eapply Forall_impl; [exact He|]. intros e' H'.
    cbn. eapply Ht; [apply Hf, Hge|exact H'].
  - specialize (IH Hs). pose proof (split_bound_app cmp x L) as Happ. destruct (split_bound cmp x L) as [L1 L2].
    cbn in *. constructor; [exact IH|]. subst L. apply Forall_app in He as [He1 He2]. apply Forall_app. split; [done|].
    constructor; [cbn; lia|done].
Qed.

(** C17: the macros of utlist do to the pointers what they say of the list, for all
    three kinds. On a list of elements on the heap, with another element that is not
    in it: the insertions at the ends, before and after an element, and in order put
    the new element there, which keeps a list in order when the comparison orders;
    replacing and deleting take an element out; joining two lists appends the second
    one; the count, the searches and the lower bound are those of the list; a loop
    goes over the elements in order until its body breaks; and a loop that deletes
    what it wants while it walks leaves the others. No macro writes to elements out
    of the list, nor changes what elements hold. *)
Theorem utlist_refines_lists (k : kind) (cmp : A -> A -> Z) h head (L : list (addr * A)) :
  list_at k h head L ->
  (forall a x, us h a = Some x -> a ∉ L.*1 ->
     yields k (PREPEND k head (Some a)) h ((a, x) :: L) (a :: L.*1) /\
     yields k (APPEND k head (Some a)) h (L ++ [(a, x)]) (a :: L.*1) /\
     (let L' := (split_bound cmp x L).1 ++ (a, x) :: (split_bound cmp x L).2 in
      yields k (INSERT_INORDER k cmp head (Some a)) h L' (a :: L.*1) /\
      (orders cmp -> sorted cmp L -> sorted cmp L')) /\
     forall L1 b y L2, L = L1 ++ (b, y) :: L2 ->
       yields k (PREPEND_ELEM k head (Some b) (Some a)) h (L1 ++ (a, x) :: (b, y) :: L2) (a :: L.*1) /\
       yields k (APPEND_ELEM k head (Some b) (Some a)) h (L1 ++ (b, y) :: (a, x) :: L2) (a :: L.*1) /\
       yields k (REPLACE_ELEM k head (Some b) (Some a)) h (L1 ++ (a, x) :: L2) (a :: L.*1)) /\
  (forall L1 b y L2, L = L1 ++ (b, y) :: L2 -> yields k (DELETE k head (Some b)) h (L1 ++ L2) L.*1) /\
  (forall concat head' L', CONCAT k = Some concat -> list_at k h head' L' -> (forall a, a ∈ L.*1 -> a ∉ L'.*1) ->
     yields k (concat head head') h (L ++ L') (L ++ L').*1) /\
  COUNT k head h = Ok (Z.of_nat (length L), h) /\
  (forall b y, us h b = Some y -> SEARCH k cmp head (Some b) h = Ok (found (fun x => cmp x y =? 0) L, h)) /\
  (forall field v, SEARCH_SCALAR k head field v h = Ok (found (fun x => field x =? v) L, h)) /\
  (forall b y, us h b = Some y ->
     LOWER_BOUND k cmp head (Some b) h = Ok (final None (split_bound cmp y L).1.*1, h)) /\
  (forall X (g : X -> A -> bool * X) s, FOREACH k head (reader g) s h = Ok (loop_over g L s, h)) /\
  (forall P, exists head' h', FOREACH_SAFE k head (delete_if k P) head h = Ok ((None, head'), h') /\
     list_at k h' head' (List.filter (fun e => negb (P e.2)) L) /\ writes L.*1 h h').
Proof.
  intros H. split; [|split; [|split; [|split; [|split; [|split; [|split; [|split]]]]]]].
  - intros a x Hx Ha. split; [by apply PREPEND_yields|]. split; [by apply APPEND_yields|]. split.
    + split; [by apply INSERT_INORDER_yields|]. apply split_bound_sorted.
    + intros L1 b y L2 ->. split; [by apply PREPEND_ELEM_yields|].
      split; [by apply APPEND_ELEM_yields|by eapply REPLACE_ELEM_yields].
  - intros L1 b y L2 ->. by apply DELETE_yields.
  - intros concat head' L' Hk H' Hd. assert (NoDup (L ++ L').*1) as Hnd.
    { rewrite fmap_app. apply NoDup_app. split; [apply H|]. split; [done|apply H']. }
    destruct k; [| |done]; injection Hk as <-; [by apply LL_CONCAT_yields|by apply DL_CONCAT_yields].
  - by apply COUNT_run.
  - intros b y. by apply SEARCH_run.
  - intros field v. by apply SEARCH_SCALAR_run.
  - intros b y. by apply LOWER_BOUND_run.
  - intros X g s. apply FOREACH_run; [exact H|]. intros s' a x. apply reader_run.
  - intros P. by apply FOREACH_SAFE_run.
Qed.
End refine.

(** Two elements around, and a third one that comes between them. *)
Definition two_of_three : gmap addr (@element Z) :=
  {[ 1%positive := Element (Some 2%positive) (Some 2%positive) 10;
     2%positive := Element (Some 1%positive) (Some 1%positive) 20;
     3%positive := Element None None 15 ]}.

Lemma two_of_three_list : list_at CDL two_of_three (Some 1%positive) [(1%positive, 10); (2%positive, 20)].
Proof.
  split; [by apply (bool_decide_unpack _)|]. split; [by repeat constructor|]. split; [done|].
  split; repeat constructor.
Qed.

Lemma utlist_refines_lists_witness :
  (exists h', INSERT_INORDER CDL Z.sub (Some 1%positive) (Some 3%positive) two_of_three = Ok (Some 1%positive, h') /\
     list_at CDL h' (Some 1%positive) [(1%positive, 10); (3%positive, 15); (2%positive, 20)] /\
     writes [3%positive; 1%positive; 2%positive] two_of_three h') /\
  (exists h', FOREACH_SAFE CDL (Some 1%positive) (delete_if CDL (fun x => x =? 10)) (Some 1%positive) two_of_three =
     Ok ((None, Some 2%positive), h') /\ list_at CDL h' (Some 2%positive) [(2%positive, 20)]).
Proof.
  destruct (utlist_refines_lists CDL Z.sub _ _ _ two_of_three_list) as (Hi & _ & _ & _ & _ & _ & _ & _ & Hs). split.
  - destruct (Hi 3%positive 15 eq_refl) as (_ & _ & (Hy & _) & _); [by apply (bool_decide_unpack _)|].
    destruct Hy as (hd & h' & Hr & Hl & Hw). pose proof Hl as (_ & _ & E & _). cbn in E. subst hd. by exists h'.
  - destruct (Hs (fun x => x =? 10)) as (hd & h' & Hr & Hl & _). pose proof Hl as (_ & _ & E & _). cbn in E. subst hd.
    by exists h'.
Defined.
