(* ===== verification/Utsort.v ===== *)
(** * The merge sorts of utlist and uthash

    [LL_SORT2], [DL_SORT2] and [CDL_SORT2] of src/include/internal/utlist.h sort a list
    in place, and so does [HASH_SRT] of src/include/internal/uthash.h with the list of
    all elements of a table: each pass over the list merges runs of [insize] elements,
    that the pass before has sorted, two by two, by changing the pointers, until one
    merge is enough. The four macros are one text, but for how they find the end of the
    list, the pointers that they set, and the type of their integers: [int], whose
    overflow is undefined, in utlist, and [unsigned] in uthash. The definitions take
    the macro as a parameter. UthashOrder has [HASH_SRT] on the handles. *)

From Stdlib Require Import Sorting.Sorted.
From S2P Require Import Prelude Links Utlist UtlistRefine.

(** The macros. The handles of uthash are linked both ways, with nothing before the
    first. *)
Inductive sorter := Sort_utlist (k : kind) | Sort_uthash.
Definition kd (v : sorter) : kind := match v with Sort_utlist k => k | Sort_uthash => DL end.

Section sort.
Context {A : Type} (cmp : A -> A -> Z).
Abbreviation heap := (gmap addr (@element A)).
Implicit Types (h : heap).

Definition num (v : sorter) (z : Z) : @M A Z := fun h =>
  match v with
  | Sort_utlist _ => if (INT_MIN <=? z) && (z <=? INT_MAX) then Ok (z, h) else Undefined
  | Sort_uthash => Ok (u32 z, h)
  end.

(** The element after [p] in the list, NULL at its end. *)
Definition advance (v : sorter) (oldhead p : pointer) : @M A pointer :=
  n ← next_of p;
  match v with
  | Sort_utlist CDL => if eq_ptr n oldhead then mret None else mret n
  | _ => mret n
  end.

(** [for (i = 0; i < insize; i++)]: the end of the first run, and its length. *)
Fixpoint run_end (fuel : nat) (v : sorter) (oldhead : pointer) (insize i psize : Z) (q : pointer)
    : @M A (pointer * Z) :=
  if i <? insize then
    psize ← num v (psize + 1);
    q ← advance v oldhead q;
    if is_null q then mret (q, psize)
    else
      i ← num v (i + 1);
      match fuel with O => diverges | S fuel => run_end fuel v oldhead insize i psize q end
  else mret (q, psize).

(** The local variables of a merge. *)
Record merging := Merging {
  ls_p : pointer; ls_q : pointer; ls_psize : Z; ls_qsize : Z; ls_list : pointer; ls_tail : pointer
}.

(** Only uthash tests [p] for NULL. *)
Definition take_p (v : sorter) (oldhead : pointer) (s : merging) : @M A (pointer * merging) :=
  p ← match v with
      | Sort_uthash => if not_null (ls_p s) then advance v oldhead (ls_p s) else mret (ls_p s)
      | _ => advance v oldhead (ls_p s)
      end;
  psize ← num v (ls_psize s - 1);
  mret (ls_p s, Merging p (ls_q s) psize (ls_qsize s) (ls_list s) (ls_tail s)).

Definition take_q (v : sorter) (oldhead : pointer) (s : merging) : @M A (pointer * merging) :=
  q ← advance v oldhead (ls_q s);
  qsize ← num v (ls_qsize s - 1);
  mret (ls_q s, Merging (ls_p s) q (ls_psize s) qsize (ls_list s) (ls_tail s)).

(** The next element of the result, from one of the two runs. *)
Definition choose (v : sorter) (oldhead : pointer) (s : merging) : @M A (pointer * merging) :=
  if ls_psize s =? 0 then take_q v oldhead s
  else if (ls_qsize s =? 0) || is_null (ls_q s) then take_p v oldhead s
  else
    c ← cmp_at cmp (ls_p s) (ls_q s);
    if c <=? 0 then take_p v oldhead s else take_q v oldhead s.

(** It goes to the end of the result. *)
Definition link (v : sorter) (e list tail : pointer) : @M A (pointer * pointer) :=
  list ← (if not_null tail then _ ← set_next tail e; mret list else mret e);
  _ ← match v with
      | Sort_utlist LL => mret tt
      | Sort_utlist _ => set_prev e tail
      | Sort_uthash => if not_null e then set_prev e tail else mret tt
      end;
  mret (list, e).

(** The sizes of uthash are not 0 when they are greater. *)
Fixpoint merge_loop (fuel : nat) (v : sorter) (oldhead : pointer) (s : merging) : @M A merging :=
  if (ls_psize s >? 0) || ((ls_qsize s >? 0) && not_null (ls_q s)) then
    match fuel with
    | O => diverges
    | S fuel =>
        '(e, s) ← choose v oldhead s;
        '(list, tail) ← link v e (ls_list s) (ls_tail s);
        merge_loop fuel v oldhead (Merging (ls_p s) (ls_q s) (ls_psize s) (ls_qsize s) list tail)
    end
  else mret s.

(** [while (p)]: the merges of one pass. *)
Fixpoint pass_loop (fuel : nat) (v : sorter) (oldhead : pointer) (insize : Z) (p list tail : pointer) (nmerges : Z)
    : @M A (pointer * pointer * Z) :=
  if not_null p then
    match fuel with
    | O => diverges
    | S fuel' =>
        nmerges ← num v (nmerges + 1);
        '(q, psize) ← with_fuel (fun fuel => run_end fuel v oldhead insize 0 0 p);
        s ← with_fuel (fun fuel => merge_loop fuel v oldhead (Merging p q psize insize list tail));
        pass_loop fuel' v oldhead insize (ls_q s) (ls_list s) (ls_tail s) nmerges
    end
  else mret (list, tail, nmerges).

(** The ends of the result. *)
Definition finish (v : sorter) (list tail : pointer) : @M A unit :=
  match v with
  | Sort_utlist LL | Sort_uthash => if not_null tail then set_next tail None else mret tt
  | Sort_utlist DL => _ ← set_prev list tail; set_next tail None
  | Sort_utlist CDL => _ ← set_prev list tail; set_next tail list
  end.

(** [while (looping)]: the head and the tail of the last result. *)
Fixpoint sort_loop (fuel : nat) (v : sorter) (insize : Z) (list : pointer) : @M A (pointer * pointer) :=
  '(list, tail, nmerges) ← with_fuel (fun fuel => pass_loop fuel v list insize list None None 0);
  _ ← finish v list tail;
  insize ← num v (insize * 2);
  if nmerges <=? 1 then mret (list, tail)
  else match fuel with O => diverges | S fuel => sort_loop fuel v insize list end.

Definition SORT2 (k : kind) (list : pointer) : @M A pointer :=
  if not_null list then
    '(list, _) ← with_fuel (fun fuel => sort_loop fuel (Sort_utlist k) 1 list); mret list
  else mret list.

Definition LL_SORT2 : pointer -> @M A pointer := SORT2 LL.
Definition DL_SORT2 : pointer -> @M A pointer := SORT2 DL.
Definition CDL_SORT2 : pointer -> @M A pointer := SORT2 CDL.

(** How the result is linked. *)
Definition sorter_shape (v : sorter) h (l : list addr) : Prop :=
  match v with
  | Sort_utlist k => shape k h l
  | Sort_uthash => line (nx h) l /\ nexts (pv h) (reverse l) None
  end.
Definition listed (v : sorter) h (head : pointer) (L : list (addr * A)) : Prop :=
  NoDup L.*1 /\ Forall (fun e => us h e.1 = Some e.2) L /\ head = first L.*1 None /\ sorter_shape v h L.*1.

(** ** Sorting lists *)

Implicit Types (L P Q T : list (addr * A)) (e : addr * A).

Definition le e e' : bool := cmp e.2 e'.2 <=? 0.

(** Two runs, merged: of equal elements those of the first run come first. *)
Fixpoint merge P : list (addr * A) -> list (addr * A) :=
  match P with
  | [] => fun Q => Q
  | p :: P' => fix merge_p Q :=
      match Q with
      | [] => p :: P'
      | q :: Q' => if le p q then p :: merge P' Q else q :: merge_p Q'
      end
  end.

(** One pass over a list, with runs of [n] elements, and the number of its merges. *)
Fixpoint pass (fuel n : nat) T : list (addr * A) :=
  match fuel, T with
  | S fuel, _ :: _ => merge (take n T) (take n (drop n T)) ++ pass fuel n (drop n (drop n T))
  | _, _ => []
  end.

Fixpoint merges (fuel n : nat) T : nat :=
  match fuel, T with S fuel, _ :: _ => S (merges fuel n (drop n (drop n T))) | _, _ => 0%nat end.

(** A reference: insertion sort. *)
Fixpoint insert e L : list (addr * A) :=
  match L with [] => [e] | e' :: L' => if le e e' then e :: L else e' :: insert e L' end.
Fixpoint isort L : list (addr * A) := match L with [] => [] | e :: L => insert e (isort L) end.

(** The runs of [n] elements of a list, each one sorted. *)
Inductive runs (n : nat) : list (addr * A) -> list (addr * A) -> Prop :=
| runs_nil : runs n [] []
| runs_last P : (length P <= n)%nat -> runs n P (isort P)
| runs_cons P L T : length P = n -> runs n L T -> runs n (P ++ L) (isort P ++ T).

(** What comes equal to [x], in the order of the list. *)
Definition equals (x : A) L : list (addr * A) :=
  List.filter (fun e => (cmp e.2 x <=? 0) && (cmp x e.2 <=? 0)) L.

(** ** The reference *)

Section ordered.
Hypothesis Hcmp : orders cmp.

Lemma le_trans e1 e2 e3 : le e1 e2 -> le e2 e3 -> le e1 e3.
Proof. unfold le. rewrite !Is_true_true, !Z.leb_le. destruct Hcmp. eauto. Qed.

Lemma not_le e e' : ~ le e e' -> le e' e.
Proof. unfold le. rewrite !Is_true_true, !Z.leb_le. intros. destruct Hcmp as [_ Hf]. apply Hf. lia. Qed.

Lemma merge_insert e P Q : merge (insert e P) Q = insert e (merge P Q).
Proof.
  revert Q. induction P as [|p P IHP]; intros Q.
  { induction Q as [|q Q IH]; [done|]. cbn in *. destruct (le e q); [done|]. by rewrite IH. }
  induction Q as [|q Q IHQ].
  { cbn. by destruct (le e p). }
  cbn [insert]. destruct (le e p) eqn:Eep; cbn [merge] in *; destruct (le p q) eqn:Epq; cbn [insert];
    rewrite ?Eep.
  - replace (le e q) with true; [done|]. symmetry. apply Is_true_true. eapply le_trans; by apply Is_true_true.
  - destruct (le e q); [done|]. cbn [insert] in IHQ. rewrite Eep in IHQ. cbn [merge] in IHQ. by rewrite IHQ.
  - f_equal. apply IHP.
  - replace (le e q) with false.
    + cbn [insert] in IHQ. rewrite Eep in IHQ. cbn [merge] in IHQ. by rewrite IHQ.
    + symmetry. apply Is_true_false. intros H. apply Is_true_false in Eep. apply Eep. eapply le_trans; [exact H|].
      apply not_le. by apply Is_true_false.
Qed.

(** Merging sorted runs is sorting them together. *)
Lemma merge_isort P Q : merge (isort P) (isort Q) = isort (P ++ Q).
Proof. induction P as [|p P IH]; [done|]. cbn [isort app]. by rewrite merge_insert, IH. Qed.
End ordered.
(** *** Permutations *)

Lemma insert_perm e L : insert e L ≡ₚ e :: L.
Proof. induction L as [|e' L IH]; [done|]. cbn. destruct (le e e'); [done|]. rewrite IH. apply Permutation_swap. Qed.

Lemma isort_perm L : isort L ≡ₚ L.
Proof. induction L as [|e L IH]; [done|]. cbn. by rewrite insert_perm, IH. Qed.

Lemma merge_perm P Q : merge P Q ≡ₚ P ++ Q.
Proof.
  revert Q. induction P as [|p P IHP]; intros Q; [done|]. induction Q as [|q Q IHQ]; [by rewrite app_nil_r|].
  cbn [merge] in *. destruct (le p q); cbn.
  - by rewrite IHP.
  - rewrite IHQ. apply Permutation_middle.
Qed.

Lemma pass_perm n fuel T : (0 < n)%nat -> (length T <= fuel)%nat -> pass fuel n T ≡ₚ T.
Proof.
  intros Hn. revert T. induction fuel as [|fuel IH]; intros T Hf; [by destruct T; [|cbn in Hf; lia]|].
  destruct T as [|e T]; [done|]. cbn [pass]. rewrite merge_perm, IH.
  - by rewrite <- (assoc_L (++)), !take_drop.
  - rewrite !length_drop. cbn in *. lia.
Qed.

(** *** Order *)

Section sorted.
Hypothesis Hcmp : orders cmp.

Lemma insert_sorted e L : sorted cmp L -> sorted cmp (insert e L).
Proof.
  induction L as [|e' L IH]; intros Hs; [repeat constructor|]. cbn. apply StronglySorted_inv in Hs as [Hs He].
  destruct (le e e') eqn:E.
  - unfold le in E. apply Z.leb_le in E. constructor; [by constructor|]. constructor; [done|].
    eapply Forall_impl; [exact He|]. intros e2 H2. cbn in *. destruct Hcmp. eauto.
  - constructor; [by apply IH|]. rewrite insert_perm. constructor; [|done]. cbn.
    pose proof (not_le Hcmp e e') as H. unfold le in *. rewrite !Is_true_true, !Z.leb_le in H. apply H. lia.
Qed.

Lemma isort_sorted L : sorted cmp (isort L).
Proof. induction L as [|e L IH]; [constructor|]. by apply insert_sorted. Qed.

(** An element goes before those that it comes equal to. *)
Lemma insert_equals x e L : equals x (insert e L) = equals x (e :: L).
Proof.
  unfold equals. induction L as [|e' L IH]; [done|]. cbn [insert]. destruct (le e e') eqn:E; [done|].
  cbn [List.filter] in *. rewrite IH. clear IH.
  destruct ((cmp e.2 x <=? 0) && (cmp x e.2 <=? 0)) eqn:Ee, ((cmp e'.2 x <=? 0) && (cmp x e'.2 <=? 0)) eqn:Ee'; try done.
  apply andb_true_iff in Ee as [H1 _], Ee' as [_ H2]. unfold le in E. destruct Hcmp as [Ht _].
  apply Z.leb_le in H1, H2. apply Z.leb_gt in E. specialize (Ht _ _ _ H1 H2). lia.
Qed.

Lemma isort_equals x L : equals x (isort L) = equals x L.
Proof.
  induction L as [|e L IH]; [done|]. cbn [isort]. rewrite insert_equals. unfold equals in *. cbn. by rewrite IH.
Qed.

(** *** Passes *)

Lemma merge_nil P : merge P [] = P.
Proof. by destruct P. Qed.

Lemma length_isort L : length (isort L) = length L.
Proof. by rewrite isort_perm. Qed.

Lemma pass_nil fuel n : pass fuel n [] = [].
Proof. by destruct fuel. Qed.

Lemma pass_step fuel n T :
  pass (S fuel) n T = merge (take n T) (take n (drop n T)) ++ pass fuel n (drop n (drop n T)).
Proof. destruct T; [|done]. by rewrite ?take_nil, ?drop_nil, ?take_nil, ?drop_nil, !pass_nil. Qed.

Lemma runs_length n L T : runs n L T -> length L = length T.
Proof. induction 1; rewrite ?length_app, ?length_isort; congruence. Qed.

(** A pass over sorted runs makes sorted runs of twice the length. *)
Lemma runs_pass n fuel L T : (0 < n)%nat -> runs n L T -> (length T <= fuel)%nat ->
  runs (2 * n) L (pass fuel n T).
Proof.
  intros Hn. revert L T. induction fuel as [|fuel IH]; intros L T Hr Hf.
  { pose proof (runs_length _ _ _ Hr). destruct T, L; cbn in *; try lia. constructor. }
  rewrite pass_step. destruct Hr as [|P HP|P L T HP Hr].
  - rewrite ?take_nil, ?drop_nil, ?take_nil, pass_nil. constructor.
  - rewrite take_ge, drop_ge by (rewrite length_isort; lia).
    rewrite ?take_nil, ?drop_nil, merge_nil, pass_nil, app_nil_r. constructor. lia.
  - rewrite take_app_length', drop_app_length' by (by rewrite length_isort).
    rewrite length_app, length_isort in Hf. destruct Hr as [|Q HQ|Q L T HQ Hr].
    + rewrite take_nil, drop_nil, merge_nil, pass_nil, !app_nil_r. constructor. lia.
    + rewrite take_ge, drop_ge by (rewrite length_isort; lia).
      rewrite pass_nil, app_nil_r, merge_isort by done. constructor. rewrite length_app. lia.
    + rewrite take_app_length', drop_app_length' by (by rewrite length_isort).
      rewrite merge_isort by done. rewrite (assoc_L (++) P). constructor; [rewrite length_app; lia|].
      apply IH; [done|]. rewrite length_app, length_isort in Hf. lia.
Qed.

Lemma runs_single L : runs 1 L L.
Proof. induction L as [|e L IH]; [constructor|]. by apply (runs_cons 1 [e]). Qed.

Lemma runs_whole n L T : runs n L T -> (length L <= n)%nat -> T = isort L.
Proof.
  intros [|P HP|P L' T' HP Hr] Hl; [done..|]. rewrite length_app in Hl. pose proof (runs_length _ _ _ Hr) as E.
  destruct L'; [|cbn in Hl; lia]. destruct T'; [|done]. by rewrite !app_nil_r.
Qed.
End sorted.

(** One merge is enough for a list of two runs, and no other list. *)
Lemma merges_nil fuel n : merges fuel n [] = 0%nat.
Proof. by destruct fuel. Qed.

Lemma merges_length fuel n T : (0 < n)%nat -> (length T <= fuel)%nat ->
  (merges fuel n T <= length T)%nat /\ (merges fuel n T <= 1 <-> length T <= 2 * n)%nat.
Proof.
  intros Hn. revert T. induction fuel as [|fuel IH]; intros T Hf.
  { destruct T; cbn in *; lia. }
  destruct T as [|e T]; [cbn; lia|]. cbn [merges]. set (T' := e :: T) in *.
  assert (length (drop n (drop n T')) <= fuel)%nat as Hle by (rewrite !length_drop; lia).
  destruct (IH _ Hle) as [H1 H2]. rewrite !length_drop in *.
  assert (0 < length T' - n - n -> merges fuel n (drop n (drop n T')) <> 0)%nat as Hpos.
  { destruct fuel as [|fuel']; [lia|]. rewrite <- !length_drop. destruct (drop n (drop n T')); cbn; lia. }
  assert (length T' - n - n = 0 -> merges fuel n (drop n (drop n T')) = 0)%nat as Hzero.
  { rewrite <- !length_drop. intros ->%nil_length_inv. apply merges_nil. }
  assert (0 < length T')%nat by (cbn; lia). lia.
Qed.

(** ** The macros on the heap *)

(** What follows the last element of the list that is being sorted. *)
Definition stop (v : sorter) (oldhead : pointer) : pointer := match kd v with CDL => oldhead | _ => None end.

Lemma num_run v z h : 0 <= z <= 2 ^ 30 -> num v z h = Ok (z, h).
Proof.
  intros Hz. destruct v; cbn [num].
  - by rewrite (proj2 (Z.leb_le _ _)), (proj2 (Z.leb_le _ _)) by (unfold INT_MIN, INT_MAX; lia).
  - unfold u32. by rewrite Z.mod_small by lia.
Qed.

Lemma advance_run v h old a (l : list addr) m : nx h a = Some (first l m) ->
  (kd v = CDL -> forall c, c ∈ l -> Some c <> old) ->
  exists p, advance v old (Some a) h = Ok (p, h) /\ (l <> [] \/ m = stop v old -> p = first l None).
Proof.
  intros Ha Hf. unfold advance. erewrite bind_run by (by apply next_run). destruct v as [[]|]; cbn [stop kd].
  1,2,4: eexists; split; [done|]; intros [Hl| ->]; [by destruct l|done].
  unfold eq_ptr. destruct l as [|b l]; cbn [first].
  - case_bool_decide; (eexists; split; [done|]); intros [|]; [done..|congruence].
  - rewrite bool_decide_false by (apply Hf; [done|set_solver]). by eexists.
Qed.

(** *** The first run *)

Lemma run_end_run v h old insize : insize <= 2 ^ 29 -> forall (l : list addr) fuel r i a,
  nexts (nx h) (a :: l) (stop v old) -> (kd v = CDL -> forall c, c ∈ l -> Some c <> old) ->
  0 <= i -> insize = i + 1 + Z.of_nat r -> (length l <= fuel)%nat ->
  run_end fuel v old insize i i (Some a) h = Ok ((first (drop r l) None, i + 1 + Z.of_nat (r `min` length l)), h).
Proof.
  intros Hin l. induction l as [|b l IH]; intros fuel r i a [Ha Hl] Hf Hi Hr Hfuel.
  - destruct (advance_run v h old a [] _ Ha ltac:(set_solver)) as (p & Hp & E). rewrite E in Hp by (by right).
    assert (run_end fuel v old insize i i (Some a) h = Ok ((None, i + 1), h)) as ->.
    { destruct fuel; cbn [run_end]; rewrite (proj2 (Z.ltb_lt _ _)) by lia;
        rewrite (bind_run _ _ _ _ _ (num_run v (i + 1) h ltac:(lia)));
        by rewrite (bind_run _ _ _ _ _ Hp). }
    rewrite drop_nil. cbn. by rewrite Nat.min_0_r, Z.add_0_r.
  - destruct (advance_run v h old a (b :: l) _ Ha Hf) as (p & Hp & E). rewrite E in Hp by (by right).
    destruct fuel as [|fuel]; [cbn in Hfuel; lia|]. cbn [run_end]. rewrite (proj2 (Z.ltb_lt _ _)) by lia.
    rewrite (bind_run _ _ _ _ _ (num_run v (i + 1) h ltac:(lia))).
    rewrite (bind_run _ _ _ _ _ Hp). cbn [first is_null].
    rewrite (bind_run _ _ _ _ _ (num_run v (i + 1) h ltac:(lia))).
    destruct r as [|r].
    + destruct fuel; cbn [run_end]; rewrite (proj2 (Z.ltb_ge _ _)) by lia; cbn; by rewrite Z.add_0_r.
    + rewrite (IH fuel r); [|done|intros Hv c Hc; apply Hf; [done|set_solver]|lia|lia|cbn in *; lia].
      cbn [drop length]. do 3 f_equal. lia.
Qed.

(** *** The result of a pass, so far *)

Record linked (v : sorter) h (out : list addr) (list tail : pointer) : Prop := {
  linked_list : list = first out None;
  linked_tail : tail = final None out;
  linked_nexts : exists n, nexts (nx h) out n;
  linked_prevs : kd v <> LL -> nexts (pv h) (reverse out) None
}.

Lemma linked_nil v h : linked v h [] None None.
Proof. split; [done..| |done]. by exists None. Qed.

(** The pointers after a link: the last element's, and the new element's. *)
Lemma link_heap v h (out : list addr) a list tail : linked v h out list tail -> alive h a -> Forall (alive h) out ->
  let h1 := match tail with Some z => with_next h z (Some a) | None => h end in
  let h2 := match kd v with LL => h1 | _ => with_prev h1 a tail end in
  link v (Some a) list tail h = Ok ((first (out ++ [a]) None, Some a), h2).
Proof.
  intros [-> -> _ _] Ha Hl h1 h2. unfold link. rewrite first_app. cbn [first].
  assert (alive h1 a) as Ha1 by (subst h1; destruct (final None out); [by rewrite alive_with_next|done]).
  assert (((if not_null (final None out) then _ ← set_next (final None out) (Some a); mret (first out None)
            else mret (Some a)) : @M A pointer) h = Ok (first out (Some a), h1)) as H1.
  { subst h1. destruct out as [|z out _] using rev_ind; [done|]. rewrite final_snoc. cbn [not_null is_null negb].
    apply Forall_app in Hl as [_ Hz]. inversion_clear Hz as [|? ? Hz' _].
    rewrite (bind_run _ _ _ _ _ (set_next_run h z (Some a) Hz')). by destruct out. }
  rewrite (bind_run _ _ _ _ _ H1). subst h2. destruct v as [[]|]; cbn [kd]; [done|..];
    by rewrite (bind_run _ _ _ _ _ (set_prev_run h1 a (final None out) Ha1)).
Qed.

Lemma link_run v h (out : list addr) a list tail : linked v h out list tail -> NoDup out -> a ∉ out -> alive h a ->
  Forall (alive h) out ->
  exists h', link v (Some a) list tail h = Ok ((first (out ++ [a]) None, Some a), h') /\
    linked v h' (out ++ [a]) (first (out ++ [a]) None) (Some a) /\ writes (out ++ [a]) h h' /\
    (forall c, c ∉ out -> nx h' c = nx h c).
Proof.
  intros Hk Hd Hn Ha Hl. eexists. split; [by apply (link_heap v h out)|]. destruct Hk as [-> -> [n Hnx] Hpv].
  set (h1 := match final None out with Some z => with_next h z (Some a) | None => h end).
  assert (Ha1 : alive h1 a) by (subst h1; destruct (final None out); [by rewrite alive_with_next|done]).
  assert (Hw1 : writes (out ++ [a]) h h1).
  { subst h1. destruct (final None out) eqn:E; [|done]. apply writes_next; [|done].
    apply final_elem in E as [|]; [done|set_solver]. }
  assert (Hx1 : forall c, c ∉ out -> nx h1 c = nx h c).
  { intros c Hc. subst h1. destruct (final None out) eqn:E; [|done]. rewrite nx_with_next.
    apply final_elem in E as [|]; [done|]. rewrite decide_False; [done|]. by intros ->. }
  assert (Hp1 : forall c, pv h1 c = pv h c).
  { intros c. subst h1. destruct (final None out); [by rewrite pv_with_next|done]. }
  assert (Hn1 : nexts (nx h1) out (Some a)).
  { eapply nexts_end; [done| |exact Hnx]. intros c Hc. subst h1. destruct (final None out) as [z|] eqn:E.
    - rewrite nx_with_next. destruct (alive_nx h c) as [x Hx]; [by eapply Forall_forall in Hl|]. rewrite Hx.
      repeat case_decide; by simplify_eq.
    - by rewrite decide_False. }
  destruct (alive_nx h1 a Ha1) as [x Hx].
  assert (Hlink : exists n', nexts (nx h1) (out ++ [a]) n').
  { exists x. apply nexts_app. split; [exact Hn1|]. by split. }
  destruct (decide (kd v = LL)) as [Hv|Hk].
  { rewrite Hv. split; [|by split]. split; [done|by rewrite final_snoc|done|congruence]. }
  assert (match kd v with LL => h1 | _ => with_prev h1 a (final None out) end = with_prev h1 a (final None out)) as ->
    by (by destruct (kd v)).
  split; [|split; [apply writes_prev; [set_solver|done]|]].
  - split; [done|by rewrite final_snoc| |].
    + destruct Hlink as [n' Hlink]. exists n'. eapply nexts_ext; [|exact Hlink]. intros c _. apply nx_with_prev.
    + intros _. rewrite reverse_app. cbn. split.
      * rewrite pv_with_prev, decide_True by done. destruct (alive_pv h1 a Ha1) as [y ->]. by rewrite first_reverse.
      * eapply nexts_ext; [|by apply Hpv]. intros c Hc. rewrite elem_of_reverse in Hc. rewrite pv_with_prev.
        rewrite decide_False; [apply Hp1|]. by intros ->.
  - intros c Hc. rewrite nx_with_prev. by apply Hx1.
Qed.

(** *** A merge *)

(** The result so far, what is left of the first run, and the list after it, whose
    first [qn] elements may be merged. *)
Record merge_inv (v : sorter) (old : pointer) h (out P T : list (addr * A)) (qn : nat) (s : merging) : Prop := {
  mi_nodup : NoDup (out ++ P ++ T).*1;
  mi_holds : Forall (fun e => us h e.1 = Some e.2) (out ++ P ++ T);
  mi_p : P <> [] -> ls_p s = first P.*1 None;
  mi_q : ls_q s = first T.*1 None;
  mi_psize : ls_psize s = Z.of_nat (length P) /\ Z.of_nat (length P) <= 2 ^ 29;
  mi_qsize : ls_qsize s = Z.of_nat qn /\ Z.of_nat qn <= 2 ^ 29;
  mi_P : exists m, nexts (nx h) P.*1 m;
  mi_T : nexts (nx h) T.*1 (stop v old);
  mi_fresh : kd v = CDL -> forall c, c ∈ (tail P ++ T).*1 -> Some c <> old;
  mi_linked : linked v h out.*1 (ls_list s) (ls_tail s)
}.

(** The element that goes to the result, and where it comes from. *)
Definition consumes (v : sorter) old h (out P T : list (addr * A)) (r : @M A (pointer * merging))
    (e : addr * A) P' T' qn' : Prop :=
  exists s1 list tail h', r h = Ok ((Some e.1, s1), h) /\
    link v (Some e.1) (ls_list s1) (ls_tail s1) h = Ok ((list, tail), h') /\
    merge_inv v old h' (out ++ [e]) P' T' qn'
      (Merging (ls_p s1) (ls_q s1) (ls_psize s1) (ls_qsize s1) list tail) /\
    writes (out ++ P ++ T).*1 h h'.

(** The result with [e], when neither [P'] nor [T'] has it. *)
Lemma consume_link v h (out R : list (addr * A)) e list tail :
  NoDup (out ++ e :: R).*1 -> Forall (fun e => us h e.1 = Some e.2) (out ++ e :: R) -> linked v h out.*1 list tail ->
  exists list' tail' h', link v (Some e.1) list tail h = Ok ((list', tail'), h') /\
    linked v h' (out ++ [e]).*1 list' tail' /\
    Forall (fun e => us h' e.1 = Some e.2) ((out ++ [e]) ++ R) /\
    writes (out ++ e :: R).*1 h h' /\ (forall c, c ∈ R.*1 -> nx h' c = nx h c).
Proof.
  intros Hd Hu Hk. rewrite fmap_app in Hd. cbn in Hd. apply NoDup_app in Hd as (Hd1 & Hd & Hd2).
  assert (Hl : Forall (alive h) (out ++ e :: R).*1).
  { apply Forall_fmap. eapply Forall_impl; [exact Hu|]. intros e'. apply alive_us. }
  rewrite fmap_app in Hl. apply Forall_app in Hl as [Hl1 Hl2]. inversion Hl2; subst.
  destruct (link_run v h out.*1 e.1 list tail Hk Hd1) as (h' & Hr & Hk' & Hw & Hx); [|done..|].
  { intros Hin. apply (Hd _ Hin). set_solver. }
  eexists _, _, h'. split; [exact Hr|]. rewrite fmap_app. split; [exact Hk'|]. split; [|split].
  - apply (holds_writes _ _ _ _ Hw). by rewrite <- (assoc_L (++)).
  - eapply writes_mono; [exact Hw|]. rewrite fmap_app. set_solver.
  - intros c Hc. apply Hx. intros Hin. apply (Hd _ Hin). set_solver.
Qed.

Lemma consume_p v old h out p P T qn s :
  merge_inv v old h out (p :: P) T qn s -> consumes v old h out (p :: P) T (take_p v old s) p P T qn.
Proof.
  intros [Hd Hu Hp Hq [Hps Hpb] Hqs [m Hn] HT Hf Hk].
  destruct (consume_link v h out (P ++ T) p _ _ Hd Hu Hk) as (list & tail & h' & Hr & Hk' & Hu' & Hw & Hx).
  cbn [length fmap list_fmap] in *. destruct Hn as [Hn1 Hn].
  destruct (advance_run v h old p.1 P.*1 m Hn1) as (q & Ha & Hq').
  { intros Hv c Hc. apply Hf; [done|]. rewrite fmap_app. set_solver. }
  specialize (Hp ltac:(done)). cbn in Hp.
  eexists (Merging q _ _ _ _ _), list, tail, h'. split; [|split; [exact Hr|split; [|exact Hw]]].
  { unfold take_p. rewrite Hp. cbn [not_null is_null negb].
    assert (match v with Sort_utlist _ => advance v old (Some p.1) | Sort_uthash => advance v old (Some p.1) end =
            advance v old (Some p.1)) as -> by (by destruct v).
    rewrite (bind_run _ _ _ _ _ Ha), Hps.
    by rewrite (bind_run _ _ _ _ _ (num_run v (Z.of_nat (S (length P)) - 1) h ltac:(lia))). }
  split; cbn [ls_p ls_q ls_psize ls_qsize ls_list ls_tail].
  - by rewrite <- (assoc_L (++)).
  - exact Hu'.
  - intros HP. apply Hq'. left. by destruct P.
  - exact Hq.
  - lia.
  - exact Hqs.
  - exists m. eapply nexts_ext; [|exact Hn]. intros c Hc. apply Hx. rewrite fmap_app. set_solver.
  - eapply nexts_ext; [|exact HT]. intros c Hc. apply Hx. rewrite fmap_app. set_solver.
  - intros Hv c Hc. apply Hf; [done|]. rewrite !fmap_app in *. destruct P; cbn in *; set_solver.
  - exact Hk'.
Qed.

Lemma consume_q v old h out P t T qn s :
  merge_inv v old h out P (t :: T) (S qn) s -> consumes v old h out P (t :: T) (take_q v old s) t P T qn.
Proof.
  intros [Hd Hu Hp Hq Hps [Hqs Hqb] [m Hn] HT Hf Hk].
  assert (Hperm : out ++ P ++ t :: T ≡ₚ out ++ t :: P ++ T) by (by rewrite Permutation_middle).
  destruct (consume_link v h out (P ++ T) t (ls_list s) (ls_tail s)) as (list & tail & h' & Hr & Hk' & Hu' & Hw & Hx);
    [by rewrite <- Hperm|by rewrite <- Hperm|done|].
  cbn [fmap list_fmap] in *. destruct HT as [HT1 HT].
  destruct (advance_run v h old t.1 T.*1 _ HT1) as (q & Ha & Hq').
  { intros Hv c Hc. apply Hf; [done|]. rewrite fmap_app. set_solver. }
  eexists (Merging _ q _ _ _ _), list, tail, h'. split; [|split; [exact Hr|split]].
  { unfold take_q. rewrite Hq. cbn [first]. rewrite (bind_run _ _ _ _ _ Ha), Hqs.
    by rewrite (bind_run _ _ _ _ _ (num_run v (Z.of_nat (S qn) - 1) h ltac:(lia))). }
  - split; cbn [ls_p ls_q ls_psize ls_qsize ls_list ls_tail].
    + rewrite <- (assoc_L (++)). cbn. by rewrite <- Hperm.
    + exact Hu'.
    + exact Hp.
    + apply Hq'. by right.
    + exact Hps.
    + lia.
    + exists m. eapply nexts_ext; [|exact Hn]. intros c Hc. apply Hx. rewrite fmap_app. set_solver.
    + eapply nexts_ext; [|exact HT]. intros c Hc. apply Hx. rewrite fmap_app. set_solver.
    + intros Hv c Hc. apply Hf; [done|]. rewrite !fmap_app in *. cbn. set_solver.
    + exact Hk'.
  - eapply writes_mono; [exact Hw|]. intros c Hc. rewrite Hperm. exact Hc.
Qed.

Lemma merge_stops v old fuel h out T qn s : merge_inv v old h out [] T qn s -> qn = 0%nat \/ T = [] ->
  merge_loop fuel v old s h = Ok (s, h).
Proof.
  intros [_ _ _ Hq [Hps _] [Hqs _] _ _ _ _] Hstop.
  assert ((ls_psize s >? 0) || ((ls_qsize s >? 0) && not_null (ls_q s)) = false) as E.
  { rewrite Hps, Hqs, Hq. destruct Hstop as [->| ->]; [done|]. cbn. by rewrite andb_false_r. }
  destruct fuel; cbn [merge_loop]; by rewrite E.
Qed.

Lemma merge_step v old fuel h out P T qn s e P' T' qn' :
  merge_inv v old h out P T qn s -> (P <> [] \/ (0 < qn)%nat /\ T <> []) ->
  consumes v old h out P T (choose v old s) e P' T' qn' ->
  exists s' h', merge_loop (S fuel) v old s h = merge_loop fuel v old s' h' /\
    merge_inv v old h' (out ++ [e]) P' T' qn' s' /\ writes (out ++ P ++ T).*1 h h'.
Proof.
  intros [_ _ _ Hq [Hps _] [Hqs _] _ _ _ _] Hgo (s1 & list & tail & h' & Hr & Hlink & Hi & Hw).
  eexists _, h'. split; [|split; [exact Hi|exact Hw]]. cbn [merge_loop].
  assert ((ls_psize s >? 0) || ((ls_qsize s >? 0) && not_null (ls_q s)) = true) as ->.
  { rewrite Hps, Hqs, Hq. apply orb_true_iff. destruct Hgo as [HP|[Hn HT]].
    - left. destruct P; [done|]. cbn [length]. apply Z.gtb_lt. lia.
    - right. destruct T; [done|]. cbn. rewrite andb_true_r. apply Z.gtb_lt. lia. }
  rewrite (bind_run _ _ _ _ _ Hr). by rewrite (bind_run _ _ _ _ _ Hlink).
Qed.

(** The choices: the element is the next one of the merge of the two runs. *)
Lemma choose_p v old h out p P T qn s : merge_inv v old h out (p :: P) T qn s ->
  match qn, T with S _, t :: _ => le p t = true | _, _ => True end ->
  consumes v old h out (p :: P) T (choose v old s) p P T qn.
Proof.
  intros Hi Hle. destruct (consume_p _ _ _ _ _ _ _ _ _ Hi) as (s1 & list & tail & h' & Hr & Hrest).
  exists s1, list, tail, h'. split; [|exact Hrest].
  destruct Hi as [_ Hu Hp Hq [Hps _] [Hqs _] _ _ _ _]. unfold choose. rewrite Hps, Hqs, Hq.
  rewrite (proj2 (Z.eqb_neq (Z.of_nat (length (p :: P))) 0)) by (cbn [length]; lia).
  destruct qn as [|qn], T as [|t T]; [done..|exact Hr|]. cbn [fmap list_fmap first is_null].
  rewrite ?(proj2 (Z.eqb_neq (Z.of_nat (S qn)) 0)) by lia. cbn [orb].
  rewrite (Hp ltac:(done)). cbn [fmap list_fmap first].
  rewrite (bind_run _ _ _ _ _ (cmp_run cmp h p.1 t.1 p.2 t.2 ltac:(eapply Forall_forall in Hu; [exact Hu|set_solver])
    ltac:(eapply Forall_forall in Hu; [exact Hu|set_solver]))).
  unfold le in Hle. by rewrite Hle.
Qed.

Lemma choose_q v old h out P t T qn s : merge_inv v old h out P (t :: T) (S qn) s ->
  match P with p :: _ => le p t = false | _ => True end ->
  consumes v old h out P (t :: T) (choose v old s) t P T qn.
Proof.
  intros Hi Hle. destruct (consume_q _ _ _ _ _ _ _ _ _ Hi) as (s1 & list & tail & h' & Hr & Hrest).
  exists s1, list, tail, h'. split; [|exact Hrest].
  destruct Hi as [_ Hu Hp Hq [Hps _] [Hqs _] _ _ _ _]. unfold choose. rewrite Hps, Hqs, Hq.
  destruct P as [|p P]; [done|]. rewrite (proj2 (Z.eqb_neq (Z.of_nat (length (p :: P))) 0)) by (cbn [length]; lia).
  cbn [fmap list_fmap first is_null]. rewrite ?(proj2 (Z.eqb_neq (Z.of_nat (S qn)) 0)) by lia. cbn [orb].
  rewrite (Hp ltac:(done)). cbn [fmap list_fmap first].
  rewrite (bind_run _ _ _ _ _ (cmp_run cmp h p.1 t.1 p.2 t.2 ltac:(eapply Forall_forall in Hu; [exact Hu|set_solver])
    ltac:(eapply Forall_forall in Hu; [exact Hu|set_solver]))).
  unfold le in Hle. by rewrite Hle.
Qed.

(** The merge loop ends with the two runs merged at the end of the result. *)
Lemma merge_loop_run v old fuel : forall h out P T qn s,
  merge_inv v old h out P T qn s -> (length P + length (take qn T) <= fuel)%nat ->
  exists s' h' qn', merge_loop fuel v old s h = Ok (s', h') /\
    merge_inv v old h' (out ++ merge P (take qn T)) [] (drop qn T) qn' s' /\ writes (out ++ P ++ T).*1 h h'.
Proof.
  induction fuel as [|fuel IH]; intros h out P T qn s Hi Hf.
  { destruct P; [|cbn in Hf; lia]. assert (qn = 0 \/ T = [])%nat as Hs.
    { destruct qn, T; cbn in Hf; [auto..|lia]. }
    exists s, h, qn. split; [by eapply merge_stops|]. split; [|done]. destruct Hs as [->| ->].
    - by rewrite take_0, drop_0, app_nil_r.
    - by rewrite take_nil, drop_nil, app_nil_r. }
  assert (forall e P' T' qn', (P <> [] \/ (0 < qn)%nat /\ T <> []) ->
    consumes v old h out P T (choose v old s) e P' T' qn' -> (length P' + length (take qn' T') <= fuel)%nat ->
    merge P (take qn T) = e :: merge P' (take qn' T') -> drop qn T = drop qn' T' -> P ++ T ≡ₚ e :: P' ++ T' ->
    exists s' h' qn', merge_loop (S fuel) v old s h = Ok (s', h') /\
      merge_inv v old h' (out ++ merge P (take qn T)) [] (drop qn T) qn' s' /\ writes (out ++ P ++ T).*1 h h') as Hstep.
  { intros e P' T' qn' Hgo Hc Hf' -> -> Hperm.
    destruct (merge_step v old fuel h out P T qn s e P' T' qn' Hi Hgo Hc) as (s1 & h1 & -> & Hi1 & Hw1).
    destruct (IH _ _ _ _ _ _ Hi1 Hf') as (s' & h' & qn2 & Hr & Hi' & Hw'). exists s', h', qn2.
    split; [exact Hr|]. split; [by rewrite <- (assoc_L (++)) in Hi'|]. eapply writes_trans; [exact Hw1|exact Hw'|].
    rewrite Hperm, <- (assoc_L (++)). done. }
  destruct P as [|p P].
  - destruct (decide (qn = 0%nat \/ T = [])) as [Hs|Hs].
    + exists s, h, qn. split; [by eapply merge_stops|]. split; [|done]. destruct Hs as [->| ->].
      * by rewrite take_0, drop_0, app_nil_r.
      * by rewrite take_nil, drop_nil, app_nil_r.
    + destruct qn as [|qn], T as [|t T]; [naive_solver..|].
      apply (Hstep t [] T qn); [right; split; [lia|done]|by apply choose_q|cbn in *; lia|done..|done].
  - destruct qn as [|qn], T as [|t T].
    + apply (Hstep p P [] 0%nat); [by left|by apply choose_p|cbn in *; lia|by rewrite !merge_nil|done|done].
    + apply (Hstep p P (t :: T) 0%nat); [by left|by apply choose_p|cbn in *; lia|by rewrite !merge_nil|done|done].
    + apply (Hstep p P [] (S qn)); [by left|by apply choose_p|cbn in *; lia|by rewrite !merge_nil|done|done].
    + destruct (le p t) eqn:E.
      * apply (Hstep p P (t :: T) (S qn)); [by left|by apply choose_p|cbn in *; lia| |done|done].
        cbn [take merge]. by rewrite E.
      * apply (Hstep t (p :: P) T qn); [by left|by apply choose_q|cbn in *; lia| |done|symmetry; apply (Permutation_middle (p :: P))].
        cbn [take merge]. by rewrite E.
Qed.

(** *** A pass *)

Lemma holds_alive h L : Forall (fun e => us h e.1 = Some e.2) L -> Forall (alive h) L.*1.
Proof. intros Hu. apply Forall_fmap. eapply Forall_impl; [exact Hu|]. intros e. apply alive_us. Qed.

Lemma holds_fuel h L : NoDup L.*1 -> Forall (fun e => us h e.1 = Some e.2) L -> (length L <= size h)%nat.
Proof. intros Hd Hu. rewrite <- (length_fmap fst). apply alive_length; [done|by apply holds_alive]. Qed.

(** The result so far and the rest of the list. *)
Record pass_inv (v : sorter) (old : pointer) h (out T : list (addr * A)) (list tail : pointer) : Prop := {
  pi_nodup : NoDup (out ++ T).*1;
  pi_holds : Forall (fun e => us h e.1 = Some e.2) (out ++ T);
  pi_T : nexts (nx h) T.*1 (stop v old);
  pi_fresh : kd v = CDL -> forall c, c ∈ (List.tl T).*1 -> Some c <> old;
  pi_linked : linked v h out.*1 list tail
}.

(** One merge: the first run is found, and merged with the second one. *)
Lemma pass_step_run v old h out e T list tail n :
  (0 < n)%nat -> Z.of_nat n <= 2 ^ 29 -> pass_inv v old h out (e :: T) list tail ->
  exists q psize s h', with_fuel (fun fuel => run_end fuel v old (Z.of_nat n) 0 0 (Some e.1)) h = Ok ((q, psize), h) /\
    with_fuel (fun fuel => merge_loop fuel v old (Merging (Some e.1) q psize (Z.of_nat n) list tail)) h = Ok (s, h') /\
    ls_q s = first (drop n (drop n (e :: T))).*1 None /\
    pass_inv v old h' (out ++ merge (take n (e :: T)) (take n (drop n (e :: T)))) (drop n (drop n (e :: T)))
      (ls_list s) (ls_tail s) /\
    writes (out ++ e :: T).*1 h h'.
Proof.
  intros Hn Hn' [Hd Hu HT Hf Hk]. pose proof (holds_fuel _ _ Hd Hu) as Hsize. rewrite length_app in Hsize.
  destruct n as [|r]; [lia|]. set (n := S r) in *.
  assert (Hend : with_fuel (fun fuel => run_end fuel v old (Z.of_nat n) 0 0 (Some e.1)) h =
    Ok ((first (drop n (e :: T)).*1 None, Z.of_nat (length (take n (e :: T)))), h)).
  { unfold with_fuel. rewrite (run_end_run v h old (Z.of_nat n) Hn' T.*1 (size h) r 0 e.1 HT Hf) by
      (rewrite ?length_fmap; cbn in Hsize; lia).
    rewrite length_fmap, length_take, fmap_drop. cbn [drop length n]. do 3 f_equal. lia. }
  assert (Hi : merge_inv v old h out (take n (e :: T)) (drop n (e :: T)) n
    (Merging (Some e.1) (first (drop n (e :: T)).*1 None) (Z.of_nat (length (take n (e :: T)))) (Z.of_nat n) list tail)).
  { assert (nexts (nx h) (take n (e :: T) ++ drop n (e :: T)).*1 (stop v old)) as HT' by (by rewrite take_drop).
    rewrite fmap_app in HT'. apply nexts_app in HT' as [H1 H2].
    split; rewrite ?take_drop; try done; cbn [ls_p ls_q ls_psize ls_qsize ls_list ls_tail].
    - rewrite length_take. lia.
    - by eexists.
    - intros Hv c Hc. apply Hf; [done|]. change (List.tl (take n (e :: T)) ++ drop n (e :: T)) with (take r T ++ drop r T) in Hc.
      by rewrite take_drop in Hc. }
  destruct (merge_loop_run v old (size h) _ _ _ _ _ _ Hi) as (s & h' & qn' & Hr & Hi' & Hw).
  { rewrite <- length_app. etransitivity; [|etransitivity; [|exact Hsize]]; [|apply Nat.le_add_l].
    rewrite length_app, !length_take, length_drop. lia. }
  rewrite take_drop in Hw. eexists _, _, s, h'. split; [exact Hend|]. split; [exact Hr|].
  destruct Hi' as [Hd' Hu' _ Hq' _ _ _ HT' Hf' Hk']. cbn [app] in *. split; [exact Hq'|]. split; [|exact Hw].
  split; try done. intros Hcdl c Hc. apply Hf'; [done|]. destruct (drop n (drop n (e :: T))); set_solver.
Qed.

Lemma pass_loop_run v old n : (0 < n)%nat -> Z.of_nat n <= 2 ^ 29 -> forall fuel h out T list tail nm,
  pass_inv v old h out T list tail -> (length T <= fuel)%nat -> 0 <= nm -> nm + Z.of_nat (length T) <= 2 ^ 29 ->
  exists list' tail' h',
    pass_loop fuel v old (Z.of_nat n) (first T.*1 None) list tail nm h =
      Ok ((list', tail', nm + Z.of_nat (merges fuel n T)), h') /\
    pass_inv v old h' (out ++ pass fuel n T) [] list' tail' /\ writes (out ++ T).*1 h h'.
Proof.
  intros Hn Hn' fuel. induction fuel as [|fuel IH]; intros h out T list tail nm Hi Hf Hnm Hb.
  { destruct T; [|cbn in Hf; lia]. exists list, tail, h. by rewrite pass_nil, merges_nil, Z.add_0_r, (app_nil_r out). }
  destruct T as [|e T].
  { exists list, tail, h. by rewrite pass_nil, merges_nil, Z.add_0_r, (app_nil_r out). }
  destruct (pass_step_run v old h out e T list tail n Hn Hn' Hi) as (q & psize & s & h1 & Hr1 & Hr2 & Hq & Hi1 & Hw1).
  cbn [length] in *.
  assert (length (drop n (drop n (e :: T))) <= length T)%nat as Hlen by (rewrite !length_drop; cbn [length]; lia).
  destruct (IH h1 _ _ _ _ (nm + 1) Hi1) as (list' & tail' & h' & Hr & Hi' & Hw); [lia..|].
  exists list', tail', h'. split; [|split].
  - cbn [pass_loop fmap list_fmap first not_null is_null negb].
    rewrite (bind_run _ _ _ _ _ (num_run v (nm + 1) h ltac:(lia))).
    rewrite (bind_run _ _ _ _ _ Hr1), (bind_run _ _ _ _ _ Hr2), Hq, Hr. cbn [merges]. do 3 f_equal. lia.
  - cbn [pass]. by rewrite (assoc_L (++)).
  - eapply writes_trans; [exact Hw1|exact Hw|]. rewrite <- (assoc_L (++)).
    assert (merge (take n (e :: T)) (take n (drop n (e :: T))) ++ drop n (drop n (e :: T)) ≡ₚ e :: T) as ->; [|done].
    by rewrite merge_perm, <- (assoc_L (++)), !take_drop.
Qed.

(** *** The whole sort *)

(** The ends of the result are those of a list of its kind. *)
Lemma finish_run v old h L list tail : L <> [] -> pass_inv v old h L [] list tail ->
  exists h', finish v list tail h = Ok (tt, h') /\ listed v h' list L /\ writes L.*1 h h'.
Proof.
  intros HL [Hd Hu _ _ [-> -> [m Hn] Hp]]. rewrite app_nil_r in Hd, Hu.
  pose proof (holds_alive _ _ Hu) as Hl. destruct L as [|e L]; [done|]. clear HL.
  destruct (final_some e.1 L.*1) as (z & Hz & Hin). cbn [fmap list_fmap first final] in *. rewrite Hz.
  pose proof (proj1 (Forall_forall _ _) Hl z Hin) as Haz.
  pose proof (proj1 (Forall_forall _ _) Hl e.1 ltac:(set_solver)) as Hae.
  set (end_ := match v with Sort_utlist CDL => Some e.1 | _ => None end).
  set (h1 := match v with Sort_utlist LL | Sort_uthash => h | _ => with_prev h e.1 (Some z) end).
  assert (Hw1 : writes (e.1 :: L.*1) h h1).
  { subst h1. destruct v as [[]|]; try done; (apply writes_prev; [set_solver|done]). }
  assert (Hz1 : alive h1 z) by (subst h1; destruct v as [[]|]; by rewrite ?alive_with_prev).
  assert (Hw2 : writes (e.1 :: L.*1) h (with_next h1 z end_)) by (by apply writes_next).
  exists (with_next h1 z end_). split; [|split; [|exact Hw2]].
  { subst h1 end_. destruct v as [[]|]; cbn [finish not_null is_null negb]; [by apply set_next_run| | |by apply set_next_run];
      (rewrite (bind_run _ _ _ _ _ (set_prev_run h e.1 (Some z) Hae)); by apply set_next_run). }
  split; [exact Hd|]. split; [by apply (holds_writes _ _ _ _ Hw2)|]. split; [done|].
  assert (Hnext : nexts (nx (with_next h1 z end_)) (e.1 :: L.*1) end_).
  { assert (Hx1 : forall c, nx h1 c = nx h c) by (intros c; subst h1; destruct v as [[]|]; by rewrite ?nx_with_prev).
    eapply nexts_end; [exact Hd| |exact Hn]. intros c Hc. rewrite nx_with_next, Hx1. cbn [final]. rewrite Hz.
    destruct (alive_nx h c) as [x ->]; [by eapply Forall_forall in Hl|]. repeat case_decide; by simplify_eq. }
  assert (Hring : h1 = with_prev h e.1 (Some z) -> kd v <> LL ->
            ring (pv (with_next h1 z end_)) (reverse (e.1 :: L.*1))).
  { intros -> Hk. unfold ring. rewrite first_reverse. cbn [final]. rewrite Hz.
    eapply nexts_end; [by rewrite reverse_Permutation| |exact (Hp Hk)]. intros c Hc. rewrite elem_of_reverse in Hc.
    rewrite pv_with_next, final_reverse. cbn [first]. rewrite pv_with_prev.
    destruct (alive_pv h c) as [x ->]; [by eapply Forall_forall in Hl|]. repeat case_decide; by simplify_eq. }
  destruct v as [[]|]; cbn [sorter_shape shape]; [exact Hnext|split; [exact Hnext|by apply Hring]..|].
  split; [exact Hnext|]. eapply nexts_ext; [|by apply Hp]. intros c _. apply pv_with_next.
Qed.

Lemma listed_length v h head L : listed v h head L -> (length L <= size h)%nat.
Proof. intros (Hd & Hu & _). by apply holds_fuel. Qed.

(** One turn of the outer loop: a pass over the whole list. *)
Lemma pass_turn v h head L n : L <> [] -> (0 < n)%nat -> Z.of_nat n <= 2 ^ 29 -> Z.of_nat (length L) <= 2 ^ 29 ->
  listed v h head L ->
  exists list tail h1 h2,
    with_fuel (fun fuel => pass_loop fuel v head (Z.of_nat n) head None None 0) h =
      Ok ((list, tail, Z.of_nat (merges (size h) n L)), h1) /\
    finish v list tail h1 = Ok (tt, h2) /\ listed v h2 list (pass (size h) n L) /\
    tail = final None (pass (size h) n L).*1 /\ writes L.*1 h h2.
Proof.
  intros HL Hn Hn' Hlen H. pose proof (listed_length _ _ _ _ H) as Hsize. destruct H as (Hd & Hu & -> & Hs).
  assert (Hi : pass_inv v (first L.*1 None) h [] L None None).
  { split; [done..| | |apply linked_nil].
    - unfold stop. destruct v as [[]|]; cbn [sorter_shape shape kd] in *; [exact Hs|apply Hs..].
    - intros _ c Hc. destruct L as [|e L]; [done|]. cbn in *. apply NoDup_cons in Hd as [Hd _].
      intros [= ->]. done. }
  destruct (pass_loop_run v _ n Hn Hn' (size h) _ _ _ _ _ 0 Hi) as (list & tail & h1 & Hr & Hi1 & Hw1); [lia..|].
  cbn [app] in Hi1, Hw1. pose proof (pass_perm n (size h) L Hn Hsize) as Hperm.
  destruct (finish_run _ _ _ _ _ _ ltac:(intros E; rewrite E in Hperm; by apply Permutation_nil in Hperm) Hi1)
    as (h2 & Hfin & Hl & Hw2).
  exists list, tail, h1, h2. split; [exact Hr|]. split; [exact Hfin|]. split; [exact Hl|].
  split; [apply Hi1|]. eapply writes_trans; [exact Hw1|exact Hw2|]. by rewrite Hperm.
Qed.

Lemma sort_turn fuel v h head n list tail nm h1 h2 : Z.of_nat n <= 2 ^ 29 ->
  with_fuel (fun fuel => pass_loop fuel v head (Z.of_nat n) head None None 0) h = Ok ((list, tail, nm), h1) ->
  finish v list tail h1 = Ok (tt, h2) ->
  sort_loop fuel v (Z.of_nat n) head h =
  (if nm <=? 1 then mret (list, tail)
   else match fuel with O => diverges | S fuel => sort_loop fuel v (Z.of_nat (2 * n)) list end) h2.
Proof.
  intros Hn Hr Hfin. replace (Z.of_nat (2 * n)) with (Z.of_nat n * 2) by lia.
  assert (num v (Z.of_nat n * 2) h2 = Ok (Z.of_nat n * 2, h2)) as Hint by (apply num_run; lia).
  destruct fuel; cbn [sort_loop]; rewrite (bind_run _ _ _ _ _ Hr), (bind_run _ _ _ _ _ Hfin);
    by rewrite (bind_run _ _ _ _ _ Hint).
Qed.

(** What sorting a list ends with. *)
Definition sorts (v : sorter) (r : @M A (pointer * pointer)) h L L0 : Prop :=
  exists head' tail' h' L', r h = Ok ((head', tail'), h') /\
    listed v h' head' L' /\ tail' = final None L'.*1 /\ L' ≡ₚ L0 /\ (orders cmp -> L' = isort L0) /\ writes L.*1 h h'.

Lemma sort_loop_run v (L0 : list (addr * A)) fuel : forall h head L n,
  L <> [] -> (0 < n)%nat -> Z.of_nat n <= 2 ^ 29 -> Z.of_nat (length L) <= 2 ^ 29 ->
  listed v h head L -> L ≡ₚ L0 -> (orders cmp -> runs n L0 L) -> (length L <= 2 * n * 2 ^ fuel)%nat ->
  sorts v (sort_loop fuel v (Z.of_nat n) head) h L L0.
Proof.
  induction fuel as [|fuel IH]; intros h head L n HL Hn Hn' Hlen H Hperm Hruns Hf;
    destruct (pass_turn v h head L n HL Hn Hn' Hlen H) as (list & tail & h1 & h2 & Hr & Hfin & Hl & Htail & Hw);
    pose proof (listed_length _ _ _ _ H) as Hsize;
    destruct (merges_length (size h) n L Hn Hsize) as [Hm1 Hm2];
    pose proof (pass_perm n (size h) L Hn Hsize) as Hpass;
    assert (Hruns' : orders cmp -> runs (2 * n) L0 (pass (size h) n L)) by (intros Ho; apply runs_pass; auto);
    unfold sorts; rewrite (sort_turn _ _ _ _ _ _ _ _ _ _ Hn' Hr Hfin);
    destruct (decide (length L <= 2 * n)%nat) as [Hle|Hgt].
  1,3: rewrite (proj2 (Z.leb_le _ _)) by lia; exists list, tail, h2, (pass (size h) n L); split; [done|]; split; [exact Hl|];
    split; [exact Htail|]; split; [by rewrite Hpass|]; split; [|exact Hw]; intros Ho; apply (runs_whole (2 * n));
    [by apply Hruns'|]; by rewrite <- Hperm.
  - cbn in Hf. lia.
  - rewrite (proj2 (Z.leb_gt _ _)) by lia.
    destruct (IH h2 list (pass (size h) n L) (2 * n)%nat) as (head' & tail' & h' & L' & Hr' & Hl' & Ht' & Hp' & Ho' & Hw');
      [|lia|lia|by rewrite Hpass|exact Hl|by rewrite Hpass|exact Hruns'|rewrite Hpass; cbn in Hf |- *; lia|].
    { intros E. rewrite E in Hpass. by apply Permutation_nil in Hpass. }
    exists head', tail', h', L'. split; [exact Hr'|]. split; [exact Hl'|]. split; [exact Ht'|]. split; [exact Hp'|].
    split; [exact Ho'|]. eapply writes_trans; [exact Hw|exact Hw'|]. by rewrite Hpass.
Qed.

(** From the runs of one element on. *)
Lemma sort_run v h head L : L <> [] -> listed v h head L -> Z.of_nat (length L) <= 2 ^ 29 ->
  sorts v (with_fuel (fun fuel => sort_loop fuel v 1 head)) h L L.
Proof.
  intros HL H Hlen. pose proof (listed_length _ _ _ _ H) as Hsize.
  apply (sort_loop_run v L (size h) h head L 1); [done|lia|lia|done|done|done|by intros _; apply runs_single|].
  pose proof (Nat.pow_gt_lin_r 2 (size h)). lia.
Qed.

(** C16: the sorting macros of utlist sort. On a list of any of the three kinds, of no
    more than [2 ^ 29] elements, so that no [int] overflows, they end, and give a list
    of the same kind with the same elements, by writing to their pointers only. When
    the comparison orders the elements, the list is then in order, and elements that
    come equal are in the order that they had: it is the list that insertion sort
    gives. *)
Theorem utlist_sorts (k : kind) h head L :
  list_at k h head L -> Z.of_nat (length L) <= 2 ^ 29 ->
  exists head' h' L',
    match k with LL => LL_SORT2 head | DL => DL_SORT2 head | CDL => CDL_SORT2 head end h = Ok (head', h') /\
    list_at k h' head' L' /\ writes L.*1 h h' /\ L' ≡ₚ L /\
    (orders cmp -> sorted cmp L' /\ (forall x, equals x L' = equals x L) /\ L' = isort L).
Proof.
  intros H Hlen.
  assert (exists head' h' L', SORT2 k head h = Ok (head', h') /\ list_at k h' head' L' /\ L' ≡ₚ L /\
            (orders cmp -> L' = isort L) /\ writes L.*1 h h') as (head' & h' & L' & Hr & Hl & Hp & Ho & Hw).
  { destruct (decide (L = [])) as [->|HL].
    - pose proof H as (_ & _ & -> & _). by exists None, h, [].
    - destruct (sort_run (Sort_utlist k) h head L HL H Hlen) as (head' & tail' & h' & L' & Hr & Hl & _ & Hp & Ho & Hw).
      exists head', h', L'. split; [|done]. pose proof H as (_ & _ & Hhead & _). unfold SORT2.
      assert (not_null head = true) as -> by (rewrite Hhead; by destruct L).
      by rewrite (bind_run _ _ _ _ _ Hr). }
  exists head', h', L'. split; [by destruct k|]. split; [exact Hl|]. split; [exact Hw|]. split; [exact Hp|].
  intros Hcmp. rewrite (Ho Hcmp). split; [by apply isort_sorted|]. split; [|done]. intros x. by apply isort_equals.
Qed.
End sort.

(** Four elements with keys, and what tells equal keys apart. *)
Definition four : gmap addr (@element (Z * string)) :=
  {[ 1%positive := Element (Some 4%positive) (Some 2%positive) (2, "a"%string);
     2%positive := Element (Some 1%positive) (Some 3%positive) (1, "b"%string);
     3%positive := Element (Some 2%positive) (Some 4%positive) (2, "c"%string);
     4%positive := Element (Some 3%positive) None (1, "d"%string) ]}.

Definition by_key (x y : Z * string) : Z := x.1 - y.1.

Lemma by_key_orders : orders by_key.
Proof. unfold by_key. split; intros; lia. Qed.

Lemma utlist_sorts_witness :
  exists h', DL_SORT2 by_key (Some 1%positive) four = Ok (Some 2%positive, h') /\
    list_at DL h' (Some 2%positive)
      [(2%positive, (1, "b"%string)); (4%positive, (1, "d"%string)); (1%positive, (2, "a"%string));
       (3%positive, (2, "c"%string))].
Proof.
  assert (list_at DL four (Some 1%positive)
    [(1%positive, (2, "a"%string)); (2%positive, (1, "b"%string)); (3%positive, (2, "c"%string));
     (4%positive, (1, "d"%string))]) as H.
  { split; [by apply (bool_decide_unpack _)|]. split; [by repeat constructor|]. split; [done|].
    split; repeat constructor. }
  destruct (utlist_sorts by_key DL four _ _ H) as (hd & h' & L' & Hr & Hl & _ & _ & Ho); [by vm_compute|].
  destruct (Ho by_key_orders) as (_ & _ & ->). pose proof Hl as (_ & _ & E & _). vm_compute in E. subst hd.
  exists h'. split; [exact Hr|exact Hl].
Defined.
