(* ===== verification/UthashOrder.v ===== *)
(** * Ordered tables of uthash (src/include/internal/uthash.h)

    The macros that keep or put the elements of a table in the order of a comparison,
    [HASH_ADD_KEYPTR_INORDER] and [HASH_SRT], those that replace the element with a
    key, and [HASH_SELECT], on the memory of Uthash. The sort is the merge sort of Utsort, on the
    pointers in the order of the elements: the buckets do not change. *)

From S2P Require Import Prelude Hashes HashFunctions Uthash UthashRefine Links Utlist UtlistRefine Utsort.

(** ** The macros *)

Section inorder.
Context {A : Type} `{hashing : hash_function} (cmpfcn : A -> A -> Z).
Abbreviation memory := (gmap addr (UT_hash_handle A)) (only parsing).
Implicit Types (m : memory) (u : uthash A).

(** The first element, from [_hs_iter] on, that comes after the new one. *)
Fixpoint HASH_AKBI_INNER_LOOP (fuel : nat) m (_hs_iter : addr) (add : addr) : outcome (option addr) :=
  match fuel with
  | O => Diverges
  | S fuel =>
      d ← deref (m !! _hs_iter);
      a ← deref (m !! add);
      if cmpfcn (elt d) (elt a) >? 0 then Ok (Some _hs_iter)
      else match Uthash.next d with
           | None => Ok None
           | Some _hs_iter => HASH_AKBI_INNER_LOOP fuel m _hs_iter add
           end
  end.

(** The new element is linked in front of it; the head may change. *)
Definition insert_before m (hd _hs_iter add : addr) : outcome (memory * addr) :=
  m ← Uthash.store m add (Uthash.set_next (Some _hs_iter));
  d ← deref (m !! _hs_iter);
  m ← Uthash.store m add (Uthash.set_prev (Uthash.prev d));
  '(m, hd) ← match Uthash.prev d with
             | Some p => m ← Uthash.store m p (Uthash.set_next (Some add)); Ok (m, hd)
             | None => Ok (m, add)
             end;
  m ← Uthash.store m _hs_iter (Uthash.set_prev (Some add));
  Ok (m, hd).

Definition HASH_ADD_KEYPTR_BYHASHVALUE_INORDER u (keyptr : string) (hashval : Z) (add : addr) : outcome (uthash A) :=
  m ← set_key (heap u) add keyptr hashval;
  '(m, hd, t) ← match head u with
                | None => first_element m add
                | Some hd =>
                    t ← deref (tbl u);
                    _hs_iter ← HASH_AKBI_INNER_LOOP (size m) m hd add;
                    match _hs_iter with
                    | Some x => '(m, hd) ← insert_before m hd x add; Ok (m, hd, t)
                    | None => '(m, t) ← HASH_APPEND_LIST m t add; Ok (m, hd, t)
                    end
                end;
  '(m, t) ← HASH_ADD_TO_TABLE m t hashval add;
  Ok (UT m (Some hd) (Some t)).

Definition HASH_ADD_KEYPTR_INORDER u (keyptr : string) (add : addr) : outcome (uthash A) :=
  HASH_ADD_KEYPTR_BYHASHVALUE_INORDER u keyptr (HASH_FUNCTION keyptr) add.

(** What was there with the key of the new element goes out of the table. *)
Definition HASH_REPLACE_BYHASHVALUE u (keyptr : string) (hashval : Z) (add : addr)
    : outcome (option addr * uthash A) :=
  replaced ← HASH_FIND_BYHASHVALUE u keyptr hashval;
  u ← match replaced with Some x => HASH_DELETE u x | None => Ok u end;
  u ← HASH_ADD_KEYPTR_BYHASHVALUE u keyptr hashval add;
  Ok (replaced, u).

Definition HASH_REPLACE u (keyptr : string) (add : addr) : outcome (option addr * uthash A) :=
  HASH_REPLACE_BYHASHVALUE u keyptr (HASH_FUNCTION keyptr) add.

Definition HASH_REPLACE_BYHASHVALUE_INORDER u (keyptr : string) (hashval : Z) (add : addr)
    : outcome (option addr * uthash A) :=
  replaced ← HASH_FIND_BYHASHVALUE u keyptr hashval;
  u ← match replaced with Some x => HASH_DELETE u x | None => Ok u end;
  u ← HASH_ADD_KEYPTR_BYHASHVALUE_INORDER u keyptr hashval add;
  Ok (replaced, u).

Definition HASH_REPLACE_INORDER u (keyptr : string) (add : addr) : outcome (option addr * uthash A) :=
  HASH_REPLACE_BYHASHVALUE_INORDER u keyptr (HASH_FUNCTION keyptr) add.
End inorder.

(** *** Selection *)

Section select.
Context {A : Type} (cond : A -> bool).
Abbreviation memory := (gmap addr (UT_hash_handle A)) (only parsing).
Implicit Types (m : memory) (src dst : uthash A).

(** The two tables use two handles of the same elements: each one has a memory of its
    own, and the address of an element is the same in both. The local variables are
    the table [dst] and the element that was added to it last. *)
Definition select_one (_src_hh : UT_hash_handle A) (s : uthash A * option addr) (_elt : addr)
    : outcome (uthash A * option addr) :=
  let '(dst, _last_elt) := s in
  m ← Uthash.store (heap dst) _elt
        (fun d => Handle _last_elt None (hh_prev d) (hh_next d) (key _src_hh) (hashv _src_hh) (elt d));
  m ← store_opt m _last_elt (Uthash.set_next (Some _elt));
  '(hd, t) ← match head dst with
             | None => Ok (_elt, HASH_MAKE_TABLE _elt)
             | Some hd => t ← deref (tbl dst); Ok (hd, t)
             end;
  '(m, t) ← HASH_ADD_TO_BKT m t (Z.to_nat (HASH_TO_BKT (hashv _src_hh) (num_buckets t))) _elt;
  Ok (UT m (Some hd) (Some (with_num_items t (u32 (num_items t + 1)))), Some _elt).

Fixpoint select_chain (fuel : nat) (m_src : memory) (s : uthash A * option addr) (_src_hh : option addr)
    : outcome (uthash A * option addr) :=
  match _src_hh with
  | None => Ok s
  | Some x =>
      match fuel with
      | O => Diverges
      | S fuel =>
          d ← deref (m_src !! x);
          s ← (if cond (elt d) then select_one d s x else Ok s);
          select_chain fuel m_src s (hh_next d)
      end
  end.

Definition HASH_SELECT dst src : outcome (uthash A) :=
  match head src with
  | None => Ok dst
  | Some _ =>
      t ← deref (tbl src);
      '(dst, _) ← mfold (fun s b => select_chain (size (heap src)) (heap src) s (hh_head b)) (dst, None) (buckets t);
      Ok dst
  end.

(** The elements stay where they are; the table is freed. *)
Definition HASH_CLEAR src : uthash A := UT (heap src) None None.

(** In bytes, where pointers have eight: a handle has six of them and two integers. *)
Definition HASH_OVERHEAD src : outcome Z :=
  match head src with
  | None => Ok 0
  | Some _ => t ← deref (tbl src); Ok (num_items t * 56 + num_buckets t * 16 + 64)
  end.
End select.

(** ** Insertion in order *)

Section ordered_tables.
Context {A : Type} `{hashing : hash_function} (cmpfcn : nrm_hash_s A -> nrm_hash_s A -> Z).
Abbreviation memory := (gmap addr (UT_hash_handle (nrm_hash_s A))) (only parsing).
Implicit Types (m : memory) (u : uthash (nrm_hash_s A)) (l : list addr) (table : nrm_hash A) (e : nrm_hash_s A).

(** In front of the first element that comes after it. *)
Fixpoint insert_inorder e table : nrm_hash A :=
  match table with
  | [] => [e]
  | e' :: table => if cmpfcn e' e >? 0 then e :: e' :: table else e' :: insert_inorder e table
  end.

Lemma insert_inorder_perm e table : insert_inorder e table ≡ₚ e :: table.
Proof.
  induction table as [|e' table IH]; [done|]. cbn. destruct (_ >? 0); [done|]. rewrite IH. apply Permutation_swap.
Qed.

(** The place of an element in a table. *)
Definition place e l table (l1 l2 : list addr) (t1 t2 : nrm_hash A) : Prop :=
  l = l1 ++ l2 /\ table = t1 ++ t2 /\ length l1 = length t1 /\ insert_inorder e table = t1 ++ e :: t2.

Lemma inner_loop_ok m x e : UthashRefine.element m x e -> forall l table fuel p,
  l <> [] -> Forall2 (UthashRefine.element m) l table -> segment (app_links m) p l None -> (length l <= fuel)%nat ->
  exists l1 l2 t1 t2, place e l table l1 l2 t1 t2 /\
    match first l None with Some y => HASH_AKBI_INNER_LOOP cmpfcn fuel m y x | None => Diverges end = Ok (first l2 None).
Proof.
  intros (d & Hd & He & _) l. induction l as [|y l IH]; intros table fuel p Hne Hel Hs Hf; [done|]. clear Hne.
  apply Forall2_cons_inv_l in Hel as (ey & table' & (dy & Hdy & Hey & _) & Hel & ->).
  destruct fuel as [|fuel]; [cbn in Hf; lia|]. destruct Hs as [Hy Hs]. unfold app_links in Hy. rewrite Hdy in Hy.
  injection Hy as _ Hn. cbn [first HASH_AKBI_INNER_LOOP]. rewrite Hdy, Hd. cbn [deref mbind outcome_bind].
  rewrite Hey, He, Hn. unfold place. cbn [insert_inorder]. destruct (cmpfcn ey e >? 0).
  { by exists [], (y :: l), [], (ey :: table'). }
  destruct l as [|z l].
  { apply Forall2_nil_inv_l in Hel as ->. by exists [y], [], [ey], []. }
  destruct (IH table' fuel (Some y) ltac:(done) Hel Hs) as (l1 & l2 & t1 & t2 & (Hl & -> & Hlen & Hins) & E);
    [cbn in *; lia|].
  exists (y :: l1), l2, (ey :: t1), t2. split; [|exact E]. rewrite Hl, Hins. cbn. by rewrite Hlen.
Qed.

Lemma insert_before_ok m hd l1 y l2 x :
  NoDup (l1 ++ y :: l2) -> x ∉ l1 ++ y :: l2 -> (forall z, z ∈ x :: l1 ++ y :: l2 -> is_Some (m !! z)) ->
  segment (app_links m) None (l1 ++ y :: l2) None -> first (l1 ++ y :: l2) None = Some hd ->
  exists m' hd', insert_before m hd y x = Ok (m', hd') /\ first (l1 ++ x :: y :: l2) None = Some hd' /\
    same_info m m' /\ (forall z, bkt_links m' z = bkt_links m z) /\
    segment (app_links m') None (l1 ++ x :: y :: l2) None.
Proof.
  intros Hnd Hx Hin Hs Hhd. pose proof (segment_middle _ _ _ _ Hs) as Hy. unfold app_links in Hy.
  destruct (Hin y ltac:(set_solver)) as [dy Hdy]. rewrite Hdy in Hy. injection Hy as Hp _.
  set (m1 := alter_opt (Uthash.set_next (Some y)) (Some x) m).
  set (m2 := alter_opt (Uthash.set_prev (final None l1)) (Some x) m1).
  set (m3 := alter_opt (Uthash.set_next (Some x)) (final None l1) m2).
  set (m4 := alter_opt (Uthash.set_prev (Some x)) (Some y) m3).
  assert (I1 : same_info m m1) by (unfold m1; eauto with nrm).
  assert (I2 : same_info m m2) by (unfold m2; eauto with nrm).
  assert (I3 : same_info m m3) by (unfold m3; eauto with nrm).
  assert (I4 : same_info m m4) by (unfold m4; eauto with nrm).
  assert (Hpin : forall z, final None l1 = Some z -> z ∈ x :: l1 ++ y :: l2).
  { intros z [?|?]%final_elem; [done|set_solver]. }
  assert (Hm1 : m1 !! y = Some dy).
  { unfold m1. rewrite lookup_alter_opt, decide_False; [done|]. intros [= ->]. set_solver. }
  exists m4, (match final None l1 with Some _ => hd | None => x end). split; [|split; [|split; [done|split]]].
  - unfold insert_before. rewrite store_ok by (apply Hin; set_solver). cbn [mbind outcome_bind].
    change (alter _ x m) with m1. rewrite Hm1. cbn [deref mbind outcome_bind]. rewrite Hp.
    rewrite store_ok by (apply (same_info_is_Some m); [done|apply Hin; set_solver]). cbn [mbind outcome_bind].
    change (alter _ x m1) with m2.
    assert (forall (z : addr), z ∈ x :: l1 ++ y :: l2 -> is_Some (m2 !! z)) as Hin2
      by (intros z Hz; apply (same_info_is_Some m); [done|by apply Hin]).
    destruct (final None l1) as [p|] eqn:Ef; cbn [option_map].
    + rewrite store_ok by (apply Hin2, Hpin; done). cbn [mbind outcome_bind]. change (alter _ p m2) with m3.
      rewrite store_ok; [done|]. apply (same_info_is_Some m); [done|apply Hin; set_solver].
    + cbn [mbind outcome_bind]. change m2 with m3. rewrite store_ok; [done|].
      apply (same_info_is_Some m); [done|apply Hin; set_solver].
  - destruct l1 as [|z l1]; [done|]. destruct (final_some z l1) as (w & Hw & _). cbn [final]. by rewrite Hw.
  - intros z. unfold m4, m3, m2, m1. by autorewrite with views.
  - eapply segment_ext; [|apply (segment_insert (app_links m) l1 x (y :: l2) Hnd Hx); [|exact Hs]].
    + intros z _. unfold m4, m3, m2, m1. rewrite app_set_prev. apply set_p_ext. intros ?. rewrite app_set_next.
      apply set_n_ext. intros ?. rewrite app_set_prev. apply set_p_ext. intros ?. by rewrite app_set_next.
    + destruct (Hin x ltac:(set_solver)) as [d Hd]. unfold app_links. rewrite Hd. by eexists.
Qed.
(** The element goes to its place. *)
Lemma hash_add_inorder_ok u l table x d :
  repr u l table -> room u -> x ∉ l -> heap u !! x = Some d -> Z.of_nat (length table) < 2 ^ 32 - 2 ->
  exists u' l', HASH_ADD_KEYPTR_INORDER cmpfcn u (uuid (elt d)) x = Ok u' /\
    repr u' l' (insert_inorder (elt d) table).
Proof.
  intros Hr Hroom Hxl Hx Hsmall. destruct (set_key_ok u l table x d Hr Hxl Hx) as (m0 & E0 & (Hnd & Hel & Hl) & He & _).
  pose proof (Forall2_length _ _ _ Hel) as Hlen. cbn [heap head tbl] in *.
  unfold HASH_ADD_KEYPTR_INORDER, HASH_ADD_KEYPTR_BYHASHVALUE_INORDER. rewrite E0. cbn [mbind outcome_bind].
  destruct (decide (l = [])) as [->|Hne].
  { cbn in Hl. rewrite Hl. apply Forall2_nil_inv_l in Hel as ->.
    destruct (first_element_ok m0 x (elt d) He) as (m' & t' & E & Hr' & _). by exists (UT m' (Some x) (Some t')), [x]. }
  destruct (linked_table _ _ Hl Hne) as (t & cs & hd & Ht & Hh & Hf & Hs & Hok & Hp & Hhd). cbn [heap head tbl] in *.
  assert (Hin : forall z, z ∈ x :: l -> is_Some (m0 !! z)).
  { intros z [->|Hz]%elem_of_cons; [destruct He as (d0 & ? & _); by exists d0|by eapply elements_is_Some]. }
  unfold room in Hroom. rewrite Hh, Ht in Hroom. rewrite Hh, Ht. cbn [deref mbind outcome_bind].
  destruct (inner_loop_ok m0 x (elt d) He l table (size m0) None Hne Hel Hs) as (l1 & l2 & t1 & t2 & Hplace & E).
  { rewrite <- size_dom, <- (size_list_to_set (C := gset addr) l) by done.
    apply subseteq_size. intros z Hz%elem_of_list_to_set. apply elem_of_dom. apply Hin. set_solver. }
  rewrite Hhd in E. rewrite E. cbn [mbind outcome_bind]. destruct Hplace as (Hl12 & Ht12 & Hlen1 & Hins). rewrite Hins.
  assert (Hlast : forall m1 t' hd', same_info m0 m1 -> segment (app_links m1) None (l1 ++ x :: l2) None ->
    first (l1 ++ x :: l2) None = Some hd' -> final None (l1 ++ x :: l2) = Some (tail t') ->
    table_ok m1 t' (length l) cs -> log2_num_buckets t' < 31 ->
    exists u' l', ('(m, t) ← HASH_ADD_TO_TABLE m1 t' (HASH_FUNCTION (uuid (elt d))) x; Ok (UT m (Some hd') (Some t))) = Ok u' /\
      repr u' l' (t1 ++ elt d :: t2)).
  { intros m1 t' hd' I1 S1 F1 T1 Ok1 R1. assert (Hperm : l1 ++ x :: l2 ≡ₚ l ++ [x]).
    { rewrite Hl12, <- Permutation_middle. by rewrite (Permutation_app_comm _ [x]). }
    destruct (add_to_table_ok m1 t' cs l (l1 ++ x :: l2) (t1 ++ elt d :: t2) x (elt d) hd') as (m' & t2' & -> & Hr' & _);
      try done; [| |by eapply element_info|lia|by eexists _, _].
    - rewrite Hl12, Ht12 in Hel. apply Forall2_app_inv in Hel as [H1 H2]; [|done].
      apply (elements_info m0); [done|]. apply Forall2_app; [done|]. by constructor.
    - rewrite Hperm. apply NoDup_app. split; [done|]. split; [|apply NoDup_singleton]. intros y Hy Hy'. set_solver. }
  destruct l2 as [|y l2]; cbn [first].
  - rewrite app_nil_r in Hl12. subst l1. destruct (append_ok m0 t l x cs Hnd Hxl Hf) as (m1 & E1 & I1 & B1 & S1 & Ok1); [|done| |done|].
    { apply Hin. set_solver. }
    { intros y Hy. apply Hin. set_solver. }
    rewrite E1. cbn [mbind outcome_bind]. apply (Hlast m1 (with_tail t x) hd); try done; [|by rewrite final_snoc].
    by destruct l.
  - subst l. destruct (insert_before_ok m0 hd l1 y l2 x Hnd Hxl Hin Hs Hhd) as (m1 & hd' & E1 & F1 & I1 & B1 & S1).
    rewrite E1. cbn [mbind outcome_bind]. apply (Hlast m1 t hd'); try done.
    + rewrite final_app in Hf |- *. exact Hf.
    + eapply table_ok_agree; [exact Hok|]. intros z _. split; [apply B1|apply I1].
Qed.

(** ** Replacement *)

Lemma HASH_DEL_absent table k : k ∉ uuid <$> table -> HASH_DEL table k = table.
Proof.
  induction table as [|e table IH]; [done|]. rewrite fmap_cons, not_elem_of_cons. intros [Hne Hn]. cbn.
  rewrite decide_False by done. by rewrite IH.
Qed.

Lemma HASH_DEL_gone table k : hash_wf table -> k ∉ uuid <$> HASH_DEL table k.
Proof.
  unfold hash_wf. induction table as [|e table IH]; [set_solver|]. rewrite fmap_cons. intros [Hn Hwf]%NoDup_cons. cbn.
  destruct (decide (uuid e = k)) as [<-|Hne]; [done|]. rewrite fmap_cons, not_elem_of_cons. split; [done|auto].
Qed.

Lemma HASH_DEL_elem e table k : e ∈ HASH_DEL table k -> e ∈ table.
Proof.
  induction table as [|e' table IH]; [done|]. cbn. destruct (decide _); [set_solver|].
  intros [->|H]%elem_of_cons; [set_solver|]. apply elem_of_cons. auto.
Qed.

(** What has the key goes out of the table; the new element is still in memory. *)
Lemma replaced_ok u l table x d k :
  repr u l table -> hash_wf table -> room u -> x ∉ l -> heap u !! x = Some d -> Z.of_nat (length table) < 2 ^ 32 - 2 ->
  exists replaced u1 l1 d1, HASH_FIND_BYHASHVALUE u k (HASH_FUNCTION k) = Ok replaced /\
    found_as (heap u) l table k replaced /\
    (match replaced with Some y => HASH_DELETE u y | None => Ok u end) = Ok u1 /\
    repr u1 l1 (HASH_DEL table k) /\ room u1 /\ (x ∉ l1) /\ heap u1 !! x = Some d1 /\ elt d1 = elt d /\
    Z.of_nat (length (HASH_DEL table k)) < 2 ^ 32 - 2.
Proof.
  intros Hr Hwf Hroom Hxl Hx Hsmall. destruct (hash_find_ok u l table k Hr Hwf) as (out & E & Hout).
  exists out. assert (HASH_FIND_BYHASHVALUE u k (HASH_FUNCTION k) = Ok out) as E'.
  { unfold HASH_FIND in E. destruct (head u) eqn:Eh; [done|]. unfold HASH_FIND_BYHASHVALUE. by rewrite Eh. }
  destruct out as [y|].
  - pose proof Hout as (l1 & l2 & t1 & t2 & e & -> & -> & Hlen & _ & <- & _).
    destruct (hash_delete_mem_ok u l1 y l2 t1 e t2 Hr Hlen ltac:(lia)) as (u1 & E1 & Hr1 & Hi & Hroom1).
    destruct (same_info_Some _ _ _ _ Hi Hx) as (d1 & Hd1 & _ & _ & He1). rewrite HASH_DEL_middle by done.
    exists u1, (l1 ++ l2), d1. repeat (split; [done || by apply Hroom1|]). split; [set_solver|].
    split; [done|]. split; [done|]. rewrite !length_app in *. cbn [length] in *. lia.
  - rewrite HASH_DEL_absent by (by apply HASH_FIND_None). by exists u, l, d.
Qed.

(** The order of a table. *)
Definition in_order table : Prop := StronglySorted (fun e e' => cmpfcn e e' <= 0) table.

Lemma insert_in_order e table : orders cmpfcn -> in_order table -> in_order (insert_inorder e table).
Proof.
  intros [Htrans Hflip] Hs. induction table as [|e' table IH]; [repeat constructor|].
  apply StronglySorted_inv in Hs as [Hs Hall]. cbn [insert_inorder]. destruct (cmpfcn e' e >? 0) eqn:E.
  - apply Z.gtb_lt in E. assert (cmpfcn e e' <= 0) as Hle by (apply Hflip; lia).
    constructor; [by constructor|]. constructor; [done|]. eapply Forall_impl; [exact Hall|]. cbn. eauto.
  - rewrite Z.gtb_ltb in E. apply Z.ltb_ge in E. constructor; [by apply IH|]. rewrite insert_inorder_perm.
    by constructor.
Qed.

Lemma HASH_DEL_in_order table k : in_order table -> in_order (HASH_DEL table k).
Proof.
  induction table as [|e table IH]; [done|]. intros [Hs Hall]%StronglySorted_inv. cbn.
  destruct (decide _); [done|]. constructor; [by apply IH|]. apply Forall_forall. intros e' He'%HASH_DEL_elem.
  by apply (proj1 (Forall_forall _ _) Hall).
Qed.

Lemma insert_wf e table : hash_wf table -> uuid e ∉ uuid <$> table -> hash_wf (insert_inorder e table).
Proof. intros Hwf He. unfold hash_wf. rewrite insert_inorder_perm, fmap_cons. by apply NoDup_cons. Qed.

(** Inserting in order and replacing. A new element gets in front of the first one
    that the comparison puts after it, with [HASH_ADD_INORDER], so that a table in
    order stays in order. [HASH_REPLACE] and [HASH_REPLACE_INORDER] hand out the
    element that had its key, if there was one, and put the new one at the end or at
    its place in what is left: keys stay unique. *)
Theorem uthash_inorder_replace u l table x d :
  repr u l table -> hash_wf table -> room u -> x ∉ l -> heap u !! x = Some d -> Z.of_nat (length table) < 2 ^ 32 - 2 ->
  let e := elt d in
  let rest := HASH_DEL table (uuid e) in
  (exists u' l', HASH_ADD_KEYPTR_INORDER cmpfcn u (uuid e) x = Ok u' /\ repr u' l' (insert_inorder e table)) /\
  (exists replaced u' l', HASH_REPLACE u (uuid e) x = Ok (replaced, u') /\ repr u' l' (HASH_ADD rest e) /\
     found_as (heap u) l table (uuid e) replaced) /\
  (exists replaced u' l', HASH_REPLACE_INORDER cmpfcn u (uuid e) x = Ok (replaced, u') /\
     repr u' l' (insert_inorder e rest) /\ found_as (heap u) l table (uuid e) replaced) /\
  hash_wf (HASH_ADD rest e) /\ hash_wf (insert_inorder e rest) /\
  (orders cmpfcn -> in_order table -> in_order (insert_inorder e table) /\ in_order (insert_inorder e rest)).
Proof.
  intros Hr Hwf Hroom Hxl Hx Hsmall. cbn zeta. split; [by eapply hash_add_inorder_ok|].
  destruct (replaced_ok u l table x d (uuid (elt d)) Hr Hwf Hroom Hxl Hx Hsmall)
    as (out & u1 & l1 & d1 & E1 & Hout & E2 & Hr1 & Hroom1 & Hx1 & Hd1 & He1 & Hsmall1).
  destruct (HASH_DEL_wf table (uuid (elt d)) Hwf) as (Hwf1 & _). pose proof (HASH_DEL_gone table (uuid (elt d)) Hwf) as Hk1.
  split; [|split; [|split; [|split; [by apply insert_wf|]]]].
  - destruct (hash_add_mem_ok u1 l1 _ (elt d) x d1 Hr1 Hroom1 Hx1 Hd1 He1 Hsmall1) as (u' & E & Hr' & _).
    exists out, u', (l1 ++ [x]). split; [|by split]. unfold HASH_REPLACE, HASH_REPLACE_BYHASHVALUE. rewrite E1.
    cbn [mbind outcome_bind]. rewrite E2. cbn [mbind outcome_bind]. unfold HASH_ADD_KEYPTR in E. by rewrite E.
  - destruct (hash_add_inorder_ok u1 l1 _ x d1 Hr1 Hroom1 Hx1 Hd1 Hsmall1) as (u' & l' & E & Hr').
    rewrite He1 in E, Hr'. exists out, u', l'. split; [|by split].
    unfold HASH_REPLACE_INORDER, HASH_REPLACE_BYHASHVALUE_INORDER. rewrite E1.
    cbn [mbind outcome_bind]. rewrite E2. cbn [mbind outcome_bind]. unfold HASH_ADD_KEYPTR_INORDER in E. by rewrite E.
  - unfold hash_wf, HASH_ADD. rewrite Permutation_app_comm. cbn. by apply NoDup_cons.
  - intros Ho Hs. split; apply insert_in_order; try done. by apply HASH_DEL_in_order.
Qed.
End ordered_tables.

Section srt.
Context {A : Type} (cmpfcn : A -> A -> Z).
Abbreviation memory := (gmap addr (UT_hash_handle A)) (only parsing).
Implicit Types (m : memory) (u : uthash A).

(** The handles as the elements of a list that is linked by [prev] and [next]. *)
Definition as_element (d : UT_hash_handle A) : @Utlist.element (UT_hash_handle A) :=
  Element (Uthash.prev d) (Uthash.next d) d.
Definition of_element (e : @Utlist.element (UT_hash_handle A)) : UT_hash_handle A :=
  Uthash.set_prev (Utlist.prev e) (Uthash.set_next (Utlist.next e) (user e)).

Definition cmp_elt (d d' : UT_hash_handle A) : Z := cmpfcn (elt d) (elt d').

(** The last turn of the sort sets the head, and the tail in the table. *)
Definition HASH_SRT u : outcome (uthash A) :=
  match head u with
  | None => Ok u
  | Some _ =>
      '((list, tail), h) ← with_fuel (fun fuel => sort_loop cmp_elt fuel Sort_uthash 1 (head u)) (as_element <$> heap u);
      t ← deref (tbl u);
      tail ← deref tail;
      Ok (UT (of_element <$> h) list (Some (with_tail t tail)))
  end.

(** ** The two views of a memory *)

(** Links both ways are two chains of pointers. *)
Lemma segment_nexts (g : links (N := addr)) (f b : addr -> option (option addr)) l p n :
  (forall x, f x = snd <$> g x) -> (forall x, b x = fst <$> g x) ->
  segment g p l n <-> nexts f l n /\ nexts b (reverse l) p.
Proof.
  intros Hf Hb. revert p. induction l as [|x l IH]; intros p; [by split|].
  cbn [segment nexts]. rewrite reverse_cons, nexts_app, IH, Hf. cbn [nexts first]. rewrite Hb.
  split.
  - intros (-> & ? & ?). auto.
  - intros ((H1 & H2) & H3 & H4 & _). split; [|done]. destruct (g x) as [[q s]|]; [|done]. cbn in *. congruence.
Qed.

Lemma nx_as m x : nx (as_element <$> m) x = snd <$> app_links m x.
Proof. unfold nx, app_links. rewrite lookup_fmap. by destruct (m !! x). Qed.
Lemma pv_as m x : pv (as_element <$> m) x = fst <$> app_links m x.
Proof. unfold pv, app_links. rewrite lookup_fmap. by destruct (m !! x). Qed.
Lemma nx_of h x : nx h x = snd <$> app_links (of_element <$> h) x.
Proof. unfold nx, app_links. rewrite lookup_fmap. by destruct (h !! x). Qed.
Lemma pv_of h x : pv h x = fst <$> app_links (of_element <$> h) x.
Proof. unfold pv, app_links. rewrite lookup_fmap. by destruct (h !! x). Qed.

(** Only the links in the order of the elements are written. *)
Lemma of_element_frame m l h : writes l (as_element <$> m) h ->
  same_info m (of_element <$> h) /\ forall x, bkt_links (of_element <$> h) x = bkt_links m x.
Proof.
  intros [Hus _]. assert (forall x, user <$> h !! x = m !! x) as Hx.
  { intros x. specialize (Hus x). unfold us in Hus. rewrite Hus, lookup_fmap. by destruct (m !! x). }
  split; intros x; specialize (Hx x); unfold info, bkt_links; rewrite <- Hx, lookup_fmap; by destruct (h !! x).
Qed.
End srt.

(** ** Sorting *)

Section sorts.
Context {A : Type} `{hashing : hash_function} (cmpfcn : nrm_hash_s A -> nrm_hash_s A -> Z).
Abbreviation memory := (gmap addr (UT_hash_handle (nrm_hash_s A))) (only parsing).
Implicit Types (m : memory) (u : uthash (nrm_hash_s A)) (L : list (addr * nrm_hash_s A)).
Implicit Types (D : list (addr * UT_hash_handle (nrm_hash_s A))).

(** What a handle is for. *)
Definition holds (p : addr * UT_hash_handle (nrm_hash_s A)) : addr * nrm_hash_s A := (p.1, elt p.2).

Lemma insert_holds p D : holds <$> insert (cmp_elt cmpfcn) p D = insert cmpfcn (holds p) (holds <$> D).
Proof.
  induction D as [|q D IH]; [done|]. cbn [insert fmap list_fmap]. change (le cmpfcn (holds p) (holds q)) with (le (cmp_elt cmpfcn) p q).
  destruct (le _ p q); [done|]. cbn [fmap list_fmap]. by f_equal.
Qed.

Lemma isort_holds D : holds <$> isort (cmp_elt cmpfcn) D = isort cmpfcn (holds <$> D).
Proof. induction D as [|p D IH]; [done|]. cbn [isort fmap list_fmap]. by rewrite insert_holds, IH. Qed.

Lemma keys_holds D : (holds <$> D).*1 = D.*1.
Proof. induction D as [|p D IH]; [done|]. cbn. by rewrite IH. Qed.

(** The handles of the elements of a table. *)
Lemma elements_handles m L : Forall2 (UthashRefine.element m) L.*1 L.*2 ->
  exists D, holds <$> D = L /\ Forall (fun p => m !! p.1 = Some p.2) D.
Proof.
  induction L as [|[x e] L IH]; intros Hf; [by exists []|]. apply Forall2_cons in Hf as [(d & Hx & He & _) Hf]. cbn in He, Hx. subst e.
  destruct (IH Hf) as (D & <- & HD). exists ((x, d) :: D). split; [done|]. by constructor.
Qed.

Lemma handles_elements m L L' : L' ≡ₚ L -> Forall2 (UthashRefine.element m) L.*1 L.*2 ->
  Forall2 (UthashRefine.element m) L'.*1 L'.*2.
Proof.
  assert (forall L, Forall2 (UthashRefine.element m) L.*1 L.*2 <-> Forall (fun p => UthashRefine.element m p.1 p.2) L) as Hi.
  { intros L0. induction L0 as [|p L0 IH]; [by split; constructor|]. cbn. by rewrite Forall2_cons, Forall_cons, IH. }
  rewrite !Hi. by intros ->.
Qed.

(** [HASH_SRT] sorts a table of no more than [2 ^ 29] elements in place: it ends,
    and leaves a well-formed table with the same elements at the same addresses, whose
    buckets find what they found. When the comparison orders the elements, they are
    then in order, and those that come equal are in the order that they had. *)
Theorem uthash_sorts u L : repr u L.*1 L.*2 -> Z.of_nat (length L) <= 2 ^ 29 ->
  exists u' L', HASH_SRT cmpfcn u = Ok u' /\ repr u' L'.*1 L'.*2 /\ L' ≡ₚ L /\
    (room u -> room u') /\
    (orders cmpfcn -> sorted cmpfcn L' /\ (forall x, equals cmpfcn x L' = equals cmpfcn x L) /\ L' = isort cmpfcn L).
Proof.
  intros Hr Hlen. pose proof Hr as (Hd & Hel & Hl).
  destruct (decide (L = [])) as [->|HL].
  { cbn in Hl. exists u, []. unfold HASH_SRT. rewrite Hl. split; [done|]. split; [done|]. split; [done|].
    split; [done|]. intros _. by repeat constructor. }
  assert (exists t cs, tbl u = Some t /\ head u = first L.*1 None /\ final None L.*1 = Some (tail t) /\
    segment (app_links (heap u)) None L.*1 None /\ table_ok (heap u) t (length L.*1) cs /\ mjoin cs ≡ₚ L.*1)
    as (t & cs & Ht & Hh & _ & Hs & Hok & Hcs) by (unfold UthashRefine.linked in Hl; by destruct L).
  destruct (elements_handles _ _ Hel) as (D & <- & HD). rewrite keys_holds in *.
  assert (HD0 : D <> []) by (by intros ->).
  assert (Hlisted : listed Sort_uthash (as_element <$> heap u) (head u) D).
  { split; [done|]. split; [|split; [done|]].
    - eapply Forall_impl; [exact HD|]. intros p Hp. unfold us. cbn. by rewrite lookup_fmap, Hp.
    - by apply (segment_nexts (app_links (heap u))); [apply nx_as|apply pv_as|]. }
  rewrite length_fmap in Hlen.
  destruct (sort_run (cmp_elt cmpfcn) Sort_uthash _ _ D HD0 Hlisted Hlen)
    as (head' & tail' & h' & D' & Hrun & (Hd' & _ & Hh' & Hs') & -> & Hp & Ho & Hw).
  destruct (of_element_frame _ _ _ Hw) as [Hinfo Hbkt].
  assert (HD0' : D' <> []) by (intros ->; by apply Permutation_nil in Hp).
  destruct D' as [|p D']; [done|]. destruct (final_some p.1 D'.*1) as (z & Hz & _).
  exists (UT (of_element <$> h') head' (Some (with_tail t z))), (holds <$> p :: D').
  assert (HL' : holds <$> p :: D' ≡ₚ holds <$> D) by (by rewrite Hp).
  split; [|split; [|split; [exact HL'|]]].
  - unfold HASH_SRT. rewrite Hrun, Hh, Ht. cbn [fmap list_fmap final] in *. rewrite Hz. by destruct D.
  - rewrite keys_holds. split; [exact Hd'|]. split.
    + apply (elements_info (heap u)); [exact Hinfo|]. rewrite <- keys_holds. by eapply handles_elements; [exact HL'|rewrite keys_holds].
    + apply (linked_intro _ _ (with_tail t z) cs); [done|done|exact Hh'|cbn [fmap list_fmap final]; by rewrite Hz| | |].
      * apply (segment_nexts _ (nx h') (pv h')); [apply nx_of|apply pv_of|exact Hs'].
      * rewrite (Permutation_length (l' := D.*1)) by (by rewrite Hp). cbn [Uthash.heap].
        apply (table_ok_agree (heap u)); [destruct Hok; by split|]. intros y _. split; [apply Hbkt|apply Hinfo].
      * rewrite Hcs. by rewrite Hp.
  - split; [by unfold room; rewrite Hh, Ht; destruct D, head'|]. intros Hcmp.
    assert (orders (cmp_elt cmpfcn)) as Ho' by (destruct Hcmp; split; unfold cmp_elt; eauto).
    rewrite (Ho Ho'), isort_holds. split; [by apply isort_sorted|]. split; [|done]. intros x. by apply isort_equals.
Qed.
End sorts.

(** ** Witnesses *)

(** An element at a new address. *)
Definition with_element (u : uthash (nrm_hash_s nat)) (x : addr) (e : nrm_hash_s nat) : uthash (nrm_hash_s nat) :=
  UT (<[x := Handle None None None None ""%string 0 e]> (heap u)) (head u) (tbl u).

Lemma add_repr u l table x e :
  repr u l table -> room u -> heap u !! x = None -> Z.of_nat (length table) < 2 ^ 32 - 2 ->
  exists u', HASH_ADD_KEYPTR (with_element u x e) (uuid e) x = Ok u' /\ repr u' (l ++ [x]) (table ++ [e]).
Proof.
  intros Hr Hroom Hx Hs. assert (x ∉ l) as Hxl.
  { intros Hin. destruct Hr as (_ & Hel & _). destruct (elements_is_Some _ _ _ _ Hel Hin). congruence. }
  destruct (hash_add_mem_ok (with_element u x e) l table e x (Handle None None None None ""%string 0 e)) as (u' & ? & ? & _);
    [|exact Hroom|done|apply lookup_insert_eq|done|done|by exists u'].
  apply repr_agree; [done|]. intros y Hy. rewrite lookup_insert_ne; [done|]. by intros <-.
Qed.

Definition el (k : string) (n : nat) : nrm_hash_s nat := Elem k n.

(** Three elements, and another one that is not in the table. *)
Lemma three_repr :
  exists u, repr u [1; 2; 3]%positive [el "b" 2; el "c" 1; el "a" 2] /\ room u /\
    heap u !! 4%positive = None.
Proof.
  destruct (add_repr empty_hash [] [] 1%positive (el "b" 2) empty_repr I eq_refl eq_refl) as (u1 & E1 & R1).
  assert (room u1 /\ heap u1 !! 2%positive = None) as [Hr1 H1] by (vm_compute in E1; injection E1 as <-; by split).
  destruct (add_repr u1 _ _ 2%positive (el "c" 1) R1 Hr1 H1 eq_refl) as (u2 & E2 & R2).
  assert (room u2 /\ heap u2 !! 3%positive = None) as [Hr2 H2].
  { vm_compute in E1. injection E1 as <-. vm_compute in E2. injection E2 as <-. by split. }
  destruct (add_repr u2 _ _ 3%positive (el "a" 2) R2 Hr2 H2 eq_refl) as (u3 & E3 & R3).
  exists u3. split; [exact R3|]. vm_compute in E1. injection E1 as <-. vm_compute in E2. injection E2 as <-.
  vm_compute in E3. injection E3 as <-. by split.
Qed.

Definition by_ptr (e e' : nrm_hash_s nat) : Z := Z.of_nat (ptr e) - Z.of_nat (ptr e').

Lemma by_ptr_orders : orders by_ptr.
Proof. unfold by_ptr. split; intros; lia. Qed.

Lemma uthash_sorts_witness :
  exists u u', repr u [1; 2; 3]%positive [el "b" 2; el "c" 1; el "a" 2] /\ HASH_SRT by_ptr u = Ok u' /\
    repr u' [2; 1; 3]%positive [el "c" 1; el "b" 2; el "a" 2].
Proof.
  destruct three_repr as (u & Hr & _).
  destruct (uthash_sorts by_ptr u [(1%positive, el "b" 2); (2%positive, el "c" 1); (3%positive, el "a" 2)] Hr)
    as (u' & L' & E & Hr' & _ & _ & Ho); [by vm_compute|].
  destruct (Ho by_ptr_orders) as (_ & _ & ->). exists u, u'. split; [exact Hr|]. split; [exact E|exact Hr'].
Defined.

(** The new element has the key of the first one, and the place of the last one. *)
Lemma uthash_inorder_replace_witness :
  exists u u' l', repr u [1; 2; 3]%positive [el "b" 2; el "c" 1; el "a" 2] /\
    (exists replaced, HASH_REPLACE (with_element u 4%positive (el "b" 5)) "b" 4%positive = Ok (replaced, u')) /\
    repr u' l' [el "c" 1; el "a" 2; el "b" 5].
Proof.
  destruct three_repr as (u & Hr & Hroom & Hx).
  assert (repr (with_element u 4%positive (el "b" 5)) [1; 2; 3]%positive [el "b" 2; el "c" 1; el "a" 2]) as Hr'.
  { apply repr_agree; [done|]. intros y Hy. rewrite lookup_insert_ne; [done|]. intros <-. revert Hy.
    by apply (bool_decide_unpack (4%positive ∉ [1; 2; 3]%positive)). }
  destruct (uthash_inorder_replace by_ptr (with_element u 4%positive (el "b" 5)) _ _ 4%positive
      (Handle None None None None ""%string 0 (el "b" 5)) Hr')
    as (_ & (replaced & u' & l' & E & Hr2 & _) & _).
  - by apply (bool_decide_unpack _).
  - exact Hroom.
  - by apply (bool_decide_unpack _).
  - apply lookup_insert_eq.
  - done.
  - exists u, u', l'. split; [exact Hr|]. split; [by exists replaced|exact Hr2].
Defined.

(** [HASH_SELECT] does not move the tail of the table that it makes: an element added
    to it later comes after the first one, and the others are lost to iteration. The
    keys are [b], [c] and [a]; the new one is [d]. *)
Definition selected : outcome (list nat * list nat * Z) :=
  u ← add_keys ["b"; "c"; "a"]%string 1 empty_hash;
  dst ← HASH_SELECT (fun e => bool_decide (uuid e <> "z"%string))
          (UT ((fun d => Handle None None None None ""%string 0 (elt d)) <$> heap u) None None) u;
  before ← nrm_hash_foreach_mem dst;
  dst ← HASH_ADD_KEYPTR (with_element dst 4%positive (el "d" 7)) "d" 4%positive;
  after ← nrm_hash_foreach_mem dst;
  n ← HASH_COUNT dst;
  Ok (before, after, n).

Example select_tail : selected = Ok ([0; 2; 1]%nat, [0; 7]%nat, 4).
Proof. vm_compute. reflexivity. Qed.
