(* ===== verification/Daemon.v ===== *)
(** * The daemon (src/binaries/nrmd.c)

    The daemon is a server whose callbacks feed an event base, publish events, and
    run the control loop on ticks and timers. *)

From Stdlib Require Import Ascii.
From S2P Require Import Prelude Vectors Doubles Hashes Bitmaps Json Timers Scopes Actuators.
From S2P Require Import Events Messages MsgJson States Roles Loops Server Client System Control.
From S2P Require Import Getopt Tools Topology.

(** [struct nrm_daemon_s], less the state and the server, which are the server's
    here; [d_clock] counts the readings of the clock. *)
Record daemon := Daemon {
  d_events : option eventbase;
  d_control : option nrm_control;
  d_mysensor : option nrm_sensor;
  d_myscope : option nrm_scope;
  d_mytopic : option string;
  d_eventtopic : option string;
  d_clock : nat
}.

Definition with_events (d : daemon) (eb : option eventbase) : daemon :=
  Daemon eb (d_control d) (d_mysensor d) (d_myscope d) (d_mytopic d) (d_eventtopic d) (d_clock d).
Definition with_control (d : daemon) (c : option nrm_control) : daemon :=
  Daemon (d_events d) c (d_mysensor d) (d_myscope d) (d_mytopic d) (d_eventtopic d) (d_clock d).
Definition with_clock (d : daemon) (n : nat) : daemon :=
  Daemon (d_events d) (d_control d) (d_mysensor d) (d_myscope d) (d_mytopic d) (d_eventtopic d) n.

Section daemon.
Context `{Qsort} (exp log : double -> double).
(** The readings of the clock. *)
Variable clock : nat -> nrm_time.
Abbreviation server := (nrm_server daemon) (only parsing).

(** [nrm_time_gettime]. *)
Definition gettime (d : daemon) : nrm_time * daemon := (clock (d_clock d), with_clock d (S (d_clock d))).

Definition nrmd_event_callback (s : server) (uuid : string) (scope : option nrm_scope)
    (time : nrm_time) (value : double) : outcome (Z * server) :=
  let d := s_user s in
  '(_, eb) ← nrm_eventbase_push_event (d_events d) (Some uuid) scope time value;
  let s := with_user s (with_events d eb) in
  '(_, s') ← nrm_server_publish (Some s) (d_eventtopic d) time (Some uuid) scope value;
  s ← deref s';
  Ok (0, s).

Definition nrmd_actuate_callback (s : server) (a : nrm_actuator) (value : double)
    : outcome (Z * server) := Ok (0, s).

Definition nrmd_actuator_value (st : nrm_state) (uuid : option string) : outcome double :=
  match snd (nrm_hash_find (st_actuators st) uuid false) with
  | Some a => nrm_actuator_value (Some a)
  | None => Ok d0
  end.

(** The series of the inputs: [scope] is not initialised when the table does not
    have it. *)
Fixpoint pull_inputs (st : nrm_state) (d : daemon) (ins : list control_input)
    : outcome (daemon * list control_input) :=
  match ins with
  | [] => Ok (d, [])
  | i :: ins =>
      scope ← deref (snd (nrm_hash_find (st_scopes st) (Some (in_scope_uuid i)) false));
      let '(now, d) := gettime d in
      '(_, ts) ← nrm_eventbase_pull_timeserie now (d_events d) (Some (in_sensor_uuid i)) (Some scope)
                   (in_since i);
      '(d, rest) ← pull_inputs st d ins;
      Ok (d, Input (in_sensor_uuid i) (in_scope_uuid i) (in_since i)
               (match ts with Some t => Some t | None => in_timeserie i end) :: rest)
  end.

Fixpoint read_outputs (st : nrm_state) (outs : list control_output) : outcome (list control_output) :=
  match outs with
  | [] => Ok []
  | o :: outs =>
      v ← nrmd_actuator_value st (Some (out_actuator_uuid o));
      rest ← read_outputs st outs;
      Ok (Output (out_actuator_uuid o) v :: rest)
  end.

(** The vectors of inputs and outputs are the control's own. *)
Definition nrmd_control_tick (s : server) : outcome (Z * server) :=
  let '(now, d) := gettime (s_user s) in
  control ← deref (d_control d);
  let '(_, control) := nrm_control_getargs control in
  '(d, ins) ← pull_inputs (s_state s) d (inputs (c_data control));
  outs ← read_outputs (s_state s) (outputs (c_data control));
  let '(actiontime, d) := gettime d in
  '(_, control, outs) ← nrm_control_action exp log actiontime control ins outs;
  let control := Control (c_ops control) (with_outputs (with_inputs (c_data control) ins) outs) in
  let s := with_user s (with_control d (Some control)) in
  s ← mfold (fun s o => '(_, s) ← nrm_server_actuate s (Some (out_actuator_uuid o)) (out_value o); Ok s)
        s outs;
  let d := s_user s in
  eb ← deref (d_events d);
  let '(_, eb) := nrm_eventbase_tick eb now in
  Ok (0, with_user s (with_events d (Some eb))).

Definition nrmd_timer_callback (s : server) : outcome (Z * server) :=
  let '(now, d) := gettime (s_user s) in
  mysensor ← deref (d_mysensor d);
  '(_, s') ← nrm_server_publish (Some (with_user s d)) (d_mytopic d) now (sensor_uuid mysensor)
               (d_myscope d) d1;
  s ← deref s';
  match d_control (s_user s) with
  | None => Ok (0, s)
  | Some _ => '(_, s) ← nrmd_control_tick s; Ok (0, s)
  end.

Definition nrmd_tick_callback (s : server) : outcome (Z * server) :=
  match d_control (s_user s) with
  | None => Ok (0, s)
  | Some _ => '(_, s) ← nrmd_control_tick s; Ok (0, s)
  end.

(** The callbacks that [main] registers. *)
Definition nrmd_callbacks : nrm_server_user_callbacks daemon :=
  Callbacks (Some nrmd_event_callback) (Some nrmd_actuate_callback) None (Some nrmd_timer_callback)
    (Some nrmd_tick_callback).

(** ** The program *)

Definition EXIT_SUCCESS : Z := 0.
Definition EXIT_FAILURE : Z := 1.

(** [main] exits before it serves, after printing, or enters the loop of its
    server. *)
Inductive nrmd_result :=
| Exits (status : Z) (printed : list string)
| Serves (s : server).

(** The control of the configuration, if a file is named. [config_of] is what
    [fopen] and [json_loadf] give for a name: nothing when either fails, which the
    assertions catch. [control_config] is not initialised when the object has no
    member ["control"]. *)
Definition nrmd_config `{Jansson} (config_of : list ascii -> option json_t) (argv : list (list ascii))
    : outcome (option nrm_control) :=
  match argv with
  | [] => Ok None
  | name :: _ =>
      let config := config_of name in
      _ ← c_assert (negb (is_null config));
      jconfig ← deref config;
      if json_is_object (Some jconfig) then
        control_config ← deref (json_object_get (Some jconfig) "control");
        '(_, control) ← nrm_control_create exp false (clock 0) (Some control_config);
        Ok control
      else Ok None
  end.

(** The part of [main] from the state to the loop. [role], [loop_null] and [sfd] are
    what the creation of the server gets. *)
Definition nrmd_start (topology : hwloc_topology) (control : outcome (option nrm_control))
    (uri : option string) (role : option (nrm_role pipe unit)) (loop_null : bool) (sfd : Z)
    (freq : double) : outcome server :=
  state ← deref (nrm_state_create false);
  '(_, scopes) ← nrm_scope_hwloc_scopes topology (st_scopes state);
  let state := State (st_actuators state) scopes (st_sensors state) (st_slices state) in
  mysensor ← nrm_sensor_create false (Some "daemon.tick"%string);
  let '(_, myscope) := nrm_hash_find scopes (Some "nrm.hwloc.Machine.0"%string) false in
  _ ← c_assert (negb (is_null myscope));
  control ← control;
  let d := Daemon (nrm_eventbase_create false 5) control (Some mysensor) myscope
             (Some "daemon"%string) (Some "daemon.events.raw"%string) 1 in
  '(err, s) ← nrm_server_create false false (Some state) uri role loop_null sfd d;
  _ ← c_assert (err =? 0);
  s ← (if negb (deq freq d0) then
         sleeptime ← nrm_time_fromfreq freq; Ok (snd (nrm_server_settimer s sleeptime))
       else Ok s);
  deref s.

(** [role_of] is [nrm_role_controller_create_fromparams] on the URI and the ports. *)
Definition nrmd_main `{Jansson, Getopt} (strtod : list ascii -> double * bool * bool)
    (nrm_version_string : string) (config_of : list ascii -> option json_t)
    (role_of : option string -> Z -> Z -> option (nrm_role pipe unit))
    (topology : hwloc_topology) (loop_null : bool) (sfd : Z) (args : nrm_tools_args_t)
    (argv : list (list ascii)) : outcome nrmd_result :=
  let args := Args "nrmd" NRM_TOOLS_ARGS_FLAG_FREQ (upstream_uri args) (pub_port args)
    (rpc_port args) (log_level args) (ask_help args) (ask_version args) (freq args)
    (Tools.events args) (inheritance args) in
  '(err, _, args) ← nrm_tools_parse_args strtod argv args;
  if err <? 0 then Ok (Exits EXIT_FAILURE (snd (nrm_tools_print_help args)))
  else
    let argv := drop (Z.to_nat err) argv in
    if negb (ask_help args =? 0) then Ok (Exits EXIT_SUCCESS (snd (nrm_tools_print_help args)))
    else if negb (ask_version args =? 0)
    then Ok (Exits EXIT_SUCCESS (snd (nrm_tools_print_version nrm_version_string args)))
    else
      s ← nrmd_start topology (nrmd_config config_of argv) (upstream_uri args)
            (role_of (upstream_uri args) (pub_port args) (rpc_port args)) loop_null sfd (freq args);
      Ok (Serves s).

(** What [main] does when the loop of the server has ended: everything but the control
    is released, the topics by [nrm_string_decref], and the daemon exits. The server
    is released after the state it was made with, to which it has a pointer. *)
Definition nrmd_teardown (s : server) : outcome nrmd_result :=
  let d := s_user s in
  _ ← deref (d_mytopic d);
  _ ← deref (d_eventtopic d);
  _ ← nrm_sensor_destroy (Some (d_mysensor d));
  let _ := nrm_eventbase_destroy (Some (d_events d)) in
  _ ← nrm_state_destroy (Some (Some (s_state s)));
  _ ← nrm_server_destroy (Some (Some s));
  Ok (Exits EXIT_SUCCESS []).
End daemon.

(** ** Publishing *)

(** Publishing on a server, for a scope with a name and three maps. *)
Lemma publish_msg {U} p st tm (u : U) topic now sensor scope c ms value :
  scope_uuid scope = Some c -> nrm_msg_scope_new scope = Ok ms ->
  nrm_server_publish (Some (srv p st tm u)) (Some topic) now (Some sensor) (Some scope) value =
  Ok (0, Some (srv (pipe_send p (Ctrlmsg "PUB" (V_string topic)
                 (V_msg (event_msg sensor ms scope now value)))) st tm u)).
Proof.
  intros Hu Enew. unfold nrm_server_publish. cbn -[nrm_msg_scope_new nrm_time_tons nrm_time_fromns srv].
  unfold nrm_msg_timeserie_new. cbn -[nrm_msg_scope_new nrm_time_tons nrm_time_fromns srv].
  rewrite Enew. reflexivity.
Qed.

Lemma publish_srv {U} p st tm (u : U) topic now sensor scope c value :
  scope_wf scope -> scope_uuid scope = Some c ->
  exists ms, nrm_scope_create_frommsg (Some (norm_scope ms)) = Ok (Some scope) /\
    nrm_server_publish (Some (srv p st tm u)) (Some topic) now (Some sensor) (Some scope) value =
    Ok (0, Some (srv (pipe_send p (Ctrlmsg "PUB" (V_string topic)
                   (V_msg (event_msg sensor ms scope now value)))) st tm u)).
Proof.
  intros Hwf Hu. destruct (scope_new_frommsg scope c Hwf Hu) as (ms & Enew & Efrom). exists ms.
  split; [done|]. by apply (publish_msg p st tm u topic now sensor scope c).
Qed.

(** Without a scope nothing is published. *)
Lemma publish_any {U} at_uuid (ok : U -> Prop) (s : nrm_server U) topic now sensor scope value :
  server_ok at_uuid ok s -> scope_arg_ok scope ->
  exists rc s', nrm_server_publish (Some s) topic now sensor scope value = Ok (rc, Some s') /\
    server_ok at_uuid ok s' /\ s_user s' = s_user s.
Proof.
  intros [[[out Hr] Hu] Hs] Hsc. destruct s as [r st tm u]. cbn [s_role s_user s_state] in *. subst r.
  assert (Hsame : server_ok at_uuid ok (Server (Some (Role (Some (nrm_role_controller_ops unit))
            (Pipe out []))) st tm u)) by (split; [split; [by eexists|done]|done]).
  destruct topic as [t|]; [|by eexists _, _].
  destruct sensor as [sn|]; [|by eexists _, _].
  destruct scope as [sc|]; [|by eexists _, _]. destruct Hsc as [Hwf [c Hc]].
  destruct (publish_srv (Pipe out []) st tm u t now sn sc c value Hwf Hc) as (ms & _ & E).
  unfold srv in E at 1. rewrite E. eexists _, _. split; [reflexivity|]. split; [|done].
  split; [split; [by eexists|done]|done].
Qed.

(** ** Events *)

Section events.
Context `{Qsort, Protobuf} {D W : Type}.
(** A subscribed client with its listener. *)
Variable client : nrm_client D W.
Variable listener : string -> nrm_time -> option nrm_scope -> double -> W -> outcome W.

(** The subscriber's callback on the frames of one published event. *)
Lemma subscriber_event kb w topic sensor ms scope time value :
  user_fn client = Some listener -> time_ok time ->
  nrm_scope_create_frommsg (Some (norm_scope ms)) = Ok (Some scope) ->
  nrm_client_broker_sub_handler (Some (run_callback client nrm_client__sub_callback_fn)) kb w
    (topic :: nrm_msg_send (event_msg sensor ms scope time value)) =
  w' ← listener sensor time (Some scope) value w; Ok (0, kb, w').
Proof.
  intros Hf Ht Hsc. unfold nrm_client_broker_sub_handler, nrm_msg_sub, nrm_msg_pop_packed_frames.
  cbn -[event_msg norm_msg run_callback]. rewrite unpack_pack.
  cbn -[event_msg norm_msg run_callback]. unfold run_callback, nrm_client__sub_callback. rewrite Hf.
  cbn -[norm_scope nrm_time_tons nrm_time_fromns nrm_scope_create_frommsg]. rewrite Hsc.
  cbn -[nrm_time_tons nrm_time_fromns]. rewrite fromns_tons by done.
  by destruct (listener _ _ _ _ _).
Qed.

(** An event that the daemon receives is recorded and published. The callback
    puts it into the slice of its sensor, scope and time, and leaves all other
    slices as they were; the message that it publishes goes out under the topic
    of the events, and a client that is subscribed gets its listener called on
    just this sensor, time, scope and value. *)
Theorem nrmd_event_recorded_published p st tm (d : daemon) eb topic sensor scope c time value :
  d_events d = Some eb -> d_eventtopic d = Some topic -> scope_wf scope -> scope_uuid scope = Some c ->
  time_ok time -> user_fn client = Some listener ->
  exists eb' ctrl frames,
    nrmd_event_callback (srv p st tm d) sensor (Some scope) time value =
    Ok (0, srv (pipe_send p ctrl) st tm (with_events d (Some eb'))) /\
    (forall s' c', slices_of eb' s' c' =
       if decide (sensor = s' /\ c = c')
       then add_to_slice (slices_of eb sensor c) (nrm_eb_time2key time) time value
       else slices_of eb s' c') /\
    (forall cb, nrm_controller_broker_pipe_handler cb ctrl =
       Ok (0, ControllerBroker (cb_pipe cb) (cb_rpc cb) (cb_pub cb ++ [topic :: frames]))) /\
    (forall kb w,
       nrm_client_broker_sub_handler (Some (run_callback client nrm_client__sub_callback_fn)) kb w
         (topic :: frames) =
       w' ← listener sensor time (Some scope) value w; Ok (0, kb, w')).
Proof.
  intros He Ht Hwf Hu Hok Hf. destruct (push_slices eb sensor scope c time value Hu) as (eb' & E & Hsl).
  destruct (publish_srv p st tm (with_events d (Some eb')) topic time sensor scope c value Hwf Hu)
    as (ms & Efrom & Ep).
  exists eb', (Ctrlmsg "PUB" (V_string topic) (V_msg (event_msg sensor ms scope time value))),
    (nrm_msg_send (event_msg sensor ms scope time value)).
  split; [|split; [exact Hsl|split]].
  - unfold nrmd_event_callback. cbn [s_user srv]. rewrite He, E. cbn [mbind outcome_bind].
    change (with_user (srv p st tm d) ?u) with (srv p st tm u). rewrite Ht, Ep. reflexivity.
  - intros cb. unfold nrm_controller_broker_pipe_handler. cbn -[nrm_msg_destroy_created event_msg].
    rewrite msg_destroy_ok; [reflexivity|]. split; [done|]. by repeat constructor.
  - intros kb w. by apply subscriber_event.
Qed.
End events.

(** ** The control loop *)

Section tick.
Context `{Qsort} (exp log : double -> double) (clock : nat -> nrm_time).

Lemma hash_find_snd {A} (table : nrm_hash A) k :
  snd (nrm_hash_find table (Some k) false) = ptr <$> HASH_FIND table k.
Proof. unfold nrm_hash_find. destruct table; [done|]. by destruct (HASH_FIND _ k). Qed.

(** What the controller does on the events of a window, and the value for its
    output. *)
Definition controlled (now : nrm_time) (data : europar21_data) (events : list nrm_event) (current : double)
    : outcome (europar21_data * double) :=
  if Z.of_nat (length events) <=? 1 then Ok (data, current)
  else
    prog ← nrm_control_europar21_events2progress events;
    let '(data, v) := control_step exp log data prog current in
    Ok (with_lastaction data now, v).

Lemma action_controlled now ops data i t out data' v :
  in_timeserie i = Some t -> controlled now data (t_events t) (out_value out) = Ok (data', v) ->
  nrm_control_action exp log now (Control ops data) [i] [out] =
  Ok (0, Control ops data', [Output (out_actuator_uuid out) v]).
Proof.
  intros Ht. destruct ops. unfold controlled, nrm_control_action, nrm_control_europar21_action. cbn [c_ops c_data].
  change (vget [i] 0) with (Some i). change (vget [out] 0) with (Some out).
  cbn [fmap option_fmap option_map]. rewrite Ht. cbn [nrm_timeserie_get_events fmap option_fmap option_map].
  destruct (_ <=? 1); [intros [= <- <-]; by destruct out|].
  intros Hc. apply bind_Ok_inv in Hc as (prog & -> & Hc). cbn [mbind outcome_bind].
  destruct (control_step _ _ _ _ _) as [d2 v2]. injection Hc as <- <-. reflexivity.
Qed.

Lemma pull_one st d eb sensor c since old sc :
  d_events d = Some eb -> HASH_FIND (st_scopes st) c = Some sc -> scope_uuid (ptr sc) = Some c ->
  exists t,
    pull_inputs clock st d [Input sensor c since old] =
    Ok (with_clock d (S (d_clock d)), [Input sensor c since (Some t)]) /\
    t_events t = window_events (nrm_eb_time2key since) (nrm_eb_time2key (clock (d_clock d)))
                   (slices_of eb sensor c).
Proof.
  intros He Hsc Hu.
  destruct (pull_events (clock (d_clock d)) eb sensor (ptr sc) c since Hu) as (t & Et & Hev & _).
  exists t. split; [|done]. cbn [pull_inputs in_scope_uuid in_sensor_uuid in_since]. rewrite hash_find_snd, Hsc.
  cbn [fmap option_fmap option_map deref mbind outcome_bind gettime]. unfold gettime.
  cbn [with_clock d_events]. rewrite He, Et. reflexivity.
Qed.

Lemma read_one st a cur e :
  HASH_FIND (st_actuators st) a = Some e ->
  read_outputs st [Output a cur] = Ok [Output a (a_value (a_data (ptr e)))].
Proof.
  intros Ha. cbn [read_outputs out_actuator_uuid]. unfold nrmd_actuator_value.
  rewrite hash_find_snd, Ha. reflexivity.
Qed.

(** One tick closes the loop. The controller gets the events that the event
    base holds for its input between its last action and now, and the value that
    the server has for its output; what it decides goes to the owner of the
    actuator and is stored as the actuator corrects it, without the validation of
    a client's request, and the event base stays. *)
Theorem nrmd_control_tick_spec p st tm (d : daemon) eb ops data sensor c since old a cur sc e data' v :
  state_ok st -> d_events d = Some eb -> d_control d = Some (Control ops data) ->
  inputs data = [Input sensor c since old] -> outputs data = [Output a cur] ->
  HASH_FIND (st_scopes st) c = Some sc -> HASH_FIND (st_actuators st) a = Some e ->
  let now := clock (S (d_clock d)) in
  let data1 := with_inputs data [Input sensor c (lastaction data) old] in
  controlled (clock (S (S (d_clock d)))) data1
    (window_events (nrm_eb_time2key (lastaction data)) (nrm_eb_time2key now) (slices_of eb sensor c))
    (a_value (a_data (ptr e))) = Ok (data', v) ->
  exists t rc v' owner,
    t_events t = window_events (nrm_eb_time2key (lastaction data)) (nrm_eb_time2key now)
                   (slices_of eb sensor c) /\
    nrm_actuator_corrected_value (Some (ptr e)) (Some v) = Ok (rc, Some v') /\
    a_clientid (a_data (ptr e)) = Some owner /\
    nrmd_control_tick exp log clock (srv p st tm d) =
    Ok (0, srv (pipe_send p (to_send (command a v') (Some owner)))
             (state_set_value st a (with_value (ptr e) v')) tm
             (with_control (with_clock d (3 + d_clock d))
                (Some (Control ops (with_outputs
                   (with_inputs data' [Input sensor c (lastaction data) (Some t)]) [Output a v]))))).
Proof.
  intros Hst He Hc Hin Hout Hsc Ha now data1 Hctl.
  assert (Hscu : scope_uuid (ptr sc) = Some c).
  { destruct Hst as (_ & _ & Pc & _). apply HASH_FIND_key in Hsc as [Hk Hi].
    rewrite Forall_forall in Pc. destruct (Pc _ Hi) as [Hu _]. congruence. }
  destruct (pull_one st (with_clock d (S (d_clock d))) eb sensor c (lastaction data) old sc He Hsc Hscu)
    as (t & Et & Hev).
  set (d3 := with_control (with_clock d (3 + d_clock d)) (Some (Control ops (with_outputs
               (with_inputs data' [Input sensor c (lastaction data) (Some t)]) [Output a v])))).
  destruct (actuate_srv p st tm d3 a e v Hst Ha) as (rc & v' & owner & Hv & Hown & Eact).
  exists t, rc, v', owner. split; [done|]. split; [done|]. split; [done|].
  pose proof (action_controlled (clock (S (S (d_clock d)))) ops data1
    (Input sensor c (lastaction data) (Some t)) t (Output a (a_value (a_data (ptr e)))) data' v eq_refl)
    as Hact.
  rewrite Hev in Hact. specialize (Hact Hctl).
  unfold nrmd_control_tick. cbn [s_user srv gettime with_clock d_control d_clock]. rewrite Hc.
  cbn [deref mbind outcome_bind].
  assert (Hargs : nrm_control_getargs (Control ops data) = (0, Control ops data1))
    by (unfold nrm_control_getargs, nrm_control_europar21_getargs; destruct ops; cbn; by rewrite Hin).
  rewrite Hargs. cbn [c_data s_state srv]. change (inputs data1) with (inputs (c_data (Control ops data1))).
  cbn [inputs data1 with_inputs c_data outputs]. unfold gettime. rewrite Et. cbn [mbind outcome_bind].
  rewrite Hout, (read_one _ _ _ _ Ha). cbn [mbind outcome_bind].
  cbn [with_clock d_clock] in *. rewrite Hact. cbn [mbind outcome_bind c_ops c_data].
  change (with_user (srv p st tm d) _) with (srv p st tm d3). cbn [mfold out_actuator_uuid out_value].
  unfold nrm_server_actuate. cbn [s_state srv]. rewrite (hash_find_Some _ _ _ Ha).
  cbn [snd deref mbind outcome_bind]. rewrite Eact. cbn [mbind outcome_bind s_user srv].
  change (d_events d3) with (d_events d). rewrite He. cbn [deref mbind outcome_bind nrm_eventbase_tick].
  change (with_user (srv ?p ?s ?t _) ?u) with (srv p s t u). do 4 f_equal.
  unfold d3, with_events, with_control. cbn. by rewrite He.
Qed.
End tick.

(** ** Safety of a daemon without a control loop *)

Definition nrmd_ok (d : daemon) : Prop :=
  d_control d = None /\ is_Some (d_mysensor d ≫= sensor_uuid) /\ scope_arg_ok (d_myscope d) /\
  is_Some (d_mytopic d) /\ is_Some (d_eventtopic d).

Section properties.
Context `{Qsort, Zloop} (exp log : double -> double) (clock : nat -> nrm_time).
Variable at_uuid : nat -> string.

Lemma push_any eb uuid scope time value :
  scope_arg_ok scope ->
  exists rc eb', nrm_eventbase_push_event eb (Some uuid) scope time value = Ok (rc, eb').
Proof.
  destruct eb as [eb|]; [|by eexists _, _]. destruct scope as [sc|]; [|by eexists _, _].
  intros [_ [c Hc]]. destruct (push_slices eb uuid sc c time value Hc) as (eb' & -> & _).
  by eexists _, _.
Qed.

Lemma nrmd_callbacks_ok : callbacks_ok (nrmd_callbacks exp log clock) at_uuid nrmd_ok.
Proof.
  split; cbn [nrmd_callbacks cb_event cb_actuate cb_signal cb_timer cb_tick].
  - eexists. split; [reflexivity|]. intros uuid scope time v Hsc s Hok. unfold nrmd_event_callback.
    destruct (push_any (d_events (s_user s)) uuid scope time v Hsc) as (rc & eb & ->). cbn [mbind outcome_bind].
    destruct (publish_any at_uuid nrmd_ok (with_user s (with_events (s_user s) eb))
      (d_eventtopic (s_user s)) time (Some uuid) scope v) as (rc2 & s' & -> & Hok' & _); [|done|].
    { destruct Hok as [[Hr (H1 & H2 & H3)] Hs]. split; [split; [exact Hr|by split]|exact Hs]. }
    by eexists _, _.
  - eexists. split; [reflexivity|]. split; [intros a v s Hok; by eexists _, _|].
    by intros s a v rc s' [= <- <-].
  - done.
  - intros cb [= <-] s Hok. unfold nrmd_timer_callback, gettime.
    pose proof Hok as [[Hr (H1 & H2 & H3)] Hs]. pose proof H2 as [? (sn & Hsn & _)%bind_Some].
    cbn [with_clock d_mysensor d_mytopic d_myscope d_clock]. rewrite Hsn. cbn [deref mbind outcome_bind].
    destruct (publish_any at_uuid nrmd_ok (with_user s (with_clock (s_user s) (S (d_clock (s_user s)))))
      (d_mytopic (s_user s)) (clock (d_clock (s_user s))) (sensor_uuid sn) (d_myscope (s_user s)) d1)
      as (rc2 & s' & -> & Hok' & Hu); [|apply H3|].
    { split; [split; [exact Hr|split; [exact H1|split; [exact H2|exact H3]]]|exact Hs]. }
    cbn [deref mbind outcome_bind]. rewrite Hu. cbn [with_user s_user with_clock d_control]. rewrite H1.
    by eexists _, _.
  - intros cb [= <-] s Hok. unfold nrmd_tick_callback.
    pose proof Hok as [[_ (H1 & _)] _]. rewrite H1. by eexists _, _.
Qed.

Definition scope_entry_ok (e : string * nrm_scope) : Prop :=
  scope_uuid e.2 = Some e.1 /\ scope_wf e.2 /\ safe_name at_uuid e.1.

Lemma add_scopes_ok table scopes :
  hash_wf table -> Forall (fun e => scope_uuid (ptr e) = Some (uuid e) /\ scope_wf (ptr e)) table ->
  Forall (safe_name at_uuid) (uuid <$> table) -> Forall scope_entry_ok scopes ->
  let t := add_scopes table scopes in
  hash_wf t /\ Forall (fun e => scope_uuid (ptr e) = Some (uuid e) /\ scope_wf (ptr e)) t /\
  Forall (safe_name at_uuid) (uuid <$> t) /\
  (forall k, k ∈ scopes.*1 \/ k ∈ uuid <$> table -> is_Some (HASH_FIND t k)).
Proof.
  intros Hwf Hf Hk Hs. revert table Hwf Hf Hk. unfold add_scopes.
  induction Hs as [|[u s] scopes (Hu & Hsc & Hn) _ IH]; intros table Hwf Hf Hk.
  { split_and!; try done. intros k [Hin|Hin]; [by apply not_elem_of_nil in Hin|].
    apply not_eq_None_Some. rewrite HASH_FIND_None. tauto. }
  cbn [fst snd] in *. destruct (hash_add_ok _ table u s Hwf Hf (conj Hu Hsc)) as [Hwf' Hf'].
  pose proof (hash_add_keys table u s _ Hk Hn) as Hk'.
  destruct (IH _ Hwf' Hf' Hk') as (H1 & H2 & H3 & H4). split_and!; try done.
  assert (Hmem : u ∈ uuid <$> (nrm_hash_add false table (Some u) s).2 /\
                 forall k, k ∈ uuid <$> table -> k ∈ uuid <$> (nrm_hash_add false table (Some u) s).2).
  { unfold nrm_hash_add. change (key_of (Some u)) with u. destruct (HASH_FIND table u) as [e|] eqn:E.
    - apply HASH_FIND_key in E as [<- Hin]. split; [by apply list_elem_of_fmap_2|done].
    - cbn [nrm_hash_create_element snd]. unfold HASH_ADD. rewrite fmap_app. set_solver. }
  intros k Hin. apply H4. rewrite fmap_cons, elem_of_cons in Hin. cbn [fst] in Hin.
  destruct Hmem as [Ha Hb]. destruct Hin as [[->|Hin]|Hin]; [by right|by left|right; by apply Hb].
Qed.

(** What [nrmd_start] makes without a configuration. *)
Lemma nrmd_start_ok topology level o uri data sfd freq :
  Forall (fun o => os_cpuset o = false) (osdevs topology) ->
  Forall (safe_name at_uuid) (topology_scopes topology).*1 ->
  level ∈ by_depth topology -> o ∈ level -> o_type_text o = "Machine"%string -> logical_index o = 0 ->
  p_in data = [] -> sfd <> -1 ->
  deq freq d0 = true \/ (exists t, nrm_time_fromfreq freq = Ok t) ->
  exists self,
    nrmd_start topology (Ok None) (Some uri) (Some (Role (Some (nrm_role_controller_ops unit)) data))
      false sfd freq = Ok self /\ server_ok at_uuid nrmd_ok self.
Proof.
  intros Hos Hn Hl Ho Ht Hi Hd Hsfd Hfreq.
  pose proof (topology_machine _ _ _ Hl Ho Ht Hi) as Hm.
  assert (Hs : Forall scope_entry_ok (topology_scopes topology)).
  { pose proof (topology_scopes_wf topology) as Hwf. rewrite Forall_forall in Hwf. rewrite Forall_forall in Hn.
    apply Forall_forall. intros e He. destruct (Hwf e He). split; [done|]. split; [done|].
    apply Hn. by apply list_elem_of_fmap_2. }
  destruct (add_scopes_ok [] (topology_scopes topology)) as (Hwf & Hall & Hkeys & Hin);
    [apply NoDup_nil_2|constructor|constructor|done|].
  destruct (Hin _ (or_introl Hm)) as [e He]. unfold nrmd_start. cbn [nrm_state_create deref mbind outcome_bind].
  cbn [st_scopes st_actuators st_sensors st_slices].
  rewrite hwloc_scopes_ok by done. cbn [mbind outcome_bind nrm_sensor_create].
  pose proof (hash_find_Some _ _ _ He) as Hfind. rewrite Hfind.
  apply Z.eqb_neq in Hsfd. cbn -[nrm_server_settimer deq nrm_time_fromfreq add_scopes]. rewrite Hsfd.
  cbn -[nrm_server_settimer deq nrm_time_fromfreq add_scopes].
  destruct data as [out inp]. cbn [p_in] in Hd. subst inp.
  set (d := Daemon _ _ _ _ _ _ _). set (st := State _ _ _ _).
  assert (Hok : forall tm, server_ok at_uuid nrmd_ok (srv (Pipe out []) st tm d)).
  { intros tm. pose proof (HASH_FIND_key _ _ _ He) as [_ Hmem]. rewrite Forall_forall in Hall.
    destruct (Hall _ Hmem) as [Hu Hsc]. split; [split|split].
    - by eexists.
    - split_and!; [done|by eexists|split; [done|by eexists]|by eexists|by eexists].
    - split; [split_and!; (done || apply NoDup_nil_2)|].
      split_and!; [apply Forall_nil_2|by apply Forall_forall|apply Forall_nil_2|apply Forall_nil_2].
    - unfold keys, st. cbn [st_actuators st_scopes st_sensors st_slices fmap list_fmap app].
      by rewrite !app_nil_r. }
  destruct (deq freq d0); cbn [negb mbind outcome_bind].
  - eexists. split; [reflexivity|apply Hok].
  - destruct Hfreq as [|[t ->]]; [done|]. cbn [mbind outcome_bind nrm_server_settimer snd deref].
    eexists. split; [reflexivity|apply Hok].
Qed.

Lemma teardown_ok s : server_ok at_uuid nrmd_ok s -> nrmd_teardown s = Ok (Exits EXIT_SUCCESS []).
Proof.
  intros [[[out Hr] (_ & [u (sn & Hsn & Hu)%bind_Some] & _ & [t Ht] & [t' Ht'])] [Hst _]]. unfold nrmd_teardown.
  rewrite Ht, Ht', Hsn. cbn [deref mbind outcome_bind nrm_sensor_destroy]. rewrite Hu. cbn [deref mbind outcome_bind].
  rewrite (state_destroy_ok _ Hst). cbn [mbind outcome_bind]. unfold nrm_server_destroy. by rewrite Hr.
Qed.

End properties.

(** ** Witnesses *)

Definition machine : nrm_scope :=
  Scope (Some "nrm.hwloc.Machine.0"%string) [or_bit bitmap_zero 0; bitmap_zero; bitmap_zero].

Lemma machine_wf : scope_wf machine.
Proof. apply scope_wf_3; auto with nrm. Qed.

(** A machine with one CPU. *)
Definition one_cpu : hwloc_topology := Topology [[Obj "Machine" false 0 [0] [0]]] [] [0] [0].


(** A listener that keeps what it is called on. *)
Definition kept : Type := list (string * nrm_time * option nrm_scope * double).
Definition keep (u : string) (t : nrm_time) (sc : option nrm_scope) (v : double) (w : kept) : outcome kept :=
  Ok ((u, t, sc, v) :: w).

Definition some_daemon (eb : eventbase) (control : option nrm_control) : daemon :=
  Daemon (Some eb) control (Some (Sensor (Some "daemon.tick"%string))) (Some machine)
    (Some "daemon"%string) (Some "daemon.events.raw"%string) 0.

Lemma nrmd_event_recorded_published_witness :
  let d := some_daemon (Eventbase 5 []) None in
  let client := Client None (Some keep) None : nrm_client unit kept in
  exists eb' ctrl frames,
    nrmd_event_callback (srv (Pipe [] []) (State [] [] [] []) [] d) "s" (Some machine) (Time 1 5) d1 =
    Ok (0, srv (Pipe [ctrl] []) (State [] [] [] []) [] (with_events d (Some eb'))) /\
    slices_of eb' "s" "nrm.hwloc.Machine.0" = [Timeslice 1000000000 [Event (Time 1 5) d1]] /\
    nrm_client_broker_sub_handler (Some (run_callback client nrm_client__sub_callback_fn))
      (ClientBroker [] [] []) [] ("daemon.events.raw"%string :: frames) =
    Ok (0, ClientBroker [] [] [], [("s"%string, Time 1 5, Some machine, d1)]).
Proof.
  intros d client.
  destruct (nrmd_event_recorded_published client keep (Pipe [] []) (State [] [] [] []) [] d (Eventbase 5 [])
    "daemon.events.raw" "s" machine "nrm.hwloc.Machine.0" (Time 1 5) d1) as (eb' & ctrl & frames & E1 & E2 & _ & E3);
    [reflexivity|reflexivity|exact machine_wf|reflexivity|split; split; reflexivity || discriminate|reflexivity|].
  exists eb', ctrl, frames. split; [exact E1|]. split; [rewrite E2; vm_compute; reflexivity|].
  exact (E3 (ClientBroker [] [] []) []).
Defined.

(** The state with the machine and the actuator, and an event base with two events. *)
Definition ticking_state : nrm_state := State [Elem "a" limited] [Elem "nrm.hwloc.Machine.0" machine] [] [].
Definition ticking_events : eventbase :=
  Eventbase 5 [Elem "s" (Sensorbase "s" [Elem "nrm.hwloc.Machine.0" (Scopebase "nrm.hwloc.Machine.0"
    [Timeslice 1000000000 [Event (Time 1 0) d1; Event (Time 1 500) d1]])])].
Definition ticking_data : europar21_data :=
  with_outputs (with_inputs some_data [Input "s" "nrm.hwloc.Machine.0" (Time 0 0) None]) [Output "a" d0].

Lemma ticking_state_ok : state_ok ticking_state.
Proof.
  split; [split_and!; (apply NoDup_singleton || constructor)|].
  split_and!; [|apply Forall_singleton; split; [reflexivity|exact machine_wf]|constructor|constructor].
  apply Forall_singleton. cbn. split_and!; [done|by eexists|done|done].
Qed.

(** Two events 500 ns apart are far more progress than the model has: the controller
    asks for its greatest cap, 9, and the actuator allows 4. *)
Lemma nrmd_control_tick_spec_witness :
  exists t owner v' d',
    v' = d_of_Z 4 /\ length (t_events t) = 2%nat /\
    nrmd_control_tick (fun _ => d1) (fun x => x) (fun n => Time (Z.of_nat n + 7) 0)
      (srv (Pipe [] []) ticking_state []
        (some_daemon ticking_events (Some (Control nrm_control_europar21_ops ticking_data)))) =
    Ok (0, srv (Pipe [to_send (command "a" v') (Some owner)] [])
             (state_set_value ticking_state "a" (with_value limited v')) [] d').
Proof.
  destruct (nrmd_control_tick_spec (fun _ => d1) (fun x => x) (fun n => Time (Z.of_nat n + 7) 0) (Pipe [] [])
    ticking_state [] (some_daemon ticking_events (Some (Control nrm_control_europar21_ops ticking_data)))
    ticking_events nrm_control_europar21_ops ticking_data "s" "nrm.hwloc.Machine.0" (Time 0 0) None "a" d0
    (Elem "nrm.hwloc.Machine.0" machine) (Elem "a" limited)
    (with_lastaction (with_prev_e (with_inputs ticking_data
       [Input "s" "nrm.hwloc.Machine.0" (Time 0 0) None]) d0) (Time 9 0)) (d_of_Z 9))
    as (t & rc & v' & owner & Ht & Hv & _ & E);
    [exact ticking_state_ok|reflexivity..|vm_compute; reflexivity|].
  eexists t, owner, v', _. split; [|split; [by rewrite Ht|exact E]].
  vm_compute in Hv. injection Hv as _ <-. vm_compute. reflexivity.
Defined.
