(* ===== verification/Session.v ===== *)
(** * A client of the daemon, from its events to the listeners and the control

    The whole of the system on the path of an event: a client (Client) sends events
    without waiting for a reply; with its next request its broker, the broker of the
    daemon and the server (System) bring them to the callback of the daemon (Daemon),
    which puts them into the event base (Events) and publishes them to the clients
    that listen to their topic. At the next tick the control of the daemon acts on them,
    and its command reaches the client that owns the actuator. *)

From S2P Require Import Prelude Vectors Doubles Hashes Bitmaps Json Timers Scopes Actuators.
From S2P Require Import Events Messages MsgJson States Roles Server Client System Control Daemon.

Section session.
Context `{Qsort, Protobuf} {W L : Type}.
Variables (exp log : double -> double) (clock : nat -> nrm_time) (at_uuid : nat -> string).
Variable on_command : string -> option (option nrm_msg -> W -> outcome W).
Abbreviation callbacks := (nrmd_callbacks exp log clock).

(** ** One event at the daemon *)

Lemma event_msg_ok sensor ms scope time value : msg_ok (event_msg sensor ms scope time value).
Proof. split; [done|]. by repeat constructor. Qed.

Lemma event_dispatch out st tm d eb topic id sensor scope c ms time value :
  d_events d = Some eb -> d_eventtopic d = Some topic -> scope_wf scope -> scope_uuid scope = Some c ->
  nrm_msg_scope_new scope = Ok ms -> time_ok time ->
  exists eb',
    nrm_eventbase_push_event (Some eb) (Some sensor) (Some scope) time value = Ok (0, Some eb') /\
    dispatch callbacks at_uuid (srv (Pipe out []) st tm d) (norm_msg (event_msg sensor ms scope time value))
      (Some id) =
    Ok (0, srv (Pipe (out ++ to_pubs [(topic, event_msg sensor ms scope time value)]) []) st tm
             (with_events d (Some eb'))).
Proof.
  intros He Ht Hwf Hu Hms Hok. destruct (push_slices eb sensor scope c time value Hu) as (eb' & E & _).
  exists eb'. split; [exact E|]. destruct (scope_new_frommsg scope c Hwf Hu) as (ms' & E1 & E2).
  assert (ms' = ms) as -> by congruence.
  unfold dispatch, event_msg, norm_msg.
  cbn -[nrm_server_events_callback norm_scope nrm_time_tons].
  unfold nrm_server_events_callback.
  cbn -[norm_scope nrm_time_tons nrm_time_fromns nrm_scope_create_frommsg nrmd_event_callback].
  rewrite E2. cbn -[norm_scope nrm_time_tons nrm_time_fromns nrmd_event_callback].
  rewrite fromns_tons by done. unfold nrmd_event_callback. cbn [s_user srv]. rewrite He, E.
  cbn [mbind outcome_bind].
  change (with_user (srv ?p st tm d) ?u) with (srv p st tm u). rewrite Ht.
  rewrite (publish_msg (Pipe out []) st tm _ topic time sensor scope c ms value Hu Hms). reflexivity.
Qed.

(** ** Many events *)

Definition push_ok (p : push) : Prop :=
  scope_wf (p_scope p) /\ is_Some (scope_uuid (p_scope p)) /\ time_ok (p_time p).

(** The message of a push; its scope has a name and three maps. *)
Definition push_msg (p : push) : nrm_msg :=
  match nrm_msg_scope_new (p_scope p) with
  | Ok ms => event_msg (p_sensor p) ms (p_scope p) (p_time p) (p_value p)
  | _ => ack
  end.

(** [nrm_client_send_event] for each push, which must return 0. *)
Definition send_pushes {D} (c : nrm_client D W) (ps : list push) : outcome (nrm_client D W) :=
  mfold (fun c p =>
           '(err, c) ← nrm_client_send_event (Some c) (p_time p) (Some (Sensor (Some (p_sensor p))))
                         (Some (p_scope p)) (p_value p);
           _ ← c_assert (err =? 0); deref c) c ps.

Lemma push_msg_ok p : msg_ok (push_msg p).
Proof. unfold push_msg. destruct (nrm_msg_scope_new _); [apply event_msg_ok|by left..]. Qed.

Lemma push_msg_new p :
  push_ok p -> exists c ms, scope_uuid (p_scope p) = Some c /\ nrm_msg_scope_new (p_scope p) = Ok ms /\
    push_msg p = event_msg (p_sensor p) ms (p_scope p) (p_time p) (p_value p).
Proof.
  intros (Hwf & [c Hc] & _). destruct (scope_new_frommsg _ c Hwf Hc) as (ms & E & _). exists c, ms.
  unfold push_msg. by rewrite E.
Qed.

(** Nothing has left the pipe of the client yet. *)
Lemma send_pushes_sent ms ps st (d : daemon) tm topics pub sub cmd id w fn act :
  Forall push_ok ps ->
  send_pushes (client_sent callbacks at_uuid on_command ms st d tm topics pub sub cmd id w fn act) ps =
  Ok (client_sent callbacks at_uuid on_command (ms ++ (push_msg <$> ps)) st d tm topics pub sub cmd id w fn act).
Proof.
  intros Hps. revert ms. induction Hps as [|p ps Hp _ IH]; intros ms; [by rewrite app_nil_r|].
  unfold send_pushes in *. cbn [mfold].
  destruct (push_msg_new p Hp) as (c & msc & Hc & Hms & Hmsg).
  assert (E : nrm_client_send_event
      (Some (client_sent callbacks at_uuid on_command ms st d tm topics pub sub cmd id w fn act)) (p_time p)
      (Some (Sensor (Some (p_sensor p)))) (Some (p_scope p)) (p_value p) =
    Ok (0, Some (client_sent callbacks at_uuid on_command (ms ++ [push_msg p]) st d tm topics pub sub cmd id w fn act))).
  { unfold client_sent at 2. rewrite sends_app, Hmsg.
    unfold nrm_client_send_event. cbn -[nrm_msg_scope_new nrm_time_tons nrm_time_fromns sends nrmd_callbacks].
    unfold nrm_msg_timeserie_new. cbn -[nrm_msg_scope_new nrm_time_tons nrm_time_fromns sends nrmd_callbacks].
    rewrite Hms. reflexivity. }
  rewrite E. cbn [mbind outcome_bind Z.eqb c_assert deref]. rewrite IH. cbn [fmap list_fmap].
  by rewrite <- app_assoc.
Qed.

(** The server handles them one by one. *)
Lemma pushes_dispatched ps out st tm (d : daemon) eb topic id :
  d_events d = Some eb -> d_eventtopic d = Some topic -> Forall push_ok ps ->
  exists eb', push_events eb ps = Ok eb' /\
    dispatches callbacks at_uuid id (srv (Pipe out []) st tm d) (push_msg <$> ps)
      (srv (Pipe (out ++ to_pubs ((fun p => (topic, push_msg p)) <$> ps)) []) st tm
         (with_events d (Some eb'))).
Proof.
  intros He Ht Hps. revert out d eb He Ht. induction Hps as [|p ps Hp _ IH]; intros out d eb He Ht.
  { exists eb. split; [done|]. cbn. rewrite app_nil_r. destruct d. cbn in *. subst. constructor. }
  destruct (push_msg_new p Hp) as (c & ms & Hc & Hms & Hmsg). pose proof Hp as (Hwf & _ & Hok).
  destruct (event_dispatch out st tm d eb topic id (p_sensor p) (p_scope p) c ms (p_time p) (p_value p))
    as (eb1 & E1 & E2); [done..|]. rewrite <- Hmsg in E2.
  destruct (IH (out ++ to_pubs [(topic, push_msg p)]) (with_events d (Some eb1)) eb1) as (eb' & E3 & E4);
    [done|done|].
  exists eb'. split.
  - unfold push_events. cbn [mfold]. rewrite E1. exact E3.
  - cbn [fmap list_fmap]. econstructor; [exact E2|]. rewrite <- app_assoc in E4. exact E4.
Qed.

(** The SUB socket of a broker lets a message through when its first frame starts with
    a topic that the socket is subscribed to: one that the broker was asked for, or the
    ["null"] of [nrm_net_sub_init]. *)
Definition subscribed (kb : nrm_client_broker) (topic : string) : bool :=
  existsb (fun t => String.prefix t topic) ("null"%string :: kb_topics kb).

(** A client that listens gets the messages of its topics one by one. *)
Definition listens (client : nrm_client L W) (kb : nrm_client_broker) (w : W) (frames : list (list string))
    : outcome (nrm_client_broker * W) :=
  mfold (fun '(kb, w) f =>
           if subscribed kb (default "" (head f))
           then '(_, kb, w) ←
                  nrm_client_broker_sub_handler (Some (run_callback client nrm_client__sub_callback_fn)) kb w f;
                Ok (kb, w)
           else Ok (kb, w)) (kb, w) frames.

Lemma pushes_heard client listener ps topic kb w :
  user_fn client = Some listener -> Forall push_ok ps ->
  listens client kb w (pub_frames ((fun p => (topic, push_msg p)) <$> ps)) =
  if subscribed kb topic
  then (w ← mfold (fun w p => listener (p_sensor p) (p_time p) (Some (p_scope p)) (p_value p) w) w ps; Ok (kb, w))
  else Ok (kb, w).
Proof.
  intros Hf Hps. assert (Hhead : forall l : list string, default "" (head (topic :: l)) = topic) by done.
  destruct (subscribed kb topic) eqn:Hsub.
  2:{ clear Hps. induction ps as [|p ps IH]; [done|]. unfold listens, pub_frames in *. cbn [fmap list_fmap mfold fst snd].
      change (nrm_msg_pub topic (push_msg p)) with (topic :: nrm_msg_send (push_msg p)). rewrite Hhead, Hsub. cbn [mbind outcome_bind]. exact IH. }
  revert w. induction Hps as [|p ps Hp _ IH]; intros w; [done|].
  unfold listens, pub_frames in *. cbn [fmap list_fmap mfold fst snd].
  destruct (push_msg_new p Hp) as (c & ms & Hc & Hms & Hmsg). pose proof Hp as (Hwf & _ & Hok).
  destruct (scope_new_frommsg _ c Hwf Hc) as (ms' & E & Efrom). assert (ms' = ms) as -> by congruence.
  change (nrm_msg_pub topic (push_msg p)) with (topic :: nrm_msg_send (push_msg p)). rewrite Hhead, Hsub, Hmsg.
  rewrite (subscriber_event client listener kb w topic _ ms _ _ _ Hf Hok Efrom).
  destruct (listener _ _ _ _ w) as [w1| | |]; [|done..]. cbn [mbind outcome_bind]. apply IH.
Qed.

(** C4: the whole way of an event. The calls of a client that sends events for any
    sensors and scopes all return 0, and nothing moves before its next request; that
    request, listing the scopes here, gets its own reply, and on its way the daemon
    has put every event into its event base and published it. Pulling a sensor and a
    scope then gives what was there and just the events sent for them in the window;
    a client that listens to their topic gets its listener called on every event, once
    and in the order in which they were sent, and one that does not, on none. *)
Theorem events_reach_listeners (ps : list push) st (d : daemon) eb topic tm topics pub sub cmd id w fn act
    (client : nrm_client L W) listener :
  state_ok st -> d_events d = Some eb -> d_eventtopic d = Some topic -> Forall push_ok ps ->
  user_fn client = Some listener ->
  exists c1 eb' frames,
    send_pushes (client_on callbacks at_uuid on_command (quiet st d tm topics pub sub cmd id w) fn act) ps = Ok c1 /\
    nrm_client_list_scopes (Some c1) false =
    Ok (0, Some (client_on callbacks at_uuid on_command
                   (quiet st (with_events d (Some eb')) tm topics (pub ++ frames) sub cmd id w) fn act),
        Some <$> (ptr <$> st_scopes st)) /\
    (forall now s scope c since, scope_uuid scope = Some c ->
       exists t, nrm_eventbase_pull_timeserie now (Some eb') (Some s) (Some scope) since = Ok (0, Some t) /\
         t_events t ≡ₚ
           window_events (nrm_eb_time2key since) (nrm_eb_time2key now) (slices_of eb s c) ++
           omap (pushed_event s c (nrm_eb_time2key since) (nrm_eb_time2key now)) ps) /\
    (forall kb w,
       listens client kb w frames =
       if subscribed kb topic
       then (w ← mfold (fun w p => listener (p_sensor p) (p_time p) (Some (p_scope p)) (p_value p) w) w ps;
             Ok (kb, w))
       else Ok (kb, w)).
Proof.
  intros Hst He Ht Hps Hf.
  destruct (pushes_dispatched ps [] st tm d eb topic id He Ht Hps) as (eb' & Epush & Hd).
  eexists _, eb', _. split; [by apply (send_pushes_sent [])|]. split; [|split].
  - eapply list_scopes_sent; [exact Hst| | |exact Hd].
    + apply Forall_fmap, Forall_forall. intros p _. apply push_msg_ok.
    + apply Forall_fmap, Forall_forall. intros p _. apply push_msg_ok.
  - intros now s scope c since Hc. destruct (pull_events now eb' s scope c since Hc) as (t & Et & Hev & _).
    exists t. split; [exact Et|]. rewrite Hev.
    destruct (push_events_window s c (nrm_eb_time2key since) (nrm_eb_time2key now) ps eb) as (eb2 & E2 & Hw).
    { eapply Forall_impl; [exact Hps|]. by intros p (_ & Hu & _). }
    by assert (eb2 = eb') as -> by congruence.
  - intros kb w'. by apply pushes_heard.
Qed.
(** ** The control loop, closed

    The timer of the daemon runs its control; what the server then has to send
    reaches the client. *)
Definition timer_turn (y : system) : outcome system :=
  '(_, s) ← server_step callbacks at_uuid (y_server y) Ev_timer;
  y ← controller_out (Sys (y_client y) (y_kb y) (y_cb y) s (y_id y) (y_world y) (y_others y));
  net_to_client on_command y.

(** What the server has published and the commands for the client, delivered. *)
Lemma delivered st (d : daemon) tm topics pub sub cmd id w w' pubs outs :
  Forall (fun o => msg_ok o.2) pubs -> Forall (fun o => msg_ok o.1 /\ nrm_msg_is_reply o.1 = 0) outs ->
  mfold (run_command on_command) w outs = Ok w' ->
  (y ← controller_out (Sys (RoleClient (Pipe [] []) sub cmd) (ClientBroker [] [] topics) (ControllerBroker [] [] pub)
         (srv (Pipe (to_pubs pubs ++ to_sends outs) []) st tm d) id w []); net_to_client on_command y) =
  Ok (quiet st d tm topics (pub ++ pub_frames pubs) sub cmd id w').
Proof.
  intros Hpubs Houts Hw. apply Forall_and in Houts as [Hok Hcmd].
  unfold controller_out, server_out. cbn [y_client y_kb y_cb y_server y_id y_world y_others srv s_role r_data p_out].
  rewrite run_all_app, controller_pub_all by done. cbn [mbind outcome_bind].
  rewrite controller_out_all by done. cbn -[net_to_client nrm_msg_send frames_of pub_frames]. unfold net_to_client.
  cbn -[route nrm_msg_send frames_of pub_frames].
  by rewrite (clients_run_commands on_command id outs _ w w' [] Hcmd Hw).
Qed.

(** C3: the control loop, closed through the whole system. A client sends events of its
    performance; they are in the daemon when its next request is answered. At the next
    tick of the daemon's timer the controller gets just the events of its input since its
    last action, those of the client among them, and the value that the server has for
    the actuator; what it decides, as the actuator corrects it, is stored by the server
    and reaches the owner of the actuator, that client or another one, as a command, on
    which the owner's callback runs. The tick itself is published. *)
Theorem control_loop_closes (ps : list push) st (d : daemon) eb topic mytopic tick scope uuid tm topics pub sub cmd
    id w fn act owner f ops data sensor c since old a cur sc e :
  on_command owner = Some f -> state_ok st -> Forall push_ok ps ->
  d_events d = Some eb -> d_eventtopic d = Some topic -> d_mytopic d = Some mytopic ->
  d_mysensor d = Some (Sensor (Some tick)) -> d_myscope d = Some scope -> scope_wf scope ->
  scope_uuid scope = Some uuid -> d_control d = Some (Control ops data) ->
  inputs data = [Input sensor c since old] -> outputs data = [Output a cur] ->
  HASH_FIND (st_scopes st) c = Some sc -> HASH_FIND (st_actuators st) a = Some e ->
  a_clientid (a_data (ptr e)) = Some owner ->
  exists c1 eb' frames heartbeat,
    send_pushes (client_on callbacks at_uuid on_command (quiet st d tm topics pub sub cmd id w) fn act) ps = Ok c1 /\
    push_events eb ps = Ok eb' /\
    let y := quiet st (with_events d (Some eb')) tm topics (pub ++ frames) sub cmd id w in
    nrm_client_list_scopes (Some c1) false =
    Ok (0, Some (client_on callbacks at_uuid on_command y fn act), Some <$> (ptr <$> st_scopes st)) /\
    let ksince := nrm_eb_time2key (lastaction data) in
    let know := nrm_eb_time2key (clock (2 + d_clock d)) in
    let evs := window_events ksince know (slices_of eb' sensor c) in
    evs ≡ₚ window_events ksince know (slices_of eb sensor c) ++ omap (pushed_event sensor c ksince know) ps /\
    forall data' v,
      controlled exp log (clock (3 + d_clock d)) (with_inputs data [Input sensor c (lastaction data) old]) evs
        (a_value (a_data (ptr e))) = Ok (data', v) ->
      exists rc v' d',
        nrm_actuator_corrected_value (Some (ptr e)) (Some v) = Ok (rc, Some v') /\
        forall w', f (Some (command a v')) w = Ok w' ->
          timer_turn y =
          Ok (quiet (state_set_value st a (with_value (ptr e) v')) d' tm topics ((pub ++ frames) ++ [heartbeat]) sub
                cmd id w').
Proof.
  intros Hf Hst Hps He Ht Hmt Hms Hsc Hwf Huuid Hc Hin Hout Hscope Ha Howner.
  destruct (pushes_dispatched ps [] st tm d eb topic id He Ht Hps) as (eb' & Epush & Hd).
  destruct (push_events_window sensor c (nrm_eb_time2key (lastaction data)) (nrm_eb_time2key (clock (2 + d_clock d)))
    ps eb) as (eb2 & E2 & Hevs).
  { eapply Forall_impl; [exact Hps|]. by intros p (_ & Hu & _). }
  assert (eb2 = eb') as -> by congruence.
  set (dt := with_clock (with_events d (Some eb')) (S (d_clock d))).
  destruct (publish_srv (Pipe [] []) st tm dt mytopic (clock (d_clock d)) tick scope uuid d1 Hwf Huuid)
    as (ms & _ & Epub).
  set (beat := event_msg tick ms scope (clock (d_clock d)) d1) in *.
  eexists _, eb', _, (nrm_msg_pub mytopic beat). split; [by apply (send_pushes_sent [])|]. split; [exact Epush|].
  intros y. split; [|intros ksince know evs; split; [exact Hevs|]].
  { eapply list_scopes_sent; [exact Hst| | |exact Hd]; apply Forall_fmap, Forall_forall; intros p _; apply push_msg_ok. }
  intros data' v Hctl.
  destruct (nrmd_control_tick_spec exp log clock (Pipe (to_pubs [(mytopic, beat)]) []) st tm dt eb' ops data sensor c
    since old a cur sc e data' v Hst eq_refl Hc Hin Hout Hscope Ha Hctl)
    as (t & rc & v' & owner' & _ & Hv & Hown & Etick).
  assert (owner' = owner) as -> by congruence.
  eexists rc, v', _. split; [exact Hv|]. intros w' Hw. unfold timer_turn, server_step.
  unfold y. cbn [y_server quiet]. unfold nrm_server_timer_callback. cbn [nrmd_callbacks cb_timer].
  unfold nrmd_timer_callback, gettime. cbn [s_user srv].
  change (d_clock (with_events d (Some eb'))) with (d_clock d).
  change (d_mysensor (with_clock (with_events d (Some eb')) (S (d_clock d)))) with (d_mysensor d). fold dt.
  change (with_user (srv ?p st tm ?u) dt) with (srv p st tm dt).
  rewrite Hms. cbn [deref mbind outcome_bind sensor_uuid].
  change (d_mytopic dt) with (d_mytopic d). change (d_myscope dt) with (d_myscope d). rewrite Hmt, Hsc.
  change (sensor_uuid _) with (Some tick). rewrite Epub. cbn [mbind outcome_bind deref s_user srv].
  change (d_control dt) with (d_control d). rewrite Hc.
  change (pipe_send (Pipe [] []) _) with (Pipe (to_pubs [(mytopic, beat)]) []). rewrite Etick.
  cbn [mbind outcome_bind quiet y_client y_kb y_cb y_id y_world y_others].
  change (pipe_send (Pipe (to_pubs [(mytopic, beat)]) []) (to_send (command a v') (Some owner))) with
    (Pipe (to_pubs [(mytopic, beat)] ++ to_sends [(command a v', owner)]) []).
  rewrite (delivered _ _ _ _ _ _ _ _ w w' [(mytopic, beat)] [(command a v', owner)]); [reflexivity| | |].
  - constructor; [apply event_msg_ok|constructor].
  - by repeat constructor.
  - cbn [mfold]. unfold run_command. cbn [fst snd]. rewrite Hf.
    change (norm_msg (command a v')) with (command a v'). by rewrite Hw.
Qed.
End session.

(** Two events, 500 ns apart, from the client ["c"] that owns the actuator: the
    controller asks for its greatest cap, and the actuator allows 4. *)
Lemma control_loop_closes_witness :
  let ps := [Push "s" machine (Time 1 0) d1; Push "s" machine (Time 1 500) d1] in
  let cb := nrmd_callbacks (fun _ => d1) (fun x => x) (fun n => Time (Z.of_nat n + 7) 0) in
  let d := some_daemon (Eventbase 5 []) (Some (Control nrm_control_europar21_ops ticking_data)) in
  exists c1 y v' st' d' pub,
    send_pushes (client_on cb zeros received (quiet ticking_state d [] [] [] None None "c" []) None None) ps = Ok c1 /\
    nrm_client_list_scopes (Some c1) false = Ok (0, Some (client_on cb zeros received y None None), [Some machine]) /\
    v' = d_of_Z 4 /\
    timer_turn (fun _ => d1) (fun x => x) (fun n => Time (Z.of_nat n + 7) 0) zeros received y =
    Ok (quiet st' d' [] [] pub None None "c" [("c"%string, Some (command "a" v'))]).
Proof.
  intros ps cb d.
  assert (Hm : is_Some (scope_uuid machine)) by (by eexists).
  destruct (control_loop_closes (fun _ => d1) (fun x => x) (fun n => Time (Z.of_nat n + 7) 0) zeros received ps
    ticking_state d (Eventbase 5 []) "daemon.events.raw" "daemon" "daemon.tick" machine "nrm.hwloc.Machine.0"
    [] [] [] None None "c" [] None None "c" (fun m w => Ok (("c"%string, m) :: w)) nrm_control_europar21_ops ticking_data "s"
    "nrm.hwloc.Machine.0" (Time 0 0) None "a" d0 (Elem "nrm.hwloc.Machine.0" machine) (Elem "a" limited))
    as (c1 & eb' & frames & heartbeat & E1 & Epush & E2 & _ & E3); [try reflexivity..|].
  - exact ticking_state_ok.
  - constructor; [|constructor; [|constructor]]; (split; [exact machine_wf|split; [exact Hm|]]); by vm_compute.
  - exact machine_wf.
  - vm_compute in Epush. injection Epush as <-.
    destruct (E3 (with_lastaction (with_prev_e (with_inputs ticking_data
       [Input "s" "nrm.hwloc.Machine.0" (Time 0 0) None]) d0) (Time 10 0)) (d_of_Z 9))
      as (rc & v' & d' & Hv & E4); [vm_compute; reflexivity|].
    eexists c1, _, v', _, d', _. split; [exact E1|]. split; [exact E2|]. split; [|exact (E4 _ eq_refl)].
    vm_compute in Hv. injection Hv as _ <-. vm_compute. reflexivity.
Defined.

(** Two events of one sensor, sent to a daemon whose event base has nothing. *)
Lemma events_reach_listeners_witness :
  let ps := [Push "s" machine (Time 1 5) d1; Push "s" machine (Time 2 0) d0] in
  let cb := nrmd_callbacks (fun x => x) (fun x => x) (fun n => Time (Z.of_nat n) 0) in
  let start eb pub := client_on cb zeros (fun _ => None : option (option nrm_msg -> kept -> outcome kept))
    (quiet (State [] [] [] []) (some_daemon eb None) [] [] pub None None "me" []) None None in
  exists c1 eb' frames,
    send_pushes (start (Eventbase 5 []) []) ps = Ok c1 /\
    nrm_client_list_scopes (Some c1) false = Ok (0, Some (start eb' frames), []) /\
    (exists t, nrm_eventbase_pull_timeserie (Time 2 0) (Some eb') (Some "s"%string) (Some machine) (Time 0 0) =
               Ok (0, Some t) /\ t_events t ≡ₚ [Event (Time 1 5) d1]) /\
    listens (Client None (Some keep) None : nrm_client unit kept) (ClientBroker [] [] ["daemon.events"%string]) []
      frames =
    Ok (ClientBroker [] [] ["daemon.events"%string], [("s"%string, Time 2 0, Some machine, d0); ("s"%string, Time 1 5, Some machine, d1)]).
Proof.
  intros ps cb start.
  destruct (events_reach_listeners (fun x => x) (fun x => x) (fun n => Time (Z.of_nat n) 0) zeros (fun _ => None) ps
    (State [] [] [] []) (some_daemon (Eventbase 5 []) None) (Eventbase 5 []) "daemon.events.raw" [] [] [] None None
    "me" [] None None (Client None (Some keep) None : nrm_client unit kept) keep)
    as (c1 & eb' & frames & E1 & E2 & E3 & E4); [exact state_ok_empty|reflexivity|reflexivity| |reflexivity|].
  { assert (Hm : is_Some (scope_uuid machine)) by (by eexists).
    constructor; [|constructor; [|constructor]]; (split; [exact machine_wf|split; [exact Hm|]]); by vm_compute. }
  exists c1, eb', frames. split; [exact E1|]. split; [exact E2|]. split; [|exact (E4 (ClientBroker [] [] ["daemon.events"%string]) [])].
  exact (E3 (Time 2 0) "s"%string machine "nrm.hwloc.Machine.0"%string (Time 0 0) eq_refl).
Defined.
