(* ===== verification/Registry.v ===== *)
(** * The system is a registry

    What the daemon and its clients are for whoever uses the client API: four finite
    maps from names to objects, on which every call is one atomic step. The calls of
    any clients, in any order, go through roles, brokers, messages, wire and server
    (System), and return what the steps on the maps say. The calls to remove are there
    as the code has them: they remove nothing, and removing a scope crashes the
    daemon. *)

From S2P Require Import Prelude Vectors Doubles Hashes Bitmaps Json Timers Scopes Actuators.
From S2P Require Import Events Messages MsgJson States Roles Server Client Objects System.

(** ** The calls of the API *)

Inductive api_call :=
| Adds_actuator (a : nrm_actuator)
| Adds_scope (s : nrm_scope)
| Adds_sensor (s : nrm_sensor)
| Adds_slice (s : nrm_slice)
| Lists_actuators
| Lists_scopes
| Lists_sensors
| Lists_slices
| Finds_actuator (name : string)
| Finds_scope (name : string)
| Finds_sensor (name : string)
| Finds_slice (name : string)
| Actuates (a : nrm_actuator) (v : double)
| Removes_actuator (a : nrm_actuator)
| Removes_scope (s : nrm_scope)
| Removes_sensor (s : nrm_sensor)
| Removes_slice (s : nrm_slice).

(** What a call gives: its code, and the vector it fills or the object it updates. *)
Definition answer : Type := Z * option found.

Section calls.
Context `{Qsort} {D W : Type}.

Definition do_call (client : option (nrm_client D W)) (k : api_call)
    : outcome (answer * option (nrm_client D W)) :=
  match k with
  | Adds_actuator a => '(rc, c, a) ← nrm_client_add_actuator client (Some a); Ok (rc, Some (Found_actuators [a]), c)
  | Adds_scope s => '(rc, c, s) ← nrm_client_add_scope client (Some s); Ok (rc, Some (Found_scopes [s]), c)
  | Adds_sensor s => '(rc, c, s) ← nrm_client_add_sensor client (Some s); Ok (rc, Some (Found_sensors [s]), c)
  | Adds_slice s => '(rc, c, s) ← nrm_client_add_slice client (Some s); Ok (rc, Some (Found_slices [s]), c)
  | Lists_actuators => '(rc, c, l) ← nrm_client_list_actuators client false; Ok (rc, Some (Found_actuators l), c)
  | Lists_scopes => '(rc, c, l) ← nrm_client_list_scopes client false; Ok (rc, Some (Found_scopes l), c)
  | Lists_sensors => '(rc, c, l) ← nrm_client_list_sensors client false; Ok (rc, Some (Found_sensors l), c)
  | Lists_slices => '(rc, c, l) ← nrm_client_list_slices client false; Ok (rc, Some (Found_slices l), c)
  | Finds_actuator n => '(rc, c, l) ← nrm_client_find client NRM_MSG_TARGET_TYPE_ACTUATOR (Some n); Ok (rc, l, c)
  | Finds_scope n => '(rc, c, l) ← nrm_client_find client NRM_MSG_TARGET_TYPE_SCOPE (Some n); Ok (rc, l, c)
  | Finds_sensor n => '(rc, c, l) ← nrm_client_find client NRM_MSG_TARGET_TYPE_SENSOR (Some n); Ok (rc, l, c)
  | Finds_slice n => '(rc, c, l) ← nrm_client_find client NRM_MSG_TARGET_TYPE_SLICE (Some n); Ok (rc, l, c)
  | Actuates a v => '(rc, c) ← nrm_client_actuate client (Some a) v; Ok (rc, None, c)
  | Removes_actuator a => '(rc, c) ← nrm_client_remove_actuator client (Some a); Ok (rc, None, c)
  | Removes_scope s => '(rc, c) ← nrm_client_remove_scope client (Some s); Ok (rc, None, c)
  | Removes_sensor s => '(rc, c) ← nrm_client_remove_sensor client (Some s); Ok (rc, None, c)
  | Removes_slice s => '(rc, c) ← nrm_client_remove_slice client (Some s); Ok (rc, None, c)
  end.
End calls.

(** ** The registry *)

Record registry := Registry {
  r_actuators : gmap string nrm_actuator;
  r_scopes : gmap string nrm_scope;
  r_sensors : gmap string nrm_sensor;
  r_slices : gmap string nrm_slice
}.

(** The registry that the state of a server is. *)
Definition registry_of (st : nrm_state) : registry :=
  Registry (to_map (st_actuators st)) (to_map (st_scopes st)) (to_map (st_sensors st)) (to_map (st_slices st)).

Definition with_actuators (r : registry) m := Registry m (r_scopes r) (r_sensors r) (r_slices r).
Definition with_scopes (r : registry) m := Registry (r_actuators r) m (r_sensors r) (r_slices r).
Definition with_sensors (r : registry) m := Registry (r_actuators r) (r_scopes r) m (r_slices r).
Definition with_slices (r : registry) m := Registry (r_actuators r) (r_scopes r) (r_sensors r) m.

Section spec.
Context `{Qsort} {U W : Type}.
(** What the user of the server answers to an actuation, and becomes. *)
Variable policy : U -> nrm_actuator -> double -> Z * U.
(** What each client does with a command. *)
Variable on_command : string -> option (option nrm_msg -> W -> outcome W).

(** Adding [x]: what is kept arrived from it and is its sender's, unless the name is
    taken; in any case the caller has what it added. *)
Definition adds `{wire_object A M, !added_ops A M} (id k : string) (x : A) (m m' : gmap string A)
    (l : list (option A)) : Prop :=
  exists y x', obj_same (owned id x) y /\ m' = add_new m k y /\ l = [Some x'] /\ obj_same (owned id x) x'.

(** Listing gives every object once. *)
Definition lists `{wire_object A M} (m : gmap string A) (l : list (option A)) : Prop :=
  exists xs, xs ≡ₚ (map_to_list m).*2 /\ arrived xs l.

(** Finding gives the object of the name, if there is one. *)
Definition finds `{wire_object A M} (m : gmap string A) (name : string) (l : list (option A)) : Prop :=
  match m !! name with
  | Some x => exists y, l = [Some y] /\ obj_same x y
  | None => l = []
  end.

(** The steps of a registry, of the server's user and of what the clients' callbacks
    change, for the client [id]. *)
Inductive answers (id : string) : registry * U * W -> api_call -> answer -> registry * U * W -> Prop :=
| answers_add_actuator r u w a k m l :
    a_uuid (a_data a) = Some k -> adds id k a (r_actuators r) m l ->
    answers id (r, u, w) (Adds_actuator a) (0, Some (Found_actuators l)) (with_actuators r m, u, w)
| answers_add_scope r u w s k m l :
    scope_uuid s = Some k -> adds id k s (r_scopes r) m l ->
    answers id (r, u, w) (Adds_scope s) (0, Some (Found_scopes l)) (with_scopes r m, u, w)
| answers_add_sensor r u w s k m l :
    sensor_uuid s = Some k -> adds id k s (r_sensors r) m l ->
    answers id (r, u, w) (Adds_sensor s) (0, Some (Found_sensors l)) (with_sensors r m, u, w)
| answers_add_slice r u w s k m l :
    slice_uuid s = Some k -> adds id k s (r_slices r) m l ->
    answers id (r, u, w) (Adds_slice s) (0, Some (Found_slices l)) (with_slices r m, u, w)
| answers_list_actuators r u w l :
    lists (r_actuators r) l -> answers id (r, u, w) Lists_actuators (0, Some (Found_actuators l)) (r, u, w)
| answers_list_scopes r u w l :
    lists (r_scopes r) l -> answers id (r, u, w) Lists_scopes (0, Some (Found_scopes l)) (r, u, w)
| answers_list_sensors r u w l :
    lists (r_sensors r) l -> answers id (r, u, w) Lists_sensors (0, Some (Found_sensors l)) (r, u, w)
| answers_list_slices r u w l :
    lists (r_slices r) l -> answers id (r, u, w) Lists_slices (0, Some (Found_slices l)) (r, u, w)
| answers_find_actuator r u w n l :
    finds (r_actuators r) n l -> answers id (r, u, w) (Finds_actuator n) (0, Some (Found_actuators l)) (r, u, w)
| answers_find_scope r u w n l :
    finds (r_scopes r) n l -> answers id (r, u, w) (Finds_scope n) (0, Some (Found_scopes l)) (r, u, w)
| answers_find_sensor r u w n l :
    finds (r_sensors r) n l -> answers id (r, u, w) (Finds_sensor n) (0, Some (Found_sensors l)) (r, u, w)
| answers_find_slice r u w n l :
    finds (r_slices r) n l -> answers id (r, u, w) (Finds_slice n) (0, Some (Found_slices l)) (r, u, w)
(** The actuator of the client refuses the value. *)
| answers_invalid r u w a v err :
    nrm_actuator_validate_value (Some a) v = Ok err -> err <> 0 ->
    answers id (r, u, w) (Actuates a v) (err, None) (r, u, w)
| answers_unknown r u w a v k :
    nrm_actuator_validate_value (Some a) v = Ok 0 -> a_uuid (a_data a) = Some k -> r_actuators r !! k = None ->
    answers id (r, u, w) (Actuates a v) (0, None) (r, u, w)
(** The user of the server refuses it, which the client is not told. *)
| answers_refused r u w a v k b rc u' :
    nrm_actuator_validate_value (Some a) v = Ok 0 -> a_uuid (a_data a) = Some k -> r_actuators r !! k = Some b ->
    policy u b v = (rc, u') -> rc <> 0 ->
    answers id (r, u, w) (Actuates a v) (0, None) (r, u', w)
(** It is stored, and the owner of the actuator gets it. *)
| answers_agreed r u w a v k b u' rc v' owner w' :
    nrm_actuator_validate_value (Some a) v = Ok 0 -> a_uuid (a_data a) = Some k -> r_actuators r !! k = Some b ->
    policy u b v = (0, u') -> nrm_actuator_corrected_value (Some b) (Some v) = Ok (rc, Some v') ->
    a_clientid (a_data b) = Some owner -> run_command on_command w (command k v', owner) = Ok w' ->
    answers id (r, u, w) (Actuates a v) (0, None)
      (with_actuators r (<[k := with_value b v']> (r_actuators r)), u', w')
(** Removing removes nothing; there is no step for removing a scope. *)
| answers_remove_actuator s a : answers id s (Removes_actuator a) (0, None) s
| answers_remove_sensor s x : answers id s (Removes_sensor x) (0, None) s
| answers_remove_slice s x : answers id s (Removes_slice x) (0, None) s.

(** The calls of many clients, one after another, up to the first that crashes the
    daemon: the answers, and what there is in the end, [None] after a crash. *)
Inductive runs : registry * U * W -> list (string * api_call) -> list answer -> option (registry * U * W) -> Prop :=
| runs_nil s : runs s [] [] (Some s)
| runs_cons s1 id k a s2 l l' s3 :
    answers id s1 k a s2 -> runs s2 l l' s3 -> runs s1 ((id, k) :: l) (a :: l') s3
| runs_crash s id x l : runs s ((id, Removes_scope x) :: l) [] None.
End spec.

(** ** The calls on the system *)

Section system.
Context `{Qsort, Protobuf} {U W : Type}.
Variable callbacks : nrm_server_user_callbacks U.
Variable at_uuid : nat -> string.
Variable on_command : string -> option (option nrm_msg -> W -> outcome W).
Abbreviation client_on := (client_on callbacks at_uuid on_command).
Abbreviation sys := (@system U W).

(** A client of the daemon. Its identity, what it is subscribed to, and its
    callbacks. *)
Record caller := Caller {
  ca_id : string;
  ca_topics : list string;
  ca_sub : option client_callback;
  ca_cmd : option client_callback;
  ca_fn : option (string -> nrm_time -> option nrm_scope -> double -> W -> outcome W);
  ca_act : option (option string -> double -> W -> outcome W)
}.

(** Its side of the system takes the place of the last caller's, which has nothing more
    to send. What waits on the pipes of the clients stays there for them. *)
Definition switch (k : caller) (y : sys) : sys :=
  let waiting := y_others y ++ (pair (y_id y) <$> p_in (cl_pipe (y_client y))) in
  Sys (RoleClient (Pipe [] (snd <$> filter (fun o => o.1 = ca_id k) waiting)) (ca_sub k) (ca_cmd k))
    (ClientBroker [] [] (ca_topics k)) (y_cb y) (y_server y) (ca_id k) (y_world y)
    (filter (fun o => o.1 <> ca_id k) waiting).

Definition turn (y : sys) (k : caller) (c : api_call) : outcome (answer * sys) :=
  '(a, client) ← do_call (Some (client_on (switch k y) (ca_fn k) (ca_act k))) c;
  client ← deref client; r ← deref (k_role client);
  Ok (a, r_data r).

(** The calls that return give their answers; then the system, or how it crashed. *)
Fixpoint turns (y : sys) (l : list (caller * api_call)) : list answer * outcome sys :=
  match l with
  | [] => ([], Ok y)
  | (k, c) :: l =>
      match turn y k c with
      | Ok (a, y) => let '(answers, y) := turns y l in (a :: answers, y)
      | crash => ([], '(_, y) ← crash; Ok y)
      end
  end.

(** *** What is kept *)

(** Objects are well formed and under their names, which [nrm_hash_remove] cannot hit
    by chance, and every actuator has a client. *)
Definition kept (A M : Type) `{wire_object A M, !listed_ops A M} (st : nrm_state) : Prop :=
  tables_ok A M st /\ Forall (safe_name at_uuid) (uuid <$> list_table_of st).
Definition registry_ok (st : nrm_state) : Prop :=
  kept nrm_actuator nrm_msg_actuator st /\ kept nrm_scope nrm_msg_scope st /\
  kept nrm_sensor nrm_msg_sensor st /\ kept nrm_slice nrm_msg_slice st /\
  Forall (fun e => is_Some (a_clientid (a_data (ptr e)))) (st_actuators st).

Lemma registry_ok_empty : registry_ok (State [] [] [] []).
Proof. repeat split; constructor. Qed.

Lemma registry_state_ok st : registry_ok st -> state_ok st.
Proof.
  intros ([[Pa Ha] _] & [[Pc Hc] _] & [[Ps Hs] _] & [[Pl Hl] _] & Hid). split; [done|]. split; [|done].
  unfold table_ok in Pa. cbn in Pa. rewrite Forall_forall in Pa, Hid |- *. intros e He.
  destruct (Pa e He) as (Hu & Hwf & _). split_and!; [done|by apply Hid|].
  unfold discrete_or_continuous. by destruct (a_u _); [destruct Hwf as (? & ? & _)|].
Qed.

Lemma registry_ok_safe st : registry_ok st -> Forall (safe_name at_uuid) (keys st).
Proof. intros ([_ ?] & [_ ?] & [_ ?] & [_ ?] & _). unfold keys. by rewrite !Forall_app. Qed.

Lemma kept_add {A M} `{!wire_object A M, !listed_ops A M, !added_ops A M, !added_object A M} st k y :
  kept A M st -> obj_ok k y -> safe_name at_uuid k ->
  kept A M (set_table st (nrm_hash_add false (list_table_of st) (Some k) y).2).
Proof.
  intros [[Pt Hwf] Hs] Hy Hk. unfold kept, tables_ok, table_ok. rewrite table_set.
  destruct (hash_add_ok (fun e => obj_ok (uuid e) (ptr e)) (list_table_of st) k y Hwf Pt Hy) as [??].
  split; [by split|by apply hash_add_keys].
Qed.

(** What a caller may ask: the objects it adds are well formed and have a name, so
    have those it removes and actuates. *)
Definition call_ok (c : api_call) : Prop :=
  match c with
  | Adds_actuator a => exists k, obj_ok k a /\ safe_name at_uuid k
  | Adds_scope s => exists k, obj_ok k s /\ safe_name at_uuid k
  | Adds_sensor s => exists k, obj_ok k s /\ safe_name at_uuid k
  | Adds_slice s => exists k, obj_ok k s /\ safe_name at_uuid k
  | Actuates a _ => actuator_wf a
  | Removes_actuator a => is_Some (a_uuid (a_data a))
  | Removes_scope s => is_Some (scope_uuid s)
  | Removes_sensor s => is_Some (sensor_uuid s)
  | Removes_slice s => is_Some (slice_uuid s)
  | _ => True
  end.

(** *** One call

    The callback for actuations follows a policy and changes only its user; the
    callbacks that the brokers of the clients run on a command return. *)
Variable policy : U -> nrm_actuator -> double -> Z * U.
Variable cb : nrm_server U -> nrm_actuator -> double -> outcome (Z * nrm_server U).
Hypothesis actuate_cb : cb_actuate callbacks = Some cb.
Hypothesis cb_policy : forall s a v,
  cb s a v = Ok ((policy (s_user s) a v).1, with_user s (policy (s_user s) a v).2).
Hypothesis command_ok : forall i f, on_command i = Some f -> forall m w, exists w', f m w = Ok w'.
Abbreviation answers := (answers policy on_command).

Section one_call.
Variables (st : nrm_state) (u : U) (tm : list Z) (pub : list (list string)) (k : caller) (w : W).
Hypothesis Hst : registry_ok st.
Abbreviation on st u w :=
  (client_on (quiet st u tm (ca_topics k) pub (ca_sub k) (ca_cmd k) (ca_id k) w) (ca_fn k) (ca_act k)).

(** The call returns, as the registry answers. *)
Definition served (c : api_call) : Prop :=
  exists a st' u' w', do_call (Some (on st u w)) c = Ok (a, Some (on st' u' w')) /\
    registry_ok st' /\ answers (ca_id k) (registry_of st, u, w) c a (registry_of st', u', w').

Lemma lists_arrived `{!wire_object A M, !listed_ops A M} ys :
  kept A M st -> arrived (ptr <$> list_table_of st) ys -> lists (to_map (list_table_of st)) ys.
Proof. intros [[_ Hwf] _] Harr. exists (ptr <$> list_table_of st). by rewrite table_values. Qed.

Ltac served_list Hk :=
  pose proof Hk as Hkept;
  destruct (list_state callbacks at_uuid on_command st u tm (ca_topics k) pub (ca_sub k) (ca_cmd k) (ca_id k) w
    (ca_fn k) (ca_act k) (proj1 Hk)) as (ys & E & Harr);
  apply (lists_arrived ys Hkept) in Harr;
  eexists _, st, u, w; split; [unfold do_call; cbn [client_list actuator_ops scope_ops sensor_ops slice_ops] in E;
    rewrite E; reflexivity|split; [exact Hst|by constructor]].

Ltac served_find Hk n :=
  destruct (find_state callbacks at_uuid on_command st u tm (ca_topics k) pub (ca_sub k) (ca_cmd k) (ca_id k) w
    (ca_fn k) (ca_act k) n (proj1 Hk)) as (ys & E & Hys);
  eexists _, st, u, w; split;
    [unfold do_call; cbn [list_target list_found actuator_ops scope_ops sensor_ops slice_ops] in E;
     rewrite E; reflexivity|split; [exact Hst|by constructor]].

Lemma served_listing c :
  c = Lists_actuators \/ c = Lists_scopes \/ c = Lists_sensors \/ c = Lists_slices -> served c.
Proof.
  pose proof Hst as (Ka & Kc & Ks & Kl & _).
  intros [->|[->|[->| ->]]]; [served_list Ka|served_list Kc|served_list Ks|served_list Kl].
Qed.

Lemma served_finding c n :
  c = Finds_actuator n \/ c = Finds_scope n \/ c = Finds_sensor n \/ c = Finds_slice n -> served c.
Proof.
  pose proof Hst as (Ka & Kc & Ks & Kl & _).
  intros [->|[->|[->| ->]]]; [served_find Ka n|served_find Kc n|served_find Ks n|served_find Kl n].
Qed.

Lemma hash_add_adds {A M} `{!wire_object A M, !added_ops A M} name x y x' table l :
  obj_same (owned (ca_id k) x) y -> obj_same (owned (ca_id k) x) x' -> l = [Some x'] ->
  adds (ca_id k) name x (to_map table) (to_map (nrm_hash_add false table (Some name) y).2) l.
Proof. intros Hy Hx' ->. exists y, x'. by rewrite hash_add_map. Qed.

Ltac served_add name x Hx :=
  destruct (add_state callbacks at_uuid on_command st u tm (ca_topics k) pub (ca_sub k) (ca_cmd k) (ca_id k) w
    (ca_fn k) (ca_act k) name x Hx) as (y & x' & Hy & Hok & Hx' & E);
  eexists _, (set_table st (nrm_hash_add false (list_table_of st) (Some name) y).2), u, w;
  split;
    [unfold do_call; cbn [client_add actuator_add_ops scope_add_ops sensor_add_ops slice_add_ops] in E;
     rewrite E; reflexivity|split].

Lemma added_clients name y :
  a_clientid (a_data y) = Some (ca_id k) ->
  Forall (fun e => is_Some (a_clientid (a_data (ptr e)))) (nrm_hash_add false (st_actuators st) (Some name) y).2.
Proof.
  intros Hy. pose proof Hst as ([[_ Hwf] _] & _ & _ & _ & Hid).
  apply (hash_add_ok _ _ name y Hwf Hid). cbn. by rewrite Hy.
Qed.

Lemma served_adding c :
  match c with Adds_actuator _ | Adds_scope _ | Adds_sensor _ | Adds_slice _ => True | _ => False end ->
  call_ok c -> served c.
Proof.
  pose proof Hst as (Ka & Kc & Ks & Kl & Kid).
  destruct c as [a|s|s|s| | | | | | | | | | | | |]; try done; intros _ (name & Hx & Hsafe).
  - served_add name a Hx.
    + split_and!; [by apply kept_add|exact Kc|exact Ks|exact Kl|].
      apply added_clients. by destruct Hy as (_ & -> & _).
    + eapply answers_add_actuator; [apply Hx|by apply (hash_add_adds name a y x' (st_actuators st))].
  - served_add name s Hx.
    + split_and!; [exact Ka|by apply kept_add|exact Ks|exact Kl|exact Kid].
    + eapply answers_add_scope; [apply Hx|by apply (hash_add_adds name s y x' (st_scopes st))].
  - served_add name s Hx.
    + split_and!; [exact Ka|exact Kc|by apply kept_add|exact Kl|exact Kid].
    + eapply answers_add_sensor; [apply Hx|by apply (hash_add_adds name s y x' (st_sensors st))].
  - served_add name s Hx.
    + split_and!; [exact Ka|exact Kc|exact Ks|by apply kept_add|exact Kid].
    + eapply answers_add_slice; [apply Hx|by apply (hash_add_adds name s y x' (st_slices st))].
Qed.

(** Nothing is removed, and the client is told that all is well. *)
Lemma dispatch_remove name t :
  t = NRM_MSG_TARGET_TYPE_ACTUATOR \/ t = NRM_MSG_TARGET_TYPE_SENSOR \/ t = NRM_MSG_TARGET_TYPE_SLICE ->
  dispatch callbacks at_uuid (srv (Pipe [] []) st tm u) (Msg NRM_MSG_TYPE_REMOVE (D_remove (MRemove t (Some name))))
    (Some (ca_id k)) =
  Ok (0, srv (Pipe (to_sends ([] ++ [(ack, ca_id k)])) []) st tm u).
Proof.
  intros Ht. destruct (remove_request at_uuid (Pipe [] []) st tm u (ca_id k) name) as [E _];
    [by apply registry_ok_safe|]. unfold dispatch. cbn -[nrm_server_remove_callback]. by rewrite (E t Ht).
Qed.

Lemma rpc_remove name t :
  t = NRM_MSG_TARGET_TYPE_ACTUATOR \/ t = NRM_MSG_TARGET_TYPE_SENSOR \/ t = NRM_MSG_TARGET_TYPE_SLICE ->
  rpc (on st u w) (Some (Msg NRM_MSG_TYPE_REMOVE (D_remove (MRemove t (Some name))))) = Ok (ack, on st u w).
Proof.
  intros Ht. change ack with (norm_msg ack).
  eapply rpc_reply; [done|by left|done|constructor|done|by apply dispatch_remove].
Qed.

Lemma served_removing c :
  match c with Removes_actuator _ | Removes_sensor _ | Removes_slice _ => True | _ => False end ->
  call_ok c -> served c.
Proof.
  destruct c as [| | | | | | | | | | | | |a|x|s|s]; try done; intros _ [name Hname]; exists (0, None), st, u, w;
    (split; [|split; [exact Hst|constructor]]); unfold do_call, nrm_client_remove_actuator,
      nrm_client_remove_sensor, nrm_client_remove_slice, nrm_actuator_uuid;
    cbn -[rpc]; cbn in Hname; rewrite Hname; cbn -[rpc];
    rewrite rpc_remove by tauto; reflexivity.
Qed.

(** But for a scope, where the daemon crashes. *)
Lemma crashes_removing s :
  call_ok (Removes_scope s) -> do_call (Some (on st u w)) (Removes_scope s) = Undefined.
Proof.
  intros [name Hname]. unfold do_call, nrm_client_remove_scope. rewrite Hname. cbn -[rpc].
  rewrite rpc_crashes; [done|done|].
  destruct (remove_request at_uuid (Pipe [] []) st tm u (ca_id k) name) as [_ E]; [by apply registry_ok_safe|].
  exact E.
Qed.

(** Storing a value. *)
Lemma registry_set_value name e v :
  HASH_FIND (st_actuators st) name = Some e ->
  registry_ok (state_set_value st name (with_value (ptr e) v)) /\
  registry_of (state_set_value st name (with_value (ptr e) v)) =
  with_actuators (registry_of st) (<[name := with_value (ptr e) v]> (to_map (st_actuators st))).
Proof.
  intros Hf. pose proof Hst as ([[Pa Hwf] Hsafe] & Kc & Ks & Kl & Hid). pose proof (HASH_FIND_key _ _ _ Hf) as [Hk Hin].
  unfold table_ok in Pa. rewrite Forall_forall in Pa, Hid. cbn [list_table_of actuator_ops] in *.
  pose proof (Pa e Hin) as [Hu Hok].
  assert (Hupd : forall (P : nrm_hash_s nrm_actuator -> Prop),
    (forall e', e' ∈ st_actuators st -> P e') -> P (Elem name (with_value (ptr e) v)) ->
    Forall P (hash_update (st_actuators st) name (fun _ => with_value (ptr e) v))).
  { intros P HP He. apply Forall_fmap, Forall_forall. intros e' He'. cbn.
    case_decide as E; [rewrite E; exact He|by apply HP]. }
  split.
  - split; [|split_and!; [exact Kc|exact Ks|exact Kl|apply Hupd; [done|exact (Hid e Hin)]]].
    unfold kept, tables_ok, table_ok, hash_wf. cbn [list_table_of actuator_ops state_set_value st_actuators].
    rewrite hash_update_keys. split; [split; [apply Hupd; [done|]|done]|done]. subst name. by split.
  - unfold registry_of, with_actuators, state_set_value. cbn. f_equal. apply hash_update_insert.
    rewrite <- HASH_FIND_map, Hf. by eexists.
Qed.

Lemma validate_total a v : actuator_wf a -> exists err, nrm_actuator_validate_value (Some a) v = Ok err.
Proof.
  intros [Hwf _]. unfold nrm_actuator_validate_value, nrm_actuator_discrete_validate_value,
    nrm_actuator_continuous_validate_value, choices_of, limits_of. cbn [is_null negb c_assert deref mbind outcome_bind].
  destruct (a_u (a_data a)) as [cs|lo hi]; [destruct Hwf as (_ & -> & _)|destruct Hwf as (_ & ->)];
    cbn [mbind outcome_bind]; [destruct (list_find _ cs)|destruct (_ || _)]; by eexists.
Qed.

(** An actuation that does not reach the actuator is only acknowledged. *)
Lemma dispatch_not_actuated name v u' :
  match HASH_FIND (st_actuators st) name with
  | Some e => exists rc, policy u (ptr e) v = (rc, u') /\ rc <> 0
  | None => u' = u
  end ->
  dispatch callbacks at_uuid (srv (Pipe [] []) st tm u) (command name v) (Some (ca_id k)) =
  Ok (0, srv (Pipe (to_sends ([] ++ [(ack, ca_id k)])) []) st tm u').
Proof.
  intros Hn. unfold dispatch, command. cbn -[nrm_server_actuate_callback]. unfold nrm_server_actuate_callback.
  cbn [deref mbind outcome_bind mac_uuid mac_value s_state srv].
  destruct (HASH_FIND (st_actuators st) name) as [e|] eqn:Hf.
  - rewrite (hash_find_Some _ _ _ Hf), actuate_cb. cbn [snd deref mbind outcome_bind].
    destruct Hn as (rc & Hp & Hrc). rewrite cb_policy. cbn [s_user srv]. rewrite Hp. cbn [fst snd mbind outcome_bind].
    apply Z.eqb_neq in Hrc. by rewrite Hrc.
  - subst u'. by rewrite (hash_find_None _ _ Hf).
Qed.

(** One that does is stored, and the command reaches its client. *)
Lemma served_agreed a v name e u' :
  nrm_actuator_validate_value (Some a) v = Ok 0 -> a_uuid (a_data a) = Some name ->
  HASH_FIND (st_actuators st) name = Some e -> policy u (ptr e) v = (0, u') -> served (Actuates a v).
Proof.
  intros Hval Hname Hf Hp.
  assert (Ecb : cb (srv (Pipe [] []) st tm u) (ptr e) v = Ok (0, srv (Pipe [] []) st tm u')).
  { rewrite cb_policy. cbn [s_user srv]. by rewrite Hp. }
  destruct (dispatch_actuate callbacks at_uuid st u tm (ca_id k) name v e cb u' (registry_state_ok st Hst) Hf
    actuate_cb Ecb) as (rc & v' & owner & Hv & Hown & Hd).
  assert (Hw : exists w', run_command on_command w (command name v', owner) = Ok w').
  { unfold run_command. cbn [fst snd]. destruct (on_command owner) as [f|] eqn:Ef; [|by eexists].
    by apply (command_ok owner f). }
  destruct Hw as [w' Hw]. destruct (registry_set_value name e v' Hf) as [Hok' Hreg].
  exists (0, None), (state_set_value st name (with_value (ptr e) v')), u', w'. unfold do_call.
  rewrite (client_actuate_sent _ _ _ st u tm _ pub _ _ _ w _ _ a name v _ u' [(command name v', owner)] w' Hval Hname Hd)
    by (by (repeat constructor) || (cbn [mfold]; by rewrite Hw)).
  split; [done|]. split; [exact Hok'|]. rewrite Hreg.
  apply (answers_agreed policy on_command (ca_id k) (registry_of st) u w a v name (ptr e) u' rc v' owner w');
    [done..| |done|done|done|done].
  cbn. by rewrite <- HASH_FIND_map, Hf.
Qed.

Lemma served_actuating a v : call_ok (Actuates a v) -> served (Actuates a v).
Proof.
  intros Ha. pose proof Ha as [_ [name Hname]]. destruct (validate_total a v Ha) as [err Hval].
  destruct (decide (err = 0)) as [->|Herr].
  2:{ exists (err, None), st, u, w. unfold do_call. rewrite (client_actuate_refused _ _ _ _ Hval Herr).
      split; [done|]. split; [exact Hst|by constructor]. }
  assert (Hno : forall u', match HASH_FIND (st_actuators st) name with
      | Some e => exists rc, policy u (ptr e) v = (rc, u') /\ rc <> 0 | None => u' = u end ->
    do_call (Some (on st u w)) (Actuates a v) = Ok ((0, None), Some (on st u' w))).
  { intros u' Hu'. unfold do_call. by rewrite (client_actuate_sent _ _ _ st u tm _ pub _ _ _ w _ _ a name v st u' [] w
      Hval Hname (dispatch_not_actuated name v u' Hu')). }
  pose proof (HASH_FIND_map (st_actuators st) name) as Hmap.
  destruct (HASH_FIND (st_actuators st) name) as [e|] eqn:Hf; cbn in Hmap.
  - destruct (policy u (ptr e) v) as [rc u'] eqn:Hp. destruct (decide (rc = 0)) as [->|Hrc].
    { by apply (served_agreed a v name e u'). }
    exists (0, None), st, u', w. split; [apply Hno; by exists rc|]. split; [exact Hst|].
    by apply (answers_refused policy on_command (ca_id k) (registry_of st) u w a v name (ptr e) rc u').
  - exists (0, None), st, u, w. split; [by apply Hno|]. split; [exact Hst|].
    by apply (answers_unknown policy on_command (ca_id k) (registry_of st) u w a v name).
Qed.

Lemma every_call_served c : call_ok c -> (forall s, c <> Removes_scope s) -> served c.
Proof.
  intros Hc Hno. destruct c; (by destruct (Hno s)) || (by apply served_adding) || (by apply served_actuating) || (by apply served_removing) ||
    (by apply served_listing; auto) || (by eapply served_finding; eauto).
Qed.
End one_call.

(** *** Many calls *)

Lemma turn_served st u tm topics pub sub cmd id w k c :
  registry_ok st -> call_ok c -> (forall s, c <> Removes_scope s) ->
  exists a st' u' w',
    turn (quiet st u tm topics pub sub cmd id w) k c =
    Ok (a, quiet st' u' tm (ca_topics k) pub (ca_sub k) (ca_cmd k) (ca_id k) w') /\
    registry_ok st' /\ answers (ca_id k) (registry_of st, u, w) c a (registry_of st', u', w').
Proof.
  intros Hst Hc Hno. destruct (every_call_served st u tm pub k w Hst c Hc Hno) as (a & st' & u' & w' & E & Hst' & Ha).
  exists a, st', u', w'. split; [|done]. unfold turn.
  change (switch k (quiet st u tm topics pub sub cmd id w)) with
    (@quiet U W st u tm (ca_topics k) pub (ca_sub k) (ca_cmd k) (ca_id k) w). by rewrite E.
Qed.

Lemma turn_crashes st u tm topics pub sub cmd id w k s :
  registry_ok st -> call_ok (Removes_scope s) ->
  turn (quiet st u tm topics pub sub cmd id w) k (Removes_scope s) = Undefined.
Proof.
  intros Hst Hs. unfold turn.
  change (switch k (quiet st u tm topics pub sub cmd id w)) with
    (@quiet U W st u tm (ca_topics k) pub (ca_sub k) (ca_cmd k) (ca_id k) w).
  by rewrite (crashes_removing st u tm pub k w Hst s Hs).
Qed.

(** C1: the composed system is a registry. Whatever sequence of calls any clients make
    on a daemon in a well-formed state (they add, list, find, actuate and remove
    objects of all kinds), the calls return the codes and objects of atomic steps on
    four finite maps: adding keeps what was sent, owned by its sender, unless the name
    is taken; listing gives every object once; finding gives the object of the name or
    nothing; actuating stores the corrected value if the user of the server agrees, and
    the owner of the actuator, whichever client it is, gets it as a command. Removing an
    actuator, a sensor or a slice returns 0 and removes nothing, unlike what nrm.h says.
    The first call to remove a scope crashes the daemon, on a NULL pointer; no other
    call does, nor fails an assertion. After the calls the state is well-formed and
    nothing is left on its way. *)
Theorem system_refines_registry calls st u tm topics pub sub cmd id w :
  registry_ok st -> Forall (fun t => call_ok t.2) calls ->
  exists out fate,
    runs policy on_command (registry_of st, u, w) ((fun t => (ca_id t.1, t.2)) <$> calls) out fate /\
    match fate with
    | Some (r', u', w') =>
        exists st' topics' sub' cmd' id',
          turns (quiet st u tm topics pub sub cmd id w) calls =
          (out, Ok (quiet st' u' tm topics' pub sub' cmd' id' w')) /\
          registry_ok st' /\ r' = registry_of st'
    | None => turns (quiet st u tm topics pub sub cmd id w) calls = (out, Undefined)
    end.
Proof.
  intros Hst Hcalls. revert st u topics sub cmd id w Hst.
  induction Hcalls as [|[k c] calls Hc _ IH]; intros st u topics sub cmd id w Hst.
  { eexists [], (Some _). split; [constructor|]. by exists st, topics, sub, cmd, id. }
  assert (Hcase : (exists s, c = Removes_scope s) \/ forall s, c <> Removes_scope s)
    by (destruct c; (by right) || (left; by eexists)).
  destruct Hcase as [[s ->]|Hno].
  { exists [], None. split; [constructor|]. cbn [turns]. by rewrite turn_crashes. }
  destruct (turn_served st u tm topics pub sub cmd id w k c Hst Hc Hno) as (a & st1 & u1 & w1 & E1 & Hst1 & Ha).
  destruct (IH st1 u1 (ca_topics k) (ca_sub k) (ca_cmd k) (ca_id k) w1 Hst1) as (out & fate & Hruns & Hfate).
  exists (a :: out), fate. split; [by econstructor|]. cbn [turns]. rewrite E1.
  destruct fate as [[[r' u'] w']|]; [|by rewrite Hfate].
  destruct Hfate as (st' & topics' & sub' & cmd' & id' & -> & Hst' & ->).
  by exists st', topics', sub', cmd', id'.
Qed.
End system.

(** ** Witnesses *)

(** One client adds an actuator that another finds and actuates: its owner gets the
    value as a command, what is stored afterwards is there for all, and removing the
    actuator does not remove it. *)
Definition heard : Type := list (string * option nrm_msg).
Definition me : caller (W := heard) := Caller "me" [] None None None None.
Definition you : caller (W := heard) := Caller "you" [] None None None None.
Definition some_calls : list (caller * api_call) :=
  [(me, Adds_actuator limited); (me, Adds_scope some_scope); (you, Finds_actuator "a");
   (you, Actuates limited (d_of_Z 3)); (me, Removes_actuator limited); (you, Lists_actuators);
   (you, Finds_sensor "a")].
(** And then removes a scope. *)
Definition fatal_calls : list (caller * api_call) :=
  some_calls ++ [(you, Removes_scope some_scope); (me, Lists_scopes)].
Definition adds_one (u : nat) (a : nrm_actuator) (v : double) : Z * nat := (0, S u).
Definition start : @system nat heard := quiet (State [] [] [] []) 0%nat [] [] [] None None "" [].

Lemma some_calls_ok : Forall (fun t => call_ok zeros t.2) some_calls.
Proof.
  assert (Hwf : actuator_wf limited) by (by split; [|eexists]).
  repeat (constructor; [cbn [snd call_ok]; try done|]); [| |constructor].
  - exists "a"%string. split; [done|by apply zeros_safe].
  - exists "s"%string. split; [split; [done|apply scope_wf_3; auto with nrm]|by apply zeros_safe].
Qed.

Lemma fatal_calls_ok : Forall (fun t => call_ok zeros t.2) fatal_calls.
Proof.
  apply Forall_app. split; [exact some_calls_ok|]. constructor; [by eexists|by repeat constructor].
Qed.

Lemma system_refines_registry_witness :
  exists out fate,
    runs adds_one received (registry_of (State [] [] [] []), 0%nat, []) ((fun t => (ca_id t.1, t.2)) <$> fatal_calls)
      out fate /\
    match fate with
    | Some (r', u', w') =>
        exists st' topics' sub' cmd' id',
          turns counting zeros received start fatal_calls =
          (out, Ok (quiet st' u' [] topics' [] sub' cmd' id' w')) /\
          registry_ok zeros st' /\ r' = registry_of st'
    | None => turns counting zeros received start fatal_calls = (out, Undefined)
    end.
Proof.
  apply (system_refines_registry counting zeros received adds_one (fun s _ _ => Ok (0, with_user s (S (s_user s)))));
    [reflexivity|reflexivity|intros i f [= <-]; by eexists|apply registry_ok_empty|exact fatal_calls_ok].
Defined.

(** What the seven calls return, and what the owner of the actuator has heard; the
    eighth crashes the daemon. *)
Example some_answers :
  let a id v := with_value (with_clientid limited (Some id)) v in
  let answers :=
    [(0, Some (Found_actuators [Some (a "me"%string d0)])); (0, Some (Found_scopes [Some some_scope]));
     (0, Some (Found_actuators [Some (a "me"%string d0)])); (0, None); (0, None);
     (0, Some (Found_actuators [Some (a "me"%string (d_of_Z 3))])); (0, Some (Found_sensors []))] in
  (let '(l, y) := turns counting zeros received start some_calls in (l, y_world <$> y)) =
    (answers, Ok [("me"%string, Some (command "a" (d_of_Z 3)))]) /\
  turns counting zeros received start fatal_calls = (answers, Undefined).
Proof. split; vm_compute; reflexivity. Qed.
